(** * TITAN marketplace: cart engine and checkout verifier

    A shallow embedding of the two programs of the repository that carry
    its invariants:

    - the browser-side cart engine ([public/js/app.js]): [loadCart],
      [saveCart], [addToCart], [removeFromCart], [changeQty], [clearCart],
      [getCartTotal], [getCartCount] and [submitOrder];
    - the Express handler of [POST /api/checkout] ([server.js]).

    Both programs are JavaScript, so the embedding is dynamically typed: a
    JavaScript value is a [jsval], property access, truthiness, [String(x)],
    [parseInt], [+], [*] and [<=] follow ECMAScript, and an exception is an
    explicit outcome.  Two choices of the model are global:

    - a Number is [NaN], an infinity, or a finite decimal
      [coef * 10^-scale] kept in normal form; every finite binary64 value
      is such a decimal.  [num_add] and [num_mul] give the exact result of
      an operation, and [Binary64.round] is the rounding step that follows
      it in IEEE-754 binary64 arithmetic.  The structure of carts and
      orders (which lines, which prices, which calls) is stated on the
      exact operations; what is stated of an amount or a count as a number
      is stated on [Cart64] and [Total64], where every operation is
      rounded, or within [2^53], where integers are added exactly.  The
      sign of zero is outside the model;
    - a String is a sequence of bytes ([ascii]); the Unicode-only white
      space and case mappings of ECMAScript are outside the model. *)

From Stdlib Require Import ZArith QArith Qround Qpower Qabs List Bool Ascii String Lia Lqa.
Import ListNotations.

#[local] Set Warnings "-register-all".

(* ================================================================== *)
(** * Part I.  Definitions                                             *)
(* ================================================================== *)

(** ** Finite decimals *)

Module Dec.
Local Open Scope Z_scope.

(** The decimal [coef * 10^-scale]. *)
Record dec : Type := mk { coef : Z; scale : nat }.

Definition pow10 (n : nat) : Z := 10 ^ Z.of_nat n.

(** Normal form: no trailing zero among the [scale] fractional digits. *)
Fixpoint strip (c : Z) (s : nat) : dec :=
  match s with
  | O => mk c O
  | S s' => if c mod 10 =? 0 then strip (c / 10) s' else mk c s
  end.

Definition normal (d : dec) : Prop :=
  scale d = O \/ coef d mod 10 <> 0.

Definition normalb (d : dec) : bool :=
  match scale d with
  | O => true
  | S _ => negb (coef d mod 10 =? 0)
  end.

Definition of_Z (z : Z) : dec := mk z O.

Definition zero : dec := of_Z 0.
Definition one : dec := of_Z 1.

Definition add (x y : dec) : dec :=
  let m := Nat.max (scale x) (scale y) in
  strip (coef x * pow10 (m - scale x) + coef y * pow10 (m - scale y)) m.

Definition mul (x y : dec) : dec :=
  strip (coef x * coef y) (scale x + scale y).

Definition opp (x : dec) : dec := mk (- coef x) (scale x).

Definition leb (x y : dec) : bool :=
  coef x * pow10 (scale y) <=? coef y * pow10 (scale x).

Definition ltb (x y : dec) : bool :=
  coef x * pow10 (scale y) <? coef y * pow10 (scale x).

Definition eqb (x y : dec) : bool :=
  coef x * pow10 (scale y) =? coef y * pow10 (scale x).

Definition is_zero (x : dec) : bool := coef x =? 0.

(** [x * 10^k] and [x / 10^k], both exact on decimals. *)
Definition shift_up (k : nat) (x : dec) : dec :=
  strip (coef x * pow10 k) (scale x).

Definition shift_down (k : nat) (x : dec) : dec :=
  strip (coef x) (scale x + k).

(** The largest integer below or equal to [x]. *)
Definition floor (x : dec) : Z := coef x / pow10 (scale x).

(** The integer part of [x], rounding towards zero. *)
Definition trunc (x : dec) : Z := Z.quot (coef x) (pow10 (scale x)).

(** [Math.round]: the integer nearest to [x], a tie going to the larger
    one; that is [floor (x + 1/2)]. *)
Definition round (x : dec) : Z :=
  (2 * coef x + pow10 (scale x)) / (2 * pow10 (scale x)).

Definition is_integer (x : dec) : bool :=
  coef x mod pow10 (scale x) =? 0.

(** The value of a decimal as a rational number. *)
Definition toQ (x : dec) : Q :=
  (inject_Z (coef x) / inject_Z (pow10 (scale x)))%Q.

End Dec.

(** ** JavaScript numbers and values *)

Inductive number : Type :=
| NaN
| Inf (negative : bool)
| Fin (d : Dec.dec).

Definition num_of_Z (z : Z) : number := Fin (Dec.of_Z z).

Definition num_add (x y : number) : number :=
  match x, y with
  | NaN, _ | _, NaN => NaN
  | Inf a, Inf b => if Bool.eqb a b then Inf a else NaN
  | Inf a, Fin _ => Inf a
  | Fin _, Inf b => Inf b
  | Fin a, Fin b => Fin (Dec.add a b)
  end.

Definition dec_negative (d : Dec.dec) : bool := (Dec.coef d <? 0)%Z.

Definition num_mul (x y : number) : number :=
  match x, y with
  | NaN, _ | _, NaN => NaN
  | Inf a, Inf b => Inf (xorb a b)
  | Inf a, Fin d => if Dec.is_zero d then NaN else Inf (xorb a (dec_negative d))
  | Fin d, Inf b => if Dec.is_zero d then NaN else Inf (xorb (dec_negative d) b)
  | Fin a, Fin b => Fin (Dec.mul a b)
  end.

(** [x <= y] on numbers: false as soon as an operand is [NaN]. *)
Definition num_le (x y : number) : bool :=
  match x, y with
  | NaN, _ | _, NaN => false
  | Inf true, _ => true
  | _, Inf false => true
  | Inf false, _ => false
  | _, Inf true => false
  | Fin a, Fin b => Dec.leb a b
  end.

(** A JavaScript value.  An object is its list of own properties in
    insertion order, as [JSON.stringify] and the spread syntax read it. *)
Inductive jsval : Type :=
| JUndefined
| JNull
| JBool (b : bool)
| JNum (n : number)
| JStr (s : string)
| JArr (items : list jsval)
| JObj (props : list (string * jsval)).

Definition JInt (z : Z) : jsval := JNum (num_of_Z z).

(** Exceptions the programs can raise. *)
Inductive exn : Type :=
| TypeError
| SyntaxError
| Error (message : jsval)
| BSONError
| MongoError
| NetworkError.

Inductive result (A : Type) : Type :=
| Ok (a : A)
| Throw (e : exn).

Arguments Ok {A} a.
Arguments Throw {A} e.

Definition bind {A B : Type} (r : result A) (k : A -> result B) : result B :=
  match r with
  | Ok a => k a
  | Throw e => Throw e
  end.

Notation "'let*' x ':=' r 'in' k" := (bind r (fun x => k))
  (at level 10, x name, r at level 100, k at level 200).

(** ** Properties of objects *)

Fixpoint lookup (k : string) (ps : list (string * jsval)) : option jsval :=
  match ps with
  | [] => None
  | (k', v) :: ps' => if String.eqb k k' then Some v else lookup k ps'
  end.

(** [o[k] = v]: an existing property keeps its place, a new one goes last. *)
Fixpoint assign (k : string) (v : jsval) (ps : list (string * jsval))
  : list (string * jsval) :=
  match ps with
  | [] => [(k, v)]
  | (k', v') :: ps' =>
      if String.eqb k k' then (k, v) :: ps' else (k', v') :: assign k v ps'
  end.

(** [v.k] for the property names the programs read ([_id], [name],
    [price], [quantity], ...): none of them is a property of the
    prototypes of booleans, numbers, strings or arrays. *)
Definition prop (v : jsval) (k : string) : result jsval :=
  match v with
  | JUndefined | JNull => Throw TypeError
  | JObj ps =>
      match lookup k ps with
      | Some x => Ok x
      | None => Ok JUndefined
      end
  | _ => Ok JUndefined
  end.

(** ToBoolean. *)
Definition truthy (v : jsval) : bool :=
  match v with
  | JUndefined | JNull => false
  | JBool b => b
  | JNum NaN => false
  | JNum (Inf _) => true
  | JNum (Fin d) => negb (Dec.is_zero d)
  | JStr s => negb (String.eqb s EmptyString)
  | JArr _ | JObj _ => true
  end.

(** [a || b]. *)
Definition js_or (a b : jsval) : jsval := if truthy a then a else b.

Definition isArray (v : jsval) : bool :=
  match v with
  | JArr _ => true
  | _ => false
  end.

(** ** Text: characters, digits and numerals *)

Definition text : Type := list ascii.

Definition lit (s : string) : text := list_ascii_of_string s.

Definition code (c : ascii) : Z := Z.of_N (N_of_ascii c).

Definition chr (n : Z) : ascii := ascii_of_N (Z.to_N n).

Definition quote_char : ascii := chr 34.
Definition backslash_char : ascii := chr 92.

(** White space of [String.prototype.trim] and of [parseInt]: TAB, LF,
    VT, FF, CR and SP. *)
Definition is_space (c : ascii) : bool :=
  let n := code c in
  ((9 <=? n) && (n <=? 13) || (n =? 32))%Z.

Fixpoint trim_start (t : text) : text :=
  match t with
  | c :: t' => if is_space c then trim_start t' else t
  | [] => []
  end.

Definition trim_end (t : text) : text := rev (trim_start (rev t)).

Definition trim_text (t : text) : text := trim_end (trim_start t).

(** [s.trim()]. *)
Definition trim (s : string) : string :=
  string_of_list_ascii (trim_text (list_ascii_of_string s)).

Definition lower_char (c : ascii) : ascii :=
  let n := code c in
  if ((65 <=? n) && (n <=? 90))%Z then chr (n + 32) else c.

(** [s.toLowerCase()]. *)
Definition toLowerCase (s : string) : string :=
  string_of_list_ascii (map lower_char (list_ascii_of_string s)).

Definition is_digit (c : ascii) : bool :=
  let n := code c in ((48 <=? n) && (n <=? 57))%Z.

Definition digit_val (c : ascii) : Z := (code c - 48)%Z.

Definition digit_char (d : Z) : ascii := chr (48 + d).

(** The value of a hexadecimal digit, if it is one. *)
Definition hex_val (c : ascii) : option Z :=
  let n := code c in
  if ((48 <=? n) && (n <=? 57))%Z then Some (n - 48)%Z
  else if ((97 <=? n) && (n <=? 102))%Z then Some (n - 87)%Z
  else if ((65 <=? n) && (n <=? 70))%Z then Some (n - 55)%Z
  else None.

Definition is_hex (c : ascii) : bool :=
  match hex_val c with
  | Some _ => true
  | None => false
  end.

(** The longest prefix of characters satisfying [p], and the rest. *)
Fixpoint span (p : ascii -> bool) (t : text) : text * text :=
  match t with
  | c :: t' =>
      if p c then let (a, b) := span p t' in (c :: a, b) else ([], t)
  | [] => ([], [])
  end.

(** The value of a numeral in base [r], most significant digit first. *)
Definition numeral (r : Z) (val : ascii -> Z) (t : text) : Z :=
  fold_left (fun a c => r * a + val c)%Z t 0%Z.

Definition decimal (t : text) : Z := numeral 10 digit_val t.

Definition hex_digit_val (c : ascii) : Z :=
  match hex_val c with
  | Some v => v
  | None => 0%Z
  end.

Definition hexadecimal (t : text) : Z := numeral 16 hex_digit_val t.

(** The decimal digits of [n >= 0], most significant first. *)
Fixpoint digits_from (fuel : nat) (n : Z) (acc : text) : text :=
  match fuel with
  | O => acc
  | S f =>
      if (n <? 10)%Z then digit_char n :: acc
      else digits_from f (n / 10)%Z (digit_char (n mod 10) :: acc)
  end.

Definition digits (n : Z) : text :=
  digits_from (S (Z.to_nat (Z.log2 n))) n [].

Definition zero_char : ascii := digit_char 0.

Fixpoint drop_leading_zeros (t : text) : text :=
  match t with
  | c :: t' => if Ascii.eqb c zero_char then drop_leading_zeros t' else t
  | [] => []
  end.

(** [t] without its trailing zero digits. *)
Definition drop_trailing_zeros (t : text) : text :=
  rev (drop_leading_zeros (rev t)).

(** ** [Number::toString] (radix 10) *)

Definition exponent_text (e : Z) : text :=
  lit "e" ++ (if (e <? 0)%Z then lit "-" else lit "+") ++ digits (Z.abs e).

(** The text of a positive decimal with digits [ds] (of [coef]) and
    [sc] fractional digits: [n] is the position of the decimal point, [k]
    the number of significant digits, as in ECMAScript. *)
Definition positive_text (ds : text) (sc : nat) : text :=
  let sd := drop_trailing_zeros ds in
  let k := Z.of_nat (List.length sd) in
  let n := (Z.of_nat (List.length ds) - Z.of_nat sc)%Z in
  if ((k <=? n) && (n <=? 21))%Z then
    sd ++ repeat zero_char (Z.to_nat (n - k))
  else if ((0 <? n) && (n <=? 21))%Z then
    firstn (Z.to_nat n) sd ++ lit "." ++ skipn (Z.to_nat n) sd
  else if ((-6 <? n) && (n <=? 0))%Z then
    lit "0." ++ repeat zero_char (Z.to_nat (- n)) ++ sd
  else
    match sd with
    | [] => []
    | [c] => c :: exponent_text (n - 1)
    | c :: more => c :: lit "." ++ more ++ exponent_text (n - 1)
    end.

Definition dec_text (d : Dec.dec) : text :=
  let c := Dec.coef d in
  if (c =? 0)%Z then lit "0"
  else (if (c <? 0)%Z then lit "-" else []) ++
       positive_text (digits (Z.abs c)) (Dec.scale d).

Definition number_text (n : number) : text :=
  match n with
  | NaN => lit "NaN"
  | Inf false => lit "Infinity"
  | Inf true => lit "-Infinity"
  | Fin d => dec_text d
  end.

(** ** Conversions: [String(v)], [Number(v)], [parseInt(v)] *)

Definition bool_text (b : bool) : text :=
  if b then lit "true" else lit "false".

(** [parts.join(sep)]. *)
Fixpoint join (sep : text) (parts : list text) : text :=
  match parts with
  | [] => []
  | [p] => p
  | p :: rest => p ++ sep ++ join sep rest
  end.

Fixpoint ToString_text (v : jsval) : text :=
  match v with
  | JUndefined => lit "undefined"
  | JNull => lit "null"
  | JBool b => bool_text b
  | JNum n => number_text n
  | JStr s => list_ascii_of_string s
  | JArr items =>
      join (lit ",")
        (map (fun x => match x with
                       | JUndefined | JNull => []
                       | _ => ToString_text x
                       end) items)
  | JObj _ => lit "[object Object]"
  end.

(** [String(v)]. *)
Definition ToString (v : jsval) : string :=
  string_of_list_ascii (ToString_text v).

(** The scientific value [m * 10^e] as a decimal in normal form. *)
Definition of_sci (m e : Z) : Dec.dec :=
  if (0 <=? e)%Z then Dec.mk (m * 10 ^ e) O
  else Dec.strip m (Z.to_nat (- e)).

Definition is_exp_mark (c : ascii) : bool :=
  let n := code c in ((n =? 101) || (n =? 69))%Z.

(** An exponent part [e[+-]ddd] at the head of [t], if there is one:
    its value and the rest. *)
Definition scan_exponent (t : text) : option (Z * text) :=
  match t with
  | c :: t1 =>
      if is_exp_mark c then
        let (neg, t2) :=
          match t1 with
          | s :: t2 =>
              if (code s =? 45)%Z then (true, t2)
              else if (code s =? 43)%Z then (false, t2)
              else (false, t1)
          | [] => (false, t1)
          end in
        match span is_digit t2 with
        | ([], _) => None
        | (ds, rest) =>
            Some ((if neg then - decimal ds else decimal ds)%Z, rest)
        end
      else None
  | [] => None
  end.

(** [StrUnsignedDecimalLiteral] without [Infinity]: digits, an optional
    fraction and an optional exponent, one of the two digit runs being
    non-empty; the whole of [t] must be consumed. *)
Definition unsigned_decimal_literal (t : text) : option Dec.dec :=
  let (ip, t1) := span is_digit t in
  let (fp, t2) :=
    match t1 with
    | c :: t1' =>
        if (code c =? 46)%Z then span is_digit t1' else ([], t1)
    | [] => ([], t1)
    end in
  match ip, fp with
  | [], [] => None
  | _, _ =>
      let m := decimal (ip ++ fp) in
      let f := Z.of_nat (List.length fp) in
      match t2 with
      | [] => Some (of_sci m (- f))
      | _ :: _ =>
          match scan_exponent t2 with
          | Some (e, []) => Some (of_sci m (e - f))
          | _ => None
          end
      end
  end.

Definition text_eqb (a b : text) : bool :=
  String.eqb (string_of_list_ascii a) (string_of_list_ascii b).

(** A numeral in base [r] after a two-character prefix such as [0x]. *)
Definition radix_literal (t : text) : option Z :=
  match t with
  | z :: x :: ds =>
      if (code z =? 48)%Z then
        let n := code x in
        let all_in (p : ascii -> bool) := forallb p ds && negb (text_eqb ds []) in
        if ((n =? 120) || (n =? 88))%Z then
          if all_in is_hex then Some (hexadecimal ds) else None
        else if ((n =? 111) || (n =? 79))%Z then
          let oct c := ((48 <=? code c) && (code c <=? 55))%Z in
          if all_in oct then Some (numeral 8 digit_val ds) else None
        else if ((n =? 98) || (n =? 66))%Z then
          let bin c := ((48 <=? code c) && (code c <=? 49))%Z in
          if all_in bin then Some (numeral 2 digit_val ds) else None
        else None
      else None
  | _ => None
  end.

(** [StringToNumber]. *)
Definition StringToNumber (s : string) : number :=
  let t := trim_text (list_ascii_of_string s) in
  match t with
  | [] => num_of_Z 0
  | c :: t' =>
      let signed (neg : bool) (u : text) : number :=
        if text_eqb u (lit "Infinity") then Inf neg
        else match unsigned_decimal_literal u with
             | Some d => Fin (if neg then Dec.opp d else d)
             | None => NaN
             end in
      if (code c =? 45)%Z then signed true t'
      else if (code c =? 43)%Z then signed false t'
      else match radix_literal t with
           | Some z => num_of_Z z
           | None => signed false t
           end
  end.

(** ToPrimitive: arrays and objects convert through [toString]. *)
Definition ToPrimitive (v : jsval) : jsval :=
  match v with
  | JArr _ | JObj _ => JStr (ToString v)
  | _ => v
  end.

(** ToNumber. *)
Definition ToNumber (v : jsval) : number :=
  match ToPrimitive v with
  | JUndefined => NaN
  | JNull => num_of_Z 0
  | JBool b => num_of_Z (if b then 1 else 0)
  | JNum n => n
  | JStr s => StringToNumber s
  | _ => NaN
  end.

(** [parseInt(v)] with no radix argument: [None] stands for [NaN]. *)
Definition parseInt (v : jsval) : option Z :=
  let t := trim_start (ToString_text v) in
  let (neg, t1) :=
    match t with
    | c :: t' =>
        if (code c =? 45)%Z then (true, t')
        else if (code c =? 43)%Z then (false, t')
        else (false, t)
    | [] => (false, t)
    end in
  let sign (z : Z) : Z := if neg then (- z)%Z else z in
  let hex :=
    match t1 with
    | z :: x :: t2 =>
        if ((code z =? 48) && ((code x =? 120) || (code x =? 88)))%Z
        then Some t2 else None
    | _ => None
    end in
  match hex with
  | Some t2 =>
      match fst (span is_hex t2) with
      | [] => None
      | ds => Some (sign (hexadecimal ds))
      end
  | None =>
      match fst (span is_digit t1) with
      | [] => None
      | ds => Some (sign (decimal ds))
      end
  end.

(** ** Operators *)

Definition is_string (v : jsval) : bool :=
  match v with
  | JStr _ => true
  | _ => false
  end.

(** [a + b]. *)
Definition js_add (a b : jsval) : jsval :=
  let pa := ToPrimitive a in
  let pb := ToPrimitive b in
  if is_string pa || is_string pb
  then JStr (ToString pa ++ ToString pb)
  else JNum (num_add (ToNumber pa) (ToNumber pb)).

(** [a * b]. *)
Definition js_mul (a b : jsval) : number :=
  num_mul (ToNumber a) (ToNumber b).

(** [a <= b]. *)
Definition js_le (a b : jsval) : bool :=
  match ToPrimitive a, ToPrimitive b with
  | JStr x, JStr y => String.leb x y
  | pa, pb => num_le (ToNumber pa) (ToNumber pb)
  end.

(** [Math.max(1, n)] and [Math.round] on the numbers the server uses. *)
Definition Math_max (a b : Z) : Z := Z.max a b.

Definition Math_round (x : Dec.dec) : Dec.dec := Dec.of_Z (Dec.round x).

(** ** [JSON.stringify] and [JSON.parse]

    The platform's serializer and parser, over byte strings: the text
    [JSON.stringify] produces with no replacer and no indentation, and the
    JSON grammar of ECMA-404 as [JSON.parse] reads it. *)

Module Json.

Definition hex_char (n : Z) : ascii :=
  if (n <? 10)%Z then chr (48 + n) else chr (87 + n).

(** [QuoteJSONString], one character at a time. *)
Definition quote_one (c : ascii) : text :=
  let n := code c in
  if (n =? 34)%Z then [backslash_char; quote_char]
  else if (n =? 92)%Z then [backslash_char; backslash_char]
  else if (n =? 8)%Z then backslash_char :: lit "b"
  else if (n =? 9)%Z then backslash_char :: lit "t"
  else if (n =? 10)%Z then backslash_char :: lit "n"
  else if (n =? 12)%Z then backslash_char :: lit "f"
  else if (n =? 13)%Z then backslash_char :: lit "r"
  else if (n <? 32)%Z then
    backslash_char :: lit "u00" ++ [hex_char (n / 16); hex_char (n mod 16)]
  else [c].

Definition quote (s : string) : text :=
  quote_char :: flat_map quote_one (list_ascii_of_string s) ++ [quote_char].

(** [SerializeJSONProperty]: [None] is the [undefined] a value without a
    JSON text yields.  An array writes [null] for such an element, an
    object leaves such a property out. *)
Fixpoint stringify_text (v : jsval) : option text :=
  match v with
  | JUndefined => None
  | JNull => Some (lit "null")
  | JBool b => Some (bool_text b)
  | JNum (Fin d) => Some (dec_text d)
  | JNum _ => Some (lit "null")
  | JStr s => Some (quote s)
  | JArr items =>
      Some (lit "[" ++
            join (lit ",")
              (map (fun x => match stringify_text x with
                             | Some t => t
                             | None => lit "null"
                             end) items) ++
            lit "]")
  | JObj props =>
      Some (lit "{" ++
            join (lit ",")
              (flat_map (fun kv => match stringify_text (snd kv) with
                                   | Some t => [quote (fst kv) ++ lit ":" ++ t]
                                   | None => []
                                   end) props) ++
            lit "}")
  end.

(** [JSON.stringify(v)]. *)
Definition stringify (v : jsval) : option string :=
  option_map string_of_list_ascii (stringify_text v).

Definition is_ws (c : ascii) : bool :=
  let n := code c in
  ((n =? 32) || (n =? 9) || (n =? 10) || (n =? 13))%Z.

Fixpoint skip_ws (t : text) : text :=
  match t with
  | c :: t' => if is_ws c then skip_ws t' else t
  | [] => []
  end.

(** The bytes of the code point [cp] of a [\uXXXX] escape (UTF-8). *)
Definition utf8 (cp : Z) : text :=
  if (cp <? 128)%Z then [chr cp]
  else if (cp <? 2048)%Z then [chr (192 + cp / 64); chr (128 + cp mod 64)]
  else [chr (224 + cp / 4096); chr (128 + (cp / 64) mod 64);
        chr (128 + cp mod 64)].

Definition unescape (c : ascii) : option ascii :=
  let n := code c in
  if ((n =? 34) || (n =? 92) || (n =? 47))%Z then Some c
  else if (n =? 98)%Z then Some (chr 8)
  else if (n =? 116)%Z then Some (chr 9)
  else if (n =? 110)%Z then Some (chr 10)
  else if (n =? 102)%Z then Some (chr 12)
  else if (n =? 114)%Z then Some (chr 13)
  else None.

(** The characters of a string literal up to its closing quote, and
    the text after it. *)
Fixpoint parse_chars (t : text) : option (text * text) :=
  match t with
  | [] => None
  | c :: t1 =>
      if (code c =? 34)%Z then Some ([], t1)
      else if (code c =? 92)%Z then
        match t1 with
        | e :: t2 =>
            if (code e =? 117)%Z then
              match t2 with
              | h1 :: h2 :: h3 :: h4 :: t3 =>
                  if forallb is_hex [h1; h2; h3; h4] then
                    match parse_chars t3 with
                    | Some (s, r) => Some (utf8 (hexadecimal [h1; h2; h3; h4]) ++ s, r)
                    | None => None
                    end
                  else None
              | _ => None
              end
            else
              match unescape e with
              | Some d =>
                  match parse_chars t2 with
                  | Some (s, r) => Some (d :: s, r)
                  | None => None
                  end
              | None => None
              end
        | [] => None
        end
      else if (code c <? 32)%Z then None
      else
        match parse_chars t1 with
        | Some (s, r) => Some (c :: s, r)
        | None => None
        end
  end.

(** An optional minus sign. *)
Definition read_minus (t : text) : bool * text :=
  match t with
  | c :: t' => if (code c =? 45)%Z then (true, t') else (false, t)
  | [] => (false, t)
  end.

(** The integer part has no leading zero. *)
Definition leading_ok (ip : text) : bool :=
  match ip with
  | [] => false
  | [_] => true
  | c :: _ => negb (code c =? 48)%Z
  end.

(** An optional fraction: a point and at least one digit. *)
Definition read_fraction (t : text) : option (text * text) :=
  match t with
  | c :: t' =>
      if (code c =? 46)%Z then
        match span is_digit t' with
        | ([], _) => None
        | (fp, r) => Some (fp, r)
        end
      else Some ([], t)
  | [] => Some ([], t)
  end.

(** An optional exponent, [0] when there is none. *)
Definition read_exponent (t : text) : option (Z * text) :=
  match t with
  | c :: _ => if is_exp_mark c then scan_exponent t else Some (0%Z, t)
  | [] => Some (0%Z, t)
  end.

(** A JSON number at the head of [t]. *)
Definition parse_number (t : text) : option (Dec.dec * text) :=
  let (neg, t1) := read_minus t in
  let (ip, t2) := span is_digit t1 in
  if leading_ok ip then
    match read_fraction t2 with
    | Some (fp, t3) =>
        match read_exponent t3 with
        | Some (e, t4) =>
            let m := decimal (ip ++ fp) in
            Some (of_sci (if neg then (- m)%Z else m)
                         (e - Z.of_nat (List.length fp)), t4)
        | None => None
        end
    | None => None
    end
  else None.

(** [t] starts with the characters of [w]: the rest. *)
Fixpoint after (w t : text) : option text :=
  match w, t with
  | [], _ => Some t
  | a :: w', b :: t' => if Ascii.eqb a b then after w' t' else None
  | _ :: _, [] => None
  end.

(** The object a list of parsed members denotes: a repeated key keeps
    its first place and takes its last value. *)
Definition object_of (ms : list (string * jsval)) : jsval :=
  JObj (fold_left (fun o m => assign (fst m) (snd m) o) ms []).

Fixpoint parse_value (fuel : nat) (t : text) : option (jsval * text) :=
  match fuel with
  | O => None
  | S f =>
      match skip_ws t with
      | [] => None
      | c :: t1 =>
          let n := code c in
          if (n =? 34)%Z then
            match parse_chars t1 with
            | Some (s, r) => Some (JStr (string_of_list_ascii s), r)
            | None => None
            end
          else if (n =? 91)%Z then
            match skip_ws t1 with
            | d :: r =>
                if (code d =? 93)%Z then Some (JArr [], r)
                else
                  match parse_elements f t1 with
                  | Some (vs, r') => Some (JArr vs, r')
                  | None => None
                  end
            | [] => None
            end
          else if (n =? 123)%Z then
            match skip_ws t1 with
            | d :: r =>
                if (code d =? 125)%Z then Some (JObj [], r)
                else
                  match parse_members f t1 with
                  | Some (ms, r') => Some (object_of ms, r')
                  | None => None
                  end
            | [] => None
            end
          else if (n =? 110)%Z then
            option_map (fun r => (JNull, r)) (after (lit "ull") t1)
          else if (n =? 116)%Z then
            option_map (fun r => (JBool true, r)) (after (lit "rue") t1)
          else if (n =? 102)%Z then
            option_map (fun r => (JBool false, r)) (after (lit "alse") t1)
          else
            match parse_number (c :: t1) with
            | Some (d, r) => Some (JNum (Fin d), r)
            | None => None
            end
      end
  end
with parse_elements (fuel : nat) (t : text) : option (list jsval * text) :=
  match fuel with
  | O => None
  | S f =>
      match parse_value f t with
      | Some (v, t1) =>
          match skip_ws t1 with
          | c :: t2 =>
              if (code c =? 44)%Z then
                match parse_elements f t2 with
                | Some (vs, r) => Some (v :: vs, r)
                | None => None
                end
              else if (code c =? 93)%Z then Some ([v], t2)
              else None
          | [] => None
          end
      | None => None
      end
  end
with parse_members (fuel : nat) (t : text)
  : option (list (string * jsval) * text) :=
  match fuel with
  | O => None
  | S f =>
      match skip_ws t with
      | q :: t1 =>
          if (code q =? 34)%Z then
            match parse_chars t1 with
            | Some (k, t2) =>
                match skip_ws t2 with
                | c :: t3 =>
                    if (code c =? 58)%Z then
                      match parse_value f t3 with
                      | Some (v, t4) =>
                          match skip_ws t4 with
                          | e :: t5 =>
                              if (code e =? 44)%Z then
                                match parse_members f t5 with
                                | Some (ms, r) =>
                                    Some ((string_of_list_ascii k, v) :: ms, r)
                                | None => None
                                end
                              else if (code e =? 125)%Z then
                                Some ([(string_of_list_ascii k, v)], t5)
                              else None
                          | [] => None
                          end
                      | None => None
                      end
                    else None
                | [] => None
                end
            | None => None
            end
          else None
      | [] => None
      end
  end.

(** [JSON.parse(s)]: a text that is no JSON text throws [SyntaxError]. *)
Definition parse_text (t : text) : result jsval :=
  match parse_value (2 * List.length t + 2) t with
  | Some (v, r) =>
      match skip_ws r with
      | [] => Ok v
      | _ :: _ => Throw SyntaxError
      end
  | None => Throw SyntaxError
  end.

Definition parse (s : string) : result jsval :=
  parse_text (list_ascii_of_string s).

End Json.

(** [JSON.parse(x)] applied to what [localStorage.getItem] returns: the
    argument is converted with [String], so [null] is read as the
    text [null]. *)
Definition JSON_parse (x : option string) : result jsval :=
  match x with
  | Some s => Json.parse s
  | None => Json.parse "null"
  end.

(** ** The cart engine ([public/js/app.js]) *)

Module Client.

(** What the page shows; the DOM elements of [index.html] are taken to
    exist, so the DOM calls themselves do not throw. *)
Inductive ui_event : Type :=
| Toast (message kind : string)
| ErrorToast (e : exn)
| CartRendered (count : jsval) (total : option number)
| CartIconBumped
| CheckoutClosed
| FormReset
| Confirmation (orderId : jsval) (customerName : string) (total : jsval)
| SubmitButton (busy : bool).

(** The globals of the script and the storage behind it: [storage] is
    the value under the key [titan_cart] of [localStorage] and [writes]
    counts the calls of [localStorage.setItem]. *)
Record state : Type := mkState {
  cart : jsval;
  allProducts : jsval;
  storage : option string;
  writes : nat;
  ui : list ui_event
}.

Definition set_cart (c : jsval) (st : state) : state :=
  mkState c (allProducts st) (storage st) (writes st) (ui st).

Definition show (e : ui_event) (st : state) : state :=
  mkState (cart st) (allProducts st) (storage st) (writes st) (ui st ++ [e]).

Definition setItem (s : string) (st : state) : state :=
  mkState (cart st) (allProducts st) (Some s) (S (writes st)) (ui st).

(** A statement: its outcome and the state it leaves, also when it
    throws. *)
Definition M (A : Type) : Type := state -> result A * state.

Definition ret {A : Type} (a : A) : M A := fun st => (Ok a, st).

Definition throw {A : Type} (e : exn) : M A := fun st => (Throw e, st).

Definition seq {A B : Type} (m : M A) (k : A -> M B) : M B :=
  fun st =>
    match m st with
    | (Ok a, st') => k a st'
    | (Throw e, st') => (Throw e, st')
    end.

Definition lift {A : Type} (r : result A) : M A := fun st => (r, st).

Definition update (f : state -> state) : M unit := fun st => (Ok tt, f st).

Definition read {A : Type} (f : state -> A) : M A := fun st => (Ok (f st), st).

Notation "x <- m ;; k" := (seq m (fun x => k))
  (at level 61, m at next level, right associativity).
Notation "m ;; k" := (seq m (fun _ => k))
  (at level 61, right associativity).

(** [function loadCart()], on the content of the storage. *)
Definition loadCart (stored : option string) : jsval :=
  match JSON_parse stored with
  | Ok v => js_or v (JArr [])
  | Throw _ => JArr []
  end.

(** [function saveCart()]: [setItem] stores [String(value)], and
    [JSON.stringify] of [undefined] is [undefined]. *)
Definition saveCart : M unit :=
  update (fun st =>
    setItem (match Json.stringify (cart st) with
             | Some s => s
             | None => "undefined"%string
             end) st).

(** The page as it starts: [let cart = loadCart()] and
    [let allProducts = []]. *)
Definition init (stored : option string) : state :=
  mkState (loadCart stored) (JArr []) stored O [].

(** [String(item._id) === String(productId)], the test of every search
    of the cart and of the product list. *)
Definition has_id (productId : string) (item : jsval) : result bool :=
  let* i := prop item "_id" in
  Ok (String.eqb (ToString i) productId).

(** The index of the first element [Array.prototype.find] stops at. *)
Fixpoint find_index (p : jsval -> result bool) (l : list jsval) (i : nat)
  : result (option nat) :=
  match l with
  | [] => Ok None
  | x :: l' =>
      let* b := p x in
      if b then Ok (Some i) else find_index p l' (S i)
  end.

(** [a.find(p)] as the place of the element found: the element is a
    reference into the array. *)
Definition find (a : jsval) (p : jsval -> result bool) : result (option nat) :=
  match a with
  | JArr l => find_index p l O
  | _ => Throw TypeError
  end.

Definition element (a : jsval) (i : nat) : jsval :=
  match a with
  | JArr l => nth i l JUndefined
  | _ => JUndefined
  end.

Fixpoint replace_nth (i : nat) (x : jsval) (l : list jsval) : list jsval :=
  match l, i with
  | [], _ => []
  | _ :: l', O => x :: l'
  | y :: l', S i' => y :: replace_nth i' x l'
  end.

(** [o.k = x] in strict mode: a primitive cannot take a property.  A
    named property on an array is not represented and the assignment
    leaves the array as it is. *)
Definition set_prop (o : jsval) (k : string) (x : jsval) : result jsval :=
  match o with
  | JObj ps => Ok (JObj (assign k x ps))
  | JArr l => Ok (JArr l)
  | _ => Throw TypeError
  end.

(** [cart[i].k = x]: the element is updated in place. *)
Definition set_element_prop (i : nat) (k : string) (x : jsval) : M unit :=
  fun st =>
    match set_prop (element (cart st) i) k x with
    | Ok o =>
        match cart st with
        | JArr l => (Ok tt, set_cart (JArr (replace_nth i o l)) st)
        | _ => (Ok tt, st)
        end
    | Throw e => (Throw e, st)
    end.

Fixpoint indexed (i : nat) (l : list jsval) : list (string * jsval) :=
  match l with
  | [] => []
  | x :: l' =>
      (string_of_list_ascii (digits (Z.of_nat i)), x) :: indexed (S i) l'
  end.

(** The own enumerable properties [{...v}] copies. *)
Definition spread (v : jsval) : list (string * jsval) :=
  match v with
  | JObj ps => ps
  | JArr l => indexed O l
  | JStr s =>
      indexed O (map (fun c => JStr (String c EmptyString))
                     (list_ascii_of_string s))
  | _ => []
  end.

Fixpoint filter_items (p : jsval -> result bool) (l : list jsval)
  : result (list jsval) :=
  match l with
  | [] => Ok []
  | x :: l' =>
      let* b := p x in
      let* r := filter_items p l' in
      Ok (if b then x :: r else r)
  end.

Fixpoint reduce {A : Type} (f : A -> jsval -> result A) (l : list jsval)
  (acc : A) : result A :=
  match l with
  | [] => Ok acc
  | x :: l' => let* a := f acc x in reduce f l' a
  end.

(** [item.quantity || 1]. *)
Definition quantity_or_1 (item : jsval) : result jsval :=
  let* q := prop item "quantity" in
  Ok (js_or q (JInt 1)).

(** [function getCartTotal()]. *)
Definition getCartTotal (c : jsval) : result number :=
  match c with
  | JArr l =>
      reduce (fun sum item =>
                let* p := prop item "price" in
                let* q := quantity_or_1 item in
                Ok (num_add sum (js_mul p q)))
             l (num_of_Z 0)
  | _ => Throw TypeError
  end.

(** [function getCartCount()]. *)
Definition getCartCount (c : jsval) : result jsval :=
  match c with
  | JArr l =>
      reduce (fun sum item =>
                let* q := quantity_or_1 item in
                Ok (js_add sum q))
             l (JInt 0)
  | _ => Throw TypeError
  end.

(** [function updateCartUI()]: the badge shows the count, the drawer
    the lines and the total.  It throws exactly when reading the cart
    does. *)
Definition updateCartUI : M unit :=
  c <- read cart ;;
  count <- lift (getCartCount c) ;;
  match c with
  | JArr [] => update (show (CartRendered count None))
  | _ =>
      total <- lift (getCartTotal c) ;;
      update (show (CartRendered count (Some total)))
  end.

Definition showToast (message kind : string) : M unit :=
  update (show (Toast message kind)).

Definition bumpCartIcon : M unit := update (show CartIconBumped).

(** The value of [a.find(p)]: the element found, or [undefined]. *)
Definition found (a : jsval) (at_ : option nat) : jsval :=
  match at_ with
  | Some i => element a i
  | None => JUndefined
  end.

(** [x.k = v] for [x] the element [cart.find] returned. *)
Definition set_found (at_ : option nat) (k : string) (v : jsval) : M unit :=
  match at_ with
  | Some i => set_element_prop i k v
  | None => throw TypeError
  end.

(** [cart.push(x)]. *)
Definition push (x : jsval) : M unit :=
  c <- read cart ;;
  match c with
  | JArr l => update (set_cart (JArr (l ++ [x])))
  | _ => throw TypeError
  end.

(** [function addToCart(productId)]. *)
Definition addToCart (productId : string) : M unit :=
  products <- read allProducts ;;
  p_at <- lift (find products (has_id productId)) ;;
  let product := found products p_at in
  if negb (truthy product) then ret tt
  else
    c <- read cart ;;
    at_ <- lift (find c (has_id productId)) ;;
    let existing := found c at_ in
    (if truthy existing then
       q <- lift (quantity_or_1 existing) ;;
       set_found at_ "quantity" (js_add q (JInt 1)) ;;
       name <- lift (prop product "name") ;;
       showToast ("Quantity updated: " ++ ToString name) "info"
     else
       push (JObj (assign "quantity" (JInt 1) (spread product))) ;;
       name <- lift (prop product "name") ;;
       showToast ("Added to cart: " ++ ToString name) "success") ;;
    saveCart ;;
    updateCartUI ;;
    bumpCartIcon.

(** [function removeFromCart(productId)]. *)
Definition removeFromCart (productId : string) : M unit :=
  c <- read cart ;;
  kept <- lift (match c with
                | JArr l =>
                    filter_items
                      (fun item => let* b := has_id productId item in Ok (negb b)) l
                | _ => Throw TypeError
                end) ;;
  update (set_cart (JArr kept)) ;;
  saveCart ;;
  updateCartUI.

(** [function changeQty(productId, delta)], [delta] an integer. *)
Definition changeQty (productId : string) (delta : Z) : M unit :=
  c <- read cart ;;
  at_ <- lift (find c (has_id productId)) ;;
  let item := found c at_ in
  if negb (truthy item) then ret tt
  else
    q <- lift (quantity_or_1 item) ;;
    set_found at_ "quantity" (js_add q (JInt delta)) ;;
    c' <- read cart ;;
    q' <- lift (prop (found c' at_) "quantity") ;;
    if js_le q' (JInt 0) then removeFromCart productId
    else saveCart ;; updateCartUI.

(** [function clearCart()]. *)
Definition clearCart : M unit :=
  update (set_cart (JArr [])) ;;
  saveCart ;;
  updateCartUI.

(** The operations of the cart engine, and runs of them. *)
Inductive op : Type :=
| Add (productId : string)
| Remove (productId : string)
| Change (productId : string) (delta : Z)
| Clear.

Definition step (o : op) : M unit :=
  match o with
  | Add p => addToCart p
  | Remove p => removeFromCart p
  | Change p d => changeQty p d
  | Clear => clearCart
  end.

(** Each user action runs to its end, thrown or not, before the next. *)
Fixpoint run (ops : list op) (st : state) : state :=
  match ops with
  | [] => st
  | o :: ops' => run ops' (snd (step o st))
  end.

(** *** Checkout *)

(** What [fetch] and [res.json()] can give: the request fails, or a
    response arrives with a status and a body text. *)
Inductive reply : Type :=
| Unreachable
| Response (status : Z) (body : string).

(** [res.ok]. *)
Definition ok (status : Z) : bool := ((200 <=? status) && (status <=? 299))%Z.

(** The body of the request [submitOrder] sends. *)
Definition request (name email address : string) (c : jsval) : result jsval :=
  let* total := getCartTotal c in
  Ok (JObj [("customer"%string,
             JObj [("name"%string, JStr name); ("email"%string, JStr email);
                   ("address"%string, JStr address)]);
            ("items"%string, c);
            ("total"%string, JNum total)]).

(** [function showConfirmation(orderId, customerName, total)]. *)
Definition showConfirmation (orderId : jsval) (name : string) (total : jsval)
  : M unit :=
  update (show (Confirmation orderId name total)).

(** The [try] block of [submitOrder] from the reply on. *)
Definition on_reply (name : string) (r : reply) : M unit :=
  match r with
  | Unreachable => throw NetworkError
  | Response status body =>
      data <- lift (Json.parse body) ;;
      (if negb (ok status) then
         err <- lift (prop data "error") ;;
         throw (Error (js_or err (JStr "Checkout failed")))
       else ret tt) ;;
      update (show CheckoutClosed) ;;
      clearCart ;;
      update (show FormReset) ;;
      orderId <- lift (prop data "orderId") ;;
      total <- lift (prop data "total") ;;
      showConfirmation orderId name total
  end.

(** [try { m } catch (err) { handler(err) }]. *)
Definition try_catch (m : M unit) (handler : exn -> M unit) : M unit :=
  fun st =>
    match m st with
    | (Ok _, st') => (Ok tt, st')
    | (Throw e, st') => handler e st'
    end.

(** [catch (err) { showToast(err.message, 'error') }]. *)
Definition toast_error (e : exn) : M unit := update (show (ErrorToast e)).

(** [async function submitOrder(event)]: [custName], [custEmail] and
    [custAddress] are the values of the form, [net] is the network: the
    reply to a request body.  The function is taken as one step; what it
    does once the reply is there is [try_catch (on_reply name r)
    toast_error], on the state of that moment. *)
Definition submitOrder (custName custEmail custAddress : string)
  (net : jsval -> reply) : M unit :=
  let name := trim custName in
  let email := trim custEmail in
  let address := trim custAddress in
  if String.eqb name "" || String.eqb email "" then
    showToast "Name and email are required." "error"
  else
    update (show (SubmitButton true)) ;;
    try_catch
      (c <- read cart ;;
       body <- lift (request name email address c) ;;
       on_reply name (net body))
      toast_error ;;
    update (show (SubmitButton false)).

End Client.

(** ** The checkout verifier ([server.js], [POST /api/checkout]) *)

Module Product.
(** A document of the [products] collection, as far as the handler
    reads it; [_id] is the hexadecimal text of its ObjectId. *)
Record t : Type := mk {
  _id : string;
  name : string;
  price : Dec.dec;
  image : string
}.
End Product.

Module Order.
Record customer : Type := mkCustomer {
  name : string;
  email : string;
  address : jsval
}.

Record item : Type := mkItem {
  productId : string;
  item_name : string;
  price : Dec.dec;
  image : string;
  quantity : Z
}.

(** A document of the [orders] collection. *)
Record t : Type := mk {
  buyer : customer;
  items : list item;
  total : Dec.dec;
  status : string;
  createdAt : nat
}.
End Order.

Module Server.

(** The calls the handler makes on the database. *)
Inductive db_call : Type :=
| FindProduct (oid : string)
| InsertOrder (o : Order.t).

(** The database: the catalog of record, the orders, the calls made so
    far, and which of the coming calls fail (the head is the next call;
    none fails once the list is used up). *)
Record db : Type := mkDb {
  products : list Product.t;
  orders : list Order.t;
  calls : list db_call;
  faults : list bool
}.

Record response : Type := mkResponse {
  status : Z;
  body : jsval
}.

(** [new ObjectId(s)]: [s] must be 24 hexadecimal digits; the ObjectId
    is kept as its lower-case text.  (Drivers before bson 5 also took any
    string of 12 characters as the twelve bytes themselves.) *)
Definition ObjectId (s : string) : result string :=
  let t := list_ascii_of_string s in
  if (List.length t =? 24)%nat && forallb is_hex t
  then Ok (toLowerCase s)
  else Throw BSONError.

(** The text of the [n]-th ObjectId the driver generates for a new
    order. *)
Definition generated_id (n : nat) : string :=
  let ds := digits (Z.of_nat n) in
  string_of_list_ascii (repeat zero_char (24 - List.length ds) ++ ds).

Definition next_fault (d : db) : bool * list bool :=
  match faults d with
  | [] => (false, [])
  | f :: fs => (f, fs)
  end.

(** [db.collection('products').findOne({ _id: oid })]. *)
Definition findOne (oid : string) (d : db)
  : result (option Product.t) * db :=
  let (fails, rest) := next_fault d in
  let d' := mkDb (products d) (orders d) (calls d ++ [FindProduct oid]) rest in
  if fails then (Throw MongoError, d')
  else (Ok (List.find (fun p => String.eqb (Product._id p) oid) (products d)), d').

(** [db.collection('orders').insertOne(order)]: the [insertedId]. *)
Definition insertOne (o : Order.t) (d : db) : result string * db :=
  let (fails, rest) := next_fault d in
  let log := calls d ++ [InsertOrder o] in
  if fails then (Throw MongoError, mkDb (products d) (orders d) log rest)
  else (Ok (generated_id (List.length (orders d))),
        mkDb (products d) (orders d ++ [o]) log rest).

Definition error_body (message : string) : jsval :=
  JObj [("error"%string, JStr message)].

(** [Math.max(1, parseInt(item.quantity) || 1)]: [NaN] and [0] are
    falsy. *)
Definition normalize_quantity (q : jsval) : Z :=
  Math_max 1 (match parseInt q with
              | Some n => if (n =? 0)%Z then 1%Z else n
              | None => 1%Z
              end).

(** [Math.round(serverTotal * 100) / 100]. *)
Definition round_to_cents (serverTotal : Dec.dec) : Dec.dec :=
  Dec.shift_down 2 (Math_round (Dec.shift_up 2 serverTotal)).

(** How the loop over the items ends: it returns a response from inside
    the handler, or runs through with the total and the verified items. *)
Inductive verified : Type :=
| Rejected (r : response)
| Verified (serverTotal : Dec.dec) (verifiedItems : list Order.item).

(** [for (const item of items) { ... }]. *)
Fixpoint verify (items : list jsval) (serverTotal : Dec.dec)
  (verifiedItems : list Order.item) (d : db) : result verified * db :=
  match items with
  | [] => (Ok (Verified serverTotal verifiedItems), d)
  | item :: rest =>
      match (let* i := prop item "_id" in
             let* oid := ObjectId (ToString i) in
             Ok (i, oid)) with
      | Throw e => (Throw e, d)
      | Ok (i, oid) =>
          match findOne oid d with
          | (Throw e, d') => (Throw e, d')
          | (Ok None, d') =>
              (Ok (Rejected
                     (mkResponse 400
                        (error_body ("Product not found: " ++ ToString i)))),
               d')
          | (Ok (Some product), d') =>
              match prop item "quantity" with
              | Throw e => (Throw e, d')
              | Ok q =>
                  let qty := normalize_quantity q in
                  verify rest
                    (Dec.add serverTotal
                       (Dec.mul (Product.price product) (Dec.of_Z qty)))
                    (verifiedItems ++
                     [Order.mkItem (Product._id product) (Product.name product)
                        (Product.price product) (Product.image product) qty])
                    d'
              end
          end
      end
  end.

(** [s.trim()] called on any value: only a string has the method. *)
Definition call_trim (v : jsval) : result string :=
  match v with
  | JStr s => Ok (trim s)
  | _ => Throw TypeError
  end.

(** The body of the [try] block of the handler; [now] is [new Date()]. *)
Definition checkout_try (now : nat) (req_body : jsval) (d : db)
  : result response * db :=
  match (let* customer := prop req_body "customer" in
         let* items := prop req_body "items" in
         Ok (customer, items)) with
  | Throw e => (Throw e, d)
  | Ok (customer, items) =>
      match items with
      | JArr ((_ :: _) as l) =>
          if negb (truthy customer) then
            (Ok (mkResponse 400 (error_body "Invalid order payload")), d)
          else
            match (let* n := prop customer "name" in
                   let* e := prop customer "email" in
                   Ok (n, e)) with
            | Throw e => (Throw e, d)
            | Ok (n, e) =>
                if negb (truthy n) || negb (truthy e) then
                  (Ok (mkResponse 400
                         (error_body "Customer name and email are required")), d)
                else
                  match verify l Dec.zero [] d with
                  | (Throw x, d') => (Throw x, d')
                  | (Ok (Rejected r), d') => (Ok r, d')
                  | (Ok (Verified serverTotal verifiedItems), d') =>
                      match (let* name := call_trim n in
                             let* email := call_trim e in
                             let* a := prop customer "address" in
                             Ok (Order.mkCustomer name (toLowerCase email)
                                   (js_or a (JStr "")))) with
                      | Throw x => (Throw x, d')
                      | Ok buyer =>
                          let order :=
                            Order.mk buyer verifiedItems
                              (round_to_cents serverTotal) "pending" now in
                          match insertOne order d' with
                          | (Throw x, d'') => (Throw x, d'')
                          | (Ok insertedId, d'') =>
                              (Ok (mkResponse 201
                                     (JObj [("orderId"%string, JStr insertedId);
                                            ("total"%string,
                                             JNum (Fin (Order.total order)));
                                            ("message"%string,
                                             JStr "Order placed successfully")])),
                               d'')
                          end
                      end
                  end
            end
      | _ => (Ok (mkResponse 400 (error_body "Invalid order payload")), d)
      end
  end.

(** [app.post('/api/checkout', async (req, res) => { try ... catch ... })]:
    whatever is thrown becomes the response 500. *)
Definition post_api_checkout (now : nat) (req_body : jsval) (d : db)
  : response * db :=
  match checkout_try now req_body d with
  | (Ok r, d') => (r, d')
  | (Throw _, d') =>
      (mkResponse 500 (error_body "Checkout failed. Please try again."), d')
  end.

End Server.

(** ** Vocabulary of the properties *)

(** [r] does not go on with a character satisfying [p]. *)
Definition stops (p : ascii -> bool) (r : text) : Prop :=
  match r with
  | [] => True
  | c :: _ => p c = false
  end.

(** The text of a JSON number from its parts: sign, integer digits,
    fraction digits and exponent. *)
Definition render (neg : bool) (ip fp : text) (e : option Z) : text :=
  (if neg then lit "-" else []) ++ ip ++
  match fp with
  | [] => []
  | _ :: _ => lit "." ++ fp
  end ++
  match e with
  | Some x => exponent_text x
  | None => []
  end.

(** What may follow a number in a JSON text. *)
Definition number_stop (r : text) : Prop :=
  match r with
  | [] => True
  | c :: _ => is_digit c = false /\ code c <> 46%Z /\ is_exp_mark c = false
  end.

(** The integer part of a JSON number: digits with no leading zero. *)
Definition int_ok (ip : text) : Prop :=
  match ip with
  | [] => False
  | [_] => True
  | c :: _ => code c <> 48%Z
  end.

(** What may follow a value inside a JSON text: a comma or a closing
    bracket. *)
Definition value_stop (r : text) : Prop :=
  match r with
  | [] => True
  | c :: _ => code c = 44%Z \/ code c = 93%Z \/ code c = 125%Z
  end.

Fixpoint nodupb (l : list string) : bool :=
  match l with
  | [] => true
  | x :: l' => negb (existsb (String.eqb x) l') && nodupb l'
  end.

(** The values [JSON.stringify] writes in full: no [undefined], no
    [NaN] or infinity, decimals in normal form, and objects with one
    property per name. *)
Fixpoint storable (v : jsval) : bool :=
  match v with
  | JUndefined => false
  | JNull | JBool _ | JStr _ => true
  | JNum (Fin d) => Dec.normalb d
  | JNum _ => false
  | JArr l => forallb storable l
  | JObj ps =>
      nodupb (map fst ps) && forallb (fun kv => storable (snd kv)) ps
  end.

(** A character that opens a value: no white space and no closing
    bracket. *)
Definition opens (c : ascii) : Prop :=
  Json.is_ws c = false /\ code c <> 93%Z /\ code c <> 125%Z.

(** The text an array writes for an element. *)
Definition value_text (v : jsval) : text :=
  match Json.stringify_text v with
  | Some t => t
  | None => lit "null"
  end.

(** The text an object writes for a property. *)
Definition member_text (kv : string * jsval) : text :=
  Json.quote (fst kv) ++ lit ":" ++ value_text (snd kv).

(** [JSON.parse] reads the text of [v] back as [v], whatever follows. *)
Definition reads_back (v : jsval) : Prop :=
  forall f r,
    (2 * List.length (value_text v) <= f)%nat -> value_stop r ->
    Json.parse_value f (value_text v ++ r) = Some (v, r).

(** *** The cart *)

(** The identifier of a cart line, [String(item._id)]. *)
Definition line_id (item : jsval) : string :=
  match prop item "_id" with
  | Ok i => ToString i
  | Throw _ => EmptyString
  end.

(** The quantity of a cart line, when it is an integer. *)
Definition line_quantity (item : jsval) : option Z :=
  match prop item "quantity" with
  | Ok (JNum (Fin d)) =>
      match Dec.scale d with
      | O => Some (Dec.coef d)
      | S _ => None
      end
  | _ => None
  end.

(** The unit price of a cart line, when it is a finite number. *)
Definition line_price (item : jsval) : option Dec.dec :=
  match prop item "price" with
  | Ok (JNum (Fin d)) => Some d
  | _ => None
  end.

Definition is_object (v : jsval) : bool :=
  match v with
  | JObj _ => true
  | _ => false
  end.

(** A cart line: an object whose quantity is an integer, at least 1. *)
Definition is_line (item : jsval) : bool :=
  is_object item &&
  match line_quantity item with
  | Some q => (1 <=? q)%Z
  | None => false
  end.

Definition lines (c : jsval) : list jsval :=
  match c with
  | JArr l => l
  | _ => []
  end.

(** The invariant of the cart: an array of lines, at most one for each
    product identifier. *)
Definition cart_inv (c : jsval) : bool :=
  isArray c && nodupb (map line_id (lines c)) && forallb is_line (lines c).

(** The place of the first occurrence of [p]. *)
Fixpoint index_of (p : string) (ids : list string) : option nat :=
  match ids with
  | [] => None
  | x :: r => if String.eqb x p then Some O else option_map S (index_of p r)
  end.

(** The line with its quantity set to [q]. *)
Definition with_quantity (q : Z) (item : jsval) : jsval :=
  match item with
  | JObj ps => JObj (assign "quantity" (JInt q) ps)
  | _ => item
  end.

(** The lines without those of the product [p]. *)
Definition without (p : string) (l : list jsval) : list jsval :=
  filter (fun item => negb (String.eqb (line_id item) p)) l.

(** A statement that leaves a component [f] of the state as it is,
    thrown or not. *)
Definition keeps {A X : Type} (f : Client.state -> X) (m : Client.M A) : Prop :=
  forall st, f (snd (m st)) = f st.

Definition keeps_cart {A : Type} (m : Client.M A) : Prop :=
  keeps Client.cart m.

(** A line with a price: what [total()] sums. *)
Definition is_priced (item : jsval) : bool :=
  match line_price item with
  | Some _ => true
  | None => false
  end.

(** The sum over the lines of unit price times quantity, in [Q]. *)
Fixpoint exact_total (l : list jsval) : Q :=
  match l with
  | [] => 0%Q
  | item :: l' =>
      match line_price item, line_quantity item with
      | Some p, Some q => (Dec.toQ p * inject_Z q + exact_total l')%Q
      | _, _ => exact_total l'
      end
  end.

(** *** Checkout, seen from the page *)

(** The reply is a success: a status in 200..299 and a body that is a
    JSON text. *)
Definition succeeded (r : Client.reply) : bool :=
  match r with
  | Client.Response status body =>
      Client.ok status &&
      match Json.parse body with
      | Ok _ => true
      | Throw _ => false
      end
  | Client.Unreachable => false
  end.

(** [submitOrder] sent a request and the reply to it is a success. *)
Definition checkout_succeeded (custName custEmail custAddress : string)
  (net : jsval -> Client.reply) (st : Client.state) : bool :=
  negb (String.eqb (trim custName) "" || String.eqb (trim custEmail) "") &&
  match Client.request (trim custName) (trim custEmail) (trim custAddress)
          (Client.cart st) with
  | Ok body => succeeded (net body)
  | Throw _ => false
  end.

(** The cart, in memory and in the storage. *)
Definition carts (st : Client.state) : jsval * option string * nat :=
  (Client.cart st, Client.storage st, Client.writes st).

(** *** Checkout, on the server *)

(** The product of the catalog an item of the request names, if its
    identifier is the text of an ObjectId and the catalog has it. *)
Definition resolve (catalog : list Product.t) (item : jsval) : option Product.t :=
  match prop item "_id" with
  | Ok i =>
      match Server.ObjectId (ToString i) with
      | Ok oid => List.find (fun p => String.eqb (Product._id p) oid) catalog
      | Throw _ => None
      end
  | Throw _ => None
  end.

(** The line of the order for an item: the product as the catalog has
    it, and the normalized quantity. *)
Definition verified_line (catalog : list Product.t) (item : jsval)
  : option Order.item :=
  match resolve catalog item, prop item "quantity" with
  | Some product, Ok q =>
      Some (Order.mkItem (Product._id product) (Product.name product)
              (Product.price product) (Product.image product)
              (Server.normalize_quantity q))
  | _, _ => None
  end.

(** A running total with the amount of one more line. *)
Definition plus_line (t : Dec.dec) (l : Order.item) : Dec.dec :=
  Dec.add t (Dec.mul (Order.price l) (Dec.of_Z (Order.quantity l))).

(** The total of an order as the catalog and the normalized quantities
    give it: nothing of the request but the identifiers and the
    quantities of its items enters. *)
Definition authoritative_total (catalog : list Product.t) (items : list jsval)
  : Dec.dec :=
  Server.round_to_cents
    (fold_left (fun t item =>
                  match verified_line catalog item with
                  | Some l => plus_line t l
                  | None => t
                  end) items Dec.zero).


Definition is_find (c : Server.db_call) : bool :=
  match c with
  | Server.FindProduct _ => true
  | Server.InsertOrder _ => false
  end.

(** The body of the response 201. *)
Definition created (insertedId : string) (total : Dec.dec) : jsval :=
  JObj [("orderId"%string, JStr insertedId);
        ("total"%string, JNum (Fin total));
        ("message"%string, JStr "Order placed successfully")].

(** The customer record gives no [k], or an empty one: reading it gives
    nothing truthy. *)
Definition lacks (customer : jsval) (k : string) : bool :=
  match prop customer k with
  | Ok v => negb (truthy v)
  | Throw _ => true
  end.

(** The two messages of the checks on the shape of a request. *)
Definition validation_message (m : string) : Prop :=
  m = "Invalid order payload"%string \/
  m = "Customer name and email are required"%string.


(** The reply of this server to a request of the page: the body goes
    through [JSON.stringify] and [express.json()], the response through
    [res.json].  The page sends an object and the handler answers with
    one, so both have a JSON text and the text of the request parses; the
    other branches are never taken and stand for no reply. *)
Definition served (now : nat) (d : Server.db) (req : jsval) : Client.reply :=
  match Json.stringify req with
  | Some s =>
      match Json.parse s with
      | Ok b =>
          let r := fst (Server.post_api_checkout now b d) in
          match Json.stringify (Server.body r) with
          | Some t => Client.Response (Server.status r) t
          | None => Client.Unreachable
          end
      | Throw _ => Client.Unreachable
      end
  | None => Client.Unreachable
  end.

(** The text [s] occurs in the message. *)
Fixpoint starts_with (s t : text) : bool :=
  match s, t with
  | [], _ => true
  | _ :: _, [] => false
  | a :: s', b :: t' => Ascii.eqb a b && starts_with s' t'
  end.

Fixpoint occurs (s t : text) : bool :=
  starts_with s t ||
  match t with
  | [] => false
  | _ :: t' => occurs s t'
  end.

Definition mentions (message s : string) : bool :=
  occurs (list_ascii_of_string s) (list_ascii_of_string message).

(** The sum of the quantities of the lines. *)
Fixpoint total_quantity (l : list jsval) : Z :=
  match l with
  | [] => 0%Z
  | item :: l' =>
      match line_quantity item with
      | Some q => (q + total_quantity l')%Z
      | None => total_quantity l'
      end
  end.

(** What [saveCart] writes for a cart. *)
Definition stored_text (c : jsval) : string :=
  match Json.stringify c with
  | Some s => s
  | None => "undefined"%string
  end.

(** The storage holds the cart of the page. *)
Definition in_step (st : Client.state) : Prop :=
  Client.storage st = Some (stored_text (Client.cart st)).

(** A cart with the text the storage holds once it is saved. *)
Definition saved (c : jsval) (st : Client.state) : jsval * option string * nat :=
  (c, Some (stored_text c), S (Client.writes st)).

(** ** A shop and a page

    A catalog of two products, requests on it, and a page with a cart:
    the concrete values the theorems are applied to. *)

Module Scenario.
Local Open Scope string_scope.

Definition cap_id : string := "64b7f0c2a1d3e4f5a6b7c8d9".
Definition mug_id : string := "64b7f0c2a1d3e4f5a6b7c8da".
Definition gone_id : string := "64b7f0c2a1d3e4f5a6b7c8db".
Definition pen_id : string := "64b7f0c2a1d3e4f5a6b7c8dc".
Definition pad_id : string := "64b7f0c2a1d3e4f5a6b7c8dd".

Definition catalog : list Product.t :=
  [Product.mk cap_id "Cap" (Dec.mk 2499 2) "cap.png";
   Product.mk mug_id "Mug" (Dec.mk 1999 2) "mug.png";
   Product.mk pen_id "Pen" (Dec.mk 10 0) "pen.png";
   Product.mk pad_id "Pad" (Dec.mk 55 1) "pad.png"].

(** A database that answers every call. *)
Definition shop : Server.db := Server.mkDb catalog [] [] [].

(** The same database, with the next call failing. *)
Definition shop_down : Server.db := Server.mkDb catalog [] [] [true].

Definition customer (name : string) : jsval :=
  JObj [("name", JStr name); ("email", JStr "Ann@Example.org");
        ("address", JStr "")].

Definition item (id : string) (quantity : jsval) : jsval :=
  JObj [("_id", JStr id); ("quantity", quantity)].

Definition order_request (name : string) (items : list jsval) (total : jsval)
  : jsval :=
  JObj [("customer", customer name); ("items", JArr items); ("total", total)].

(** Two caps, with a total of 1.00 and with the total of the catalog. *)
Definition tampered : jsval :=
  order_request "Ann" [item cap_id (JInt 2)] (JInt 1).

Definition honest : jsval :=
  order_request "Ann" [item cap_id (JInt 2)] (JNum (Fin (Dec.mk 4998 2))).

(** A mug, in a quantity that is no number. *)
Definition one_mug : jsval :=
  order_request "Ann" [item mug_id (JStr "abc")] (JInt 0).

(** Three items, the second of a product the catalog has no more. *)
Definition three_items : list jsval :=
  [item cap_id (JInt 1); item gone_id (JInt 1); item mug_id (JInt 3)].

End Scenario.

Module Page.
Local Open Scope string_scope.

Definition product (id name : string) (price : Dec.dec) (image : string) : jsval :=
  JObj [("_id", JStr id); ("name", JStr name); ("price", JNum (Fin price));
        ("image", JStr image)].

Definition line (id name : string) (price : Dec.dec) (image : string)
  (quantity : Z) : jsval :=
  JObj [("_id", JStr id); ("name", JStr name); ("price", JNum (Fin price));
        ("image", JStr image); ("quantity", JInt quantity)].

Definition cap : jsval := product Scenario.cap_id "Cap" (Dec.mk 2499 2) "cap.png".
Definition mug : jsval := product Scenario.mug_id "Mug" (Dec.mk 1999 2) "mug.png".
Definition pen : jsval := product Scenario.pen_id "Pen" (Dec.mk 10 0) "pen.png".
Definition pad : jsval := product Scenario.pad_id "Pad" (Dec.mk 55 1) "pad.png".

(** The page with the two products loaded and two caps in the cart. *)
Definition two_caps : Client.state :=
  Client.mkState
    (JArr [line Scenario.cap_id "Cap" (Dec.mk 2499 2) "cap.png" 2])
    (JArr [cap; mug]) None 0 [].

(** The page with two pens at 10.00 and a pad at 5.50 in the cart. *)
Definition pens_and_pad : Client.state :=
  Client.mkState
    (JArr [line Scenario.pen_id "Pen" (Dec.mk 10 0) "pen.png" 2;
           line Scenario.pad_id "Pad" (Dec.mk 55 1) "pad.png" 1])
    (JArr [cap; mug; pen; pad]) None 0 [].

End Page.

(** ** Binary64 arithmetic

    A Number of the program is an IEEE 754 binary64 value, and each
    arithmetic operation returns the Number value for its exact result:
    the binary64 value nearest to it, the one with an even significand on
    a tie, and an infinity from [2^1024] on (ECMAScript, 6.1.6.1).  A finite
    binary64 value is a decimal, so it is kept as the [Dec.dec] it is equal
    to; [num_add] and [num_mul] give the exact result, and [round] is the
    rounding step.  The sign of zero is not kept. *)
Module Binary64.

Definition pow2 (k : Z) : Q := (2 ^ k)%Q.

(** For [0 < x], the exponent [e] with [2^e <= x < 2^(e+1)]. *)
Definition exponent (x : Q) : Z :=
  let e := (Z.log2 (Qnum x) - Z.log2 (Zpos (Qden x)))%Z in
  if Qle_bool (pow2 e) x then e else (e - 1)%Z.

(** The binary64 values around [x] are the multiples of [2^quantum x]:
    53 significant bits, and [2^-1074] for the subnormal ones. *)
Definition quantum (x : Q) : Z := Z.max (exponent x - 52) (-1074).

(** The integer nearest to [y], the even one on a tie. *)
Definition nearest_even (y : Q) : Z :=
  let q := Qfloor y in
  match (y - inject_Z q ?= 1 # 2)%Q with
  | Lt => q
  | Gt => (q + 1)%Z
  | Eq => if Z.even q then q else (q + 1)%Z
  end.

(** The decimal equal to [m * 2^k]. *)
Definition value (m k : Z) : Dec.dec :=
  if (0 <=? k)%Z then Dec.of_Z (m * 2 ^ k)
  else Dec.strip (m * 5 ^ (- k)) (Z.to_nat (- k)).

(** The binary64 value nearest to [0 < x]; [None] from [2^1024] on. *)
Definition nearest (x : Q) : option Dec.dec :=
  let k := quantum x in
  let m := nearest_even (x / pow2 k) in
  if Qle_bool (pow2 1024) (inject_Z m * pow2 k) then None
  else Some (value m k).

(** The Number value for a decimal. *)
Definition fl (d : Dec.dec) : number :=
  if Dec.is_zero d then Fin Dec.zero
  else if dec_negative d then
    match nearest (Dec.toQ (Dec.opp d)) with
    | Some v => Fin (Dec.opp v)
    | None => Inf true
    end
  else
    match nearest (Dec.toQ d) with
    | Some v => Fin v
    | None => Inf false
    end.

(** The unit roundoff: half the distance from 1 to the next value. *)
Definition u : Q := pow2 (-53).

Definition round (x : number) : number :=
  match x with
  | Fin d => fl d
  | _ => x
  end.

(** [x + y], [x * y] and [x / 100] on Numbers. *)
Definition add (x y : number) : number := round (num_add x y).

Definition mul (x y : number) : number := round (num_mul x y).

Definition div_100 (x : number) : number :=
  match x with
  | Fin d => fl (Dec.shift_down 2 d)
  | _ => x
  end.

End Binary64.

(** ** The sums of the cart in binary64

    [getCartTotal] and [getCartCount] with the rounding step of each [*]
    and [+] written out. *)
Module Cart64.

(** [a * b] and [a + b]. *)
Definition js_mul (a b : jsval) : number := Binary64.round (js_mul a b).

Definition js_add (a b : jsval) : jsval :=
  match js_add a b with
  | JNum n => JNum (Binary64.round n)
  | v => v
  end.

(** [function getCartTotal()]. *)
Definition getCartTotal (c : jsval) : result number :=
  match c with
  | JArr l =>
      Client.reduce (fun sum item =>
                       let* p := prop item "price" in
                       let* q := Client.quantity_or_1 item in
                       Ok (Binary64.add sum (js_mul p q)))
                    l (num_of_Z 0)
  | _ => Throw TypeError
  end.

(** [function getCartCount()]. *)
Definition getCartCount (c : jsval) : result jsval :=
  match c with
  | JArr l =>
      Client.reduce (fun sum item =>
                       let* q := Client.quantity_or_1 item in
                       Ok (js_add sum q))
                    l (JInt 0)
  | _ => Throw TypeError
  end.

(** A price the arithmetic keeps its precision on: zero, or a positive
    number that is not subnormal. *)
Definition plain_price (item : jsval) : Prop :=
  match line_price item with
  | Some p => (Dec.toQ p == 0 \/ Binary64.pow2 (-1022) <= Dec.toQ p)%Q
  | None => False
  end.

(** A cart of one line: three pieces at 0.1, the price as [JSON.parse]
    reads it. *)
Definition three_dimes : jsval :=
  JArr [JObj [("_id"%string, JStr "64b7f0c2a1d3e4f5a6b7c8de");
              ("name"%string, JStr "Sticker");
              ("price"%string, JNum (Binary64.fl (Dec.mk 1 1)));
              ("quantity"%string, JInt 3)]].

End Cart64.

(** [v] is [x], but for [j] roundings: the relative error of each is at
    most [u]. *)
Definition within (j : nat) (x v : Q) : Prop :=
  (x * (1 - Binary64.u) ^ Z.of_nat j <= v)%Q /\
  (v <= x * (1 + Binary64.u) ^ Z.of_nat j)%Q.

(** Zero, or not below the normal range. *)
Definition sound (v : Q) : Prop :=
  (v == 0 \/ Binary64.pow2 (-1022) <= v)%Q.

(** ** The total of an order in binary64

    What the handler computes from the verified lines
    ([serverTotal += product.price * qty] in the loop, then
    [Math.round(serverTotal * 100) / 100]), with the rounding step of each
    [*], [+] and [/] written out. *)
Module Total64.

Definition add_line (serverTotal : number) (l : Order.item) : number :=
  Binary64.add serverTotal
    (Binary64.mul (Fin (Order.price l)) (num_of_Z (Order.quantity l))).

(** [Math.round(x)]: the nearest integer, a tie going up; it is a binary64
    number when [x] is one. *)
Definition Math_round (x : number) : number :=
  match x with
  | Fin d => Fin (Dec.of_Z (Dec.round d))
  | _ => x
  end.

Definition round_to_cents (serverTotal : number) : number :=
  Binary64.div_100
    (Math_round (Binary64.mul serverTotal (num_of_Z 100))).

Definition order_total (ls : list Order.item) : number :=
  round_to_cents (fold_left add_line ls (num_of_Z 0)).




End Total64.

(** *** What a request gives as a quantity *)

(** Digits, and then no [x] or [X] (which after a [0] would open a
    hexadecimal numeral) and no further digit. *)
Definition ends_numeral (rest : text) : Prop :=
  match rest with
  | [] => True
  | c :: _ => is_digit c = false /\ code c <> 120%Z /\ code c <> 88%Z
  end.



(** ** A till

    A catalog as the database holds it, the prices being binary64 numbers,
    and requests on it. *)
Module Till.
Local Open Scope string_scope.

(** The Number a decimal literal denotes. *)
Definition literal (d : Dec.dec) : Dec.dec :=
  match Binary64.fl d with
  | Fin v => v
  | _ => Dec.zero
  end.

Definition catalog : list Product.t :=
  [Product.mk Scenario.mug_id "Mug" (literal (Dec.mk 1999 2)) "mug.png";
   Product.mk Scenario.pen_id "Washer" (literal (Dec.mk 1115 3)) "washer.png";
   Product.mk Scenario.pad_id "Bolt" (literal (Dec.mk 1005 3)) "bolt.png"].

Definition shop : Server.db := Server.mkDb catalog [] [] [].

(** A mug in a quantity that is no number, and in one that begins with a
    numeral. *)
Definition one_mug : jsval :=
  Scenario.order_request "Ann" [Scenario.item Scenario.mug_id (JStr "abc")] (JInt 0).

Definition three_mugs : jsval :=
  Scenario.order_request "Ann" [Scenario.item Scenario.mug_id (JStr "3abc")] (JInt 0).



(** The lines and the binary64 total of the orders of a database. *)
Definition quantities (d : Server.db) : list (list Z) :=
  map (fun o => map Order.quantity (Order.items o)) (Server.orders d).

Definition totals (d : Server.db) : list number :=
  map (fun o => Total64.order_total (Order.items o)) (Server.orders d).

End Till.

(** A cart of two lines whose quantities add up to [2^53 + 1]. *)
Definition crowded : jsval :=
  JArr [Page.line Scenario.cap_id "Cap" (Dec.mk 2499 2) "cap.png" (2 ^ 53);
        Page.line Scenario.mug_id "Mug" (Dec.mk 1999 2) "mug.png" 1].

(** The unit price of a line or of a product, in [Q]; 0 when it has no
    finite price. *)
Definition unit_price (item : jsval) : Q :=
  match line_price item with
  | Some d => Dec.toQ d
  | None => 0%Q
  end.

(** The page with two caps in the cart at 24.99, the product list now
    having the cap at 29.99. *)
Definition repriced : Client.state :=
  Client.mkState
    (JArr [Page.line Scenario.cap_id "Cap" (Dec.mk 2499 2) "cap.png" 2])
    (JArr [Page.product Scenario.cap_id "Cap" (Dec.mk 2999 2) "cap.png";
           Page.mug]) None 0 [].

(** The lines of an order, each in the quantity 1. *)
Definition once (ls : list Order.item) : list Order.item :=
  map (fun l => Order.mkItem (Order.productId l) (Order.item_name l)
                  (Order.price l) (Order.image l) 1) ls.

(** A number that is not negative: a finite one from zero on, or
    [Infinity]. *)
Definition not_negative (x : number) : Prop := num_le (num_of_Z 0) x = true.

(** The quantity of a line is one [String] writes in full: below
    [10^21]. *)
Definition plain_quantity (item : jsval) : Prop :=
  match line_quantity item with
  | Some q => (q < 10 ^ 21)%Z
  | None => False
  end.

(** ** The lookups by identifier ([server.js], [GET /api/products/:id]
    and [GET /api/orders/:id]) *)

Module Lookup.
Import Server.

(** What a lookup sends: [res.json(doc)], the document as it is stored
    with the status 200, or a status with an error object. *)
Inductive sent (A : Type) : Type :=
| Document (doc : A)
| Refused (status : Z) (body : jsval).
Arguments Document {A} doc.
Arguments Refused {A} status body.

(** [app.get('/api/products/:id', ...)]: [id] is [req.params.id], a
    string.  Whatever is thrown, by [new ObjectId] or by the database,
    becomes the 400. *)
Definition get_api_products_id (id : string) (d : db) : sent Product.t * db :=
  match ObjectId id with
  | Throw _ => (Refused 400 (error_body "Invalid product ID"), d)
  | Ok oid =>
      match findOne oid d with
      | (Throw _, d') => (Refused 400 (error_body "Invalid product ID"), d')
      | (Ok None, d') => (Refused 404 (error_body "Product not found"), d')
      | (Ok (Some product), d') => (Document product, d')
      end
  end.

(** The order stored under [oid]: the [n]-th order inserted has the
    [n]-th identifier the driver generated (see [insertOne]); [n] is the
    place of the head of [os]. *)
Fixpoint order_at (oid : string) (n : nat) (os : list Order.t)
  : option Order.t :=
  match os with
  | [] => None
  | o :: os' =>
      if String.eqb (generated_id n) oid then Some o
      else order_at oid (S n) os'
  end.

(** [db.collection('orders').findOne({ _id: oid })]: a read; it uses up
    the next fault and leaves the collections as they are.  The log
    [calls] keeps the calls of the checkout handler only. *)
Definition findOrder (oid : string) (d : db) : result (option Order.t) * db :=
  let (fails, rest) := next_fault d in
  let d' := mkDb (products d) (orders d) (calls d) rest in
  if fails then (Throw MongoError, d')
  else (Ok (order_at oid O (orders d)), d').

(** [app.get('/api/orders/:id', ...)]. *)
Definition get_api_orders_id (id : string) (d : db) : sent Order.t * db :=
  match ObjectId id with
  | Throw _ => (Refused 400 (error_body "Invalid order ID"), d)
  | Ok oid =>
      match findOrder oid d with
      | (Throw _, d') => (Refused 400 (error_body "Invalid order ID"), d')
      | (Ok None, d') => (Refused 404 (error_body "Order not found"), d')
      | (Ok (Some order), d') => (Document order, d')
      end
  end.

End Lookup.

(** The text of a generated identifier: the digits of its number after
    zeros. *)
Definition id_text (n : nat) : text :=
  repeat zero_char (24 - List.length (digits (Z.of_nat n))) ++ digits (Z.of_nat n).

(** ** The seeding route ([server.js], [POST /api/seed]) *)

Module Seed.
Import Server.

(** [v !== s] negated, for a string [s]: only the same string is
    strictly equal to it. *)
Definition same_string (v : jsval) (s : string) : bool :=
  match v with
  | JStr t => String.eqb t s
  | _ => false
  end.

Section Handler.

(** The [try] block of the handler, with its [catch]: the calls that
    drop the products, insert those of [data/products.json] and build the
    indexes, and the response 200 or 500.  The handler is modelled up to
    it. *)
Variable seeding : db -> response * db.

(** [app.post('/api/seed', ...)]: [SEED_SECRET] is the variable of the
    environment, [header] is [req.headers['x-seed-secret']] and [secret]
    is [req.query.secret]. *)
Definition post_api_seed (SEED_SECRET : option string) (header secret : jsval)
  (d : db) : response * db :=
  match SEED_SECRET with
  | None | Some EmptyString =>
      (mkResponse 503
         (error_body "Seeding is disabled. Set the SEED_SECRET environment variable to enable it."),
       d)
  | Some expected =>
      let providedSecret := js_or (js_or header secret) (JStr "") in
      if negb (same_string providedSecret expected) then
        (mkResponse 401 (error_body "Invalid or missing seed secret."), d)
      else seeding d
  end.

End Handler.
End Seed.

(** ** The stars of a rating ([public/js/app.js], [renderStars]) *)

Module Stars.

(** [Math.floor(x)]. *)
Definition Math_floor (x : number) : number :=
  match x with
  | Fin d => Fin (Dec.of_Z (Dec.floor d))
  | _ => x
  end.

(** [x % 1]: what is left of [x] after its integer part, with the sign
    of [x]. *)
Definition rem_1 (x : number) : number :=
  match x with
  | Fin d => Fin (Dec.add d (Dec.opp (Dec.of_Z (Dec.trunc d))))
  | _ => NaN
  end.

Definition num_neg (x : number) : number :=
  match x with
  | NaN => NaN
  | Inf s => Inf (negb s)
  | Fin d => Fin (Dec.opp d)
  end.

(** [x - y]. *)
Definition num_sub (x y : number) : number := num_add x (num_neg y).

(** [s.repeat(count)]: the count is truncated to an integer, [NaN]
    counting as 0; a negative or infinite count throws a [RangeError],
    which is [None] here. *)
Definition repeat_text (s : text) (count : number) : option text :=
  match count with
  | NaN => Some []
  | Inf _ => None
  | Fin d =>
      let n := Dec.trunc d in
      if (n <? 0)%Z then None else Some (List.concat (repeat s (Z.to_nat n)))
  end.

(** The three symbols, in UTF-8: a black star, a vulgar half and a
    white star. *)
Definition black_star : text := [chr 226; chr 152; chr 133].
Definition one_half : text := [chr 194; chr 189].
Definition white_star : text := [chr 226; chr 152; chr 134].

(** [function renderStars(rating)]; [None] when it throws. *)
Definition renderStars (rating : jsval) : option string :=
  let full := Math_floor (ToNumber rating) in
  let half :=
    if num_le (Fin (Dec.mk 5 1)) (rem_1 (ToNumber rating))
    then num_of_Z 1 else num_of_Z 0 in
  let empty := num_sub (num_sub (num_of_Z 5) full) half in
  match repeat_text black_star full with
  | None => None
  | Some blacks =>
      match repeat_text white_star empty with
      | None => None
      | Some whites =>
          Some (string_of_list_ascii
                  (blacks ++
                   (if truthy (JNum half) then one_half else []) ++ whites))
      end
  end.

(** [full] black stars, a half or none, and [empty] white stars. *)
Definition stars (full : nat) (half : bool) (empty : nat) : string :=
  string_of_list_ascii
    (List.concat (repeat black_star full) ++
     (if half then one_half else []) ++ List.concat (repeat white_star empty)).

End Stars.

(** ** Amounts on the page ([public/js/app.js], [toFixed(2)] and
    [showConfirmation]) *)

Module Money.




End Money.

(** ** The product filters of the page ([public/js/app.js])

    [activeCategory], [activeSearch] and [activeSort] are globals of the
    page; [fetchProducts] reads them into a [URLSearchParams] before its
    first [await], so the parameters of a request are those of the state at
    the call.  The three form controls the handlers read and write are part
    of the state; the elements the handlers style are taken to exist.  The
    state keeps the list of the parameter lists sent, oldest first. *)
Module Browse.

Record state : Type := mk {
  activeCategory : jsval;
  activeSearch : string;
  activeSort : string;
  searchInput : string;
  mobileSearchInput : string;
  sortSelect : string;
  requests : list (list (string * string))
}.

(** [URLSearchParams.prototype.set]: the first pair of that name takes the
    value and the later ones go; without one the pair is appended. *)
Fixpoint set (name value : string) (ps : list (string * string))
  : list (string * string) :=
  match ps with
  | [] => [(name, value)]
  | (k, v) :: r =>
      if String.eqb k name
      then (k, value) :: filter (fun p => negb (String.eqb (fst p) name)) r
      else (k, v) :: set name value r
  end.

(** [v !== 'all'] *)
Definition not_all (v : jsval) : bool :=
  match v with
  | JStr s => negb (String.eqb s "all")
  | _ => true
  end.

(** The parameters [fetchProducts] builds. *)
Definition params (st : state) : list (string * string) :=
  let ps := [] in
  let ps := if truthy (activeCategory st) && not_all (activeCategory st)
            then set "category" (ToString (activeCategory st)) ps else ps in
  let ps := if truthy (JStr (activeSearch st))
            then set "search" (activeSearch st) ps else ps in
  let ps := if truthy (JStr (activeSort st))
            then set "sort" (activeSort st) ps else ps in
  ps.

Definition fetchProducts (st : state) : state :=
  mk (activeCategory st) (activeSearch st) (activeSort st)
     (searchInput st) (mobileSearchInput st) (sortSelect st)
     (requests st ++ [params st]).

Definition filterByCategory (category : jsval) (st : state) : state :=
  fetchProducts
    (mk category "" "" "" (mobileSearchInput st) "" (requests st)).

Definition handleSearch (st : state) : state :=
  fetchProducts
    (mk (JStr "all") (trim (searchInput st)) (activeSort st)
        (searchInput st) (mobileSearchInput st) (sortSelect st)
        (requests st)).

Definition handleSort (st : state) : state :=
  fetchProducts
    (mk (activeCategory st) (activeSearch st) (sortSelect st)
        (searchInput st) (mobileSearchInput st) (sortSelect st)
        (requests st)).

Definition handleMobileSearch (st : state) : state :=
  let val := trim (mobileSearchInput st) in
  fetchProducts
    (mk (JStr "all") val (activeSort st)
        val (mobileSearchInput st) (sortSelect st)
        (requests st)).

(** [applyURLParams], on what [params.get('category')] gives for the
    address of the page: [None] is its [null]. *)
Definition applyURLParams (cat : option string) (st : state) : state :=
  match cat with
  | Some c =>
      if truthy (JStr c)
      then mk (JStr c) (activeSearch st) (activeSort st)
              (searchInput st) (mobileSearchInput st) (sortSelect st)
              (requests st)
      else st
  | None => st
  end.

(** The globals as the script declares them, over controls as the page
    finds them. *)
Definition loaded (search mobile sort : string) : state :=
  mk (JStr "all") "" "" search mobile sort [].

(** What happens on the page: the visitor edits a control, or a handler
    runs.  [init] runs [applyURLParams] once, before anything else. *)
Inductive event : Type :=
  | Typed (value : string)
  | TypedMobile (value : string)
  | Selected (value : string)
  | FetchProducts
  | FilterByCategory (category : jsval)
  | HandleSearch
  | HandleMobileSearch
  | HandleSort.

Definition step (e : event) (st : state) : state :=
  match e with
  | Typed v =>
      mk (activeCategory st) (activeSearch st) (activeSort st)
         v (mobileSearchInput st) (sortSelect st) (requests st)
  | TypedMobile v =>
      mk (activeCategory st) (activeSearch st) (activeSort st)
         (searchInput st) v (sortSelect st) (requests st)
  | Selected v =>
      mk (activeCategory st) (activeSearch st) (activeSort st)
         (searchInput st) (mobileSearchInput st) v (requests st)
  | FetchProducts => fetchProducts st
  | FilterByCategory c => filterByCategory c st
  | HandleSearch => handleSearch st
  | HandleMobileSearch => handleMobileSearch st
  | HandleSort => handleSort st
  end.

Fixpoint run (es : list event) (st : state) : state :=
  match es with
  | [] => st
  | e :: r => run r (step e st)
  end.

(** The page after [init]'s [applyURLParams]. *)
Definition opened (cat : option string) (search mobile sort : string) : state :=
  applyURLParams cat (loaded search mobile sort).

Definition names (q : list (string * string)) : list string := map fst q.

Definition value_of (name : string) (q : list (string * string))
  : option string :=
  match List.find (fun p => String.eqb (fst p) name) q with
  | Some p => Some (snd p)
  | None => None
  end.

(** What the requests of the page look like: the search is never sent with
    a category, and what is sent as search or sort is not empty, the search
    trimmed. *)
Definition shaped (q : list (string * string)) : Prop :=
  In (names q)
     [[]; ["category"]; ["search"]; ["sort"];
      ["category"; "sort"]; ["search"; "sort"]]%string /\
  (forall v, value_of "search" q = Some v -> v <> ""%string /\ trim v = v) /\
  (forall v, value_of "sort" q = Some v -> v <> ""%string).

(** A search is over all categories. *)
Definition search_is_global (st : state) : Prop :=
  (activeSearch st <> ""%string -> activeCategory st = JStr "all") /\
  trim (activeSearch st) = activeSearch st.

End Browse.

(* ================================================================== *)
(** * Part II.  Properties                                             *)
(* ================================================================== *)

(** ** Decimals *)

Module DecFacts.
Import Dec.
Local Open Scope Z_scope.

Lemma pow10_pos n : 0 < pow10 n.
Proof. unfold pow10. apply Z.pow_pos_nonneg; lia. Qed.

Lemma pow10_0 : pow10 0 = 1.
Proof. reflexivity. Qed.

Lemma pow10_S n : pow10 (S n) = 10 * pow10 n.
Proof. unfold pow10. rewrite Nat2Z.inj_succ, Z.pow_succ_r; lia. Qed.

Lemma pow10_add a b : pow10 (a + b) = pow10 a * pow10 b.
Proof. unfold pow10. rewrite Nat2Z.inj_add, Z.pow_add_r; lia. Qed.

(** [strip] keeps the value and never raises the scale. *)
Lemma strip_value c s :
  coef (strip c s) * pow10 s = c * pow10 (scale (strip c s)).
Proof.
  revert c. induction s as [|s IH]; intros c; simpl.
  - reflexivity.
  - destruct (c mod 10 =? 0) eqn:E.
    + apply Z.eqb_eq in E. rewrite pow10_S.
      specialize (IH (c / 10)).
      rewrite (Z.div_mod c 10) at 2 by lia. rewrite E. 
      replace (coef (strip (c / 10) s) * (10 * pow10 s))
        with (10 * (coef (strip (c / 10) s) * pow10 s)) by ring.
      rewrite IH. ring.
    + simpl. reflexivity.
Qed.

Lemma strip_scale_le c s : (scale (strip c s) <= s)%nat.
Proof.
  revert c. induction s as [|s IH]; intros c; simpl; [lia|].
  destruct (c mod 10 =? 0); simpl; [specialize (IH (c / 10)) |]; lia.
Qed.

Lemma strip_normal c s : normal (strip c s).
Proof.
  revert c. induction s as [|s IH]; intros c; simpl.
  - left. reflexivity.
  - destruct (c mod 10 =? 0) eqn:E; [apply IH|].
    right. simpl. apply Z.eqb_neq in E. exact E.
Qed.

Lemma strip_id d : normal d -> strip (coef d) (scale d) = d.
Proof.
  destruct d as [c s]. unfold normal. simpl. intros [->|H]; [reflexivity|].
  destruct s; [reflexivity|]. simpl.
  apply Z.eqb_neq in H. rewrite H. reflexivity.
Qed.

Lemma normalb_spec d : normalb d = true <-> normal d.
Proof.
  destruct d as [c s]. unfold normalb, normal. simpl. destruct s.
  - split; auto.
  - rewrite negb_true_iff, Z.eqb_neq. split; [auto|]. intros [H|H]; [discriminate|exact H].
Qed.

(** Two decimals in normal form with the same value are the same. *)
Lemma normal_unique x y :
  normal x -> normal y ->
  coef x * pow10 (scale y) = coef y * pow10 (scale x) -> x = y.
Proof.
  destruct x as [a s], y as [b t]. unfold normal. simpl. intros Hx Hy E.
  assert (D : forall u v m n, u * pow10 m = v * pow10 (S (n + m)) -> u mod 10 = 0).
  { intros u v m n H. rewrite pow10_S, pow10_add in H.
    pose proof (pow10_pos m).
    replace u with (v * pow10 n * 10) by nia. apply Z.mod_mul. lia. }
  destruct (Nat.lt_trichotomy s t) as [L|[->|L]].
  - exfalso. destruct Hy as [Hy|Hy]; [lia|]. apply Hy.
    apply (D b a s (t - S s)%nat).
    replace (S (t - S s + s)) with t by lia. lia.
  - f_equal. pose proof (pow10_pos t). nia.
  - exfalso. destruct Hx as [Hx|Hx]; [lia|]. apply Hx.
    apply (D a b t (s - S t)%nat).
    replace (S (s - S t + t)) with s by lia. lia.
Qed.

Lemma of_Z_add a b : add (of_Z a) (of_Z b) = of_Z (a + b).
Proof. unfold add, of_Z. simpl. f_equal. rewrite pow10_0. ring. Qed.

Lemma of_Z_mul a b : mul (of_Z a) (of_Z b) = of_Z (a * b).
Proof. reflexivity. Qed.

Lemma leb_of_Z a b : leb (of_Z a) (of_Z b) = (a <=? b).
Proof. unfold leb, of_Z. simpl. rewrite pow10_0, !Z.mul_1_r. reflexivity. Qed.

(** *** The value in [Q] *)

Lemma inject_pow10_nonzero n : ~ (inject_Z (pow10 n) == 0)%Q.
Proof.
  pose proof (pow10_pos n) as H. intros E.
  unfold Qeq in E. simpl in E. lia.
Qed.

Lemma toQ_value c s : (toQ (mk c s) * inject_Z (pow10 s) == inject_Z c)%Q.
Proof.
  unfold toQ. simpl. field. apply inject_pow10_nonzero.
Qed.

Lemma toQ_same a s b t :
  a * pow10 t = b * pow10 s -> (toQ (mk a s) == toQ (mk b t))%Q.
Proof.
  intros E. unfold toQ. simpl.
  apply (f_equal inject_Z) in E. rewrite !inject_Z_mult in E.
  pose proof (inject_pow10_nonzero s). pose proof (inject_pow10_nonzero t).
  setoid_replace (inject_Z a / inject_Z (pow10 s))%Q
    with ((inject_Z a * inject_Z (pow10 t)) / (inject_Z (pow10 s) * inject_Z (pow10 t)))%Q
    by (field; split; assumption).
  rewrite E. field. split; assumption.
Qed.

Lemma toQ_strip c s : (toQ (strip c s) == toQ (mk c s))%Q.
Proof.
  destruct (strip c s) as [c' s'] eqn:E.
  apply toQ_same.
  pose proof (strip_value c s) as V. rewrite E in V. simpl in V. exact V.
Qed.

Lemma toQ_of_Z z : (toQ (of_Z z) == inject_Z z)%Q.
Proof. unfold toQ, of_Z. simpl. rewrite pow10_0. field. Qed.

Lemma toQ_add x y : (toQ (add x y) == toQ x + toQ y)%Q.
Proof.
  unfold add. rewrite toQ_strip. destruct x as [a s], y as [b t]. simpl.
  set (m := Nat.max s t).
  assert (Hs : pow10 m = pow10 (m - s) * pow10 s)
    by (rewrite <- pow10_add; f_equal; lia).
  assert (Ht : pow10 m = pow10 (m - t) * pow10 t)
    by (rewrite <- pow10_add; f_equal; lia).
  unfold toQ at 1. simpl.
  rewrite inject_Z_plus, !inject_Z_mult.
  unfold toQ. simpl.
  pose proof (inject_pow10_nonzero s). pose proof (inject_pow10_nonzero t).
  pose proof (inject_pow10_nonzero (m - s)). pose proof (inject_pow10_nonzero (m - t)).
  pose proof (inject_pow10_nonzero m) as Hm.
  assert (Qs : (inject_Z (pow10 m) == inject_Z (pow10 (m - s)) * inject_Z (pow10 s))%Q)
    by (rewrite <- inject_Z_mult, <- Hs; reflexivity).
  assert (Qt : (inject_Z (pow10 m) == inject_Z (pow10 (m - t)) * inject_Z (pow10 t))%Q)
    by (rewrite <- inject_Z_mult, <- Ht; reflexivity).
  setoid_replace (inject_Z a / inject_Z (pow10 s))%Q
    with (inject_Z a * inject_Z (pow10 (m - s)) / inject_Z (pow10 m))%Q
    by (rewrite Qs; field; split; assumption).
  setoid_replace (inject_Z b / inject_Z (pow10 t))%Q
    with (inject_Z b * inject_Z (pow10 (m - t)) / inject_Z (pow10 m))%Q
    by (rewrite Qt; field; split; assumption).
  field. exact Hm.
Qed.

Lemma toQ_mul x y : (toQ (mul x y) == toQ x * toQ y)%Q.
Proof.
  unfold mul. rewrite toQ_strip. destruct x as [a s], y as [b t]. simpl.
  unfold toQ. simpl. rewrite pow10_add, !inject_Z_mult.
  field. split; apply inject_pow10_nonzero.
Qed.

Lemma toQ_shift_up k x : (toQ (shift_up k x) == toQ x * inject_Z (pow10 k))%Q.
Proof.
  unfold shift_up. rewrite toQ_strip. destruct x as [a s]. simpl.
  unfold toQ. simpl. rewrite inject_Z_mult. field. apply inject_pow10_nonzero.
Qed.

Lemma toQ_shift_down k x : (toQ (shift_down k x) == toQ x / inject_Z (pow10 k))%Q.
Proof.
  unfold shift_down. rewrite toQ_strip. destruct x as [a s]. simpl.
  unfold toQ. simpl. rewrite pow10_add, inject_Z_mult.
  field. split; apply inject_pow10_nonzero.
Qed.

(** [round x] is the integer [k] with [k - 1/2 <= x < k + 1/2]. *)
Lemma round_spec x :
  (inject_Z (round x) - (1 # 2) <= toQ x)%Q /\
  (toQ x < inject_Z (round x) + (1 # 2))%Q.
Proof.
  destruct x as [c s]. unfold round, toQ. cbn [coef scale].
  pose proof (pow10_pos s) as P.
  set (p := pow10 s) in *.
  set (k := (2 * c + p) / (2 * p)).
  assert (L : 2 * p * k <= 2 * c + p) by (apply Z.mul_div_le; lia).
  assert (U : 2 * c + p < 2 * p * (k + 1)).
  { pose proof (Z.mul_succ_div_gt (2 * c + p) (2 * p) ltac:(lia)) as G.
    fold k in G. lia. }
  assert (Pq : (0 < inject_Z p)%Q) by (unfold Qlt; simpl; lia).
  clearbody k. clearbody p.
  split.
  - apply Qle_shift_div_l; [exact Pq|].
    unfold Qle, Qminus, Qplus, Qmult, Qopp, inject_Z. simpl. nia.
  - apply Qlt_shift_div_r; [exact Pq|].
    unfold Qlt, Qplus, Qmult, inject_Z. simpl. nia.
Qed.

End DecFacts.

(** ** Characters and numerals *)

Module TextFacts.
Local Open Scope Z_scope.

Lemma code_range c : 0 <= code c < 256.
Proof.
  unfold code. pose proof (N_ascii_bounded c). lia.
Qed.

Lemma chr_code c : chr (code c) = c.
Proof. unfold chr, code. rewrite N2Z.id. apply ascii_N_embedding. Qed.

Lemma code_chr n : 0 <= n < 256 -> code (chr n) = n.
Proof.
  intros H. unfold chr, code. rewrite N_ascii_embedding by lia. lia.
Qed.

Lemma code_inj a b : code a = code b -> a = b.
Proof. intros H. rewrite <- (chr_code a), <- (chr_code b), H. reflexivity. Qed.

Lemma digit_char_code d : 0 <= d <= 9 -> code (digit_char d) = 48 + d.
Proof. intros H. unfold digit_char. apply code_chr. lia. Qed.

Lemma is_digit_digit_char d : 0 <= d <= 9 -> is_digit (digit_char d) = true.
Proof.
  intros H. unfold is_digit. rewrite digit_char_code by lia.
  apply andb_true_iff. split; apply Z.leb_le; lia.
Qed.

Lemma digit_val_digit_char d : 0 <= d <= 9 -> digit_val (digit_char d) = d.
Proof. intros H. unfold digit_val. rewrite digit_char_code by lia. lia. Qed.

Lemma is_digit_range c : is_digit c = true -> 48 <= code c <= 57.
Proof.
  unfold is_digit. intros H. apply andb_true_iff in H.
  destruct H as [A B]. apply Z.leb_le in A, B. lia.
Qed.


(** *** [span] *)

Lemma span_app p a r :
  forallb p a = true -> stops p r -> span p (a ++ r) = (a, r).
Proof.
  intros Ha Hr. induction a as [|c a IH]; simpl.
  - destruct r as [|c r]; [reflexivity|]. simpl in *. rewrite Hr. reflexivity.
  - simpl in Ha. apply andb_true_iff in Ha. destruct Ha as [Hc Ha].
    rewrite Hc, (IH Ha). reflexivity.
Qed.


(** *** Numerals *)

Lemma numeral_from r val t x :
  fold_left (fun a c => r * a + val c) t x =
  x * r ^ Z.of_nat (List.length t) + numeral r val t.
Proof.
  unfold numeral. revert x. induction t as [|c t IH]; intros x.
  - simpl. lia.
  - cbn [fold_left List.length]. rewrite IH, (IH (r * 0 + val c)).
    rewrite Nat2Z.inj_succ, Z.pow_succ_r by lia. ring.
Qed.

Lemma numeral_app r val a b :
  numeral r val (a ++ b) =
  numeral r val a * r ^ Z.of_nat (List.length b) + numeral r val b.
Proof.
  unfold numeral at 1. rewrite fold_left_app.
  apply numeral_from.
Qed.

Lemma decimal_app a b :
  decimal (a ++ b) = decimal a * Dec.pow10 (List.length b) + decimal b.
Proof. apply numeral_app. Qed.


Lemma decimal_zeros k t : decimal (repeat zero_char k ++ t) = decimal t.
Proof.
  induction k as [|k IH]; [reflexivity|].
  simpl. unfold decimal, numeral in *. simpl.
  replace (digit_val zero_char) with 0 by reflexivity. exact IH.
Qed.

Lemma decimal_repeat_zero k : decimal (repeat zero_char k) = 0.
Proof.
  rewrite <- (app_nil_r (repeat zero_char k)), decimal_zeros. reflexivity.
Qed.

(** *** The digits of a natural number *)

Lemma digits_from_acc fuel n acc :
  digits_from fuel n acc = digits_from fuel n [] ++ acc.
Proof.
  revert n acc. induction fuel as [|f IH]; intros n acc; simpl.
  - reflexivity.
  - destruct (n <? 10); [reflexivity|].
    rewrite (IH _ (_ :: acc)), (IH _ [_]), <- app_assoc. reflexivity.
Qed.

Lemma digits_from_S f n acc :
  digits_from (S f) n acc =
  if n <? 10 then digit_char n :: acc
  else digits_from f (n / 10) (digit_char (n mod 10) :: acc).
Proof. reflexivity. Qed.

Lemma digits_from_fuel f f' n :
  0 <= n < 2 ^ Z.of_nat (S f) -> (S f <= f')%nat ->
  digits_from f' n [] = digits_from (S f) n [].
Proof.
  revert f' n. induction f as [|f IH]; intros f' n H L;
    (destruct f' as [|f']; [lia|]);
    rewrite (digits_from_S f'), (digits_from_S _ n);
    destruct (n <? 10) eqn:E; try reflexivity; apply Z.ltb_ge in E.
  - change (2 ^ Z.of_nat 1) with 2 in H. lia.
  - rewrite (digits_from_acc f'), (digits_from_acc (S f)). f_equal.
    apply IH; [|lia].
    rewrite (Nat2Z.inj_succ (S f)), Z.pow_succ_r in H by lia.
    split; [apply Z.div_pos; lia|].
    apply Z.div_lt_upper_bound; lia.
Qed.

Lemma digits_small n : 0 <= n < 10 -> digits n = [digit_char n].
Proof.
  intros H. unfold digits. rewrite digits_from_S.
  destruct (n <? 10) eqn:E; [reflexivity|]. apply Z.ltb_ge in E. lia.
Qed.

Lemma log2_fuel n : 0 <= n -> n < 2 ^ Z.of_nat (S (Z.to_nat (Z.log2 n))).
Proof.
  intros H. rewrite Nat2Z.inj_succ, Z2Nat.id by apply Z.log2_nonneg.
  destruct (Z.eq_dec n 0) as [->|N]; [reflexivity|].
  apply Z.log2_spec. lia.
Qed.

Lemma digits_step n :
  10 <= n -> digits n = digits (n / 10) ++ [digit_char (n mod 10)].
Proof.
  intros H. unfold digits at 1. rewrite digits_from_S.
  destruct (n <? 10) eqn:E; [apply Z.ltb_lt in E; lia|].
  rewrite digits_from_acc. f_equal.
  assert (P : 0 <= n / 10) by (apply Z.div_pos; lia).
  assert (Q : 1 <= n / 10) by (apply Z.div_le_lower_bound; lia).
  pose proof (log2_fuel n ltac:(lia)) as F.
  rewrite Nat2Z.inj_succ, Z.pow_succ_r in F by lia.
  assert (B : n / 10 < 2 ^ Z.of_nat (Z.to_nat (Z.log2 n)))
    by (apply Z.div_lt_upper_bound; lia).
  destruct (Z.to_nat (Z.log2 n)) as [|f] eqn:Ef.
  { change (2 ^ Z.of_nat 0) with 1 in B. lia. }
  unfold digits.
  set (g := Z.to_nat (Z.log2 (n / 10))).
  destruct (Nat.le_ge_cases f g) as [L|L].
  - symmetry. apply digits_from_fuel; [split; [exact P|exact B]|lia].
  - apply digits_from_fuel; [|lia].
    split; [exact P|]. apply log2_fuel. exact P.
Qed.

(** Induction along the digits. *)
Lemma digits_ind (P : Z -> Prop) :
  (forall n, 0 <= n < 10 -> P n) ->
  (forall n, 10 <= n -> P (n / 10) -> P n) ->
  forall n, 0 <= n -> P n.
Proof.
  intros Hs Hb n Hn. generalize Hn. pattern n. apply Z_lt_induction; [|exact Hn].
  clear n Hn. intros n IH Hn.
  destruct (Z_lt_ge_dec n 10) as [L|G].
  - apply Hs. lia.
  - apply Hb; [lia|].
    assert (0 <= n / 10 < n)
      by (split; [apply Z.div_pos; lia | apply Z.div_lt; lia]).
    apply IH; lia.
Qed.

End TextFacts.


(** ** Digits *)

Module DigitFacts.
Import TextFacts.
Local Open Scope Z_scope.

Lemma decimal_single c : decimal [c] = digit_val c.
Proof. unfold decimal, numeral. simpl. lia. Qed.

Lemma decimal_digits n : 0 <= n -> decimal (digits n) = n.
Proof.
  apply digits_ind with (P := fun n => decimal (digits n) = n); clear n.
  - intros n H. rewrite digits_small by lia.
    rewrite decimal_single. apply digit_val_digit_char. lia.
  - intros n H IH. rewrite digits_step by lia.
    rewrite decimal_app, IH, decimal_single.
    pose proof (Z.mod_pos_bound n 10 ltac:(lia)).
    rewrite digit_val_digit_char by lia.
    change (Dec.pow10 (List.length [digit_char (n mod 10)])) with 10.
    rewrite (Z.div_mod n 10) at 3 by lia. ring.
Qed.

Lemma digits_all n : 0 <= n -> forallb is_digit (digits n) = true.
Proof.
  apply digits_ind with (P := fun n => forallb is_digit (digits n) = true); clear n.
  - intros n H. rewrite digits_small by lia. simpl.
    rewrite is_digit_digit_char by lia. reflexivity.
  - intros n H IH. rewrite digits_step by lia.
    rewrite forallb_app, IH. simpl.
    pose proof (Z.mod_pos_bound n 10 ltac:(lia)).
    rewrite is_digit_digit_char by lia. reflexivity.
Qed.

(** The first digit is not [0], except for the numeral [0] itself. *)
Lemma digits_head n :
  0 <= n ->
  exists c t, digits n = c :: t /\ (n = 0 \/ code c <> 48).
Proof.
  apply digits_ind with
    (P := fun n => exists c t, digits n = c :: t /\ (n = 0 \/ code c <> 48));
    clear n.
  - intros n H. rewrite digits_small by lia.
    exists (digit_char n), []. split; [reflexivity|].
    rewrite digit_char_code by lia. lia.
  - intros n H (c & t & E & N). rewrite digits_step, E by lia.
    exists c, (t ++ [digit_char (n mod 10)]). split; [reflexivity|].
    right. destruct N as [N|N]; [|exact N].
    assert (1 <= n / 10) by (apply Z.div_le_lower_bound; lia). lia.
Qed.

Lemma digits_last n :
  0 <= n -> exists t, digits n = t ++ [digit_char (n mod 10)].
Proof.
  intros H. destruct (Z_lt_ge_dec n 10) as [L|G].
  - exists []. rewrite digits_small by lia.
    rewrite Z.mod_small by lia. reflexivity.
  - exists (digits (n / 10)). apply digits_step. lia.
Qed.

Lemma digits_length_pos n : 0 <= n -> (0 < List.length (digits n))%nat.
Proof.
  intros H. destruct (digits_head n H) as (c & t & E & _).
  rewrite E. simpl. lia.
Qed.

(** *** Trailing zeros *)

Lemma rev_repeat {A} (x : A) k : rev (repeat x k) = repeat x k.
Proof.
  induction k as [|k IH]; [reflexivity|].
  simpl. rewrite IH. clear IH.
  induction k as [|k IH]; [reflexivity|]. simpl. rewrite IH. reflexivity.
Qed.

Lemma drop_leading_zeros_spec t :
  exists z, t = repeat zero_char z ++ drop_leading_zeros t /\
            stops (fun c => Ascii.eqb c zero_char) (drop_leading_zeros t).
Proof.
  induction t as [|c t (z & E & St)]; simpl.
  - exists O. split; [reflexivity|exact I].
  - destruct (Ascii.eqb c zero_char) eqn:C.
    + apply Ascii.eqb_eq in C. subst c. exists (S z). split; [|exact St].
      simpl. f_equal. exact E.
    + exists O. split; [reflexivity|]. simpl. exact C.
Qed.

Lemma drop_trailing_zeros_spec t :
  exists z, t = drop_trailing_zeros t ++ repeat zero_char z.
Proof.
  destruct (drop_leading_zeros_spec (rev t)) as (z & E & _).
  exists z. unfold drop_trailing_zeros.
  rewrite <- (rev_involutive t) at 1. rewrite E at 1.
  rewrite rev_app_distr, rev_repeat. reflexivity.
Qed.

Lemma drop_trailing_zeros_id t c :
  c <> zero_char -> drop_trailing_zeros (t ++ [c]) = t ++ [c].
Proof.
  intros N. unfold drop_trailing_zeros. rewrite rev_app_distr. simpl.
  apply Ascii.eqb_neq in N. rewrite N. simpl.
  rewrite rev_involutive. reflexivity.
Qed.

Lemma drop_trailing_zeros_head c t :
  c <> zero_char ->
  exists t', drop_trailing_zeros (c :: t) = c :: t'.
Proof.
  intros N. destruct (drop_trailing_zeros_spec (c :: t)) as (z & E).
  destruct (drop_trailing_zeros (c :: t)) as [|c' t'] eqn:D.
  - exfalso. simpl in E. destruct z; [discriminate|].
    simpl in E. injection E as E _. contradiction.
  - simpl in E. injection E as E _. subst c'. exists t'. reflexivity.
Qed.

Lemma forallb_app_l {A} (p : A -> bool) a b :
  forallb p (a ++ b) = true -> forallb p a = true.
Proof. rewrite forallb_app. intros H. apply andb_true_iff in H. tauto. Qed.

Lemma forallb_app_r {A} (p : A -> bool) a b :
  forallb p (a ++ b) = true -> forallb p b = true.
Proof. rewrite forallb_app. intros H. apply andb_true_iff in H. tauto. Qed.

Lemma drop_trailing_zeros_all p t :
  forallb p t = true -> forallb p (drop_trailing_zeros t) = true.
Proof.
  intros H. destruct (drop_trailing_zeros_spec t) as (z & E).
  rewrite E in H. apply forallb_app_l in H. exact H.
Qed.

End DigitFacts.

(** ** Numbers in JSON texts *)

Module NumberFacts.
Import TextFacts DigitFacts.
Local Open Scope Z_scope.

Lemma scan_exponent_text e r :
  stops is_digit r -> scan_exponent (exponent_text e ++ r) = Some (e, r).
Proof.
  intros Hr. unfold exponent_text.
  assert (D : span is_digit (digits (Z.abs e) ++ r) = (digits (Z.abs e), r))
    by (apply span_app; [apply digits_all; lia|exact Hr]).
  destruct (digits_head (Z.abs e) ltac:(lia)) as (c & t & E & _).
  destruct (e <? 0) eqn:S; cbn -[digits span]; rewrite D, E, <- E;
    rewrite decimal_digits by lia; f_equal; f_equal.
  - apply Z.ltb_lt in S. lia.
  - apply Z.ltb_ge in S. lia.
Qed.

Lemma leading_ok_int_ok ip : int_ok ip -> Json.leading_ok ip = true.
Proof.
  destruct ip as [|c [|c' ip]]; simpl; intros H; try easy.
  apply negb_true_iff, Z.eqb_neq. exact H.
Qed.

Lemma number_stop_digit r : number_stop r -> stops is_digit r.
Proof. destruct r; simpl; tauto. Qed.

Lemma read_minus_digit c t :
  is_digit c = true -> Json.read_minus (c :: t) = (false, c :: t).
Proof.
  intros H. apply is_digit_range in H. unfold Json.read_minus.
  destruct (code c =? 45) eqn:C; [apply Z.eqb_eq in C; lia|reflexivity].
Qed.

Lemma read_fraction_some fp r :
  fp <> [] -> forallb is_digit fp = true -> stops is_digit r ->
  Json.read_fraction (lit "." ++ fp ++ r) = Some (fp, r).
Proof.
  intros N H S. cbn -[span]. rewrite (span_app is_digit fp r H S).
  destruct fp; [contradiction|reflexivity].
Qed.

Lemma read_fraction_none r :
  stops (fun c => code c =? 46) r -> Json.read_fraction r = Some ([], r).
Proof.
  destruct r as [|c r]; [reflexivity|]. simpl. intros ->. reflexivity.
Qed.

Lemma read_exponent_some e r :
  stops is_digit r -> Json.read_exponent (exponent_text e ++ r) = Some (e, r).
Proof.
  intros S. pose proof (scan_exponent_text e r S) as H.
  unfold exponent_text in *. exact H.
Qed.

Lemma read_exponent_none r :
  stops is_exp_mark r -> Json.read_exponent r = Some (0, r).
Proof.
  destruct r as [|c r]; [reflexivity|]. simpl. intros ->. reflexivity.
Qed.

(** How [JSON.parse] reads a number written from its parts. *)
Lemma parse_number_render neg ip fp e r :
  forallb is_digit ip = true -> forallb is_digit fp = true ->
  int_ok ip -> number_stop r ->
  Json.parse_number (render neg ip fp e ++ r) =
  Some (of_sci (if neg then - decimal (ip ++ fp) else decimal (ip ++ fp))
               (match e with Some x => x | None => 0 end
                - Z.of_nat (List.length fp)), r).
Proof.
  intros Hip Hfp Hok Hr.
  set (E := match e with Some x => exponent_text x | None => [] end).
  set (F := match fp with [] => [] | _ :: _ => lit "." ++ fp end).
  assert (R : render neg ip fp e ++ r =
              (if neg then lit "-" else []) ++ ip ++ F ++ E ++ r).
  { unfold render. fold E F. rewrite <- !app_assoc. reflexivity. }
  rewrite R. clear R.
  assert (SE : stops is_digit (E ++ r)).
  { unfold E. destruct e; [reflexivity|]. apply number_stop_digit, Hr. }
  assert (SF : stops is_digit (F ++ E ++ r)).
  { unfold F. destruct fp; [exact SE|reflexivity]. }
  assert (Sg : Json.read_minus ((if neg then lit "-" else []) ++ ip ++ F ++ E ++ r)
               = (neg, ip ++ F ++ E ++ r)).
  { destruct neg; [reflexivity|].
    destruct ip as [|c ip]; [destruct Hok|].
    simpl in Hip. apply andb_true_iff in Hip.
    apply read_minus_digit. tauto. }
  assert (Fr : Json.read_fraction (F ++ E ++ r) = Some (fp, E ++ r)).
  { unfold F. destruct fp as [|c fp].
    - apply read_fraction_none. unfold E. destruct e; [reflexivity|].
      destruct r as [|c r]; [exact I|]. simpl in *.
      apply Z.eqb_neq. tauto.
    - rewrite <- app_assoc. apply read_fraction_some; [discriminate|exact Hfp|exact SE]. }
  assert (Ex : Json.read_exponent (E ++ r) =
               Some (match e with Some x => x | None => 0 end, r)).
  { unfold E. destruct e as [x|].
    - apply read_exponent_some, number_stop_digit, Hr.
    - apply read_exponent_none. destruct r as [|c r]; [exact I|].
      simpl in *. tauto. }
  unfold Json.parse_number.
  rewrite Sg, (span_app is_digit ip (F ++ E ++ r) Hip SF).
  rewrite (leading_ok_int_ok ip Hok), Fr, Ex. reflexivity.
Qed.


Lemma zero_char_code : code zero_char = 48.
Proof. reflexivity. Qed.

Lemma render_sign neg ip fp e :
  render neg ip fp e = (if neg then lit "-" else []) ++ render false ip fp e.
Proof. destruct neg; reflexivity. Qed.

Lemma int_ok_head c t : is_digit c = true -> code c <> 48 -> int_ok (c :: t).
Proof. intros _ N. destruct t; simpl; [exact I|exact N]. Qed.

Lemma firstn_head {A} n (c : A) t : (0 < n)%nat -> firstn n (c :: t) = c :: firstn (n - 1) t.
Proof. destruct n; [lia|]. simpl. rewrite Nat.sub_0_r. reflexivity. Qed.

Ltac zbool H :=
  repeat first
    [ rewrite andb_true_iff in H | rewrite andb_false_iff in H
    | rewrite Z.leb_le in H | rewrite Z.leb_gt in H
    | rewrite Z.ltb_lt in H | rewrite Z.ltb_ge in H ].

Ltac zbool_goal :=
  repeat first
    [ rewrite andb_true_iff | rewrite andb_false_iff
    | rewrite Z.leb_le | rewrite Z.leb_gt
    | rewrite Z.ltb_lt | rewrite Z.ltb_ge ].

(** The text of the exponential notation, from its significant digits. *)
Lemma exponential_render c more e :
  match c :: more with
  | [] => []
  | [c0] => c0 :: exponent_text e
  | c0 :: more0 => c0 :: lit "." ++ more0 ++ exponent_text e
  end = render false [c] more (Some e).
Proof. destruct more; reflexivity. Qed.

(** The parts of the text of a positive integer. *)
Lemma positive_text_int a :
  0 < a ->
  exists ip fp e,
    positive_text (digits a) O = render false ip fp e /\
    forallb is_digit ip = true /\ forallb is_digit fp = true /\ int_ok ip /\
    let x := match e with Some y => y | None => 0 end - Z.of_nat (List.length fp) in
    0 <= x /\ a = decimal (ip ++ fp) * 10 ^ x.
Proof.
  intros Ha.
  pose proof (decimal_digits a ltac:(lia)) as Hv.
  pose proof (digits_all a ltac:(lia)) as Hd.
  destruct (digits_head a ltac:(lia)) as (c1 & t & Eds & Hc1).
  destruct Hc1 as [Hc1|Hc1]; [lia|].
  assert (Nz : c1 <> zero_char) by (intros ->; apply Hc1; reflexivity).
  destruct (drop_trailing_zeros_spec (digits a)) as (z & Ez).
  pose proof (drop_trailing_zeros_all is_digit (digits a) Hd) as Hsd.
  destruct (drop_trailing_zeros_head c1 t Nz) as (more & Esd).
  rewrite <- Eds in Esd.
  assert (Hhead : is_digit c1 = true).
  { rewrite Eds in Hd. simpl in Hd. apply andb_true_iff in Hd. tauto. }
  assert (Lz : List.length (digits a) =
               (List.length (drop_trailing_zeros (digits a)) + z)%nat).
  { rewrite Ez at 1. rewrite length_app, repeat_length. reflexivity. }
  unfold positive_text.
  set (k := Z.of_nat (List.length (drop_trailing_zeros (digits a)))).
  set (n := Z.of_nat (List.length (digits a)) - Z.of_nat 0).
  assert (Hnk : n - k = Z.of_nat z) by (unfold n, k; lia).
  destruct (n <=? 21) eqn:C.
  - (* written in full *)
    replace (k <=? n) with true by (symmetry; apply Z.leb_le; lia).
    cbn [andb]. rewrite Hnk, Nat2Z.id, <- Ez.
    exists (digits a), [], None.
    unfold render. cbn [app]. rewrite ?app_nil_r.
    repeat split; try assumption.
    + rewrite Eds. apply int_ok_head; assumption.
    + cbn. lia.
    + rewrite Hv. cbn. lia.
  - (* exponential notation *)
    apply Z.leb_gt in C.
    replace ((k <=? n) && false) with false by (symmetry; apply andb_false_r).
    replace ((0 <? n) && false) with false by (symmetry; apply andb_false_r).
    replace ((-6 <? n) && (n <=? 0)) with false
      by (symmetry; apply andb_false_iff; right; apply Z.leb_gt; lia).
    rewrite Esd, exponential_render.
    exists [c1], more, (Some (n - 1)).
    rewrite Esd in Hsd, Lz. simpl in Hsd. apply andb_true_iff in Hsd.
    split; [reflexivity|]. split; [simpl; rewrite Hhead; reflexivity|].
    split; [tauto|]. split; [exact I|].
    cbn zeta.
    assert (Hx : n - 1 - Z.of_nat (List.length more) = Z.of_nat z).
    { unfold n. rewrite Lz. simpl List.length. lia. }
    rewrite Hx. split; [lia|].
    rewrite <- Hv at 1. rewrite Ez, Esd, decimal_app, decimal_repeat_zero.
    rewrite repeat_length. unfold Dec.pow10. simpl app. lia.
Qed.

(** The parts of the text of a positive decimal with a fraction. *)
Lemma positive_text_frac a sc :
  0 < a -> a mod 10 <> 0 -> (0 < sc)%nat ->
  exists ip fp e,
    positive_text (digits a) sc = render false ip fp e /\
    forallb is_digit ip = true /\ forallb is_digit fp = true /\ int_ok ip /\
    match e with Some y => y | None => 0 end - Z.of_nat (List.length fp)
      = - Z.of_nat sc /\
    decimal (ip ++ fp) = a.
Proof.
  intros Ha Hm Hsc.
  pose proof (decimal_digits a ltac:(lia)) as Hv.
  pose proof (digits_all a ltac:(lia)) as Hd.
  destruct (digits_head a ltac:(lia)) as (c1 & t & Eds & Hc1).
  destruct Hc1 as [Hc1|Hc1]; [lia|].
  assert (Hhead : is_digit c1 = true).
  { rewrite Eds in Hd. simpl in Hd. apply andb_true_iff in Hd. tauto. }
  assert (Keep : drop_trailing_zeros (digits a) = digits a).
  { destruct (digits_last a ltac:(lia)) as (t' & El). rewrite El.
    apply drop_trailing_zeros_id. intros C.
    apply (f_equal code) in C.
    pose proof (Z.mod_pos_bound a 10 ltac:(lia)).
    rewrite digit_char_code, zero_char_code in C by lia. lia. }
  unfold positive_text. rewrite Keep.
  set (L := List.length (digits a)).
  assert (HL : (0 < L)%nat) by (unfold L; rewrite Eds; simpl; lia).
  set (n := Z.of_nat L - Z.of_nat sc).
  replace ((Z.of_nat L <=? n) && (n <=? 21)) with false
    by (symmetry; apply andb_false_iff; left; apply Z.leb_gt; lia).
  destruct ((0 <? n) && (n <=? 21)) eqn:C2.
  { (* digits on both sides of the point *)
    zbool C2.
    exists (firstn (Z.to_nat n) (digits a)), (skipn (Z.to_nat n) (digits a)), None.
    assert (Lf : List.length (skipn (Z.to_nat n) (digits a)) = sc).
    { rewrite length_skipn. fold L. lia. }
    split.
    { unfold render. cbn [app]. rewrite app_nil_r.
      destruct (skipn (Z.to_nat n) (digits a)) eqn:Es; [simpl in Lf; lia|].
      reflexivity. }
    split.
    { apply forallb_app_l with (b := skipn (Z.to_nat n) (digits a)).
      rewrite firstn_skipn. exact Hd. }
    split.
    { apply forallb_app_r with (a := firstn (Z.to_nat n) (digits a)).
      rewrite firstn_skipn. exact Hd. }
    split.
    { rewrite Eds, firstn_head by lia. apply int_ok_head; assumption. }
    rewrite firstn_skipn, Lf. split; [lia|exact Hv]. }
  destruct ((-6 <? n) && (n <=? 0)) eqn:C3.
  { (* zeros between the point and the digits *)
    zbool C3.
    exists [zero_char], (repeat zero_char (Z.to_nat (- n)) ++ digits a), None.
    split.
    { unfold render. cbn [app]. rewrite app_nil_r.
      destruct (repeat zero_char (Z.to_nat (- n)) ++ digits a) eqn:Es.
      - apply (f_equal (@List.length _)) in Es.
        rewrite length_app in Es. fold L in Es. simpl in Es. lia.
      - rewrite <- Es. reflexivity. }
    split; [reflexivity|].
    split.
    { rewrite forallb_app, Hd, andb_true_r.
      apply forallb_forall. intros x Hx. apply repeat_spec in Hx. subst x.
      reflexivity. }
    split; [exact I|].
    rewrite length_app, repeat_length. fold L.
    split; [lia|].
    change ([zero_char] ++ repeat zero_char (Z.to_nat (- n)) ++ digits a)
      with (repeat zero_char 1 ++ repeat zero_char (Z.to_nat (- n)) ++ digits a).
    rewrite !decimal_zeros. exact Hv. }
  (* exponential notation *)
  rewrite Eds, exponential_render.
  exists [c1], t, (Some (n - 1)).
  rewrite Eds in Hd. simpl in Hd. apply andb_true_iff in Hd.
  split; [reflexivity|]. split; [simpl; rewrite Hhead; reflexivity|].
  split; [tauto|]. split; [exact I|].
  split.
  - unfold n, L. rewrite Eds. simpl List.length. lia.
  - simpl app. rewrite <- Eds. exact Hv.
Qed.


Lemma abs_mod10 c : c mod 10 <> 0 -> Z.abs c mod 10 <> 0.
Proof.
  intros H E. apply H. apply Z.mod_divide in E; [|lia].
  apply Z.mod_divide; [lia|]. apply Z.divide_abs_r. exact E.
Qed.

(** [JSON.parse] reads back the text of a decimal in normal form. *)
Lemma dec_text_parse d r :
  Dec.normal d -> number_stop r ->
  Json.parse_number (dec_text d ++ r) = Some (d, r).
Proof.
  destruct d as [c sc]. intros Hn Hr. unfold dec_text. cbn [Dec.coef Dec.scale].
  destruct (c =? 0) eqn:Z0.
  - apply Z.eqb_eq in Z0. subst c.
    assert (sc = O) by (destruct Hn as [Hn|Hn]; [exact Hn|exfalso; apply Hn; reflexivity]).
    subst sc.
    change (lit "0") with (render false [zero_char] [] None).
    rewrite parse_number_render;
      [reflexivity | reflexivity | reflexivity | exact I | exact Hr].
  - apply Z.eqb_neq in Z0.
    assert (Ha : 0 < Z.abs c) by lia.
    destruct sc as [|sc].
    + destruct (positive_text_int (Z.abs c) Ha)
        as (ip & fp & e & Et & Hip & Hfp & Hok & Hx & Hval).
      rewrite Et, <- render_sign.
      rewrite parse_number_render by assumption.
      cbn zeta in Hx, Hval. unfold of_sci.
      replace (0 <=? match e with Some y => y | None => 0 end
                      - Z.of_nat (List.length fp)) with true
        by (symmetry; apply Z.leb_le; exact Hx).
      f_equal. f_equal. f_equal.
      destruct (c <? 0) eqn:S; [apply Z.ltb_lt in S|apply Z.ltb_ge in S]; lia.
    + assert (Hm : c mod 10 <> 0) by (destruct Hn as [Hn|Hn]; [discriminate|exact Hn]).
      destruct (positive_text_frac (Z.abs c) (S sc) Ha (abs_mod10 c Hm) ltac:(lia))
        as (ip & fp & e & Et & Hip & Hfp & Hok & Hx & Hval).
      rewrite Et, <- render_sign.
      rewrite parse_number_render by assumption.
      rewrite Hx, Hval. unfold of_sci.
      replace (0 <=? - Z.of_nat (S sc)) with false
        by (symmetry; apply Z.leb_gt; lia).
      rewrite Z.opp_involutive, Nat2Z.id.
      f_equal. f_equal.
      replace (if c <? 0 then - Z.abs c else Z.abs c) with c
        by (destruct (c <? 0) eqn:S; [apply Z.ltb_lt in S|apply Z.ltb_ge in S]; lia).
      apply (DecFacts.strip_id (Dec.mk c (S sc))). exact Hn.
Qed.

End NumberFacts.

(** ** Strings in JSON texts *)

Module StringFacts.
Import TextFacts.
Local Open Scope Z_scope.

(** One character, quoted and read back. *)
Lemma parse_chars_quote_one c t :
  Json.parse_chars (Json.quote_one c ++ t) =
  match Json.parse_chars t with
  | Some (s, r) => Some (c :: s, r)
  | None => None
  end.
Proof.
  destruct c as [[] [] [] [] [] [] [] []]; reflexivity.
Qed.

Lemma parse_chars_quote s r :
  Json.parse_chars (flat_map Json.quote_one s ++ quote_char :: r) = Some (s, r).
Proof.
  induction s as [|c s IH].
  - reflexivity.
  - cbn [flat_map]. rewrite <- app_assoc, parse_chars_quote_one, IH.
    reflexivity.
Qed.

End StringFacts.

(** ** [JSON.parse] after [JSON.stringify] *)

Module JsonFacts.
Import TextFacts DigitFacts NumberFacts StringFacts.
Local Open Scope Z_scope.

(** Induction on values, through the elements of arrays and the
    properties of objects. *)
Lemma jsval_induction (P : jsval -> Prop) :
  P JUndefined -> P JNull -> (forall b, P (JBool b)) ->
  (forall n, P (JNum n)) -> (forall s, P (JStr s)) ->
  (forall l, Forall P l -> P (JArr l)) ->
  (forall ps, Forall (fun kv => P (snd kv)) ps -> P (JObj ps)) ->
  forall v, P v.
Proof.
  intros HU HN HB HNum HS HA HO. fix IH 1. intros [ | | b | n | s | l | ps].
  - exact HU.
  - exact HN.
  - apply HB.
  - apply HNum.
  - apply HS.
  - apply HA. induction l as [|x l IHl]; constructor; [apply IH|exact IHl].
  - apply HO. induction ps as [|[k x] ps IHps]; constructor; [apply IH|exact IHps].
Qed.

(** *** White space and what follows a value *)

Lemma skip_ws_head c t : Json.is_ws c = false -> Json.skip_ws (c :: t) = c :: t.
Proof. intros H. simpl. rewrite H. reflexivity. Qed.

Lemma value_stop_head c r :
  code c = 44 \/ code c = 93 \/ code c = 125 -> value_stop (c :: r).
Proof. intros H. exact H. Qed.

Lemma value_stop_not_ws c r : value_stop (c :: r) -> Json.is_ws c = false.
Proof.
  simpl. unfold Json.is_ws. intros H.
  repeat (apply orb_false_iff; split); apply Z.eqb_neq; lia.
Qed.

Lemma value_stop_skip r : value_stop r -> Json.skip_ws r = r.
Proof.
  destruct r as [|c r]; [reflexivity|]. intros H.
  apply skip_ws_head, (value_stop_not_ws c r H).
Qed.

Lemma value_stop_number r : value_stop r -> number_stop r.
Proof.
  destruct r as [|c r]; [exact (fun H => H)|]. simpl. intros H.
  unfold is_digit, is_exp_mark. repeat split.
  - destruct H as [H|[H|H]]; rewrite H; reflexivity.
  - lia.
  - apply orb_false_iff. split; apply Z.eqb_neq; lia.
Qed.

(** *** The first character of a JSON text *)

Lemma render_head neg ip fp e :
  forallb is_digit ip = true -> int_ok ip ->
  exists c t, render neg ip fp e = c :: t /\ (code c = 45 \/ is_digit c = true).
Proof.
  intros Hd Hok. destruct neg.
  - eexists _, _. split; [reflexivity|]. left. reflexivity.
  - destruct ip as [|c ip]; [destruct Hok|].
    simpl in Hd. apply andb_true_iff in Hd.
    eexists _, _. split; [reflexivity|]. right. tauto.
Qed.

Lemma dec_text_head d :
  Dec.normal d ->
  exists c t, dec_text d = c :: t /\ (code c = 45 \/ is_digit c = true).
Proof.
  destruct d as [c sc]. intros Hn. unfold dec_text. cbn [Dec.coef Dec.scale].
  destruct (c =? 0) eqn:Z0.
  - eexists _, _. split; [reflexivity|]. right. reflexivity.
  - apply Z.eqb_neq in Z0. assert (Ha : 0 < Z.abs c) by lia.
    destruct sc as [|sc].
    + destruct (positive_text_int (Z.abs c) Ha) as (ip & fp & e & Et & Hip & _ & Hok & _).
      rewrite Et, <- render_sign. apply render_head; assumption.
    + assert (Hm : c mod 10 <> 0) by (destruct Hn as [Hn|Hn]; [discriminate|exact Hn]).
      destruct (positive_text_frac (Z.abs c) (S sc) Ha (abs_mod10 c Hm) ltac:(lia))
        as (ip & fp & e & Et & Hip & _ & Hok & _).
      rewrite Et, <- render_sign. apply render_head; assumption.
Qed.

Lemma opens_number c : code c = 45 \/ is_digit c = true -> opens c.
Proof.
  intros H. assert (R : code c = 45 \/ 48 <= code c <= 57).
  { destruct H as [H|H]; [left; exact H|right; apply is_digit_range, H]. }
  unfold opens, Json.is_ws. split; [|lia].
  repeat (apply orb_false_iff; split); apply Z.eqb_neq; lia.
Qed.

Lemma stringify_some v : storable v = true -> exists t, Json.stringify_text v = Some t.
Proof.
  destruct v as [ | | b | [ | |d] | s | l | ps]; simpl; intros H;
    try discriminate; eexists; reflexivity.
Qed.

Lemma stringify_head v t :
  storable v = true -> Json.stringify_text v = Some t ->
  exists c t', t = c :: t' /\ opens c.
Proof.
  destruct v as [ | | b | [ | |d] | s | l | ps]; simpl; intros H E;
    try discriminate; injection E as <-.
  - eexists _, _. split; [reflexivity|]. repeat split; discriminate.
  - destruct b; eexists _, _; (split; [reflexivity|]); repeat split; discriminate.
  - apply DecFacts.normalb_spec in H.
    destruct (dec_text_head d H) as (c & t' & E & Hc).
    exists c, t'. split; [exact E|]. apply opens_number, Hc.
  - eexists _, _. split; [reflexivity|]. repeat split; discriminate.
  - eexists _, _. split; [reflexivity|]. repeat split; discriminate.
  - eexists _, _. split; [reflexivity|]. repeat split; discriminate.
Qed.


(** *** How [parse_value] goes on from the first character *)

Ltac unfold_parse :=
  cbn -[Json.skip_ws Json.parse_number Json.parse_chars Json.object_of
        Json.after code Z.eqb lit].

Ltac code_is_not k :=
  match goal with
  | |- context [code ?c =? k] =>
      replace (code c =? k) with false by (symmetry; apply Z.eqb_neq; lia)
  end.

Lemma parse_value_number f c t1 :
  code c = 45 \/ is_digit c = true ->
  Json.parse_value (S f) (c :: t1) =
  match Json.parse_number (c :: t1) with
  | Some (d, r) => Some (JNum (Fin d), r)
  | None => None
  end.
Proof.
  intros H. assert (R : code c = 45 \/ 48 <= code c <= 57).
  { destruct H as [H|H]; [left; exact H|right; apply is_digit_range, H]. }
  destruct (opens_number c H) as (W & _).
  unfold_parse. rewrite (skip_ws_head c t1 W).
  code_is_not 34. code_is_not 91. code_is_not 123.
  code_is_not 110. code_is_not 116. code_is_not 102.
  reflexivity.
Qed.

Lemma parse_value_string f t1 :
  Json.parse_value (S f) (quote_char :: t1) =
  match Json.parse_chars t1 with
  | Some (s, r) => Some (JStr (string_of_list_ascii s), r)
  | None => None
  end.
Proof. reflexivity. Qed.

Lemma parse_value_array f c t1 :
  opens c ->
  Json.parse_value (S f) ("["%char :: c :: t1) =
  match Json.parse_elements f (c :: t1) with
  | Some (vs, r) => Some (JArr vs, r)
  | None => None
  end.
Proof.
  intros (W & N & _). unfold_parse.
  rewrite (skip_ws_head "["%char) by reflexivity.
  change (code "["%char) with 91. cbn -[Json.skip_ws code Z.eqb].
  rewrite (skip_ws_head c t1 W).
  code_is_not 93. reflexivity.
Qed.

Lemma parse_value_object f c t1 :
  opens c ->
  Json.parse_value (S f) ("{"%char :: c :: t1) =
  match Json.parse_members f (c :: t1) with
  | Some (ms, r) => Some (Json.object_of ms, r)
  | None => None
  end.
Proof.
  intros (W & _ & N). unfold_parse.
  rewrite (skip_ws_head "{"%char) by reflexivity.
  change (code "{"%char) with 123. cbn -[Json.skip_ws Json.object_of code Z.eqb].
  rewrite (skip_ws_head c t1 W).
  code_is_not 125. reflexivity.
Qed.

Lemma parse_elements_S f t :
  Json.parse_elements (S f) t =
  match Json.parse_value f t with
  | Some (v, t1) =>
      match Json.skip_ws t1 with
      | c :: t2 =>
          if code c =? 44 then
            match Json.parse_elements f t2 with
            | Some (vs, r) => Some (v :: vs, r)
            | None => None
            end
          else if code c =? 93 then Some ([v], t2)
          else None
      | [] => None
      end
  | None => None
  end.
Proof. reflexivity. Qed.

Lemma quote_app k t :
  Json.quote k ++ t =
  quote_char :: flat_map Json.quote_one (list_ascii_of_string k) ++ quote_char :: t.
Proof. unfold Json.quote. simpl. rewrite <- app_assoc. reflexivity. Qed.

Lemma parse_members_quote f k t2 :
  Json.parse_members (S f) (Json.quote k ++ ":"%char :: t2) =
  match Json.parse_value f t2 with
  | Some (v, t4) =>
      match Json.skip_ws t4 with
      | e :: t5 =>
          if code e =? 44 then
            match Json.parse_members f t5 with
            | Some (ms, r) => Some ((k, v) :: ms, r)
            | None => None
            end
          else if code e =? 125 then Some ([(k, v)], t5)
          else None
      | [] => None
      end
  | None => None
  end.
Proof.
  rewrite quote_app. unfold_parse.
  rewrite (skip_ws_head quote_char) by reflexivity.
  change (code quote_char) with 34. cbn -[Json.skip_ws Json.parse_chars code Z.eqb].
  rewrite parse_chars_quote.
  rewrite (skip_ws_head ":"%char) by reflexivity.
  change (code ":"%char) with 58. cbn -[Json.skip_ws code Z.eqb].
  rewrite string_of_list_ascii_of_string. reflexivity.
Qed.


(** *** Arrays and objects *)

Lemma join_cons2 sep p q rest :
  join sep (p :: q :: rest) = p ++ sep ++ join sep (q :: rest).
Proof. reflexivity. Qed.

Lemma stringify_array l :
  Json.stringify_text (JArr l) =
  Some ("["%char :: join (lit ",") (map value_text l) ++ ["]"%char]).
Proof. reflexivity. Qed.

Lemma members_storable ps :
  forallb (fun kv => storable (snd kv)) ps = true ->
  flat_map (fun kv => match Json.stringify_text (snd kv) with
                      | Some t => [Json.quote (fst kv) ++ lit ":" ++ t]
                      | None => []
                      end) ps = map member_text ps.
Proof.
  induction ps as [|[k x] ps IH]; [reflexivity|].
  cbn [forallb flat_map map snd fst]. intros H.
  apply andb_true_iff in H. destruct H as [Hx Hps].
  rewrite (IH Hps). unfold member_text, value_text. cbn [fst snd].
  destruct (stringify_some x Hx) as (t & ->). reflexivity.
Qed.

Lemma stringify_object ps :
  forallb (fun kv => storable (snd kv)) ps = true ->
  Json.stringify_text (JObj ps) =
  Some ("{"%char :: join (lit ",") (map member_text ps) ++ ["}"%char]).
Proof.
  intros H. cbn [Json.stringify_text]. rewrite (members_storable ps H).
  reflexivity.
Qed.

Lemma parse_elements_join l :
  Forall reads_back l -> l <> [] ->
  forall f r,
    (2 * List.length (join (lit ",") (map value_text l)) + 1 <= f)%nat ->
    Json.parse_elements f (join (lit ",") (map value_text l) ++ "]"%char :: r)
    = Some (l, r).
Proof.
  induction l as [|x l IH]; intros HP N f r Hf; [contradiction|].
  inversion HP as [|? ? Hx Hl]; subst.
  destruct f as [|f]; [lia|]. rewrite parse_elements_S.
  destruct l as [|y l].
  - cbn [map join] in *.
    rewrite (Hx f ("]"%char :: r)); [reflexivity|lia|right; left; reflexivity].
  - change (join (lit ",") (map value_text (x :: y :: l)))
      with (value_text x ++ lit "," ++ join (lit ",") (map value_text (y :: l)))
      in Hf |- *.
    rewrite !length_app in Hf. change (List.length (lit ",")) with 1%nat in Hf.
    rewrite <- !app_assoc.
    rewrite (Hx f (lit "," ++ join (lit ",") (map value_text (y :: l)) ++ "]"%char :: r));
      [|lia|left; reflexivity].
    cbn -[join map Json.parse_elements].
    rewrite IH; [reflexivity|exact Hl|discriminate|lia].
Qed.

Lemma parse_members_join ps :
  Forall (fun kv => reads_back (snd kv)) ps -> ps <> [] ->
  forall f r,
    (2 * List.length (join (lit ",") (map member_text ps)) + 1 <= f)%nat ->
    Json.parse_members f (join (lit ",") (map member_text ps) ++ "}"%char :: r)
    = Some (ps, r).
Proof.
  induction ps as [|[k x] ps IH]; intros HP N f r Hf; [contradiction|].
  inversion HP as [|? ? Hx Hl]; subst. cbn [snd] in Hx.
  destruct f as [|f]; [lia|].
  assert (Lm : List.length (member_text (k, x)) =
               (List.length (Json.quote k) + 1 + List.length (value_text x))%nat).
  { unfold member_text. cbn [fst snd]. rewrite !length_app. simpl. lia. }
  destruct ps as [|m ps].
  - cbn [map join] in *. unfold member_text at 1. cbn [fst snd].
    rewrite <- !app_assoc.
    change (lit ":" ++ value_text x ++ "}"%char :: r)
      with (":"%char :: value_text x ++ "}"%char :: r).
    rewrite parse_members_quote.
    rewrite (Hx f ("}"%char :: r)); [reflexivity|lia|right; right; reflexivity].
  - change (join (lit ",") (map member_text ((k, x) :: m :: ps)))
      with (member_text (k, x) ++ lit "," ++ join (lit ",") (map member_text (m :: ps)))
      in Hf |- *.
    rewrite !length_app in Hf. change (List.length (lit ",")) with 1%nat in Hf.
    unfold member_text at 1. cbn [fst snd].
    rewrite <- !app_assoc.
    change (lit ":" ++ value_text x ++ ?t) with (":"%char :: value_text x ++ t).
    rewrite parse_members_quote.
    rewrite (Hx f (lit "," ++ join (lit ",") (map member_text (m :: ps)) ++ "}"%char :: r));
      [|lia|left; reflexivity].
    cbn -[join map Json.parse_members].
    rewrite IH; [reflexivity|exact Hl|discriminate|lia].
Qed.

(** *** Objects with one property per name *)

Lemma lookup_app_none k a b :
  lookup k a = None -> lookup k (a ++ b) = lookup k b.
Proof.
  induction a as [|[k' v'] a IH]; simpl; [reflexivity|].
  destruct (String.eqb k k'); [discriminate|exact IH].
Qed.

Lemma assign_fresh k v ps : lookup k ps = None -> assign k v ps = ps ++ [(k, v)].
Proof.
  induction ps as [|[k' v'] ps IH]; simpl; [reflexivity|].
  destruct (String.eqb k k'); [discriminate|].
  intros H. rewrite (IH H). reflexivity.
Qed.

Lemma nodupb_cons k ks :
  nodupb (k :: ks) = true ->
  (forall k', In k' ks -> String.eqb k k' = false) /\ nodupb ks = true.
Proof.
  simpl. intros H. apply andb_true_iff in H. destruct H as [E N].
  split; [|exact N]. intros k' Hin. apply negb_true_iff in E.
  destruct (String.eqb k k') eqn:C; [|reflexivity].
  exfalso. assert (X : existsb (String.eqb k) ks = true)
    by (apply existsb_exists; exists k'; tauto).
  congruence.
Qed.

Lemma fold_assign ps acc :
  nodupb (map fst ps) = true ->
  (forall kv, In kv ps -> lookup (fst kv) acc = None) ->
  fold_left (fun o m => assign (fst m) (snd m) o) ps acc = acc ++ ps.
Proof.
  revert acc. induction ps as [|[k v] ps IH]; intros acc N F.
  - simpl. rewrite app_nil_r. reflexivity.
  - cbn [map fst] in N. apply nodupb_cons in N. destruct N as [Nk N].
    cbn [fold_left fst snd].
    rewrite (assign_fresh k v acc (F (k, v) (or_introl eq_refl))).
    rewrite IH; [rewrite <- app_assoc; reflexivity|exact N|].
    intros [k' v'] Hin. cbn [fst].
    rewrite lookup_app_none by (apply (F (k', v')); right; exact Hin).
    simpl. rewrite String.eqb_sym, Nk; [reflexivity|].
    apply in_map_iff. exists (k', v'). split; [reflexivity|exact Hin].
Qed.

Lemma object_of_nodup ps :
  nodupb (map fst ps) = true -> Json.object_of ps = JObj ps.
Proof.
  intros N. unfold Json.object_of. rewrite (fold_assign ps [] N); [reflexivity|].
  reflexivity.
Qed.

(** *** The round trip of values *)

Lemma forallb_Forall {A} (p : A -> bool) (P : A -> Prop) l :
  Forall (fun x => p x = true -> P x) l -> forallb p l = true -> Forall P l.
Proof.
  induction 1 as [|x l Hx _ IH]; intros H; [constructor|].
  simpl in H. apply andb_true_iff in H. constructor; [tauto|apply IH; tauto].
Qed.

Theorem storable_reads_back v : storable v = true -> reads_back v.
Proof.
  induction v as [ | | b | n | s | l IH | ps IH] using jsval_induction;
    intros Hs f r Hf Hr; try discriminate.
  - destruct f as [|f]; [simpl in Hf; lia|]. reflexivity.
  - destruct f as [|f]; [destruct b; simpl in Hf; lia|]. destruct b; reflexivity.
  - destruct n as [ | |d]; try discriminate. cbn [storable] in Hs.
    apply DecFacts.normalb_spec in Hs.
    unfold value_text in *. cbn [Json.stringify_text] in *.
    destruct (dec_text_head d Hs) as (c & t & E & Hc).
    destruct f as [|f]; [rewrite E in Hf; simpl in Hf; lia|].
    rewrite E. cbn [app]. rewrite (parse_value_number f c (t ++ r) Hc).
    change (c :: t ++ r) with ((c :: t) ++ r). rewrite <- E.
    rewrite (dec_text_parse d r Hs (value_stop_number r Hr)). reflexivity.
  - unfold value_text in *. cbn [Json.stringify_text] in *.
    destruct f as [|f]; [simpl in Hf; lia|].
    rewrite quote_app, parse_value_string, parse_chars_quote.
    rewrite string_of_list_ascii_of_string. reflexivity.
  - cbn [storable] in Hs.
    pose proof (forallb_Forall storable reads_back l IH Hs) as HP.
    unfold value_text in Hf |- *. rewrite stringify_array in Hf |- *.
    destruct f as [|f]; [simpl in Hf; lia|].
    destruct l as [|x l].
    + reflexivity.
    + cbn [List.length] in Hf. rewrite length_app in Hf. cbn [List.length] in Hf.
      assert (Hx : storable x = true)
        by (simpl in Hs; apply andb_true_iff in Hs; tauto).
      destruct (stringify_some x Hx) as (tx & Ex).
      destruct (stringify_head x tx Hx Ex) as (c & t' & Et & Ho).
      assert (Hj : exists j, join (lit ",") (map value_text (x :: l)) = c :: j).
      { assert (Ev : value_text x = c :: t') by (unfold value_text; rewrite Ex; exact Et).
        destruct l; [exists t'|eexists]; cbn [map join]; rewrite Ev; reflexivity. }
      destruct Hj as (j & Ej).
      cbn [app]. rewrite <- app_assoc. cbn [app].
      rewrite Ej at 1. cbn [app]. rewrite (parse_value_array f c _ Ho).
      change (c :: j ++ "]"%char :: r) with ((c :: j) ++ "]"%char :: r).
      rewrite <- Ej.
      rewrite parse_elements_join; [reflexivity|exact HP|discriminate|lia].
  - cbn [storable] in Hs. apply andb_true_iff in Hs. destruct Hs as [Hk Hv].
    pose proof (forallb_Forall (fun kv => storable (snd kv))
                  (fun kv => reads_back (snd kv)) ps IH Hv) as HP.
    unfold value_text in Hf |- *. rewrite (stringify_object ps Hv) in Hf |- *.
    destruct f as [|f]; [simpl in Hf; lia|].
    destruct ps as [|[k x] ps].
    + reflexivity.
    + cbn [List.length] in Hf. rewrite length_app in Hf. cbn [List.length] in Hf.
      assert (Hj : exists j, join (lit ",") (map member_text ((k, x) :: ps))
                             = quote_char :: j).
      { destruct ps; eexists; cbn [map join]; unfold member_text at 1;
          unfold Json.quote; reflexivity. }
      destruct Hj as (j & Ej).
      cbn [app]. rewrite <- app_assoc. cbn [app].
      rewrite Ej at 1. cbn [app].
      rewrite (parse_value_object f quote_char _).
      2:{ repeat split; discriminate. }
      change (quote_char :: j ++ "}"%char :: r) with ((quote_char :: j) ++ "}"%char :: r).
      rewrite <- Ej.
      rewrite parse_members_join; [|exact HP|discriminate|lia].
      rewrite (object_of_nodup _ Hk). reflexivity.
Qed.

(** [JSON.parse(JSON.stringify(v))] is [v] for every storable [v]. *)
Theorem parse_stringify v s :
  storable v = true -> Json.stringify v = Some s -> Json.parse s = Ok v.
Proof.
  intros Hs E. unfold Json.stringify in E.
  destruct (stringify_some v Hs) as (t & Et). rewrite Et in E.
  injection E as <-. unfold Json.parse, Json.parse_text.
  rewrite list_ascii_of_string_of_list_ascii.
  pose proof (storable_reads_back v Hs (2 * List.length t + 2)%nat []) as R.
  unfold value_text in R. rewrite Et, app_nil_r in R.
  rewrite R; [reflexivity|lia|exact I].
Qed.

End JsonFacts.

(** ** The cart engine *)

Module CartFacts.
Import Client.
Local Open Scope string_scope.

(** *** Statements that leave a component of the state alone *)

Section Keeps.
Context {X : Type} (f : state -> X).

Lemma keeps_ret {A} (a : A) : keeps f (ret a).
Proof. intros st. reflexivity. Qed.

Lemma keeps_throw {A} e : keeps f (@throw A e).
Proof. intros st. reflexivity. Qed.

Lemma keeps_lift {A} (r : result A) : keeps f (lift r).
Proof. intros st. reflexivity. Qed.

Lemma keeps_read {A} (g : state -> A) : keeps f (read g).
Proof. intros st. reflexivity. Qed.

Lemma keeps_seq {A B} (m : M A) (k : A -> M B) :
  keeps f m -> (forall a, keeps f (k a)) -> keeps f (seq m k).
Proof.
  intros Hm Hk st. unfold seq. specialize (Hm st).
  destruct (m st) as [[a|e] st']; simpl in *; [|exact Hm].
  rewrite (Hk a st'). exact Hm.
Qed.

Lemma keeps_update (g : state -> state) :
  (forall st, f (g st) = f st) -> keeps f (update g).
Proof. intros H st. apply H. Qed.

End Keeps.

Lemma keeps_show e : keeps_cart (update (show e)).
Proof. intros st. reflexivity. Qed.

Lemma keeps_showToast m k : keeps_cart (showToast m k).
Proof. apply keeps_show. Qed.

Lemma keeps_bumpCartIcon : keeps_cart bumpCartIcon.
Proof. apply keeps_show. Qed.

Lemma keeps_saveCart : keeps_cart saveCart.
Proof. intros st. reflexivity. Qed.

Lemma keeps_updateCartUI : keeps_cart updateCartUI.
Proof.
  unfold updateCartUI. apply keeps_seq; [apply keeps_read|]. intros c.
  apply keeps_seq; [apply keeps_lift|]. intros n.
  destruct c as [ | | | | | [|x l] | ]; try apply keeps_show;
    (apply keeps_seq; [apply keeps_lift|intros; apply keeps_show]).
Qed.

(** The cart after [m ;; k] when [k] leaves it alone. *)
Lemma cart_seq_keeps {A B} (m : M A) (k : A -> M B) st :
  (forall a, keeps_cart (k a)) ->
  cart (snd (seq m k st)) = cart (snd (m st)).
Proof.
  intros Hk. unfold seq. destruct (m st) as [[a|e] st']; simpl; [|reflexivity].
  apply Hk.
Qed.

(** The end of every mutation: save, render. *)
Lemma keeps_save_render : keeps_cart (saveCart ;; updateCartUI).
Proof.
  apply keeps_seq; [apply keeps_saveCart|intros; apply keeps_updateCartUI].
Qed.

Lemma keeps_save_render_bump : keeps_cart (saveCart ;; updateCartUI ;; bumpCartIcon).
Proof.
  apply keeps_seq; [apply keeps_saveCart|intros].
  apply keeps_seq; [apply keeps_updateCartUI|intros; apply keeps_bumpCartIcon].
Qed.

(** *** Properties *)

Lemma lookup_assign_same k v ps : lookup k (assign k v ps) = Some v.
Proof.
  induction ps as [|[k' v'] ps IH]; simpl.
  - rewrite String.eqb_refl. reflexivity.
  - destruct (String.eqb k k') eqn:E; simpl.
    + rewrite String.eqb_refl. reflexivity.
    + rewrite E. exact IH.
Qed.

Lemma lookup_assign_other k k' v ps :
  String.eqb k' k = false -> lookup k' (assign k v ps) = lookup k' ps.
Proof.
  intros N. induction ps as [|[k0 v0] ps IH]; simpl.
  - rewrite N. reflexivity.
  - destruct (String.eqb k k0) eqn:E; simpl.
    + apply String.eqb_eq in E. subst k0. rewrite N. reflexivity.
    + destruct (String.eqb k' k0); [reflexivity|exact IH].
Qed.

(** *** Searching by identifier *)

Lemma has_id_line_id p item :
  truthy item = true -> has_id p item = Ok (String.eqb (line_id item) p).
Proof.
  unfold has_id, line_id.
  destruct item; try discriminate; intros _; simpl;
    try reflexivity.
  destruct (lookup "_id" props); reflexivity.
Qed.

Lemma is_line_object item : is_line item = true -> is_object item = true.
Proof. unfold is_line. intros H. apply andb_true_iff in H. tauto. Qed.

Lemma is_object_truthy item : is_object item = true -> truthy item = true.
Proof. destruct item; simpl; congruence. Qed.

Lemma find_index_lines p l i :
  forallb is_object l = true ->
  find_index (has_id p) l i =
  Ok (option_map (Nat.add i) (index_of p (map line_id l))).
Proof.
  revert i. induction l as [|x l IH]; intros i H; simpl; [reflexivity|].
  simpl in H. apply andb_true_iff in H. destruct H as [Hx Hl].
  rewrite (has_id_line_id p x (is_object_truthy x Hx)). simpl.
  destruct (String.eqb (line_id x) p).
  - simpl. f_equal. f_equal. lia.
  - rewrite (IH (S i) Hl). destruct (index_of p (map line_id l)); simpl; [|reflexivity].
    f_equal. f_equal. lia.
Qed.

Lemma forallb_impl {A} (p q : A -> bool) l :
  (forall x, p x = true -> q x = true) ->
  forallb p l = true -> forallb q l = true.
Proof.
  intros H. induction l as [|x l IH]; simpl; [reflexivity|].
  intros E. apply andb_true_iff in E. destruct E as [E1 E2].
  rewrite (H x E1), (IH E2). reflexivity.
Qed.

Lemma find_lines p l :
  forallb is_line l = true ->
  find (JArr l) (has_id p) = Ok (index_of p (map line_id l)).
Proof.
  intros H. unfold find.
  rewrite (find_index_lines p l 0 (forallb_impl _ _ l is_line_object H)).
  destruct (index_of p (map line_id l)); reflexivity.
Qed.

Lemma index_of_some p (l : list jsval) j :
  index_of p (map line_id l) = Some j ->
  (j < List.length l)%nat /\ line_id (nth j l JUndefined) = p.
Proof.
  revert j. induction l as [|x l IH]; intros j; simpl; [discriminate|].
  destruct (String.eqb (line_id x) p) eqn:E.
  - intros [= <-]. apply String.eqb_eq in E. split; [lia|exact E].
  - destruct (index_of p (map line_id l)) as [j'|]; [|discriminate].
    intros [= <-]. destruct (IH j' eq_refl). split; [lia|assumption].
Qed.

Lemma index_of_none p ids : index_of p ids = None <-> ~ In p ids.
Proof.
  induction ids as [|x ids IH]; simpl.
  - split; [intros _ []|reflexivity].
  - destruct (String.eqb x p) eqn:E.
    + apply String.eqb_eq in E. split; [discriminate|]. intros H. exfalso. apply H. left. exact E.
    + apply String.eqb_neq in E.
      destruct (index_of p ids); simpl.
      * split; [discriminate|]. intros H. exfalso. apply H. right.
        apply Decidable.not_not; [|intros N; apply IH in N; discriminate].
        destruct (in_dec string_dec p ids); [left|right]; assumption.
      * split; [|reflexivity]. intros _ [H|H]; [contradiction|].
        revert H. apply IH. reflexivity.
Qed.


(** *** Lines *)

Lemma cart_inv_spec c :
  cart_inv c = true <->
  exists l, c = JArr l /\ nodupb (map line_id l) = true /\ forallb is_line l = true.
Proof.
  unfold cart_inv. split.
  - destruct c; simpl; try discriminate. intros H.
    apply andb_true_iff in H. exists items. tauto.
  - intros (l & -> & N & L). simpl. rewrite N, L. reflexivity.
Qed.

Lemma is_line_spec item :
  is_line item = true <->
  exists ps q, item = JObj ps /\ lookup "quantity" ps = Some (JInt q) /\ (1 <= q)%Z.
Proof.
  unfold is_line, line_quantity. split.
  - destruct item as [ | | | | | |ps]; simpl; try discriminate.
    destruct (lookup "quantity" ps) as [[ | | |[ | |[q [|s]]]| | | ]|] eqn:E;
      try discriminate.
    intros H. apply Z.leb_le in H. exists ps, q. split; [reflexivity|].
    split; [exact E|exact H].
  - intros (ps & q & -> & E & H). simpl. rewrite E. simpl.
    apply Z.leb_le. exact H.
Qed.

Lemma line_id_with_quantity q item : line_id (with_quantity q item) = line_id item.
Proof.
  destruct item as [ | | | | | |ps]; try reflexivity.
  unfold line_id, with_quantity, prop.
  rewrite lookup_assign_other by reflexivity. reflexivity.
Qed.

Lemma is_line_with_quantity q item :
  is_object item = true -> (1 <= q)%Z -> is_line (with_quantity q item) = true.
Proof.
  destruct item as [ | | | | | |ps]; try discriminate. intros _ H.
  apply is_line_spec. exists (assign "quantity" (JInt q) ps), q.
  repeat split; [apply lookup_assign_same|exact H].
Qed.

Lemma js_add_int a b : js_add (JInt a) (JInt b) = JInt (a + b).
Proof.
  unfold js_add, JInt, num_of_Z. simpl. rewrite DecFacts.of_Z_add. reflexivity.
Qed.

Lemma js_le_int a b : js_le (JInt a) (JInt b) = (a <=? b)%Z.
Proof. unfold js_le, JInt, num_of_Z. simpl. apply DecFacts.leb_of_Z. Qed.

Lemma js_or_int q : (q <> 0)%Z -> js_or (JInt q) (JInt 1) = JInt q.
Proof.
  intros H. unfold js_or. simpl. unfold Dec.is_zero. simpl.
  apply Z.eqb_neq in H. rewrite H. reflexivity.
Qed.

Lemma quantity_or_1_line ps q :
  lookup "quantity" ps = Some (JInt q) -> (1 <= q)%Z ->
  quantity_or_1 (JObj ps) = Ok (JInt q).
Proof.
  intros E H. unfold quantity_or_1. simpl. rewrite E. simpl.
  rewrite js_or_int by lia. reflexivity.
Qed.

(** *** Lists of lines *)

Lemma map_replace_nth {A} (f : jsval -> A) j x l :
  f x = f (nth j l JUndefined) -> map f (replace_nth j x l) = map f l.
Proof.
  revert j. induction l as [|y l IH]; intros j H; destruct j; simpl in *;
    try reflexivity.
  - rewrite H. reflexivity.
  - rewrite (IH j H). reflexivity.
Qed.

Lemma forallb_replace_nth p j x l :
  p x = true -> forallb p l = true -> forallb p (replace_nth j x l) = true.
Proof.
  revert j. induction l as [|y l IH]; intros j Hx H; destruct j; simpl in *;
    try reflexivity; apply andb_true_iff in H; destruct H as [H1 H2].
  - rewrite Hx, H2. reflexivity.
  - rewrite H1, (IH j Hx H2). reflexivity.
Qed.

Lemma forallb_nth {A} (p : A -> bool) l j d :
  forallb p l = true -> (j < List.length l)%nat -> p (nth j l d) = true.
Proof.
  intros H L. rewrite forallb_forall in H. apply H, nth_In, L.
Qed.

Lemma nodupb_app_fresh ids p :
  nodupb ids = true -> ~ In p ids -> nodupb (ids ++ [p]) = true.
Proof.
  induction ids as [|x ids IH]; intros N F; [reflexivity|].
  simpl in *. apply andb_true_iff in N. destruct N as [Nx N].
  rewrite (IH N) by tauto. rewrite andb_true_r.
  rewrite existsb_app. simpl. rewrite orb_false_r.
  apply negb_true_iff in Nx. rewrite Nx. simpl.
  apply negb_true_iff. apply String.eqb_neq. intros E. apply F. left. exact E.
Qed.

Lemma nodupb_filter (f : string -> bool) ids :
  nodupb ids = true -> nodupb (filter f ids) = true.
Proof.
  induction ids as [|x ids IH]; intros N; [reflexivity|].
  simpl in N. apply andb_true_iff in N. destruct N as [Nx N].
  simpl. destruct (f x); [|exact (IH N)].
  simpl. rewrite (IH N), andb_true_r.
  apply negb_true_iff in Nx. apply negb_true_iff.
  apply not_true_is_false. intros E. apply existsb_exists in E.
  destruct E as (y & Hy & Exy). apply filter_In in Hy.
  assert (X : existsb (String.eqb x) ids = true)
    by (apply existsb_exists; exists y; tauto).
  congruence.
Qed.

Lemma ids_without p l :
  map line_id (without p l) =
  filter (fun i => negb (String.eqb i p)) (map line_id l).
Proof.
  unfold without. induction l as [|x l IH]; [reflexivity|].
  simpl. destruct (negb (String.eqb (line_id x) p)); simpl; rewrite IH; reflexivity.
Qed.

Lemma forallb_filter {A} (p f : A -> bool) l :
  forallb p l = true -> forallb p (filter f l) = true.
Proof.
  induction l as [|x l IH]; intros H; [reflexivity|].
  simpl in H. apply andb_true_iff in H. destruct H as [H1 H2].
  simpl. destruct (f x); simpl; [rewrite H1|]; exact (IH H2).
Qed.

Lemma not_in_without p l : ~ In p (map line_id (without p l)).
Proof.
  rewrite ids_without. intros H. apply filter_In in H.
  destruct H as [_ H]. rewrite String.eqb_refl in H. discriminate.
Qed.

(** *** What each operation does to the cart *)

Ltac run1 :=
  unfold seq at 1; cbn [read lift ret update throw fst snd].

Lemma filter_items_lines p l :
  forallb is_object l = true ->
  filter_items (fun item => let* b := has_id p item in Ok (negb b)) l
  = Ok (without p l).
Proof.
  unfold without. induction l as [|x l IH]; intros H; [reflexivity|].
  simpl in H. apply andb_true_iff in H. destruct H as [Hx Hl].
  simpl. rewrite (has_id_line_id p x (is_object_truthy x Hx)). simpl.
  rewrite (IH Hl). simpl. reflexivity.
Qed.

Lemma removeFromCart_cart p st l :
  cart st = JArr l -> forallb is_object l = true ->
  cart (snd (removeFromCart p st)) = JArr (without p l).
Proof.
  intros Ec Ho. unfold removeFromCart. run1. rewrite Ec. run1.
  rewrite (filter_items_lines p l Ho).
  unfold seq at 1. cbn [update fst snd].
  rewrite (keeps_save_render _). reflexivity.
Qed.


Lemma nth_replace_nth j x l d :
  (j < List.length l)%nat -> nth j (replace_nth j x l) d = x.
Proof.
  revert j. induction l as [|y l IH]; intros j H; simpl in H; [lia|].
  destruct j; simpl; [reflexivity|]. apply IH. lia.
Qed.

Lemma without_replace_nth p j x l :
  line_id x = p -> line_id (nth j l JUndefined) = p ->
  without p (replace_nth j x l) = without p l.
Proof.
  unfold without. revert j. induction l as [|y l IH]; intros j Hx Hy;
    destruct j; simpl in *; try reflexivity.
  - rewrite Hx, Hy, String.eqb_refl. reflexivity.
  - rewrite (IH j Hx Hy). reflexivity.
Qed.

(** The line the search stops at, under the invariant. *)
Lemma found_line p l j :
  forallb is_line l = true -> index_of p (map line_id l) = Some j ->
  exists ps q,
    nth j l JUndefined = JObj ps /\ lookup "quantity" ps = Some (JInt q) /\
    (1 <= q)%Z /\ (j < List.length l)%nat /\ line_id (JObj ps) = p.
Proof.
  intros Hl Hj. destruct (index_of_some p l j Hj) as [Lj Ij].
  pose proof (forallb_nth is_line l j JUndefined Hl Lj) as Hline.
  apply is_line_spec in Hline. destruct Hline as (ps & q & E & Q & H).
  exists ps, q. rewrite E in Ij. tauto.
Qed.

Lemma line_quantity_obj ps q :
  lookup "quantity" ps = Some (JInt q) -> line_quantity (JObj ps) = Some q.
Proof. intros E. unfold line_quantity. simpl. rewrite E. reflexivity. Qed.

Lemma changeQty_cart p d st l :
  cart st = JArr l -> forallb is_line l = true ->
  cart (snd (changeQty p d st)) =
  match index_of p (map line_id l) with
  | None => JArr l
  | Some j =>
      match line_quantity (nth j l JUndefined) with
      | Some q =>
          if (q + d <=? 0)%Z then JArr (without p l)
          else JArr (replace_nth j (with_quantity (q + d) (nth j l JUndefined)) l)
      | None => JArr l
      end
  end.
Proof.
  intros Ec Hl. unfold changeQty. run1. rewrite Ec. run1.
  rewrite (find_lines p l Hl).
  destruct (index_of p (map line_id l)) as [j|] eqn:Hj.
  2:{ cbn [found truthy negb ret snd]. exact Ec. }
  destruct (found_line p l j Hl Hj) as (ps & q & En & Eq & Hq & Lj & Hid).
  cbn [found element]. rewrite En. cbn [truthy negb].
  rewrite (line_quantity_obj ps q Eq).
  run1. rewrite (quantity_or_1_line ps q Eq Hq).
  run1. rewrite js_add_int.
  cbn [set_found]. unfold set_element_prop. rewrite Ec. cbn [element]. rewrite En.
  cbn [set_prop set_cart cart].
  run1. cbn [found element cart set_cart]. rewrite nth_replace_nth by exact Lj.
  cbn [prop]. rewrite lookup_assign_same. run1. rewrite js_le_int.
  cbn [with_quantity].
  set (item' := JObj (assign "quantity" (JInt (q + d)) ps)).
  assert (Hid' : line_id item' = p).
  { change item' with (with_quantity (q + d) (JObj ps)).
    rewrite line_id_with_quantity. exact Hid. }
  destruct (q + d <=? 0)%Z.
  - rewrite (removeFromCart_cart p _ (replace_nth j item' l)); [|reflexivity|].
    + rewrite without_replace_nth; [reflexivity|exact Hid'|rewrite En; exact Hid].
    + apply forallb_replace_nth; [reflexivity|].
      apply (forallb_impl _ _ l is_line_object Hl).
  - rewrite keeps_save_render. reflexivity.
Qed.


Lemma addToCart_cart p st l :
  cart st = JArr l -> forallb is_line l = true ->
  cart (snd (addToCart p st)) =
  match find (allProducts st) (has_id p) with
  | Ok p_at =>
      let product := found (allProducts st) p_at in
      if truthy product then
        match index_of p (map line_id l) with
        | Some j =>
            match line_quantity (nth j l JUndefined) with
            | Some q =>
                JArr (replace_nth j (with_quantity (q + 1) (nth j l JUndefined)) l)
            | None => JArr l
            end
        | None => JArr (l ++ [JObj (assign "quantity" (JInt 1) (spread product))])
        end
      else JArr l
  | Throw _ => JArr l
  end.
Proof.
  intros Ec Hl. unfold addToCart. run1. run1.
  destruct (find (allProducts st) (has_id p)) as [p_at|e]; [|exact Ec].
  cbv zeta. destruct (truthy (found (allProducts st) p_at)) eqn:Tp;
    cbn [negb]; [|exact Ec].
  run1. rewrite Ec. run1. rewrite (find_lines p l Hl).
  rewrite cart_seq_keeps by (intros; apply keeps_save_render_bump).
  destruct (index_of p (map line_id l)) as [j|] eqn:Hj.
  - destruct (found_line p l j Hl Hj) as (ps & q & En & Eq & Hq & Lj & Hid).
    cbn [found element]. rewrite En. cbn [truthy].
    rewrite (line_quantity_obj ps q Eq).
    run1. rewrite (quantity_or_1_line ps q Eq Hq). rewrite js_add_int.
    rewrite cart_seq_keeps.
    2:{ intros. apply keeps_seq; [apply keeps_lift|intros; apply keeps_showToast]. }
    cbn [set_found]. unfold set_element_prop. rewrite Ec. cbn [element].
    rewrite En. reflexivity.
  - cbn [found truthy].
    rewrite cart_seq_keeps.
    2:{ intros. apply keeps_seq; [apply keeps_lift|intros; apply keeps_showToast]. }
    unfold push. run1. rewrite Ec. reflexivity.
Qed.

(** *** The invariant *)

Lemma index_key_not_id i :
  String.eqb "_id" (string_of_list_ascii (digits (Z.of_nat i))) = false.
Proof.
  pose proof (DigitFacts.digits_all (Z.of_nat i) ltac:(lia)) as Hd.
  destruct (DigitFacts.digits_head (Z.of_nat i) ltac:(lia)) as (c & t & E & _).
  rewrite E in *. simpl in Hd. apply andb_true_iff in Hd. destruct Hd as [Hc _].
  apply TextFacts.is_digit_range in Hc.
  cbn [string_of_list_ascii String.eqb].
  destruct (Ascii.eqb "_" c) eqn:C; [|reflexivity].
  apply Ascii.eqb_eq in C. subst c.
  change (code "_"%char) with 95%Z in Hc. lia.
Qed.

Lemma lookup_indexed i l : lookup "_id" (indexed i l) = None.
Proof.
  revert i. induction l as [|x l IH]; intros i; cbn [indexed lookup];
    [reflexivity|].
  rewrite index_key_not_id. apply IH.
Qed.

(** The new line carries the identifier the product was found by. *)
Lemma spread_id p product :
  truthy product = true -> has_id p product = Ok true ->
  line_id (JObj (assign "quantity" (JInt 1) (spread product))) = p.
Proof.
  intros T H. unfold line_id. cbn [prop].
  rewrite lookup_assign_other by reflexivity.
  rewrite (has_id_line_id p product T) in H. injection H as H.
  apply String.eqb_eq in H. rewrite <- H. unfold line_id.
  destruct product; try discriminate; cbn [spread prop];
    rewrite ?lookup_indexed; reflexivity.
Qed.

Lemma find_index_true p l i j :
  find_index (has_id p) l i = Ok (Some j) ->
  has_id p (nth (j - i) l JUndefined) = Ok true /\ (i <= j)%nat.
Proof.
  revert i. induction l as [|x l IH]; intros i; simpl; [discriminate|].
  destruct (has_id p x) as [[|]|e] eqn:E; simpl; try discriminate.
  - intros [= <-]. rewrite Nat.sub_diag. split; [exact E|lia].
  - intros H. destruct (IH (S i) H) as [H1 H2].
    replace (j - i)%nat with (S (j - S i)) by lia. split; [exact H1|lia].
Qed.

Lemma found_has_id p a p_at :
  find a (has_id p) = Ok p_at -> truthy (found a p_at) = true ->
  has_id p (found a p_at) = Ok true.
Proof.
  destruct p_at as [j|]; [|discriminate].
  destruct a; try discriminate. cbn [find found element]. intros H _.
  destruct (find_index_true p items 0 j H) as [H1 _].
  rewrite Nat.sub_0_r in H1. exact H1.
Qed.

(** Every operation of the cart engine keeps the invariant. *)
Lemma step_inv o st :
  cart_inv (cart st) = true -> cart_inv (cart (snd (step o st))) = true.
Proof.
  intros Inv. pose proof Inv as Inv0.
  apply cart_inv_spec in Inv. destruct Inv as (l & Ec & Nd & Hl).
  destruct o as [p|p|p d|]; cbn [step].
  - (* add *)
    rewrite (addToCart_cart p st l Ec Hl).
    destruct (find (allProducts st) (has_id p)) as [p_at|e] eqn:F;
      [|rewrite <- Ec; exact Inv0].
    cbv zeta. destruct (truthy (found (allProducts st) p_at)) eqn:T;
      [|rewrite <- Ec; exact Inv0].
    destruct (index_of p (map line_id l)) as [j|] eqn:Hj.
    + destruct (found_line p l j Hl Hj) as (ps & q & En & Eq & Hq & Lj & Hid).
      rewrite En, (line_quantity_obj ps q Eq).
      apply cart_inv_spec. eexists. split; [reflexivity|]. split.
      * rewrite map_replace_nth; [exact Nd|].
        rewrite En. apply line_id_with_quantity.
      * apply forallb_replace_nth; [|exact Hl].
        apply is_line_with_quantity; [reflexivity|lia].
    + apply cart_inv_spec. eexists. split; [reflexivity|]. split.
      * rewrite map_app. cbn [map].
        rewrite (spread_id p _ T (found_has_id p _ p_at F T)).
        apply nodupb_app_fresh; [exact Nd|]. apply index_of_none. exact Hj.
      * rewrite forallb_app, Hl. cbn [forallb]. rewrite andb_true_r.
        apply is_line_spec. eexists _, 1%Z.
        split; [reflexivity|]. split; [apply lookup_assign_same|lia].
  - (* remove *)
    rewrite (removeFromCart_cart p st l Ec (forallb_impl _ _ l is_line_object Hl)).
    apply cart_inv_spec. eexists. split; [reflexivity|]. split.
    + rewrite ids_without. apply nodupb_filter. exact Nd.
    + apply forallb_filter. exact Hl.
  - (* change *)
    rewrite (changeQty_cart p d st l Ec Hl).
    destruct (index_of p (map line_id l)) as [j|] eqn:Hj;
      [|rewrite <- Ec; exact Inv0].
    destruct (found_line p l j Hl Hj) as (ps & q & En & Eq & Hq & Lj & Hid).
    rewrite En, (line_quantity_obj ps q Eq).
    destruct (q + d <=? 0)%Z eqn:C.
    + apply cart_inv_spec. eexists. split; [reflexivity|]. split.
      * rewrite ids_without. apply nodupb_filter. exact Nd.
      * apply forallb_filter. exact Hl.
    + apply Z.leb_gt in C.
      apply cart_inv_spec. eexists. split; [reflexivity|]. split.
      * rewrite map_replace_nth; [exact Nd|].
        rewrite En. apply line_id_with_quantity.
      * apply forallb_replace_nth; [|exact Hl].
        apply is_line_with_quantity; [reflexivity|lia].
  - (* clear *)
    unfold clearCart. rewrite cart_seq_keeps by (intros; apply keeps_save_render).
    reflexivity.
Qed.

Lemma run_inv ops st :
  cart_inv (cart st) = true -> cart_inv (cart (run ops st)) = true.
Proof.
  revert st. induction ops as [|o ops IH]; intros st H; [exact H|].
  simpl. apply IH, step_inv, H.
Qed.


(** *** The product list is never written *)

Lemma keeps_products_set_element_prop i k x :
  keeps allProducts (set_element_prop i k x).
Proof.
  intros st. unfold set_element_prop.
  destruct (set_prop (element (cart st) i) k x); [|reflexivity].
  destruct (cart st); reflexivity.
Qed.

Ltac keeps_products :=
  repeat first
    [ apply keeps_seq; [|intros ?]
    | apply keeps_ret | apply keeps_throw | apply keeps_lift | apply keeps_read
    | apply keeps_products_set_element_prop
    | apply keeps_update; intros ?; reflexivity
    | match goal with |- keeps _ (if ?b then _ else _) => destruct b end
    | match goal with |- keeps _ (match ?x with _ => _ end) => destruct x end ].

Lemma keeps_products_updateCartUI : keeps allProducts updateCartUI.
Proof. unfold updateCartUI. keeps_products. Qed.

Lemma keeps_products_removeFromCart p : keeps allProducts (removeFromCart p).
Proof.
  unfold removeFromCart, saveCart. keeps_products.
Qed.

Lemma keeps_products_step o : keeps allProducts (step o).
Proof.
  destruct o as [p|p|p d|]; cbn [step].
  - unfold addToCart, saveCart, showToast, bumpCartIcon, set_found, push.
    keeps_products.
  - apply keeps_products_removeFromCart.
  - unfold changeQty, saveCart, set_found. keeps_products.
  - unfold clearCart, saveCart. keeps_products.
Qed.

End CartFacts.

Module CartTheorems.
Import Client CartFacts.

Lemma index_of_app_fresh p ids :
  ~ In p ids -> index_of p (ids ++ [p]) = Some (List.length ids).
Proof.
  induction ids as [|x ids IH]; intros F; simpl.
  - rewrite String.eqb_refl. reflexivity.
  - destruct (String.eqb x p) eqn:E.
    + apply String.eqb_eq in E. exfalso. apply F. left. exact E.
    + rewrite IH; [reflexivity|]. intros H. apply F. right. exact H.
Qed.

Lemma replace_nth_last x y l :
  replace_nth (List.length l) y (l ++ [x]) = l ++ [y].
Proof. induction l as [|z l IH]; simpl; [reflexivity|]. rewrite IH. reflexivity. Qed.

Lemma lines_inv c : cart_inv c = true -> c = JArr (lines c).
Proof. intros H. apply cart_inv_spec in H. destruct H as (l & -> & _). reflexivity. Qed.

Lemma inv_lines c : cart_inv c = true -> forallb is_line (lines c) = true.
Proof. intros H. apply cart_inv_spec in H. destruct H as (l & -> & _ & H). exact H. Qed.

(** Adding a product that is not in the cart, twice. *)
Lemma add_twice p p_at st :
  cart_inv (cart st) = true ->
  find (allProducts st) (has_id p) = Ok p_at ->
  truthy (found (allProducts st) p_at) = true ->
  ~ In p (map line_id (lines (cart st))) ->
  exists line,
    cart (run [Add p; Add p] st) = JArr (lines (cart st) ++ [line]) /\
    line_id line = p /\ line_quantity line = Some 2%Z.
Proof.
  intros Inv F T Fresh.
  pose proof (lines_inv _ Inv) as Ec. pose proof (inv_lines _ Inv) as Hl.
  set (l := lines (cart st)) in *.
  set (line1 := JObj (assign "quantity" (JInt 1) (spread (found (allProducts st) p_at)))).
  assert (Hid1 : line_id line1 = p)
    by (apply spread_id; [exact T|apply (found_has_id p _ p_at F T)]).
  (* the first call appends the line *)
  assert (E1 : cart (snd (addToCart p st)) = JArr (l ++ [line1])).
  { rewrite (addToCart_cart p st l Ec Hl), F. cbv zeta. rewrite T.
    apply index_of_none in Fresh. rewrite Fresh. reflexivity. }
  (* the second call finds it *)
  pose proof (step_inv (Add p) st Inv) as Inv1. cbn [step] in Inv1.
  pose proof (keeps_products_step (Add p) st) as P1. cbn [step] in P1.
  pose proof (inv_lines _ Inv1) as Hl1. rewrite E1 in Hl1. cbn [lines] in Hl1.
  exists (with_quantity 2 line1).
  cbn [run step].
  rewrite (addToCart_cart p _ (l ++ [line1]) E1 Hl1), P1, F. cbv zeta. rewrite T.
  rewrite map_app. cbn [map]. rewrite Hid1.
  rewrite (index_of_app_fresh p _ Fresh), length_map.
  rewrite nth_middle.
  assert (Q1 : line_quantity line1 = Some 1%Z).
  { unfold line1. apply line_quantity_obj, lookup_assign_same. }
  rewrite Q1. cbn [Z.add Pos.add]. rewrite replace_nth_last.
  split; [reflexivity|]. split.
  - rewrite line_id_with_quantity. exact Hid1.
  - unfold line1. cbn [with_quantity]. apply line_quantity_obj, lookup_assign_same.
Qed.

(** A change of quantity that reaches zero deletes the line. *)
Lemma change_to_zero p j q delta st :
  cart_inv (cart st) = true ->
  index_of p (map line_id (lines (cart st))) = Some j ->
  line_quantity (nth j (lines (cart st)) JUndefined) = Some q ->
  (q + delta <= 0)%Z ->
  cart (snd (changeQty p delta st)) = JArr (without p (lines (cart st))) /\
  ~ In p (map line_id (without p (lines (cart st)))).
Proof.
  intros Inv Hj Hq Hd.
  rewrite (changeQty_cart p delta st _ (lines_inv _ Inv) (inv_lines _ Inv)).
  rewrite Hj, Hq. apply Z.leb_le in Hd. rewrite Hd.
  split; [reflexivity|apply not_in_without].
Qed.

End CartTheorems.


Module TotalFacts.
Import Client CartFacts CartTheorems.

Lemma find_index_bound p l i j :
  find_index (has_id p) l i = Ok (Some j) -> (i <= j < i + List.length l)%nat.
Proof.
  revert i. induction l as [|x l IH]; intros i; simpl; [discriminate|].
  destruct (has_id p x) as [[|]|e]; simpl; try discriminate.
  - intros [= <-]. lia.
  - intros H. apply IH in H. lia.
Qed.

(** What the search of a list returns is an element of the list. *)
Lemma found_in p a j :
  find a (has_id p) = Ok (Some j) -> In (found a (Some j)) (lines a).
Proof.
  destruct a; try discriminate. cbn [find found element lines]. intros H.
  apply find_index_bound in H. apply nth_In. lia.
Qed.

Lemma is_priced_spec item :
  is_priced item = true <->
  exists ps d, item = JObj ps /\ lookup "price" ps = Some (JNum (Fin d)).
Proof.
  unfold is_priced, line_price. split.
  - destruct item as [ | | | | | |ps]; simpl; try discriminate.
    destruct (lookup "price" ps) as [[ | | |[ | |d]| | | ]|] eqn:E; try discriminate.
    intros _. exists ps, d. split; [reflexivity|exact E].
  - intros (ps & d & -> & E). simpl. rewrite E. reflexivity.
Qed.

Lemma is_priced_with_quantity q item :
  is_priced (with_quantity q item) = is_priced item.
Proof.
  destruct item as [ | | | | | |ps]; try reflexivity.
  unfold is_priced, line_price, with_quantity, prop.
  rewrite lookup_assign_other by reflexivity. reflexivity.
Qed.

Lemma is_priced_new_line product :
  is_priced product = true ->
  is_priced (JObj (assign "quantity" (JInt 1) (spread product))) = true.
Proof.
  intros H. apply is_priced_spec in H. destruct H as (ps & d & -> & E).
  apply is_priced_spec. eexists _, d. split; [reflexivity|].
  cbn [spread]. rewrite lookup_assign_other by reflexivity. exact E.
Qed.

Lemma replace_nth_overflow j x l :
  (List.length l <= j)%nat -> replace_nth j x l = l.
Proof.
  revert j. induction l as [|y l IH]; intros j H; destruct j; simpl in *;
    try reflexivity; [lia|]. rewrite IH by lia. reflexivity.
Qed.

(** Every operation keeps the lines priced, the products being so. *)
Lemma step_priced o st :
  cart_inv (cart st) = true ->
  forallb is_priced (lines (cart st)) = true ->
  forallb is_priced (lines (allProducts st)) = true ->
  forallb is_priced (lines (cart (snd (step o st)))) = true.
Proof.
  intros Inv Hp Hc.
  pose proof (lines_inv _ Inv) as Ec. pose proof (inv_lines _ Inv) as Hl.
  set (l := lines (cart st)) in *.
  assert (Hrep : forall j q,
             forallb is_priced
               (replace_nth j (with_quantity q (nth j l JUndefined)) l) = true).
  { intros j q. destruct (Nat.lt_ge_cases j (List.length l)) as [L|L].
    - apply forallb_replace_nth; [|exact Hp].
      rewrite is_priced_with_quantity. apply forallb_nth; assumption.
    - rewrite replace_nth_overflow by exact L. exact Hp. }
  destruct o as [p|p|p d|]; cbn [step].
  - rewrite (addToCart_cart p st l Ec Hl).
    destruct (find (allProducts st) (has_id p)) as [p_at|e] eqn:F; [|exact Hp].
    cbv zeta. destruct (truthy (found (allProducts st) p_at)) eqn:T; [|exact Hp].
    destruct (index_of p (map line_id l)) as [j|].
    + destruct (line_quantity (nth j l JUndefined)); [apply Hrep|exact Hp].
    + cbn [lines]. rewrite forallb_app, Hp. cbn [forallb]. rewrite andb_true_r.
      apply is_priced_new_line.
      destruct p_at as [i|]; [|discriminate].
      rewrite forallb_forall in Hc. apply Hc, (found_in p _ i F).
  - rewrite (removeFromCart_cart p st l Ec (forallb_impl _ _ l is_line_object Hl)).
    apply forallb_filter. exact Hp.
  - rewrite (changeQty_cart p d st l Ec Hl).
    destruct (index_of p (map line_id l)) as [j|]; [|exact Hp].
    destruct (line_quantity (nth j l JUndefined)) as [q|]; [|exact Hp].
    destruct (q + d <=? 0)%Z; [apply forallb_filter; exact Hp|apply Hrep].
  - unfold clearCart. rewrite cart_seq_keeps by (intros; apply keeps_save_render).
    reflexivity.
Qed.

Lemma run_priced ops st :
  cart_inv (cart st) = true ->
  forallb is_priced (lines (cart st)) = true ->
  forallb is_priced (lines (allProducts st)) = true ->
  cart_inv (cart (run ops st)) = true /\
  forallb is_priced (lines (cart (run ops st))) = true.
Proof.
  revert st. induction ops as [|o ops IH]; intros st Inv Hp Hc; [tauto|].
  cbn [run]. apply IH.
  - apply step_inv, Inv.
  - apply step_priced; assumption.
  - rewrite (keeps_products_step o st). exact Hc.
Qed.

(** The loop of [getCartTotal] over priced lines. *)
Lemma total_lines l acc :
  forallb is_line l = true -> forallb is_priced l = true ->
  exists t,
    reduce (fun sum item =>
              let* p := prop item "price" in
              let* q := quantity_or_1 item in
              Ok (num_add sum (js_mul p q)))
           l (Fin acc) = Ok (Fin t) /\
    (Dec.toQ t == Dec.toQ acc + exact_total l)%Q.
Proof.
  revert acc. induction l as [|item l IH]; intros acc Hl Hp.
  - exists acc. split; [reflexivity|]. simpl. ring.
  - cbn [forallb] in Hl, Hp. apply andb_true_iff in Hl, Hp.
    destruct Hl as [Hi Hl], Hp as [Pi Hp].
    apply is_line_spec in Hi. destruct Hi as (ps & q & -> & Eq & Hq).
    apply is_priced_spec in Pi. destruct Pi as (ps' & d & [= <-] & Ed).
    cbn [reduce]. cbn [prop]. rewrite Ed. cbn [bind].
    rewrite (quantity_or_1_line ps q Eq Hq). cbn [bind].
    change (js_mul (JNum (Fin d)) (JInt q)) with (Fin (Dec.mul d (Dec.of_Z q))).
    cbn [num_add].
    destruct (IH (Dec.add acc (Dec.mul d (Dec.of_Z q))) Hl Hp) as (t & Et & Ht).
    exists t. split; [exact Et|].
    rewrite Ht, DecFacts.toQ_add, DecFacts.toQ_mul, DecFacts.toQ_of_Z.
    cbn [exact_total]. unfold line_price, line_quantity. cbn [prop].
    rewrite Ed, Eq. cbn. ring.
Qed.

End TotalFacts.


(** ** Checkout, from the page *)

Module SubmitFacts.
Import Client CartFacts.

(** A reply that is no success makes the [try] block throw at once. *)
Lemma on_reply_failed name r st :
  succeeded r = false -> exists e, on_reply name r st = (Throw e, st).
Proof.
  destruct r as [|status body]; cbn [succeeded on_reply]; intros H.
  - eexists. reflexivity.
  - unfold seq at 1. cbn [lift].
    destruct (Json.parse body) as [data|e]; [|eexists; reflexivity].
    rewrite andb_true_r in H. rewrite H. cbn [negb].
    unfold seq at 1. unfold seq at 1. cbn [lift].
    destruct (prop data "error") as [err|e]; eexists; reflexivity.
Qed.

Lemma keeps_carts_show e : keeps carts (update (show e)).
Proof. intros st. reflexivity. Qed.

Lemma keeps_carts_updateCartUI : keeps carts updateCartUI.
Proof.
  unfold updateCartUI. apply keeps_seq; [apply keeps_read|]. intros c.
  apply keeps_seq; [apply keeps_lift|]. intros n.
  destruct c as [ | | | | | [|x l] | ]; try apply keeps_carts_show;
    (apply keeps_seq; [apply keeps_lift|intros; apply keeps_carts_show]).
Qed.

Lemma clearCart_carts st :
  carts (snd (clearCart st)) = (JArr [], Some "[]"%string, S (writes st)).
Proof.
  unfold clearCart. unfold seq at 1. cbn [update].
  unfold seq at 1. cbn [saveCart update].
  rewrite keeps_carts_updateCartUI. reflexivity.
Qed.

(** A success clears the cart, in memory and in the storage. *)
Lemma on_reply_succeeded name r st :
  succeeded r = true ->
  carts (snd (on_reply name r st)) = (JArr [], Some "[]"%string, S (writes st)).
Proof.
  destruct r as [|status body]; cbn [succeeded on_reply]; [discriminate|].
  intros H. apply andb_true_iff in H. destruct H as [Hok Hp].
  unfold seq at 1. cbn [lift].
  destruct (Json.parse body) as [data|e]; [|discriminate].
  rewrite Hok. cbn [negb].
  unfold seq at 1. cbn [ret]. unfold seq at 1. cbn [update].
  assert (K : forall a : unit,
             keeps carts
               (update (show FormReset) ;;
                orderId <- lift (prop data "orderId") ;;
                total <- lift (prop data "total") ;;
                showConfirmation orderId name total)).
  { intros _. apply keeps_seq; [apply keeps_carts_show|intros].
    apply keeps_seq; [apply keeps_lift|intros].
    apply keeps_seq; [apply keeps_lift|intros]. apply keeps_carts_show. }
  unfold seq at 1.
  pose proof (clearCart_carts (show CheckoutClosed st)) as C.
  destruct (clearCart (show CheckoutClosed st)) as [[u|e] st1]; cbn [snd] in *.
  - rewrite (K u st1). exact C.
  - exact C.
Qed.

Lemma try_catch_failed name r st :
  succeeded r = false ->
  carts (snd (try_catch (on_reply name r) toast_error st)) = carts st.
Proof.
  intros H. unfold try_catch.
  destruct (on_reply_failed name r st H) as (e & ->). reflexivity.
Qed.

Lemma try_catch_carts m st :
  carts (snd (try_catch m toast_error st)) = carts (snd (m st)).
Proof.
  unfold try_catch. destruct (m st) as [[u|e] st']; reflexivity.
Qed.

Lemma seq_keeps {A B X} (f : state -> X) (m : M A) (k : A -> M B) st :
  (forall a, keeps f (k a)) -> f (snd (seq m k st)) = f (snd (m st)).
Proof.
  intros Hk. unfold seq. destruct (m st) as [[a|e] st']; simpl; [|reflexivity].
  apply Hk.
Qed.

(** The cart after [submitOrder]. *)
Lemma submitOrder_carts custName custEmail custAddress net st :
  carts (snd (submitOrder custName custEmail custAddress net st)) =
  if checkout_succeeded custName custEmail custAddress net st
  then (JArr [], Some "[]"%string, S (writes st))
  else carts st.
Proof.
  unfold submitOrder, checkout_succeeded. cbv zeta.
  destruct (String.eqb (trim custName) "" || String.eqb (trim custEmail) "");
    cbn [negb andb]; [reflexivity|].
  unfold seq at 1. cbn [update].
  rewrite seq_keeps by (intros; apply keeps_carts_show).
  rewrite try_catch_carts.
  unfold seq at 1. cbn [read show cart].
  unfold seq at 1. cbn [lift].
  destruct (request (trim custName) (trim custEmail) (trim custAddress) (cart st))
    as [body|e]; [|reflexivity].
  destruct (succeeded (net body)) eqn:S.
  - rewrite (on_reply_succeeded _ _ _ S). reflexivity.
  - destruct (on_reply_failed (trim custName) (net body)
                (show (SubmitButton true) st) S) as (e & ->).
    reflexivity.
Qed.

End SubmitFacts.
(** ** Checkout, on the server *)

Module ServerFacts.
Import Server.

(** *** The calls on the database *)

Lemma findOne_keeps oid d :
  products (snd (findOne oid d)) = products d /\
  orders (snd (findOne oid d)) = orders d /\
  calls (snd (findOne oid d)) = calls d ++ [FindProduct oid].
Proof.
  unfold findOne. destruct (next_fault d) as [[|] rest]; repeat split.
Qed.

Lemma findOne_available oid d :
  faults d = [] ->
  findOne oid d =
  (Ok (List.find (fun p => String.eqb (Product._id p) oid) (products d)),
   mkDb (products d) (orders d) (calls d ++ [FindProduct oid]) []).
Proof. intros H. unfold findOne, next_fault. rewrite H. reflexivity. Qed.

Lemma insertOne_orders o d :
  match fst (insertOne o d) with
  | Ok _ => orders (snd (insertOne o d)) = orders d ++ [o]
  | Throw _ => orders (snd (insertOne o d)) = orders d
  end /\ products (snd (insertOne o d)) = products d.
Proof.
  unfold insertOne. destruct (next_fault d) as [[|] rest]; split; reflexivity.
Qed.

(** *** The loop over the items *)

(** The loop only reads the catalog. *)
Lemma verify_keeps items t v d :
  products (snd (verify items t v d)) = products d /\
  orders (snd (verify items t v d)) = orders d /\
  exists cs, calls (snd (verify items t v d)) = calls d ++ cs /\
             forallb is_find cs = true.
Proof.
  revert t v d. induction items as [|item items IH]; intros t v d.
  - simpl. repeat split. exists []. rewrite app_nil_r. split; reflexivity.
  - cbn [verify].
    destruct (bind (prop item "_id") _) as [[i oid]|e].
    2:{ simpl. repeat split. exists []. rewrite app_nil_r. split; reflexivity. }
    destruct (findOne_keeps oid d) as (P & O & C).
    destruct (findOne oid d) as [[[product|]|e] d1]; cbn [snd] in *.
    + destruct (prop item "quantity") as [q|e].
      * destruct (IH (Dec.add t (Dec.mul (Product.price product)
                                   (Dec.of_Z (normalize_quantity q))))
                     (v ++ [Order.mkItem (Product._id product) (Product.name product)
                              (Product.price product) (Product.image product)
                              (normalize_quantity q)]) d1)
          as (P1 & O1 & cs & C1 & F1).
        rewrite P1, O1, C1, P, O, C. repeat split.
        exists (FindProduct oid :: cs). rewrite <- app_assoc. split; [reflexivity|exact F1].
      * cbn [snd]. repeat split; try assumption.
        exists [FindProduct oid]. split; [exact C|reflexivity].
    + repeat split; try assumption.
      exists [FindProduct oid]. split; [exact C|reflexivity].
    + repeat split; try assumption.
      exists [FindProduct oid]. split; [exact C|reflexivity].
Qed.


Lemma resolve_some catalog item product :
  resolve catalog item = Some product ->
  exists i oid,
    prop item "_id" = Ok i /\ ObjectId (ToString i) = Ok oid /\
    List.find (fun p => String.eqb (Product._id p) oid) catalog = Some product.
Proof.
  unfold resolve. destruct (prop item "_id") as [i|]; [|discriminate].
  destruct (ObjectId (ToString i)) as [oid|] eqn:E; [|discriminate].
  intros H. exists i, oid. split; [reflexivity|]. split; [exact E|exact H].
Qed.

Lemma prop_after item k0 i k :
  prop item k0 = Ok i -> exists x, prop item k = Ok x.
Proof.
  destruct item; simpl; try discriminate; intros _; eauto.
  destruct (lookup k props); eauto.
Qed.

(** When the loop runs through, the lines are those of the items, in
    order, and the total is the sum of their amounts. *)
Lemma verify_verified items t v d T V d' :
  verify items t v d = (Ok (Verified T V), d') ->
  exists ls,
    Forall2 (fun item l => verified_line (products d) item = Some l) items ls /\
    V = v ++ ls /\ T = fold_left plus_line ls t.
Proof.
  revert t v d. induction items as [|item items IH]; intros t v d H.
  - injection H as <- <- <-. exists []. rewrite app_nil_r.
    repeat split. constructor.
  - cbn [verify] in H.
    destruct (prop item "_id") as [i|e] eqn:Ei; [|discriminate].
    cbn [bind] in H.
    destruct (ObjectId (ToString i)) as [oid|e] eqn:Eo; [|discriminate].
    cbn [bind] in H.
    destruct (findOne_keeps oid d) as (P & _).
    unfold findOne in *.
    destruct (next_fault d) as [[|] rest]; [discriminate|].
    cbn [snd products] in P.
    destruct (List.find (fun p => String.eqb (Product._id p) oid) (products d))
      as [product|] eqn:Ef; [|discriminate].
    destruct (prop item "quantity") as [q|e] eqn:Eq; [|discriminate].
    apply IH in H. destruct H as (ls & F & -> & ->). cbn [products] in F.
    eexists (_ :: ls). split; [|split].
    + constructor; [|exact F].
      unfold verified_line, resolve. rewrite Ei, Eo, Ef, Eq. reflexivity.
    + rewrite <- app_assoc. reflexivity.
    + reflexivity.
Qed.

(** With the database answering, the loop runs through when every item
    resolves. *)
Lemma verify_available items t v d :
  faults d = [] ->
  Forall (fun item => resolve (products d) item <> None) items ->
  exists T V d',
    verify items t v d = (Ok (Verified T V), d') /\
    faults d' = [] /\ orders d' = orders d /\ products d' = products d.
Proof.
  revert t v d. induction items as [|item items IH]; intros t v d Hf Hr.
  - eexists _, _, _. split; [reflexivity|]. repeat split. exact Hf.
  - inversion Hr as [|? ? Hi Hrest]; subst.
    destruct (resolve (products d) item) as [product|] eqn:R; [|contradiction].
    destruct (resolve_some _ _ _ R) as (i & oid & Ei & Eo & Ef).
    destruct (prop_after item "_id" i "quantity" Ei) as (q & Eq).
    cbn [verify]. rewrite Ei. cbn [bind]. rewrite Eo. cbn [bind].
    rewrite (findOne_available oid d Hf), Ef, Eq.
    match goal with
    | |- exists T V d', verify items ?t1 ?v1 ?d1 = _ /\ _ =>
        destruct (IH t1 v1 d1 eq_refl Hrest) as (T & V & d' & E & F' & O' & P')
    end.
    exists T, V, d'. repeat split; assumption.
Qed.

(** With the database answering, the loop stops at the first item that
    does not resolve; when its identifier is well formed, the response
    names it. *)
Lemma verify_first_unresolved pre item post i oid t v d :
  faults d = [] ->
  Forall (fun x => resolve (products d) x <> None) pre ->
  resolve (products d) item = None ->
  prop item "_id" = Ok i -> ObjectId (ToString i) = Ok oid ->
  exists d',
    verify (pre ++ item :: post) t v d =
    (Ok (Rejected (mkResponse 400
                     (error_body ("Product not found: " ++ ToString i)))), d').
Proof.
  revert t v d. induction pre as [|x pre IH]; intros t v d Hf Hr Hn Ei Eo.
  - cbn [app verify]. rewrite Ei. cbn [bind]. rewrite Eo. cbn [bind].
    rewrite (findOne_available oid d Hf).
    unfold resolve in Hn. rewrite Ei, Eo in Hn. rewrite Hn.
    eexists. reflexivity.
  - inversion Hr as [|? ? Hx Hrest]; subst.
    destruct (resolve (products d) x) as [product|] eqn:R; [|contradiction].
    destruct (resolve_some _ _ _ R) as (i' & oid' & Ei' & Eo' & Ef').
    destruct (prop_after x "_id" i' "quantity" Ei') as (q & Eq).
    cbn [app verify]. rewrite Ei'. cbn [bind]. rewrite Eo'. cbn [bind].
    rewrite (findOne_available oid' d Hf), Ef', Eq.
    apply IH; try assumption; reflexivity.
Qed.


(** A response from inside the loop is the 400 that names the first
    item the catalog does not have. *)
Lemma verify_rejected items t v d r d' :
  verify items t v d = (Ok (Rejected r), d') ->
  exists pre item post i,
    items = pre ++ item :: post /\
    Forall (fun x => resolve (products d) x <> None) pre /\
    resolve (products d) item = None /\
    prop item "_id" = Ok i /\
    r = mkResponse 400 (error_body ("Product not found: " ++ ToString i)).
Proof.
  revert t v d. induction items as [|item items IH]; intros t v d H.
  - discriminate.
  - cbn [verify] in H.
    destruct (prop item "_id") as [i|e] eqn:Ei; [|discriminate].
    cbn [bind] in H.
    destruct (ObjectId (ToString i)) as [oid|e] eqn:Eo; [|discriminate].
    cbn [bind] in H.
    unfold findOne in H.
    destruct (next_fault d) as [[|] rest]; [discriminate|].
    destruct (List.find (fun p => String.eqb (Product._id p) oid) (products d))
      as [product|] eqn:Ef.
    + destruct (prop item "quantity") as [q|e] eqn:Eq; [|discriminate].
      apply IH in H. cbn [products] in H.
      destruct H as (pre & x & post & j & -> & F & N & Ej & ->).
      exists (item :: pre), x, post, j. repeat split; try assumption.
      constructor; [|exact F].
      unfold resolve. rewrite Ei, Eo, Ef. discriminate.
    + injection H as <- <-.
      exists [], item, items, i. repeat split.
      * constructor.
      * unfold resolve. rewrite Ei, Eo. exact Ef.
      * exact Ei.
Qed.

Lemma verified_line_resolves catalog item l :
  verified_line catalog item = Some l -> resolve catalog item <> None.
Proof.
  unfold verified_line. destruct (resolve catalog item); [discriminate|].
  discriminate.
Qed.

(** The sum the loop accumulates is the sum of the amounts of the lines
    the items give. *)
Lemma fold_verified_lines catalog items ls t :
  Forall2 (fun item l => verified_line catalog item = Some l) items ls ->
  fold_left (fun t item =>
               match verified_line catalog item with
               | Some l => plus_line t l
               | None => t
               end) items t = fold_left plus_line ls t.
Proof.
  intros F. revert t. induction F as [|item l items ls E F IH]; intros t.
  - reflexivity.
  - cbn [fold_left]. rewrite E. apply IH.
Qed.


(** [Math.round(t * 100) / 100] is [t] rounded to the cent, a tie going
    up: [floor (100 t + 1/2) / 100]. *)
Lemma round_to_cents_spec t :
  (Dec.toQ (round_to_cents t) ==
   inject_Z (Qfloor (Dec.toQ t * 100 + (1 # 2))) / 100)%Q.
Proof.
  unfold round_to_cents, Math_round.
  rewrite DecFacts.toQ_shift_down, DecFacts.toQ_of_Z.
  change (inject_Z (Dec.pow10 2)) with 100%Q.
  apply Qeq_sym.
  assert (E : Qfloor (Dec.toQ t * 100 + (1 # 2)) = Dec.round (Dec.shift_up 2 t)).
  { destruct (DecFacts.round_spec (Dec.shift_up 2 t)) as [L U].
    rewrite DecFacts.toQ_shift_up in L, U.
    change (inject_Z (Dec.pow10 2)) with 100%Q in L, U.
    set (x := (Dec.toQ t * 100)%Q) in *.
    set (k := Dec.round (Dec.shift_up 2 t)) in *.
    assert (A : (inject_Z k <= x + (1 # 2))%Q).
    { apply Qle_minus_iff. apply Qle_minus_iff in L.
      setoid_replace (x + (1 # 2) + - inject_Z k)%Q
        with (x + - (inject_Z k - (1 # 2)))%Q by ring. exact L. }
    assert (B : (x + (1 # 2) < inject_Z (k + 1))%Q).
    { rewrite inject_Z_plus. apply Qlt_minus_iff. apply Qlt_minus_iff in U.
      setoid_replace (inject_Z k + inject_Z 1 + - (x + (1 # 2)))%Q
        with (inject_Z k + (1 # 2) + - x)%Q by (unfold inject_Z; ring). exact U. }
    pose proof (Qfloor_le (x + (1 # 2))) as F1.
    pose proof (Qlt_floor (x + (1 # 2))) as F2.
    assert (G1 : (inject_Z (Qfloor (x + (1 # 2))) < inject_Z (k + 1))%Q)
      by (eapply Qle_lt_trans; eassumption).
    assert (G2 : (inject_Z k < inject_Z (Qfloor (x + (1 # 2)) + 1))%Q)
      by (eapply Qle_lt_trans; eassumption).
    rewrite <- Zlt_Qlt in G1, G2. lia. }
  rewrite E. reflexivity.
Qed.

(** [Math.max(1, parseInt(q) || 1)]: the integer [parseInt] reads when
    it is at least 1, and 1 otherwise. *)
Lemma normalize_quantity_spec q :
  normalize_quantity q =
  match parseInt q with
  | Some n => if (1 <=? n)%Z then n else 1%Z
  | None => 1%Z
  end.
Proof.
  unfold normalize_quantity, Math_max. destruct (parseInt q) as [n|]; [|reflexivity].
  destruct (Z.eqb_spec n 0), (Z.leb_spec 1 n); lia.
Qed.

Lemma normalize_quantity_ge_1 q : (1 <= normalize_quantity q)%Z.
Proof. unfold normalize_quantity, Math_max. lia. Qed.

(** *** The handler *)

(** The handler reads [customer] and [items] of the body, nothing
    else. *)
Lemma checkout_reads now b1 b2 d :
  prop b1 "customer" = prop b2 "customer" ->
  prop b1 "items" = prop b2 "items" ->
  post_api_checkout now b1 d = post_api_checkout now b2 d.
Proof.
  intros Hc Hi. unfold post_api_checkout, checkout_try.
  rewrite Hc, Hi. reflexivity.
Qed.

(** The response 201 and what stands behind it. *)
Lemma checkout_created now req d :
  status (fst (post_api_checkout now req d)) = 201%Z ->
  exists l o insertedId,
    prop req "items" = Ok (JArr l) /\
    Forall2 (fun item line => verified_line (products d) item = Some line)
      l (Order.items o) /\
    Order.total o = round_to_cents (fold_left plus_line (Order.items o) Dec.zero) /\
    Order.status o = "pending"%string /\ Order.createdAt o = now /\
    orders (snd (post_api_checkout now req d)) = orders d ++ [o] /\
    fst (post_api_checkout now req d) =
    mkResponse 201 (created insertedId (Order.total o)).
Proof.
  unfold post_api_checkout, checkout_try.
  destruct (prop req "customer") as [customer|]; cbn [bind]; [|discriminate].
  destruct (prop req "items") as [items|]; cbn [bind]; [|discriminate].
  destruct items as [ | | | | |[|x l]| ]; try discriminate.
  destruct (truthy customer); cbn [negb]; [|discriminate].
  destruct (prop customer "name") as [n|]; cbn [bind]; [|discriminate].
  destruct (prop customer "email") as [e|]; cbn [bind]; [|discriminate].
  destruct (negb (truthy n) || negb (truthy e)); [discriminate|].
  destruct (verify_keeps (x :: l) Dec.zero [] d) as (P & O & _).
  destruct (verify (x :: l) Dec.zero [] d) as [[[r|T V]|err] d1] eqn:Ev;
    cbn [snd] in *; [|  |discriminate].
  - apply verify_rejected in Ev.
    destruct Ev as (pre & item & post & i & _ & _ & _ & _ & ->). discriminate.
  - apply verify_verified in Ev. destruct Ev as (ls & F & -> & ->).
    destruct (call_trim n) as [name|]; cbn [bind]; [|discriminate].
    destruct (call_trim e) as [email|]; cbn [bind]; [|discriminate].
    destruct (prop customer "address") as [a|]; cbn [bind]; [|discriminate].
    match goal with
    | |- context [insertOne ?o d1] =>
        destruct (insertOne_orders o d1) as [I _];
        destruct (insertOne o d1) as [[id|err] d2]; cbn [fst snd] in *;
        [intros _; exists (x :: l), o, id|discriminate]
    end.
    cbn [Order.items Order.total Order.status Order.createdAt app].
    repeat split; [exact F|rewrite I, O; reflexivity].
Qed.

(** The three outcomes of the handler: 201 with one more order, or 400
    or 500 with the orders as they were. *)
Lemma checkout_outcome now req d :
  products (snd (post_api_checkout now req d)) = products d /\
  ((status (fst (post_api_checkout now req d)) = 201%Z /\
    exists o, orders (snd (post_api_checkout now req d)) = orders d ++ [o]) \/
   ((status (fst (post_api_checkout now req d)) = 400%Z \/
     status (fst (post_api_checkout now req d)) = 500%Z) /\
    orders (snd (post_api_checkout now req d)) = orders d)).
Proof.
  unfold post_api_checkout, checkout_try.
  destruct (prop req "customer") as [customer|]; cbn [bind];
    [|split; [reflexivity|right; split; [right|]; reflexivity]].
  destruct (prop req "items") as [items|]; cbn [bind];
    [|split; [reflexivity|right; split; [right|]; reflexivity]].
  destruct items as [ | | | | |[|x l]| ];
    try (split; [reflexivity|right; split; [left|]; reflexivity]).
  destruct (truthy customer); cbn [negb];
    [|split; [reflexivity|right; split; [left|]; reflexivity]].
  destruct (prop customer "name") as [n|]; cbn [bind];
    [|split; [reflexivity|right; split; [right|]; reflexivity]].
  destruct (prop customer "email") as [e|]; cbn [bind];
    [|split; [reflexivity|right; split; [right|]; reflexivity]].
  destruct (negb (truthy n) || negb (truthy e));
    [split; [reflexivity|right; split; [left|]; reflexivity]|].
  destruct (verify_keeps (x :: l) Dec.zero [] d) as (P & O & _).
  destruct (verify (x :: l) Dec.zero [] d) as [[[r|T V]|err] d1] eqn:Ev;
    cbn [snd] in *.
  - split; [exact P|]. right. split; [|exact O].
    apply verify_rejected in Ev.
    destruct Ev as (pre & item & post & i & _ & _ & _ & _ & ->).
    left. reflexivity.
  - destruct (call_trim n) as [name|]; cbn [bind];
      [|split; [exact P|right; split; [right; reflexivity|exact O]]].
    destruct (call_trim e) as [email|]; cbn [bind];
      [|split; [exact P|right; split; [right; reflexivity|exact O]]].
    destruct (prop customer "address") as [a|]; cbn [bind];
      [|split; [exact P|right; split; [right; reflexivity|exact O]]].
    match goal with
    | |- context [insertOne ?o d1] =>
        destruct (insertOne_orders o d1) as [I Pi];
        destruct (insertOne o d1) as [[id|err] d2]; cbn [fst snd] in *
    end.
    + split; [congruence|]. left. split; [reflexivity|].
      eexists. rewrite I, O. reflexivity.
    + split; [congruence|]. right. split; [right; reflexivity|congruence].
  - split; [exact P|]. right. split; [right; reflexivity|exact O].
Qed.

(** When an item of the request does not resolve, the handler reads
    the catalog and nothing more: no order is inserted. *)
Lemma checkout_unresolved now req d l :
  prop req "items" = Ok (JArr l) ->
  Exists (fun item => resolve (products d) item = None) l ->
  orders (snd (post_api_checkout now req d)) = orders d /\
  (exists cs, calls (snd (post_api_checkout now req d)) = calls d ++ cs /\
              forallb is_find cs = true) /\
  (status (fst (post_api_checkout now req d)) = 400%Z \/
   status (fst (post_api_checkout now req d)) = 500%Z).
Proof.
  intros Hi Hx.
  assert (Z0 : exists cs, calls d = calls d ++ cs /\ forallb is_find cs = true).
  { exists []. rewrite app_nil_r. split; reflexivity. }
  unfold post_api_checkout, checkout_try. rewrite Hi.
  destruct (prop req "customer") as [customer|]; cbn [bind];
    [|repeat split; [exact Z0|right; reflexivity]].
  destruct l as [|x l]; [inversion Hx|].
  destruct (truthy customer); cbn [negb];
    [|repeat split; [exact Z0|left; reflexivity]].
  destruct (prop customer "name") as [n|]; cbn [bind];
    [|repeat split; [exact Z0|right; reflexivity]].
  destruct (prop customer "email") as [e|]; cbn [bind];
    [|repeat split; [exact Z0|right; reflexivity]].
  destruct (negb (truthy n) || negb (truthy e));
    [repeat split; [exact Z0|left; reflexivity]|].
  destruct (verify_keeps (x :: l) Dec.zero [] d) as (P & O & C).
  destruct (verify (x :: l) Dec.zero [] d) as [[[r|T V]|err] d1] eqn:Ev;
    cbn [snd] in *.
  - apply verify_rejected in Ev.
    destruct Ev as (pre & item & post & i & _ & _ & _ & _ & ->).
    repeat split; [exact O|exact C|left; reflexivity].
  - exfalso. apply verify_verified in Ev. destruct Ev as (ls & F & _).
    apply Exists_exists in Hx. destruct Hx as (item & Hin & Hn).
    clear - F Hin Hn. induction F as [|a b la lb E F IH]; [inversion Hin|].
    destruct Hin as [<-|Hin]; [|exact (IH Hin)].
    apply verified_line_resolves in E. contradiction.
  - repeat split; [exact O|exact C|right; reflexivity].
Qed.

(** A request that passes the two checks on its shape. *)
Lemma checkout_valid now req d customer l n e :
  prop req "customer" = Ok customer -> prop req "items" = Ok (JArr l) ->
  l <> [] -> truthy customer = true ->
  prop customer "name" = Ok n -> prop customer "email" = Ok e ->
  truthy n = true -> truthy e = true ->
  checkout_try now req d =
  match verify l Dec.zero [] d with
  | (Throw x, d') => (Throw x, d')
  | (Ok (Rejected r), d') => (Ok r, d')
  | (Ok (Verified serverTotal verifiedItems), d') =>
      match (let* name := call_trim n in
             let* email := call_trim e in
             let* a := prop customer "address" in
             Ok (Order.mkCustomer name (toLowerCase email) (js_or a (JStr "")))) with
      | Throw x => (Throw x, d')
      | Ok buyer =>
          let order :=
            Order.mk buyer verifiedItems (round_to_cents serverTotal) "pending" now in
          match insertOne order d' with
          | (Throw x, d'') => (Throw x, d'')
          | (Ok insertedId, d'') =>
              (Ok (mkResponse 201 (created insertedId (Order.total order))), d'')
          end
      end
  end.
Proof.
  intros Hc Hi Hl Ht Hn He Tn Te. unfold checkout_try.
  rewrite Hc, Hi. cbn [bind]. destruct l as [|x l]; [contradiction|].
  rewrite Ht. cbn [negb]. rewrite Hn, He. cbn [bind]. rewrite Tn, Te.
  reflexivity.
Qed.

(** With the database answering, a valid request whose first item
    without a product has a well-formed identifier gets the 400 that
    names it. *)
Lemma checkout_names_unknown now req d customer n e pre item post i oid :
  prop req "customer" = Ok customer ->
  prop req "items" = Ok (JArr (pre ++ item :: post)) ->
  truthy customer = true ->
  prop customer "name" = Ok n -> prop customer "email" = Ok e ->
  truthy n = true -> truthy e = true ->
  faults d = [] ->
  Forall (fun x => resolve (products d) x <> None) pre ->
  resolve (products d) item = None ->
  prop item "_id" = Ok i -> ObjectId (ToString i) = Ok oid ->
  fst (post_api_checkout now req d) =
  mkResponse 400 (error_body ("Product not found: " ++ ToString i)).
Proof.
  intros Hc Hi Ht Hn He Tn Te Hf Hr Hu Ei Eo.
  unfold post_api_checkout.
  rewrite (checkout_valid now req d customer _ n e Hc Hi
             ltac:(destruct pre; discriminate) Ht Hn He Tn Te).
  destruct (verify_first_unresolved pre item post i oid Dec.zero [] d
              Hf Hr Hu Ei Eo) as (d' & ->).
  reflexivity.
Qed.

(** With the database answering, a valid request whose items all
    resolve is accepted. *)
Lemma checkout_accepts now req d customer l n e :
  prop req "customer" = Ok customer -> prop req "items" = Ok (JArr l) ->
  l <> [] ->
  prop customer "name" = Ok (JStr n) -> prop customer "email" = Ok (JStr e) ->
  n <> ""%string -> e <> ""%string ->
  faults d = [] ->
  Forall (fun x => resolve (products d) x <> None) l ->
  status (fst (post_api_checkout now req d)) = 201%Z.
Proof.
  intros Hc Hi Hl Hn He Tn Te Hf Hr.
  assert (Ht : truthy customer = true).
  { destruct customer; try discriminate; reflexivity. }
  assert (Hn' : truthy (JStr n) = true).
  { cbn. apply String.eqb_neq in Tn. rewrite Tn. reflexivity. }
  assert (He' : truthy (JStr e) = true).
  { cbn. apply String.eqb_neq in Te. rewrite Te. reflexivity. }
  unfold post_api_checkout.
  rewrite (checkout_valid now req d customer l _ _ Hc Hi Hl Ht Hn He Hn' He').
  destruct (verify_available l Dec.zero [] d Hf Hr) as (T & V & d' & -> & Hf' & _).
  cbn [call_trim bind].
  destruct (prop_after customer "name" (JStr n) "address" Hn) as (a & ->).
  cbn [bind]. cbv zeta.
  unfold insertOne, next_fault. rewrite Hf'. reflexivity.
Qed.

End ServerFacts.

(** ** The page and the server *)

Module WireFacts.
Import Server.

(** Only the 201 of the handler is a success for the page. *)
Lemma served_succeeded now d req :
  succeeded (served now d req) = true ->
  exists s b,
    Json.stringify req = Some s /\ Json.parse s = Ok b /\
    status (fst (post_api_checkout now b d)) = 201%Z.
Proof.
  unfold served.
  destruct (Json.stringify req) as [s|]; [|discriminate].
  destruct (Json.parse s) as [b|] eqn:Eb; [|discriminate].
  cbv zeta.
  destruct (Json.stringify (body (fst (post_api_checkout now b d)))) as [t|];
    [|discriminate].
  cbn [succeeded]. intros H. apply andb_true_iff in H. destruct H as [H _].
  exists s, b. split; [reflexivity|]. split; [exact Eb|].
  destruct (ServerFacts.checkout_outcome now b d) as [_ [[S _]|[[S|S] _]]];
    [exact S| |]; rewrite S in H; discriminate.
Qed.

End WireFacts.

(** ** The carts the engine holds are JSON data *)

Module StorableFacts.
Import Client CartFacts CartTheorems TotalFacts.

Lemma keys_assign k v ps :
  map fst (assign k v ps) =
  if existsb (String.eqb k) (map fst ps) then map fst ps else map fst ps ++ [k].
Proof.
  induction ps as [|[k' v'] ps IH]; [reflexivity|].
  cbn [assign map fst existsb].
  destruct (String.eqb_spec k k') as [->|N]; [reflexivity|].
  cbn [map fst orb]. rewrite IH.
  destruct (existsb (String.eqb k) (map fst ps)); reflexivity.
Qed.

Lemma values_assign k v ps :
  forallb (fun kv => storable (snd kv)) ps = true -> storable v = true ->
  forallb (fun kv => storable (snd kv)) (assign k v ps) = true.
Proof.
  intros H Hv. induction ps as [|[k' v'] ps IH]; cbn [assign forallb snd].
  - rewrite Hv. reflexivity.
  - cbn [forallb snd] in H. apply andb_true_iff in H. destruct H as [H1 H2].
    destruct (String.eqb k k'); cbn [forallb snd].
    + rewrite Hv, H2. reflexivity.
    + rewrite H1, (IH H2). reflexivity.
Qed.

Lemma storable_assign k v ps :
  storable (JObj ps) = true -> storable v = true ->
  storable (JObj (assign k v ps)) = true.
Proof.
  cbn [storable]. intros H Hv. apply andb_true_iff in H. destruct H as [N F].
  rewrite (values_assign k v ps F Hv), andb_true_r, keys_assign.
  destruct (existsb (String.eqb k) (map fst ps)) eqn:E; [exact N|].
  apply nodupb_app_fresh; [exact N|].
  intros Hin. assert (X : existsb (String.eqb k) (map fst ps) = true).
  { apply existsb_exists. exists k. split; [exact Hin|apply String.eqb_refl]. }
  congruence.
Qed.

Lemma storable_with_quantity q item :
  storable item = true -> storable (with_quantity q item) = true.
Proof.
  destruct item as [ | | | | | |ps]; try (intros H; exact H).
  intros H. cbn [with_quantity]. apply storable_assign; [exact H|reflexivity].
Qed.

Lemma storable_new_line product :
  is_object product = true -> storable product = true ->
  storable (JObj (assign "quantity" (JInt 1) (spread product))) = true.
Proof.
  destruct product as [ | | | | | |ps]; try discriminate.
  intros _ H. cbn [spread]. apply storable_assign; [exact H|reflexivity].
Qed.

(** Every operation keeps the lines JSON data, the products being JSON
    objects. *)
Lemma step_storable o st :
  cart_inv (cart st) = true ->
  forallb storable (lines (cart st)) = true ->
  forallb is_object (lines (allProducts st)) = true ->
  forallb storable (lines (allProducts st)) = true ->
  forallb storable (lines (cart (snd (step o st)))) = true.
Proof.
  intros Inv Hp Ho Hc.
  pose proof (lines_inv _ Inv) as Ec. pose proof (inv_lines _ Inv) as Hl.
  set (l := lines (cart st)) in *.
  assert (Hrep : forall j q,
             forallb storable
               (replace_nth j (with_quantity q (nth j l JUndefined)) l) = true).
  { intros j q. destruct (Nat.lt_ge_cases j (List.length l)) as [L|L].
    - apply forallb_replace_nth; [|exact Hp].
      apply storable_with_quantity. apply forallb_nth; assumption.
    - rewrite replace_nth_overflow by exact L. exact Hp. }
  destruct o as [p|p|p d|]; cbn [step].
  - rewrite (addToCart_cart p st l Ec Hl).
    destruct (find (allProducts st) (has_id p)) as [p_at|e] eqn:F; [|exact Hp].
    cbv zeta. destruct (truthy (found (allProducts st) p_at)) eqn:T; [|exact Hp].
    destruct (index_of p (map line_id l)) as [j|].
    + destruct (line_quantity (nth j l JUndefined)); [apply Hrep|exact Hp].
    + cbn [lines]. rewrite forallb_app, Hp. cbn [forallb]. rewrite andb_true_r.
      destruct p_at as [i|]; [|discriminate].
      pose proof (found_in p _ i F) as Hin.
      rewrite forallb_forall in Ho, Hc.
      apply storable_new_line; [apply Ho|apply Hc]; exact Hin.
  - rewrite (removeFromCart_cart p st l Ec (forallb_impl _ _ l is_line_object Hl)).
    apply forallb_filter. exact Hp.
  - rewrite (changeQty_cart p d st l Ec Hl).
    destruct (index_of p (map line_id l)) as [j|]; [|exact Hp].
    destruct (line_quantity (nth j l JUndefined)) as [q|]; [|exact Hp].
    destruct (q + d <=? 0)%Z; [apply forallb_filter; exact Hp|apply Hrep].
  - unfold clearCart. rewrite cart_seq_keeps by (intros; apply keeps_save_render).
    reflexivity.
Qed.

Lemma run_storable ops st :
  cart_inv (cart st) = true ->
  forallb storable (lines (cart st)) = true ->
  forallb is_object (lines (allProducts st)) = true ->
  forallb storable (lines (allProducts st)) = true ->
  cart_inv (cart (run ops st)) = true /\
  forallb storable (lines (cart (run ops st))) = true.
Proof.
  revert st. induction ops as [|o ops IH]; intros st Inv Hp Ho Hc; [tauto|].
  cbn [run]. apply IH.
  - apply step_inv, Inv.
  - apply step_storable; assumption.
  - rewrite (keeps_products_step o st). exact Ho.
  - rewrite (keeps_products_step o st). exact Hc.
Qed.

Lemma storable_cart c :
  cart_inv c = true -> forallb storable (lines c) = true ->
  isArray c = true /\ storable c = true.
Proof.
  intros Inv H. rewrite (lines_inv c Inv). split; [reflexivity|exact H].
Qed.

End StorableFacts.

(** ** The count of the cart *)

Module CountFacts.
Import Client CartFacts.

(** The loop of [getCartCount] over lines. *)
Lemma count_lines l acc :
  forallb is_line l = true ->
  reduce (fun sum item => let* q := quantity_or_1 item in Ok (js_add sum q))
    l (JInt acc) = Ok (JInt (acc + total_quantity l)).
Proof.
  revert acc. induction l as [|item l IH]; intros acc Hl.
  - cbn [reduce total_quantity]. rewrite Z.add_0_r. reflexivity.
  - cbn [forallb] in Hl. apply andb_true_iff in Hl. destruct Hl as [Hi Hl].
    apply is_line_spec in Hi. destruct Hi as (ps & q & -> & Eq & Hq).
    cbn [reduce]. rewrite (quantity_or_1_line ps q Eq Hq). cbn [bind].
    rewrite js_add_int, (IH _ Hl). cbn [total_quantity].
    rewrite (line_quantity_obj ps q Eq). rewrite Z.add_assoc. reflexivity.
Qed.

Lemma without_absent p l :
  ~ In p (map line_id l) -> without p l = l.
Proof.
  unfold without. induction l as [|x l IH]; intros H; [reflexivity|].
  cbn [filter map] in *.
  destruct (String.eqb_spec (line_id x) p) as [E|N].
  - exfalso. apply H. left. exact E.
  - cbn [negb]. rewrite IH; [reflexivity|]. intros Hin. apply H. right. exact Hin.
Qed.

Lemma forallb_is_object_without p l :
  forallb is_line l = true -> forallb is_object (without p l) = true.
Proof.
  intros H. apply forallb_filter. exact (forallb_impl _ _ l is_line_object H).
Qed.

End CountFacts.

(** ** The order record *)

Module RecordFacts.
Import Server ServerFacts.

Lemma insertOne_calls o d :
  calls (snd (insertOne o d)) = calls d ++ [InsertOrder o].
Proof. unfold insertOne. destruct (next_fault d) as [[|] rest]; reflexivity. Qed.

Lemma call_trim_string v s : call_trim v = Ok s -> exists t, v = JStr t /\ s = trim t.
Proof.
  destruct v; try discriminate. intros [= <-]. eexists. split; reflexivity.
Qed.

(** The customer of the order and the calls behind a 201. *)
Lemma checkout_record now req d :
  status (fst (post_api_checkout now req d)) = 201%Z ->
  exists customer n e a o finds,
    prop req "customer" = Ok customer /\
    prop customer "name" = Ok (JStr n) /\
    prop customer "email" = Ok (JStr e) /\
    prop customer "address" = Ok a /\
    n <> ""%string /\ e <> ""%string /\
    Order.buyer o
    = Order.mkCustomer (trim n) (toLowerCase (trim e)) (js_or a (JStr "")) /\
    orders (snd (post_api_checkout now req d)) = orders d ++ [o] /\
    calls (snd (post_api_checkout now req d))
    = calls d ++ finds ++ [InsertOrder o] /\
    forallb is_find finds = true.
Proof.
  unfold post_api_checkout, checkout_try.
  destruct (prop req "customer") as [customer|]; cbn [bind]; [|discriminate].
  destruct (prop req "items") as [items|]; cbn [bind]; [|discriminate].
  destruct items as [ | | | | |[|x l]| ]; try discriminate.
  destruct (truthy customer); cbn [negb]; [|discriminate].
  destruct (prop customer "name") as [n|] eqn:Pn; cbn [bind]; [|discriminate].
  destruct (prop customer "email") as [e|] eqn:Pe; cbn [bind]; [|discriminate].
  destruct (negb (truthy n) || negb (truthy e)) eqn:Tr; [discriminate|].
  destruct (verify_keeps (x :: l) Dec.zero [] d) as (P & O & cs & C & Fc).
  destruct (verify (x :: l) Dec.zero [] d) as [[[r|T V]|err] d1] eqn:Ev;
    cbn [snd] in *; [|  |discriminate].
  - apply verify_rejected in Ev.
    destruct Ev as (pre & item & post & i & _ & _ & _ & _ & ->). discriminate.
  - destruct (call_trim n) as [name|] eqn:En; cbn [bind]; [|discriminate].
    destruct (call_trim e) as [email|] eqn:Ee; cbn [bind]; [|discriminate].
    destruct (prop customer "address") as [a|] eqn:Pa; cbn [bind];
      [|discriminate].
    apply call_trim_string in En, Ee.
    destruct En as (n' & -> & ->), Ee as (e' & -> & ->).
    apply orb_false_iff in Tr. destruct Tr as [Tn Te].
    apply negb_false_iff in Tn, Te. cbn [truthy] in Tn, Te.
    apply negb_true_iff in Tn, Te. apply String.eqb_neq in Tn, Te.
    match goal with
    | |- context [insertOne ?o d1] =>
        pose proof (insertOne_calls o d1) as Ic;
        destruct (insertOne_orders o d1) as [I _];
        destruct (insertOne o d1) as [[id|err] d2]; cbn [fst snd] in *;
        [intros _; exists customer, n', e', a, o, cs|discriminate]
    end.
    cbn [Order.buyer].
    repeat split; try assumption.
    + rewrite I, O. reflexivity.
    + rewrite Ic, C, <- app_assoc. reflexivity.
Qed.

Lemma checkout_available now req d :
  faults d = [] -> faults (snd (post_api_checkout now req d)) = [].
Proof.
  intros Hf. unfold post_api_checkout, checkout_try.
  destruct (prop req "customer") as [customer|]; cbn [bind]; [|exact Hf].
  destruct (prop req "items") as [items|]; cbn [bind]; [|exact Hf].
  destruct items as [ | | | | |[|x l]| ]; try exact Hf.
  destruct (truthy customer); cbn [negb]; [|exact Hf].
  destruct (prop customer "name") as [n|]; cbn [bind]; [|exact Hf].
  destruct (prop customer "email") as [e|]; cbn [bind]; [|exact Hf].
  destruct (negb (truthy n) || negb (truthy e)); [exact Hf|].
  assert (V : faults (snd (verify (x :: l) Dec.zero [] d)) = []).
  { generalize (x :: l) Dec.zero (@nil Order.item) d Hf. clear.
    intros items. induction items as [|item items IH]; intros t v d Hf.
    - exact Hf.
    - cbn [verify].
      destruct (bind (prop item "_id") _) as [[i oid]|err]; [|exact Hf].
      rewrite (findOne_available oid d Hf).
      destruct (List.find _ (products d)) as [product|]; [|reflexivity].
      destruct (prop item "quantity") as [q|err]; [|reflexivity].
      apply IH. reflexivity. }
  destruct (verify (x :: l) Dec.zero [] d) as [[[r|T V']|err] d1];
    cbn [snd] in *; try exact V.
  destruct (call_trim n) as [name|]; cbn [bind]; [|exact V].
  destruct (call_trim e) as [email|]; cbn [bind]; [|exact V].
  destruct (prop customer "address") as [a|]; cbn [bind]; [|exact V].
  cbv zeta. unfold insertOne, next_fault. rewrite V. reflexivity.
Qed.

End RecordFacts.

(** ** From the page to the order *)

Module JourneyFacts.
Import Client CartFacts.

Lemma add_normalb x y : Dec.normalb (Dec.add x y) = true.
Proof. apply DecFacts.normalb_spec. unfold Dec.add. apply DecFacts.strip_normal. Qed.

Lemma round_to_cents_normalb t : Dec.normalb (Server.round_to_cents t) = true.
Proof.
  apply DecFacts.normalb_spec. unfold Server.round_to_cents, Dec.shift_down.
  apply DecFacts.strip_normal.
Qed.

(** The total of a cart of priced lines is a decimal in normal form. *)
Lemma total_normal l acc :
  forallb is_line l = true -> forallb is_priced l = true ->
  Dec.normalb acc = true ->
  exists t,
    reduce (fun sum item =>
              let* p := prop item "price" in
              let* q := quantity_or_1 item in
              Ok (num_add sum (js_mul p q)))
           l (Fin acc) = Ok (Fin t) /\ Dec.normalb t = true.
Proof.
  revert acc. induction l as [|item l IH]; intros acc Hl Hp Ha.
  - exists acc. split; [reflexivity|exact Ha].
  - cbn [forallb] in Hl, Hp. apply andb_true_iff in Hl, Hp.
    destruct Hl as [Hi Hl], Hp as [Pi Hp].
    apply is_line_spec in Hi. destruct Hi as (ps & q & -> & Eq & Hq).
    apply TotalFacts.is_priced_spec in Pi. destruct Pi as (ps' & d & [= <-] & Ed).
    cbn [reduce]. cbn [prop]. rewrite Ed. cbn [bind].
    rewrite (quantity_or_1_line ps q Eq Hq). cbn [bind].
    change (js_mul (JNum (Fin d)) (JInt q)) with (Fin (Dec.mul d (Dec.of_Z q))).
    cbn [num_add]. apply IH; [exact Hl|exact Hp|apply add_normalb].
Qed.

(** A storable request arrives at the handler as it was sent, and a
    storable response at the page. *)
Lemma served_storable now d req :
  storable req = true ->
  storable (Server.body (fst (Server.post_api_checkout now req d))) = true ->
  succeeded (served now d req)
  = ok (Server.status (fst (Server.post_api_checkout now req d))).
Proof.
  intros Hr Hb. unfold served.
  destruct (JsonFacts.stringify_some req Hr) as (t & Et).
  assert (Es : Json.stringify req = Some (string_of_list_ascii t))
    by (unfold Json.stringify; rewrite Et; reflexivity).
  rewrite Es, (JsonFacts.parse_stringify req _ Hr Es). cbv zeta.
  destruct (JsonFacts.stringify_some _ Hb) as (u & Eu).
  assert (Eb : Json.stringify
                 (Server.body (fst (Server.post_api_checkout now req d)))
               = Some (string_of_list_ascii u))
    by (unfold Json.stringify; rewrite Eu; reflexivity).
  rewrite Eb. cbn [succeeded].
  rewrite (JsonFacts.parse_stringify _ _ Hb Eb). apply andb_true_r.
Qed.

End JourneyFacts.

(** ** Writing the cart through *)

Module WriteFacts.
Import Client CartFacts.

Lemma prop_truthy v k : truthy v = true -> exists x, prop v k = Ok x.
Proof.
  destruct v; try discriminate; intros _; cbn [prop]; eauto.
  destruct (lookup k props); eauto.
Qed.

(** After [saveCart] and statements that leave the carts alone, the
    storage holds the cart. *)
Lemma saved_after {A} (tail : M A) st :
  keeps carts tail ->
  carts (snd ((saveCart ;; tail) st))
  = (cart st, Some (stored_text (cart st)), S (writes st)).
Proof.
  intros K. unfold seq at 1. cbn [saveCart update]. rewrite (K _). reflexivity.
Qed.

Lemma keeps_carts_render_bump : keeps carts (updateCartUI ;; bumpCartIcon).
Proof.
  apply keeps_seq; [apply SubmitFacts.keeps_carts_updateCartUI|intros].
  apply SubmitFacts.keeps_carts_show.
Qed.

Lemma seq_ok {A B} (m : M A) (k : A -> M B) st a s1 :
  m st = (Ok a, s1) -> seq m k st = k a s1.
Proof. intros E. unfold seq. rewrite E. reflexivity. Qed.

(** The state after [removeFromCart], under the invariant. *)
Lemma removeFromCart_carts p st l :
  cart st = JArr l -> forallb is_object l = true ->
  carts (snd (removeFromCart p st))
  = (JArr (without p l), Some (stored_text (JArr (without p l))), S (writes st)).
Proof.
  intros Ec Ho. unfold removeFromCart. run1. rewrite Ec. run1.
  rewrite (filter_items_lines p l Ho).
  unfold seq at 1. cbn [update fst snd].
  rewrite saved_after by apply SubmitFacts.keeps_carts_updateCartUI.
  reflexivity.
Qed.

(** The state after [changeQty], under the invariant. *)
Lemma changeQty_carts p d st l :
  cart st = JArr l -> forallb is_line l = true ->
  carts (snd (changeQty p d st)) =
  match index_of p (map line_id l) with
  | None => carts st
  | Some j =>
      match line_quantity (nth j l JUndefined) with
      | Some q =>
          if (q + d <=? 0)%Z then saved (JArr (without p l)) st
          else saved (JArr (replace_nth j
                             (with_quantity (q + d) (nth j l JUndefined)) l)) st
      | None => carts st
      end
  end.
Proof.
  intros Ec Hl. unfold changeQty. run1. rewrite Ec. run1.
  rewrite (find_lines p l Hl).
  destruct (index_of p (map line_id l)) as [j|] eqn:Hj.
  2:{ reflexivity. }
  destruct (found_line p l j Hl Hj) as (ps & q & En & Eq & Hq & Lj & Hid).
  cbn [found element]. rewrite En. cbn [truthy negb].
  rewrite (line_quantity_obj ps q Eq).
  run1. rewrite (quantity_or_1_line ps q Eq Hq).
  run1. rewrite js_add_int.
  cbn [set_found]. unfold set_element_prop. rewrite Ec. cbn [element]. rewrite En.
  cbn [set_prop set_cart cart].
  run1. cbn [found element cart set_cart]. rewrite nth_replace_nth by exact Lj.
  cbn [prop]. rewrite lookup_assign_same. run1. rewrite js_le_int.
  cbn [with_quantity].
  set (item' := JObj (assign "quantity" (JInt (q + d)) ps)).
  assert (Hid' : line_id item' = p).
  { change item' with (with_quantity (q + d) (JObj ps)).
    rewrite line_id_with_quantity. exact Hid. }
  destruct (q + d <=? 0)%Z.
  - rewrite (removeFromCart_carts p _ (replace_nth j item' l)); [|reflexivity|].
    + rewrite without_replace_nth; [reflexivity|exact Hid'|rewrite En; exact Hid].
    + apply forallb_replace_nth; [reflexivity|].
      apply (forallb_impl _ _ l is_line_object Hl).
  - rewrite saved_after by apply SubmitFacts.keeps_carts_updateCartUI.
    reflexivity.
Qed.

(** The state after [addToCart], under the invariant. *)
Lemma addToCart_carts p st l :
  cart st = JArr l -> forallb is_line l = true ->
  carts (snd (addToCart p st)) =
  match find (allProducts st) (has_id p) with
  | Ok p_at =>
      let product := found (allProducts st) p_at in
      if truthy product then
        match index_of p (map line_id l) with
        | Some j =>
            match line_quantity (nth j l JUndefined) with
            | Some q =>
                saved (JArr (replace_nth j
                               (with_quantity (q + 1) (nth j l JUndefined)) l)) st
            | None => carts st
            end
        | None =>
            saved (JArr (l ++ [JObj (assign "quantity" (JInt 1)
                                       (spread product))])) st
        end
      else carts st
  | Throw _ => carts st
  end.
Proof.
  intros Ec Hl. unfold addToCart. run1. run1.
  destruct (find (allProducts st) (has_id p)) as [p_at|e]; [|reflexivity].
  cbv zeta. destruct (truthy (found (allProducts st) p_at)) eqn:Tp;
    cbn [negb]; [|reflexivity].
  destruct (prop_truthy _ "name" Tp) as (name & Ename).
  run1. rewrite Ec. run1. rewrite (find_lines p l Hl).
  destruct (index_of p (map line_id l)) as [j|] eqn:Hj.
  - destruct (found_line p l j Hl Hj) as (ps & q & En & Eq & Hq & Lj & Hid).
    cbn [found element]. rewrite En. cbn [truthy].
    rewrite (line_quantity_obj ps q Eq).
    erewrite seq_ok.
    2:{ run1. rewrite (quantity_or_1_line ps q Eq Hq). rewrite js_add_int.
        unfold seq at 1. cbn [set_found]. unfold set_element_prop.
        rewrite Ec. cbn [element]. rewrite En. cbn [set_prop].
        run1. rewrite Ename. unfold showToast. cbn [update]. reflexivity. }
    rewrite saved_after by apply keeps_carts_render_bump. reflexivity.
  - cbn [found truthy].
    erewrite seq_ok.
    2:{ unfold seq at 1. unfold push. run1. rewrite Ec. cbn [update].
        run1. rewrite Ename. unfold showToast. cbn [update]. reflexivity. }
    rewrite saved_after by apply keeps_carts_render_bump. reflexivity.
Qed.

(** Every operation leaves the carts as they were or ends with the
    storage holding the cart, written once. *)
Lemma step_carts o st :
  cart_inv (cart st) = true ->
  carts (snd (step o st)) = carts st \/
  carts (snd (step o st)) = saved (cart (snd (step o st))) st.
Proof.
  intros Inv.
  pose proof (CartTheorems.lines_inv _ Inv) as Ec.
  pose proof (CartTheorems.inv_lines _ Inv) as Hl.
  set (l := lines (cart st)) in *.
  destruct o as [p|p|p d|]; cbn [step].
  - rewrite (addToCart_carts p st l Ec Hl), (addToCart_cart p st l Ec Hl).
    destruct (find (allProducts st) (has_id p)) as [p_at|e]; [|left; reflexivity].
    cbv zeta. destruct (truthy (found (allProducts st) p_at));
      [|left; reflexivity].
    destruct (index_of p (map line_id l)) as [j|]; [|right; reflexivity].
    destruct (line_quantity (nth j l JUndefined));
      [right; reflexivity|left; reflexivity].
  - right.
    pose proof (forallb_impl _ _ _ is_line_object Hl) as Ho.
    rewrite (removeFromCart_carts p st _ Ec Ho).
    rewrite (removeFromCart_cart p st _ Ec Ho). reflexivity.
  - rewrite (changeQty_carts p d st l Ec Hl), (changeQty_cart p d st l Ec Hl).
    destruct (index_of p (map line_id l)) as [j|]; [|left; reflexivity].
    destruct (line_quantity (nth j l JUndefined)); [|left; reflexivity].
    right. destruct (_ <=? _)%Z; reflexivity.
  - right. rewrite SubmitFacts.clearCart_carts.
    unfold clearCart. rewrite cart_seq_keeps by (intros; apply keeps_save_render).
    reflexivity.
Qed.

End WriteFacts.

(** ** Binary64 rounding *)

Module PowFacts.
Import Binary64.

Lemma pow2_pos k : (0 < pow2 k)%Q.
Proof. apply Qpower_0_lt. reflexivity. Qed.

Lemma pow2_add a b : (pow2 (a + b) == pow2 a * pow2 b)%Q.
Proof. apply Qpower_plus. discriminate. Qed.

Lemma pow2_sub a b : (pow2 (a - b) == pow2 a / pow2 b)%Q.
Proof. apply Qpower_minus. discriminate. Qed.

Lemma pow2_le a b : (a <= b)%Z -> (pow2 a <= pow2 b)%Q.
Proof. intros H. apply Qpower_le_compat_l; [exact H|discriminate]. Qed.

Lemma pow2_lt a b : (a < b)%Z -> (pow2 a < pow2 b)%Q.
Proof. intros H. apply Qpower_lt_compat_l; [exact H|reflexivity]. Qed.

Lemma pow2_lt_inv a b : (pow2 a < pow2 b)%Q -> (a < b)%Z.
Proof. intros H. apply (Qpower_lt_compat_l_inv 2); [exact H|reflexivity]. Qed.

Lemma pow2_le_inv a b : (pow2 a <= pow2 b)%Q -> (a <= b)%Z.
Proof. intros H. apply (Qpower_le_compat_l_inv 2); [exact H|reflexivity]. Qed.

Lemma pow2_Z k : (0 <= k)%Z -> (pow2 k == inject_Z (2 ^ k))%Q.
Proof. intros H. unfold pow2. rewrite Zpower_Qpower by exact H. reflexivity. Qed.

Lemma pow2_succ k : (pow2 (k + 1) == 2 * pow2 k)%Q.
Proof. rewrite pow2_add. change (pow2 1) with 2%Q. ring. Qed.

End PowFacts.

Module RoundFacts.
Import Binary64 PowFacts.

Lemma log2_bounds a : (0 < a)%Z ->
  (pow2 (Z.log2 a) <= inject_Z a)%Q /\ (inject_Z a < pow2 (Z.log2 a + 1))%Q.
Proof.
  intros H. destruct (Z.log2_spec a H) as [L U].
  pose proof (Z.log2_nonneg a) as N.
  rewrite !pow2_Z by lia. rewrite <- Z.add_1_r in U. split.
  - rewrite <- Zle_Qle. exact L.
  - rewrite <- Zlt_Qlt. exact U.
Qed.

Lemma exponent_spec x : (0 < x)%Q ->
  (pow2 (exponent x) <= x)%Q /\ (x < pow2 (exponent x + 1))%Q.
Proof.
  intros Hx. destruct x as [a b]. unfold exponent. cbn [Qnum Qden].
  assert (Ha : (0 < a)%Z) by (unfold Qlt in Hx; cbn in Hx; lia).
  destruct (log2_bounds a Ha) as [La Ua].
  destruct (log2_bounds (Zpos b) eq_refl) as [Lb Ub].
  set (la := Z.log2 a) in *. set (lb := Z.log2 (Z.pos b)) in *.
  assert (E : (a # b) * inject_Z (Zpos b) == inject_Z a).
  { rewrite Qmake_Qdiv. field. discriminate. }
  assert (Pb : 0 < inject_Z (Z.pos b)) by reflexivity.
  pose proof (pow2_pos lb) as Plb. pose proof (pow2_pos la) as Pla.
  pose proof (pow2_pos (la - lb)) as Pe.
  pose proof (pow2_succ la) as Sa. pose proof (pow2_succ lb) as Sb.
  pose proof (pow2_succ (la - lb)) as Se.
  pose proof (pow2_succ (la - lb - 1)) as Sd.
  replace (la - lb - 1 + 1)%Z with (la - lb)%Z in Sd by lia.
  assert (M : pow2 (la - lb) * pow2 lb == pow2 la).
  { rewrite <- pow2_add. replace (la - lb + lb)%Z with la by lia. reflexivity. }
  set (X := a # b) in *. set (A := inject_Z a) in *.
  set (B := inject_Z (Z.pos b)) in *.
  destruct (Qle_bool (pow2 (la - lb)) X) eqn:T.
  - apply Qle_bool_iff in T. split; [exact T|]. nra.
  - assert (T' : X < pow2 (la - lb)).
    { apply Qnot_le_lt. intros C. apply Qle_bool_iff in C. congruence. }
    replace (la - lb - 1 + 1)%Z with (la - lb)%Z by lia.
    split; [|exact T']. nra.
Qed.

Lemma nearest_even_near y :
  (y - (1 # 2) <= inject_Z (nearest_even y))%Q /\
  (inject_Z (nearest_even y) <= y + (1 # 2))%Q.
Proof.
  unfold nearest_even.
  pose proof (Qfloor_le y) as L. pose proof (Qlt_floor y) as U.
  rewrite inject_Z_plus in U. change (inject_Z 1) with 1%Q in U.
  set (q := Qfloor y) in *.
  destruct (y - inject_Z q ?= 1 # 2)%Q eqn:C.
  - apply Qeq_alt in C.
    destruct (Z.even q); [|rewrite inject_Z_plus; change (inject_Z 1) with 1%Q];
      split; lra.
  - apply Qlt_alt in C. split; lra.
  - apply Qgt_alt in C. rewrite inject_Z_plus. change (inject_Z 1) with 1%Q.
    split; lra.
Qed.

(** Rounding does not cross an integer. *)
Lemma nearest_even_ge y n :
  (inject_Z n <= y)%Q -> (n <= nearest_even y)%Z.
Proof.
  intros H. unfold nearest_even. cbv zeta.
  assert (F : (n <= Qfloor y)%Z).
  { rewrite <- (Qfloor_Z n). apply Qfloor_resp_le. exact H. }
  destruct (y - inject_Z (Qfloor y) ?= 1 # 2)%Q; [destruct (Z.even _)| |]; lia.
Qed.

Lemma nearest_even_le y n :
  (y <= inject_Z n)%Q -> (nearest_even y <= n)%Z.
Proof.
  intros H. unfold nearest_even.
  pose proof (Qfloor_le y) as L. pose proof (Qlt_floor y) as U.
  rewrite inject_Z_plus in U. change (inject_Z 1) with 1%Q in U.
  cbv zeta. remember (Qfloor y) as q eqn:Eq in *.
  assert (F : (q <= n)%Z) by (rewrite Zle_Qle; lra).
  destruct (Z.eq_dec q n) as [E|N].
  - assert (C : (y - inject_Z q ?= 1 # 2)%Q = Lt).
    { rewrite <- Qlt_alt, E. lra. }
    rewrite C. lia.
  - destruct (y - inject_Z q ?= 1 # 2)%Q; [destruct (Z.even _)| |]; lia.
Qed.

Lemma nearest_even_Z n : nearest_even (inject_Z n) = n.
Proof.
  apply Z.le_antisymm.
  - apply nearest_even_le. apply Qle_refl.
  - apply nearest_even_ge. apply Qle_refl.
Qed.

Lemma nearest_even_comp y z : (y == z)%Q -> nearest_even y = nearest_even z.
Proof.
  intros E. unfold nearest_even. rewrite (Qfloor_comp _ _ E).
  assert (C : (y - inject_Z (Qfloor z) ?= 1 # 2)%Q
              = (z - inject_Z (Qfloor z) ?= 1 # 2)%Q).
  { apply Qcompare_comp; [rewrite E; reflexivity|reflexivity]. }
  rewrite C. reflexivity.
Qed.

Lemma pow5_pow2 j : (0 <= j)%Z ->
  (inject_Z (5 ^ j) / inject_Z (10 ^ j) == pow2 (- j))%Q.
Proof.
  intros H. unfold pow2. rewrite Qpower_opp.
  rewrite !Zpower_Qpower by exact H.
  change (inject_Z 10) with (inject_Z 5 * 2)%Q.
  rewrite Qmult_power.
  pose proof (Qpower_0_lt (inject_Z 5) j eq_refl).
  pose proof (Qpower_0_lt 2 j eq_refl).
  field. split; lra.
Qed.

Lemma value_toQ m k : (Dec.toQ (value m k) == inject_Z m * pow2 k)%Q.
Proof.
  unfold value. destruct (0 <=? k)%Z eqn:K.
  - apply Z.leb_le in K. rewrite DecFacts.toQ_of_Z, inject_Z_mult, pow2_Z by exact K.
    reflexivity.
  - apply Z.leb_gt in K. rewrite DecFacts.toQ_strip. unfold Dec.toQ.
    cbn [Dec.coef Dec.scale]. unfold Dec.pow10. rewrite Z2Nat.id by lia.
    rewrite inject_Z_mult.
    pose proof (pow5_pow2 (- k) ltac:(lia)) as P.
    replace (- - k)%Z with k in P by lia.
    assert (N : ~ inject_Z (10 ^ (- k)) == 0).
    { rewrite Zpower_Qpower by lia.
      pose proof (Qpower_0_lt (inject_Z 10) (- k) eq_refl). lra. }
    setoid_rewrite <- P. field. exact N.
Qed.

Lemma value_normal m k : Dec.normal (value m k).
Proof.
  unfold value. destruct (0 <=? k)%Z.
  - left. reflexivity.
  - apply DecFacts.strip_normal.
Qed.

Lemma u_small : (0 < u)%Q /\ (u < 1 # 2)%Q.
Proof. split; reflexivity. Qed.

(** In the normal range the nearest value is finite, within the relative
    error [u], and not below [2^-1022]. *)
Lemma nearest_normal x :
  (pow2 (-1022) <= x)%Q -> (x <= pow2 1023)%Q ->
  exists v, nearest x = Some v /\ Dec.normal v /\
            (x * (1 - u) <= Dec.toQ v)%Q /\ (Dec.toQ v <= x * (1 + u))%Q /\
            (pow2 (-1022) <= Dec.toQ v)%Q.
Proof.
  intros Lx Ux.
  assert (Hx : (0 < x)%Q).
  { apply Qlt_le_trans with (pow2 (-1022)); [apply pow2_pos|exact Lx]. }
  destruct (exponent_spec x Hx) as [Le Ue].
  assert (E1 : (-1022 <= exponent x)%Z).
  { assert (pow2 (-1022) < pow2 (exponent x + 1))%Q by lra.
    apply pow2_lt_inv in H. lia. }
  assert (E2 : (exponent x <= 1023)%Z).
  { apply pow2_le_inv. lra. }
  unfold nearest, quantum. rewrite Z.max_l by lia.
  set (e := exponent x) in *. set (k := (e - 52)%Z).
  set (y := (x / pow2 k)%Q).
  pose proof (pow2_pos k) as Pk. pose proof (pow2_pos e) as Pe.
  assert (Y : (y * pow2 k == x)%Q) by (unfold y; field; lra).
  assert (K : (pow2 e == pow2 52 * pow2 k)%Q).
  { rewrite <- pow2_add. replace (52 + k)%Z with e by (unfold k; lia).
    reflexivity. }
  assert (K53 : (pow2 k == 2 * (pow2 e * u))%Q).
  { unfold u. rewrite <- pow2_add.
    replace (e + -53)%Z with (k - 1)%Z by (unfold k; lia).
    pose proof (pow2_succ (k - 1)) as S.
    replace (k - 1 + 1)%Z with k in S by lia. exact S. }
  assert (Y52 : (inject_Z (2 ^ 52) <= y)%Q).
  { rewrite <- pow2_Z by lia.
    assert (pow2 52 * pow2 k <= y * pow2 k)%Q by lra.
    apply Qmult_le_r in H; [exact H|exact Pk]. }
  pose proof (nearest_even_ge y _ Y52) as M52.
  destruct (nearest_even_near y) as [Nl Nu].
  set (m := nearest_even y) in *.
  assert (M : (pow2 52 <= inject_Z m)%Q).
  { rewrite pow2_Z by lia. rewrite <- Zle_Qle. exact M52. }
  destruct u_small as [U0 U1].
  pose proof (pow2_succ 1023) as S1024. change (1023 + 1)%Z with 1024%Z in S1024.
  set (V := (inject_Z m * pow2 k)%Q).
  assert (B1 : (x * (1 - u) <= V)%Q) by (unfold V; nra).
  assert (B2 : (V <= x * (1 + u))%Q) by (unfold V; nra).
  assert (O : Qle_bool (pow2 1024) V = false).
  { destruct (Qle_bool (pow2 1024) V) eqn:T; [|reflexivity].
    apply Qle_bool_iff in T. exfalso.
    set (P := pow2 1023) in *. set (Q := pow2 1024) in *. nra. }
  fold V. rewrite O. exists (value m k).
  split; [reflexivity|]. split; [apply value_normal|].
  rewrite value_toQ. fold V. split; [exact B1|]. split; [exact B2|].
  apply Qle_trans with (pow2 e); [apply pow2_le; exact E1|].
  unfold V. rewrite K. nra.
Qed.

Lemma toQ_sign d :
  ((0 < Dec.toQ d)%Q <-> (0 < Dec.coef d)%Z) /\
  ((Dec.toQ d == 0)%Q <-> Dec.coef d = 0%Z) /\
  ((Dec.toQ d < 0)%Q <-> (Dec.coef d < 0)%Z).
Proof.
  pose proof (DecFacts.toQ_value (Dec.coef d) (Dec.scale d)) as V.
  destruct d as [c s]. cbn [Dec.coef Dec.scale] in *.
  pose proof (DecFacts.pow10_pos s) as P.
  assert (P' : (0 < inject_Z (Dec.pow10 s))%Q).
  { change 0%Q with (inject_Z 0). rewrite <- Zlt_Qlt. exact P. }
  set (T := inject_Z (Dec.pow10 s)) in *. set (X := Dec.toQ (Dec.mk c s)) in *.
  assert (C0 : (inject_Z c == 0)%Q <-> c = 0%Z).
  { split; [intros H|intros ->; reflexivity].
    unfold Qeq in H. cbn in H. lia. }
  assert (Cp : (0 < inject_Z c)%Q <-> (0 < c)%Z).
  { change 0%Q with (inject_Z 0). rewrite <- Zlt_Qlt. reflexivity. }
  assert (Cn : (inject_Z c < 0)%Q <-> (c < 0)%Z).
  { change 0%Q with (inject_Z 0). rewrite <- Zlt_Qlt. reflexivity. }
  split; [|split].
  - rewrite <- Cp. split; intros H; nra.
  - rewrite <- C0. split; intros H; nra.
  - rewrite <- Cn. split; intros H; nra.
Qed.

Lemma toQ_inj a b :
  Dec.normal a -> Dec.normal b -> (Dec.toQ a == Dec.toQ b)%Q -> a = b.
Proof.
  intros Na Nb E. apply DecFacts.normal_unique; [exact Na|exact Nb|].
  pose proof (DecFacts.toQ_value (Dec.coef a) (Dec.scale a)) as Va.
  pose proof (DecFacts.toQ_value (Dec.coef b) (Dec.scale b)) as Vb.
  destruct a as [ca sa], b as [cb sb]. cbn [Dec.coef Dec.scale] in *.
  apply (proj1 (inject_Z_injective _ _)). rewrite !inject_Z_mult.
  rewrite <- Va, <- Vb, E. ring.
Qed.

Lemma fl_zero d : (Dec.toQ d == 0)%Q -> fl d = Fin Dec.zero.
Proof.
  intros H. apply toQ_sign in H. unfold fl, Dec.is_zero. rewrite H. reflexivity.
Qed.

Lemma fl_positive d : (0 < Dec.toQ d)%Q ->
  fl d = match nearest (Dec.toQ d) with
         | Some v => Fin v
         | None => Inf false
         end.
Proof.
  intros H. apply toQ_sign in H. unfold fl, Dec.is_zero, dec_negative.
  destruct (Z.eqb_spec (Dec.coef d) 0) as [E|_]; [lia|].
  destruct (Z.ltb_spec (Dec.coef d) 0) as [E|_]; [lia|]. reflexivity.
Qed.

(** Rounding a number that is zero or in the normal range. *)
Lemma fl_normal d :
  ((Dec.toQ d == 0)%Q \/
   ((pow2 (-1022) <= Dec.toQ d)%Q /\ (Dec.toQ d <= pow2 1023)%Q)) ->
  exists v, fl d = Fin v /\ Dec.normal v /\
            (Dec.toQ d * (1 - u) <= Dec.toQ v)%Q /\
            (Dec.toQ v <= Dec.toQ d * (1 + u))%Q /\
            ((Dec.toQ v == 0)%Q \/ (pow2 (-1022) <= Dec.toQ v)%Q).
Proof.
  intros [Z|[L U]].
  - exists Dec.zero. rewrite (fl_zero d Z), Z.
    split; [reflexivity|]. split; [left; reflexivity|].
    change (Dec.toQ Dec.zero) with (0 # 1)%Q.
    split; [lra|]. split; [lra|]. left. reflexivity.
  - destruct (nearest_normal _ L U) as (v & E & N & B1 & B2 & B3).
    exists v. rewrite fl_positive, E.
    + repeat split; try assumption. right. exact B3.
    + apply Qlt_le_trans with (pow2 (-1022)); [apply pow2_pos|exact L].
Qed.

(** A value with at most 53 significant bits is its own rounding. *)
Lemma nearest_fixed x M K :
  (0 < M < 2 ^ 53)%Z -> (-1074 <= K <= 971)%Z ->
  (x == inject_Z M * pow2 K)%Q ->
  exists v, nearest x = Some v /\ Dec.normal v /\ (Dec.toQ v == x)%Q.
Proof.
  intros [M0 M1] [K0 K1] E.
  pose proof (pow2_pos K) as PK.
  assert (M0' : (0 < inject_Z M)%Q).
  { change 0%Q with (inject_Z 0). rewrite <- Zlt_Qlt. exact M0. }
  assert (M1' : (inject_Z M < pow2 53)%Q).
  { rewrite pow2_Z by lia. rewrite <- Zlt_Qlt. exact M1. }
  assert (Hx : (0 < x)%Q) by nra.
  destruct (exponent_spec x Hx) as [Le Ue].
  assert (X53 : (x < pow2 (53 + K))%Q) by (rewrite pow2_add; nra).
  assert (Ek : (exponent x - 52 <= K)%Z).
  { assert (pow2 (exponent x) < pow2 (53 + K))%Q by lra.
    apply pow2_lt_inv in H. lia. }
  unfold nearest.
  assert (Qk : (-1074 <= quantum x <= K)%Z) by (unfold quantum; lia).
  set (k := quantum x) in *.
  pose proof (pow2_pos k) as Pk.
  assert (D : (pow2 K == inject_Z (2 ^ (K - k)) * pow2 k)%Q).
  { rewrite <- pow2_Z by lia. rewrite <- pow2_add.
    replace (K - k + k)%Z with K by lia. reflexivity. }
  assert (Y : (x / pow2 k == inject_Z (M * 2 ^ (K - k)))%Q).
  { rewrite inject_Z_mult, E, D. field. lra. }
  rewrite (nearest_even_comp _ _ Y), nearest_even_Z.
  assert (V : (inject_Z (M * 2 ^ (K - k)) * pow2 k == x)%Q).
  { rewrite inject_Z_mult, E, D. ring. }
  assert (O : Qle_bool (pow2 1024) (inject_Z (M * 2 ^ (K - k)) * pow2 k) = false).
  { destruct (Qle_bool _ _) eqn:T; [|reflexivity].
    apply Qle_bool_iff in T. rewrite V in T. exfalso.
    assert (pow2 (53 + K) <= pow2 1024)%Q by (apply pow2_le; lia). lra. }
  rewrite O. eexists. split; [reflexivity|]. split; [apply value_normal|].
  rewrite value_toQ. exact V.
Qed.

(** The integers up to [2^53] are binary64 values. *)
Lemma fl_integer n : (0 <= n <= 2 ^ 53)%Z -> fl (Dec.of_Z n) = Fin (Dec.of_Z n).
Proof.
  intros [N0 N1].
  destruct (Z.eq_dec n 0) as [->|Nz]; [reflexivity|].
  assert (P : (0 < Dec.toQ (Dec.of_Z n))%Q).
  { apply toQ_sign. cbn. lia. }
  rewrite (fl_positive _ P).
  assert (R : exists M K, (0 < M < 2 ^ 53)%Z /\ (-1074 <= K <= 971)%Z /\
                          (Dec.toQ (Dec.of_Z n) == inject_Z M * pow2 K)%Q).
  { destruct (Z.eq_dec n (2 ^ 53)) as [->|Nm].
    - exists 1%Z, 53%Z. split; [lia|]. split; [lia|]. reflexivity.
    - exists n, 0%Z. split; [lia|]. split; [lia|].
      rewrite DecFacts.toQ_of_Z. change (pow2 0) with 1%Q. ring. }
  destruct R as (M & K & HM & HK & E).
  destruct (nearest_fixed _ M K HM HK E) as (v & Ev & Nv & Tv).
  rewrite Ev. f_equal. apply toQ_inj; [exact Nv|left; reflexivity|exact Tv].
Qed.





End RoundFacts.

(** ** Sums in binary64 *)

Module WithinFacts.
Import Binary64 PowFacts RoundFacts.

Lemma up_succ j : ((1 + u) ^ Z.of_nat (S j) == (1 + u) ^ Z.of_nat j * (1 + u))%Q.
Proof.
  rewrite Nat2Z.inj_succ, <- Z.add_1_r. destruct u_small.
  rewrite Qpower_plus by lra. rewrite Qpower_1_r. reflexivity.
Qed.

Lemma dn_succ j : ((1 - u) ^ Z.of_nat (S j) == (1 - u) ^ Z.of_nat j * (1 - u))%Q.
Proof.
  rewrite Nat2Z.inj_succ, <- Z.add_1_r. destruct u_small.
  rewrite Qpower_plus by lra. rewrite Qpower_1_r. reflexivity.
Qed.

Lemma up_ge_1 j : (1 <= (1 + u) ^ Z.of_nat j)%Q.
Proof.
  induction j as [|j IH]; [discriminate|].
  rewrite up_succ. destruct u_small. nra.
Qed.

Lemma dn_le_1 j : (0 < (1 - u) ^ Z.of_nat j)%Q /\ ((1 - u) ^ Z.of_nat j <= 1)%Q.
Proof.
  induction j as [|j [IH0 IH1]]; [split; [reflexivity|discriminate]|].
  rewrite dn_succ. destruct u_small. split; nra.
Qed.

(** Bernoulli's bounds. *)
Lemma dn_bound j : (1 - inject_Z (Z.of_nat j) * u <= (1 - u) ^ Z.of_nat j)%Q.
Proof.
  induction j as [|j IH].
  { change (inject_Z (Z.of_nat 0)) with 0%Q.
    change ((1 - u) ^ Z.of_nat 0)%Q with 1%Q. lra. }
  rewrite dn_succ, Nat2Z.inj_succ, <- Z.add_1_r, inject_Z_plus.
  change (inject_Z 1) with 1%Q. destruct u_small.
  destruct (dn_le_1 j).
  assert (0 <= inject_Z (Z.of_nat j))%Q.
  { change 0%Q with (inject_Z 0). rewrite <- Zle_Qle. lia. }
  nra.
Qed.

Lemma up_bound j :
  (inject_Z (Z.of_nat j) * u <= 1 # 2)%Q ->
  ((1 + u) ^ Z.of_nat j <= 1 + 2 * inject_Z (Z.of_nat j) * u)%Q.
Proof.
  induction j as [|j IH].
  { intros _. change (inject_Z (Z.of_nat 0)) with 0%Q.
    change ((1 + u) ^ Z.of_nat 0)%Q with 1%Q. lra. }
  rewrite up_succ, Nat2Z.inj_succ, <- Z.add_1_r, inject_Z_plus.
  change (inject_Z 1) with 1%Q. destruct u_small. intros B.
  assert (0 <= inject_Z (Z.of_nat j))%Q.
  { change 0%Q with (inject_Z 0). rewrite <- Zle_Qle. lia. }
  assert (B' : (inject_Z (Z.of_nat j) * u <= 1 # 2)%Q) by nra.
  specialize (IH B'). pose proof (up_ge_1 j). nra.
Qed.

#[global] Instance within_proper j : Proper (Qeq ==> Qeq ==> iff) (within j).
Proof.
  intros x x' Ex v v' Ev. unfold within. rewrite Ex, Ev. reflexivity.
Qed.

#[global] Instance sound_proper : Proper (Qeq ==> iff) sound.
Proof.
  intros v v' Ev. unfold sound. rewrite Ev. reflexivity.
Qed.

Lemma within_refl j x : (0 <= x)%Q -> within j x x.
Proof.
  intros H. pose proof (up_ge_1 j). destruct (dn_le_1 j). split; nra.
Qed.

Lemma within_nonneg j x v : (0 <= x)%Q -> within j x v -> (0 <= v)%Q.
Proof. intros H [L _]. destruct (dn_le_1 j). nra. Qed.



Lemma within_add j x y v w :
  within j x v -> within j y w -> within j (x + y) (v + w).
Proof. intros [L1 U1] [L2 U2]. split; lra. Qed.


Lemma within_zero j v : within j 0 v -> (v == 0)%Q.
Proof. intros [L U]. lra. Qed.

(** One more rounding. *)
Lemma within_fl j x d :
  (0 <= x)%Q -> within j x (Dec.toQ d) ->
  sound (Dec.toQ d) -> (Dec.toQ d <= pow2 1023)%Q ->
  exists v, fl d = Fin v /\ Dec.normal v /\
            within (S j) x (Dec.toQ v) /\ sound (Dec.toQ v).
Proof.
  intros Hx [L U] S B.
  assert (R : (Dec.toQ d == 0)%Q \/
              ((pow2 (-1022) <= Dec.toQ d)%Q /\ (Dec.toQ d <= pow2 1023)%Q)).
  { destruct S as [S|S]; [left; exact S|right; split; assumption]. }
  destruct (fl_normal d R) as (v & E & N & B1 & B2 & S').
  exists v. split; [exact E|]. split; [exact N|]. split; [|exact S'].
  unfold within. rewrite up_succ, dn_succ.
  pose proof (up_ge_1 j). destruct (dn_le_1 j). destruct u_small.
  set (a := ((1 - u) ^ Z.of_nat j)%Q) in *.
  set (b := ((1 + u) ^ Z.of_nat j)%Q) in *.
  assert (0 <= x * a)%Q by nra.
  assert (0 <= Dec.toQ d)%Q by nra.
  split; nra.
Qed.

End WithinFacts.

Module Total64Facts.
Import Binary64 PowFacts RoundFacts WithinFacts Client CartFacts TotalFacts.

Lemma up_le i j : (i <= j)%nat -> ((1 + u) ^ Z.of_nat i <= (1 + u) ^ Z.of_nat j)%Q.
Proof.
  intros H. apply Qpower_le_compat_l; [lia|]. destruct u_small. lra.
Qed.

Lemma sound_add a b :
  (0 <= a)%Q -> (0 <= b)%Q -> sound a -> sound b -> sound (a + b).
Proof.
  unfold sound. intros Ha Hb [A|A] [B|B]; [left; lra|right; lra..].
Qed.

Lemma plain_price_spec item :
  Cart64.plain_price item -> is_line item = true ->
  exists ps d q,
    item = JObj ps /\ lookup "price" ps = Some (JNum (Fin d)) /\
    lookup "quantity" ps = Some (JInt q) /\ (1 <= q)%Z /\
    sound (Dec.toQ d) /\ (0 <= Dec.toQ d)%Q.
Proof.
  intros P L. apply is_line_spec in L. destruct L as (ps & q & -> & Eq & Hq).
  unfold Cart64.plain_price in P.
  destruct (line_price (JObj ps)) as [d|] eqn:E; [|contradiction].
  assert (Pr : is_priced (JObj ps) = true) by (unfold is_priced; rewrite E; reflexivity).
  apply is_priced_spec in Pr. destruct Pr as (ps' & d' & [= <-] & Ed).
  unfold line_price in E. cbn [prop] in E. rewrite Ed in E. injection E as <-.
  exists ps, d', q. repeat split; try assumption.
  pose proof (pow2_pos (-1022)). destruct P; lra.
Qed.

Lemma exact_total_nonneg l :
  forallb is_line l = true -> Forall Cart64.plain_price l ->
  (0 <= exact_total l)%Q.
Proof.
  induction l as [|item l IH]; intros Hl Hp; [cbn; lra|].
  cbn [forallb] in Hl. apply andb_true_iff in Hl. destruct Hl as [Hi Hl].
  inversion Hp as [|? ? Pi Pl]; subst.
  destruct (plain_price_spec item Pi Hi) as (ps & d & q & -> & Ed & Eq & Hq & _ & D0).
  specialize (IH Hl Pl). cbn [exact_total]. unfold line_price, line_quantity.
  cbn [prop]. rewrite Ed, Eq. cbn [Dec.scale Dec.coef Dec.of_Z num_of_Z JInt].
  assert (1 <= inject_Z q)%Q.
  { change 1%Q with (inject_Z 1). rewrite <- Zle_Qle. exact Hq. }
  nra.
Qed.

(** One turn of a loop [sum += price * quantity]: a rounding for the
    product and one for the sum. *)
Lemma add_mul_rounded acc d q j E X :
  (0 <= E)%Q -> within (S j) E (Dec.toQ acc) -> sound (Dec.toQ acc) ->
  (0 <= X)%Q -> within j X (Dec.toQ d * inject_Z q) ->
  sound (Dec.toQ d * inject_Z q) ->
  ((E + X) * (1 + u) ^ Z.of_nat (S (S j)) <= pow2 1023)%Q ->
  exists s,
    Binary64.add (Fin acc) (Binary64.mul (Fin d) (num_of_Z q)) = Fin s /\
    within (S (S j)) (E + X) (Dec.toQ s) /\ sound (Dec.toQ s).
Proof.
  intros HE W Sc HX Wx Sx B.
  pose proof (up_le j (S (S j)) ltac:(lia)) as G0.
  pose proof (up_le (S j) (S (S j)) ltac:(lia)) as G1.
  pose proof (up_ge_1 j) as G.
  set (U := ((1 + u) ^ Z.of_nat (S (S j)))%Q) in *.
  set (Uj := ((1 + u) ^ Z.of_nat (S j))%Q) in *.
  set (U0 := ((1 + u) ^ Z.of_nat j)%Q) in *.
  set (m := Dec.mul d (Dec.of_Z q)).
  assert (Tm : (Dec.toQ m == Dec.toQ d * inject_Z q)%Q).
  { unfold m. rewrite DecFacts.toQ_mul, DecFacts.toQ_of_Z. reflexivity. }
  set (x := (Dec.toQ d * inject_Z q)%Q) in *.
  assert (Wm : within j X (Dec.toQ m)).
  { destruct Wx as [P1 P2]. split; rewrite Tm; assumption. }
  assert (Sm : sound (Dec.toQ m)).
  { destruct Sx as [P|P]; [left|right]; rewrite Tm; assumption. }
  assert (Bm : (Dec.toQ m <= pow2 1023)%Q).
  { destruct Wm as [_ P]. fold U0 in P. nra. }
  destruct (within_fl j X m HX Wm Sm Bm) as (t1 & E1 & N1 & W1 & S1).
  set (a := Dec.add acc t1).
  assert (Ta : (Dec.toQ a == Dec.toQ acc + Dec.toQ t1)%Q)
    by (unfold a; apply DecFacts.toQ_add).
  pose proof (within_nonneg _ _ _ HE W) as A0.
  pose proof (within_nonneg _ _ _ HX W1) as A1.
  assert (Wa : within (S j) (E + X) (Dec.toQ a)).
  { destruct (within_add _ _ _ _ _ W W1) as [P1 P2]. split; rewrite Ta; lra. }
  assert (Sa : sound (Dec.toQ a)).
  { destruct (sound_add _ _ A0 A1 Sc S1) as [P|P]; [left|right]; rewrite Ta; lra. }
  assert (Ba : (Dec.toQ a <= pow2 1023)%Q).
  { destruct Wa as [_ Wa]. fold Uj in Wa. nra. }
  destruct (within_fl (S j) (E + X) a ltac:(lra) Wa Sa Ba)
    as (s & Es & Ns & Ws & Ss).
  exists s. split; [|split; assumption].
  change (Binary64.mul (Fin d) (num_of_Z q)) with (fl m). rewrite E1.
  change (Binary64.add (Fin acc) (Fin t1)) with (fl a). exact Es.
Qed.

(** The loop of [getCartTotal]. *)
Lemma total_lines_rounded l : forall acc j E,
  forallb is_line l = true -> Forall Cart64.plain_price l ->
  (0 <= E)%Q -> within (S j) E (Dec.toQ acc) -> sound (Dec.toQ acc) ->
  ((E + exact_total l) * (1 + u) ^ Z.of_nat (S j + List.length l)
   <= pow2 1023)%Q ->
  exists t,
    reduce (fun sum item =>
              let* p := prop item "price" in
              let* q := quantity_or_1 item in
              Ok (Binary64.add sum (Cart64.js_mul p q)))
           l (Fin acc) = Ok (Fin t) /\
    within (S j + List.length l) (E + exact_total l) (Dec.toQ t).
Proof.
  induction l as [|item l IH]; intros acc j E Hl Hp HE W Sc B.
  - exists acc. split; [reflexivity|].
    cbn [exact_total List.length]. rewrite Nat.add_0_r.
    destruct W as [W1 W2]. split; lra.
  - cbn [forallb] in Hl. apply andb_true_iff in Hl. destruct Hl as [Hi Hl].
    inversion Hp as [|? ? Pi Pl]; subst.
    destruct (plain_price_spec item Pi Hi)
      as (ps & d & q & -> & Ed & Eq & Hq & Sd & D0).
    pose proof (exact_total_nonneg l Hl Pl) as T0.
    assert (Q1 : (1 <= inject_Z q)%Q).
    { change 1%Q with (inject_Z 1). rewrite <- Zle_Qle. exact Hq. }
    assert (X : (exact_total (JObj ps :: l)
                 == Dec.toQ d * inject_Z q + exact_total l)%Q).
    { cbn [exact_total]. unfold line_price, line_quantity. cbn [prop].
      rewrite Ed, Eq. reflexivity. }
    set (x := (Dec.toQ d * inject_Z q)%Q) in *.
    assert (X0 : (0 <= x)%Q) by (unfold x; nra).
    cbn [List.length] in B. rewrite X in B.
    pose proof (up_le (S (S j)) (S j + S (List.length l)) ltac:(lia)) as G1.
    pose proof (up_ge_1 (S (S j))) as G.
    set (U := ((1 + u) ^ Z.of_nat (S j + S (List.length l)))%Q) in *.
    set (Uj := ((1 + u) ^ Z.of_nat (S (S j)))%Q) in *.
    assert (Sx : sound x).
    { destruct Sd as [Z|Z]; [left|right]; unfold x; nra. }
    destruct (add_mul_rounded acc d q j E x HE W Sc X0
                (within_refl j x X0) Sx ltac:(fold Uj; nra))
      as (s & Es & Ws & Ss).
    destruct (IH s (S j) (E + x)%Q Hl Pl ltac:(lra) Ws Ss) as (t & Et & Wt).
    { replace (S (S j) + List.length l)%nat with (S j + S (List.length l))%nat by lia.
      fold U. lra. }
    exists t. split.
    + cbn [reduce prop]. rewrite Ed. cbn [bind].
      rewrite (quantity_or_1_line ps q Eq Hq). cbn [bind].
      change (Cart64.js_mul (JNum (Fin d)) (JInt q))
        with (Binary64.mul (Fin d) (num_of_Z q)).
      rewrite Es. exact Et.
    + cbn [List.length].
      replace (S j + S (List.length l))%nat with (S (S j) + List.length l)%nat by lia.
      destruct Wt as [P1 P2]. split; rewrite X; lra.
Qed.

End Total64Facts.

(** ** The total of an order in binary64 *)

Module OrderTotalFacts.
Import Binary64 PowFacts RoundFacts WithinFacts Total64Facts.












End OrderTotalFacts.

(** ** Quantities *)

Module ParseFacts.
Import Server.
Local Open Scope Z_scope.

Lemma digits_length_le n :
  0 <= n -> forall k, n < 10 ^ Z.of_nat k -> (1 <= k)%nat ->
  (List.length (digits n) <= k)%nat.
Proof.
  intros Hn. pattern n. apply TextFacts.digits_ind; [| |exact Hn]; clear n Hn.
  - intros n Hn k _ Hk. rewrite TextFacts.digits_small by exact Hn. simpl. lia.
  - intros n Hn IH k Hlt Hk.
    rewrite TextFacts.digits_step by exact Hn. rewrite length_app. cbn [List.length].
    destruct k as [|k]; [lia|].
    destruct k as [|k].
    + change (10 ^ Z.of_nat 1) with 10 in Hlt. lia.
    + assert (H : (List.length (digits (n / 10)) <= S k)%nat).
      { apply IH; [|lia].
        apply Z.div_lt_upper_bound; [lia|].
        replace (Z.of_nat (S (S k))) with (1 + Z.of_nat (S k)) in Hlt by lia.
        rewrite Z.pow_add_r in Hlt by lia. exact Hlt. }
      lia.
Qed.

(** [String(q)] for an integer from 1 to below [10^21]: its digits. *)
Lemma ToString_text_int q :
  1 <= q -> q < 10 ^ 21 -> ToString_text (JInt q) = digits q.
Proof.
  intros H1 H2. cbn [ToString_text JInt num_of_Z number_text].
  unfold dec_text, Dec.of_Z. cbn [Dec.coef Dec.scale].
  destruct (Z.eqb_spec q 0); [lia|]. destruct (Z.ltb_spec q 0); [lia|].
  cbn [app]. rewrite Z.abs_eq by lia. unfold positive_text.
  destruct (DigitFacts.drop_trailing_zeros_spec (digits q)) as (z & Ez).
  set (sd := drop_trailing_zeros (digits q)) in *.
  pose proof (digits_length_le q ltac:(lia) 21%nat H2 ltac:(lia)) as L.
  assert (Lz : List.length (digits q) = (List.length sd + z)%nat).
  { rewrite Ez at 1. rewrite length_app, repeat_length. reflexivity. }
  rewrite Z.sub_0_r.
  destruct (Z.leb_spec (Z.of_nat (List.length sd)) (Z.of_nat (List.length (digits q))));
    [|lia].
  destruct (Z.leb_spec (Z.of_nat (List.length (digits q))) 21); [|lia].
  cbn [andb].
  replace (Z.to_nat (Z.of_nat (List.length (digits q)) - Z.of_nat (List.length sd)))
    with z by lia.
  symmetry. exact Ez.
Qed.

Lemma trim_start_digit c t :
  is_digit c = true -> trim_start (c :: t) = c :: t.
Proof.
  intros H. cbn [trim_start]. apply TextFacts.is_digit_range in H.
  unfold is_space.
  destruct (Z.leb_spec 9 (code c)), (Z.leb_spec (code c) 13),
    (Z.eqb_spec (code c) 32); cbn; try reflexivity; lia.
Qed.

(** [parseInt] on a text that begins with digits: the digits up to the
    first character that is none. *)
Lemma parseInt_text v ds rest :
  ToString_text v = ds ++ rest ->
  ds <> [] -> forallb is_digit ds = true -> ends_numeral rest ->
  parseInt v = Some (decimal ds).
Proof.
  intros E Hn Hd Hr. unfold parseInt. rewrite E.
  destruct ds as [|c t]; [contradiction|]. cbn [app].
  cbn [forallb] in Hd. apply andb_true_iff in Hd. destruct Hd as [Dc Dt].
  rewrite (trim_start_digit c (t ++ rest) Dc).
  pose proof (TextFacts.is_digit_range c Dc) as R.
  destruct (Z.eqb_spec (code c) 45); [lia|].
  destruct (Z.eqb_spec (code c) 43); [lia|].
  assert (Hx : match c :: t ++ rest with
               | z :: x :: t2 =>
                   if ((code z =? 48) && ((code x =? 120) || (code x =? 88)))
                   then Some t2 else None
               | _ => None
               end = None).
  { destruct t as [|x t2]; cbn [app].
    - destruct rest as [|x t2]; [reflexivity|]. destruct Hr as (_ & N1 & N2).
      destruct (Z.eqb_spec (code x) 120); [lia|].
      destruct (Z.eqb_spec (code x) 88); [lia|].
      rewrite andb_false_r. reflexivity.
    - cbn [forallb] in Dt. apply andb_true_iff in Dt. destruct Dt as [Dx _].
      apply TextFacts.is_digit_range in Dx.
      destruct (Z.eqb_spec (code x) 120); [lia|].
      destruct (Z.eqb_spec (code x) 88); [lia|].
      rewrite andb_false_r. reflexivity. }
  rewrite Hx.
  assert (Sp : span is_digit (c :: t ++ rest) = (c :: t, rest)).
  { change (c :: t ++ rest) with ((c :: t) ++ rest). apply TextFacts.span_app.
    - cbn [forallb]. rewrite Dc, Dt. reflexivity.
    - destruct rest as [|x r]; [exact I|]. destruct Hr as (N & _). exact N. }
  rewrite Sp. reflexivity.
Qed.

(** [parseInt] reads back the integer [String] wrote. *)
Lemma parseInt_int q : 1 <= q -> q < 10 ^ 21 -> parseInt (JInt q) = Some q.
Proof.
  intros H1 H2.
  rewrite (parseInt_text (JInt q) (digits q) []).
  - rewrite DigitFacts.decimal_digits by lia. reflexivity.
  - rewrite app_nil_r. apply ToString_text_int; assumption.
  - pose proof (DigitFacts.digits_length_pos q ltac:(lia)).
    destruct (digits q); [cbn in *; lia|discriminate].
  - apply DigitFacts.digits_all. lia.
  - exact I.
Qed.

Lemma normalize_quantity_int q :
  1 <= q -> q < 10 ^ 21 -> normalize_quantity (JInt q) = q.
Proof.
  intros H1 H2. unfold normalize_quantity, Math_max. rewrite (parseInt_int q H1 H2).
  destruct (Z.eqb_spec q 0); lia.
Qed.












End ParseFacts.

(** ** C1 *)

(** C1.  The handler reads nothing of the request but [customer] and
    [items]: two requests that differ only in [total] get the same
    response and leave the same database, hence the same order.  When the
    response is the 201, one order was added; its total, which is also the
    total of the response, is the one the catalog and the normalized
    quantities of the items give. *)
Theorem checkout_ignores_client_total (now : nat) (req1 req2 : jsval)
  (d : Server.db) :
  (forall k, k <> "total"%string -> prop req1 k = prop req2 k) ->
  Server.post_api_checkout now req1 d = Server.post_api_checkout now req2 d /\
  (Server.status (fst (Server.post_api_checkout now req1 d)) = 201%Z ->
   exists l o insertedId,
     prop req1 "items" = Ok (JArr l) /\
     Forall (fun item => resolve (Server.products d) item <> None) l /\
     Server.orders (snd (Server.post_api_checkout now req1 d))
     = Server.orders d ++ [o] /\
     Order.total o = authoritative_total (Server.products d) l /\
     fst (Server.post_api_checkout now req1 d)
     = Server.mkResponse 201
         (created insertedId (authoritative_total (Server.products d) l))).
Proof.
  intros H. split.
  - apply ServerFacts.checkout_reads; apply H; discriminate.
  - intros S.
    destruct (ServerFacts.checkout_created now req1 d S)
      as (l & o & id & Hi & F & T & _ & _ & O & R).
    exists l, o, id.
    assert (A : Order.total o = authoritative_total (Server.products d) l).
    { unfold authoritative_total.
      rewrite (ServerFacts.fold_verified_lines _ _ _ _ F). exact T. }
    repeat split; try assumption.
    + clear - F. induction F as [|a b la lb E F IH]; constructor; [|exact IH].
      exact (ServerFacts.verified_line_resolves _ _ _ E).
    + rewrite <- A. exact R.
Qed.

Lemma checkout_ignores_client_total_witness :
  (forall k, k <> "total"%string ->
             prop Scenario.tampered k = prop Scenario.honest k) /\
  Server.post_api_checkout 0 Scenario.tampered Scenario.shop
  = Server.post_api_checkout 0 Scenario.honest Scenario.shop /\
  exists o insertedId,
    Server.orders (snd (Server.post_api_checkout 0 Scenario.tampered Scenario.shop))
    = [o] /\
    Order.total o = Dec.mk 4998 2 /\
    fst (Server.post_api_checkout 0 Scenario.tampered Scenario.shop)
    = Server.mkResponse 201 (created insertedId (Dec.mk 4998 2)).
Proof.
  assert (H : forall k, k <> "total"%string ->
                        prop Scenario.tampered k = prop Scenario.honest k).
  { intros k Hk. cbn.
    destruct (String.eqb_spec k "customer"); [reflexivity|].
    destruct (String.eqb_spec k "items"); [reflexivity|].
    destruct (String.eqb_spec k "total"); [contradiction|reflexivity]. }
  split; [exact H|].
  destruct (checkout_ignores_client_total 0 Scenario.tampered Scenario.honest
              Scenario.shop H) as [E S].
  split; [exact E|].
  destruct (S eq_refl) as (l & o & id & Hi & _ & O & T & R).
  injection Hi as <-.
  exists o, id. split; [exact O|]. split; [exact T|exact R].
Defined.

(** ** C2 *)

(** C2 (amended).  When an item of the request does not resolve in the
    catalog, no order is persisted: the orders are as they were, the
    handler made no call on the database but lookups of products, and the
    response is a 400 or the 500.  When moreover the request passes the
    checks on its shape, the database answers, and the first such item
    carries a well-formed identifier, the response is the 400 whose
    message names that identifier. *)
Theorem checkout_aborts_on_unknown_product (now : nat) (req : jsval)
  (d : Server.db) (l : list jsval) :
  prop req "items" = Ok (JArr l) ->
  Exists (fun item => resolve (Server.products d) item = None) l ->
  (Server.orders (snd (Server.post_api_checkout now req d)) = Server.orders d /\
   (exists cs,
      Server.calls (snd (Server.post_api_checkout now req d))
      = Server.calls d ++ cs /\ forallb is_find cs = true) /\
   (Server.status (fst (Server.post_api_checkout now req d)) = 400%Z \/
    Server.status (fst (Server.post_api_checkout now req d)) = 500%Z)) /\
  (forall customer n e pre item post i oid,
     l = pre ++ item :: post ->
     Forall (fun x => resolve (Server.products d) x <> None) pre ->
     resolve (Server.products d) item = None ->
     prop item "_id" = Ok i -> Server.ObjectId (ToString i) = Ok oid ->
     prop req "customer" = Ok customer -> truthy customer = true ->
     prop customer "name" = Ok n -> prop customer "email" = Ok e ->
     truthy n = true -> truthy e = true ->
     Server.faults d = [] ->
     fst (Server.post_api_checkout now req d)
     = Server.mkResponse 400
         (Server.error_body ("Product not found: " ++ ToString i))).
Proof.
  intros Hi Hx. split.
  - exact (ServerFacts.checkout_unresolved now req d l Hi Hx).
  - intros customer n e pre item post i oid -> Hr Hu Ei Eo Hc Ht Hn He Tn Te Hf.
    exact (ServerFacts.checkout_names_unknown now req d customer n e pre item
             post i oid Hc Hi Ht Hn He Tn Te Hf Hr Hu Ei Eo).
Qed.

Lemma checkout_aborts_on_unknown_product_witness :
  prop (Scenario.order_request "Ann" Scenario.three_items (JInt 0)) "items"
  = Ok (JArr Scenario.three_items) /\
  Exists (fun item => resolve Scenario.catalog item = None) Scenario.three_items /\
  Server.orders
    (snd (Server.post_api_checkout 0
            (Scenario.order_request "Ann" Scenario.three_items (JInt 0))
            Scenario.shop)) = [] /\
  fst (Server.post_api_checkout 0
         (Scenario.order_request "Ann" Scenario.three_items (JInt 0))
         Scenario.shop)
  = Server.mkResponse 400
      (Server.error_body "Product not found: 64b7f0c2a1d3e4f5a6b7c8db").
Proof.
  assert (Hi : prop (Scenario.order_request "Ann" Scenario.three_items (JInt 0))
                 "items" = Ok (JArr Scenario.three_items)) by reflexivity.
  assert (Hx : Exists (fun item => resolve Scenario.catalog item = None)
                 Scenario.three_items).
  { apply Exists_cons_tl, Exists_cons_hd. reflexivity. }
  split; [exact Hi|]. split; [exact Hx|].
  destruct (checkout_aborts_on_unknown_product 0 _ Scenario.shop _ Hi Hx)
    as [(O & _ & _) N].
  split; [exact O|].
  apply (N (Scenario.customer "Ann") (JStr "Ann") (JStr "Ann@Example.org")
           [Scenario.item Scenario.cap_id (JInt 1)]
           (Scenario.item Scenario.gone_id (JInt 1))
           [Scenario.item Scenario.mug_id (JInt 3)]
           (JStr Scenario.gone_id) Scenario.gone_id); try reflexivity.
  constructor; [discriminate|constructor].
Defined.

(** C2, two requests with an item of a product the catalog does not
    have.  With an empty customer name the response is the 400 of the
    check on the customer, whose message does not mention the identifier;
    with the database failing at the first lookup the response is the 500,
    no client error. *)
Lemma unknown_product_not_always_named :
  resolve Scenario.catalog (Scenario.item Scenario.gone_id (JInt 1)) = None /\
  In (Scenario.item Scenario.gone_id (JInt 1)) Scenario.three_items /\
  fst (Server.post_api_checkout 0
         (Scenario.order_request "" Scenario.three_items (JInt 0)) Scenario.shop)
  = Server.mkResponse 400
      (Server.error_body "Customer name and email are required") /\
  mentions "Customer name and email are required" Scenario.gone_id = false /\
  fst (Server.post_api_checkout 0
         (Scenario.order_request "Ann" Scenario.three_items (JInt 0))
         Scenario.shop_down)
  = Server.mkResponse 500 (Server.error_body "Checkout failed. Please try again.") /\
  mentions "Checkout failed. Please try again." Scenario.gone_id = false.
Proof.
  split; [reflexivity|]. split; [right; left; reflexivity|].
  repeat split.
Qed.

(** ** What the handler reads as a quantity *)

Module ReadFacts.


End ReadFacts.

(** ** C3 *)

(** C3.  A request with an empty list of items, or with no customer
    name or an empty one, or with no customer email or an empty one, gets
    a 400 with one of the two validation messages, and the database is
    left as it was: in particular the handler made no call on it, no
    lookup of a product. *)
Theorem invalid_request_rejected_before_lookup (now : nat) (req : jsval)
  (d : Server.db) (customer items : jsval) :
  prop req "customer" = Ok customer -> prop req "items" = Ok items ->
  items = JArr [] \/ lacks customer "name" = true \/
  lacks customer "email" = true ->
  exists message,
    validation_message message /\
    Server.post_api_checkout now req d
    = (Server.mkResponse 400 (Server.error_body message), d) /\
    Server.calls (snd (Server.post_api_checkout now req d)) = Server.calls d.
Proof.
  intros Hc Hi H.
  assert (G : forall m, validation_message m ->
              Server.post_api_checkout now req d
              = (Server.mkResponse 400 (Server.error_body m), d) ->
              exists message,
                validation_message message /\
                Server.post_api_checkout now req d
                = (Server.mkResponse 400 (Server.error_body message), d) /\
                Server.calls (snd (Server.post_api_checkout now req d))
                = Server.calls d).
  { intros m V E. exists m. rewrite E. repeat split. exact V. }
  unfold Server.post_api_checkout, Server.checkout_try in *.
  rewrite Hc, Hi in *. cbn [bind] in *.
  destruct items as [ | | | | |[|x l]| ];
    try (apply (G "Invalid order payload"%string); [left|]; reflexivity).
  destruct (truthy customer) eqn:Ht; cbn [negb] in *;
    [|apply (G "Invalid order payload"%string); [left|]; reflexivity].
  unfold lacks in H.
  destruct (prop customer "name") as [n|] eqn:En;
    [|destruct customer; cbn in Ht, En; try discriminate;
      destruct (lookup _ _); discriminate].
  destruct (prop customer "email") as [e|] eqn:Ee;
    [|destruct customer; cbn in Ht, Ee; try discriminate;
      destruct (lookup _ _); discriminate].
  cbn [bind] in *.
  destruct H as [H|[H|H]]; [discriminate| |]; rewrite H in G |- *;
    rewrite ?orb_true_r in G |- *; cbn [orb] in G |- *;
    apply (G "Customer name and email are required"%string);
    try (right; reflexivity); reflexivity.
Qed.

Lemma invalid_request_rejected_before_lookup_witness :
  prop (Scenario.order_request "" Scenario.three_items (JInt 0)) "customer"
  = Ok (Scenario.customer "") /\
  prop (Scenario.order_request "" Scenario.three_items (JInt 0)) "items"
  = Ok (JArr Scenario.three_items) /\
  lacks (Scenario.customer "") "name" = true /\
  exists message,
    validation_message message /\
    Server.post_api_checkout 0
      (Scenario.order_request "" Scenario.three_items (JInt 0)) Scenario.shop
    = (Server.mkResponse 400 (Server.error_body message), Scenario.shop) /\
    Server.calls
      (snd (Server.post_api_checkout 0
              (Scenario.order_request "" Scenario.three_items (JInt 0))
              Scenario.shop)) = [].
Proof.
  split; [reflexivity|]. split; [reflexivity|]. split; [reflexivity|].
  apply (invalid_request_rejected_before_lookup 0
           (Scenario.order_request "" Scenario.three_items (JInt 0))
           Scenario.shop (Scenario.customer "") (JArr Scenario.three_items));
    [reflexivity|reflexivity|].
  right. left. reflexivity.
Defined.

(** ** C4 *)




(** ** C5 *)

(** C5.  After [submitOrder], the cart, in memory and in the storage,
    is the one from before unless a request was sent and the reply to it
    is a success, a status from 200 to 299 with a JSON body; then, and
    only then, the cart is empty, in memory and in the storage.  With
    this server behind the network, a response that is not the 201, the
    400 of a validation error or of an unknown product or the 500 of a
    failure, leaves the cart as it was. *)
Theorem cart_cleared_only_on_success (custName custEmail custAddress : string)
  (net : jsval -> Client.reply) (st : Client.state) :
  (checkout_succeeded custName custEmail custAddress net st = false ->
   carts (snd (Client.submitOrder custName custEmail custAddress net st))
   = carts st) /\
  (checkout_succeeded custName custEmail custAddress net st = true ->
   carts (snd (Client.submitOrder custName custEmail custAddress net st))
   = (JArr [], Some "[]"%string, S (Client.writes st))) /\
  (forall now d req s b,
     net = served now d ->
     Client.request (trim custName) (trim custEmail) (trim custAddress)
       (Client.cart st) = Ok req ->
     Json.stringify req = Some s -> Json.parse s = Ok b ->
     Server.status (fst (Server.post_api_checkout now b d)) <> 201%Z ->
     carts (snd (Client.submitOrder custName custEmail custAddress net st))
     = carts st).
Proof.
  pose proof (SubmitFacts.submitOrder_carts custName custEmail custAddress net st)
    as E.
  split; [|split].
  - intros H. rewrite H in E. exact E.
  - intros H. rewrite H in E. exact E.
  - intros now d req s b -> Hr Hs Hb Hn.
    destruct (checkout_succeeded custName custEmail custAddress (served now d) st)
      eqn:C; [|exact E].
    exfalso. unfold checkout_succeeded in C. rewrite Hr in C.
    apply andb_true_iff in C. destruct C as [_ C].
    destruct (WireFacts.served_succeeded now d req C) as (s' & b' & Hs' & Hb' & S).
    rewrite Hs in Hs'. injection Hs' as <-.
    rewrite Hb in Hb'. injection Hb' as <-. exact (Hn S).
Qed.

Lemma cart_cleared_only_on_success_witness :
  checkout_succeeded "Ann" "ann@example.org" ""
    (served 0 Scenario.shop_down) Page.two_caps = false /\
  carts (snd (Client.submitOrder "Ann" "ann@example.org" ""
                (served 0 Scenario.shop_down) Page.two_caps))
  = carts Page.two_caps /\
  checkout_succeeded "Ann" "ann@example.org" ""
    (served 0 Scenario.shop) Page.two_caps = true /\
  carts (snd (Client.submitOrder "Ann" "ann@example.org" ""
                (served 0 Scenario.shop) Page.two_caps))
  = (JArr [], Some "[]"%string, 1%nat).
Proof.
  assert (F : checkout_succeeded "Ann" "ann@example.org" ""
                (served 0 Scenario.shop_down) Page.two_caps = false)
    by (vm_compute; reflexivity).
  assert (T : checkout_succeeded "Ann" "ann@example.org" ""
                (served 0 Scenario.shop) Page.two_caps = true)
    by (vm_compute; reflexivity).
  split; [exact F|]. split.
  - exact (proj1 (cart_cleared_only_on_success "Ann" "ann@example.org" ""
                    (served 0 Scenario.shop_down) Page.two_caps) F).
  - split; [exact T|].
    exact (proj1 (proj2 (cart_cleared_only_on_success "Ann" "ann@example.org" ""
                           (served 0 Scenario.shop) Page.two_caps)) T).
Defined.

(** ** C6 *)

(** C6.  Every operation of the cart engine (add, remove, change of
    quantity, clear) keeps the invariant of the cart: an array of lines,
    at most one per product identifier, each with an integer quantity of
    at least 1.  Adding a product of the loaded list that is not in the
    cart twice appends one line, with quantity 2.  A change of quantity
    that brings a line to zero or below, [changeQty(id, -quantity)] in
    particular, deletes the line: no line of that product remains. *)
Theorem cart_engine_invariant (st : Client.state) :
  cart_inv (Client.cart st) = true ->
  (forall o, cart_inv (Client.cart (snd (Client.step o st))) = true) /\
  (forall p p_at,
     Client.find (Client.allProducts st) (Client.has_id p) = Ok p_at ->
     truthy (Client.found (Client.allProducts st) p_at) = true ->
     ~ In p (map line_id (lines (Client.cart st))) ->
     exists line,
       Client.cart (Client.run [Client.Add p; Client.Add p] st)
       = JArr (lines (Client.cart st) ++ [line]) /\
       line_id line = p /\ line_quantity line = Some 2%Z) /\
  (forall p j q,
     index_of p (map line_id (lines (Client.cart st))) = Some j ->
     line_quantity (nth j (lines (Client.cart st)) JUndefined) = Some q ->
     (forall delta, (q + delta <= 0)%Z ->
        Client.cart (snd (Client.changeQty p delta st))
        = JArr (without p (lines (Client.cart st)))) /\
     Client.cart (snd (Client.changeQty p (- q) st))
     = JArr (without p (lines (Client.cart st))) /\
     ~ In p (map line_id (without p (lines (Client.cart st))))).
Proof.
  intros Inv. split; [|split].
  - intros o. apply CartFacts.step_inv, Inv.
  - intros p p_at F T Fresh. apply (CartTheorems.add_twice p p_at st Inv F T Fresh).
  - intros p j q Hj Hq. split; [|split].
    + intros delta Hd.
      apply (CartTheorems.change_to_zero p j q delta st Inv Hj Hq Hd).
    + apply (CartTheorems.change_to_zero p j q (- q) st Inv Hj Hq). lia.
    + apply CartFacts.not_in_without.
Qed.

Lemma cart_engine_invariant_witness :
  cart_inv (Client.cart Page.two_caps) = true /\
  (forall o, cart_inv (Client.cart (snd (Client.step o Page.two_caps))) = true) /\
  (exists line,
     Client.cart (Client.run [Client.Add Scenario.mug_id;
                              Client.Add Scenario.mug_id] Page.two_caps)
     = JArr (lines (Client.cart Page.two_caps) ++ [line]) /\
     line_id line = Scenario.mug_id /\ line_quantity line = Some 2%Z) /\
  Client.cart (snd (Client.changeQty Scenario.cap_id (-2) Page.two_caps))
  = JArr [].
Proof.
  destruct (cart_engine_invariant Page.two_caps eq_refl) as (A & B & C).
  split; [reflexivity|]. split; [exact A|]. split.
  - apply (B Scenario.mug_id (Some 1%nat)); [reflexivity|reflexivity|].
    cbn. intros [H|[]]. discriminate.
  - destruct (C Scenario.cap_id 0%nat 2%Z eq_refl eq_refl) as (_ & Z & _).
    exact Z.
Defined.

(** ** C7 *)

(** C7.  [getCartTotal()] is the sum over the lines of unit price times
    quantity as binary64 arithmetic accumulates it: each product and each
    partial sum is rounded to the nearest binary64 number, and nothing is
    rounded to the cent.  On a cart under the invariant (which every
    operation keeps) whose [k] lines carry prices that are zero or positive
    and not subnormal, the result is a finite number within the relative
    error [(k + 1) * 2^-52] of the exact sum. *)
Theorem cart_total_is_rounded_sum (c : jsval) :
  cart_inv c = true ->
  Forall Cart64.plain_price (lines c) ->
  (exact_total (lines c) <= Binary64.pow2 1022)%Q ->
  (Z.of_nat (List.length (lines c)) < 2 ^ 51)%Z ->
  exists t,
    Cart64.getCartTotal c = Ok (Fin t) /\
    (exact_total (lines c)
     * (1 - inject_Z (Z.of_nat (List.length (lines c)) + 1) * Binary64.pow2 (-52))
     <= Dec.toQ t)%Q /\
    (Dec.toQ t
     <= exact_total (lines c)
        * (1 + inject_Z (Z.of_nat (List.length (lines c)) + 1) * Binary64.pow2 (-52)))%Q.
Proof.
  intros Inv Hp He Hk.
  pose proof (CartTheorems.lines_inv _ Inv) as Ec.
  pose proof (CartTheorems.inv_lines _ Inv) as Hl.
  set (l := lines c) in *. set (k := List.length l) in *.
  pose proof (Total64Facts.exact_total_nonneg l Hl Hp) as T0.
  destruct RoundFacts.u_small as [U0 U1].
  assert (K0 : (0 <= inject_Z (Z.of_nat (S k)))%Q).
  { change 0%Q with (inject_Z 0). rewrite <- Zle_Qle. lia. }
  assert (KU : (inject_Z (Z.of_nat (S k)) * Binary64.u <= 1 # 4)%Q).
  { assert (L : (inject_Z (Z.of_nat (S k)) <= inject_Z (2 ^ 51))%Q).
    { rewrite <- Zle_Qle. lia. }
    assert (V : (inject_Z (2 ^ 51) * Binary64.u == 1 # 4)%Q) by reflexivity.
    nra. }
  pose proof (WithinFacts.up_bound (S k) ltac:(lra)) as Ub.
  pose proof (WithinFacts.dn_bound (S k)) as Db.
  assert (P52 : (Binary64.pow2 (-52) == 2 * Binary64.u)%Q) by reflexivity.
  assert (SK : (inject_Z (Z.of_nat k + 1) == inject_Z (Z.of_nat (S k)))%Q).
  { rewrite Nat2Z.inj_succ, <- Z.add_1_r. reflexivity. }
  pose proof (PowFacts.pow2_succ 1022) as P1023.
  change (1022 + 1)%Z with 1023%Z in P1023.
  set (up := ((1 + Binary64.u) ^ Z.of_nat (S k))%Q) in *.
  set (dn := ((1 - Binary64.u) ^ Z.of_nat (S k))%Q) in *.
  destruct (Total64Facts.total_lines_rounded l Dec.zero 0 0%Q Hl Hp)
    as (t & Et & [W1 W2]).
  - lra.
  - split; vm_compute; discriminate.
  - left. reflexivity.
  - change (1 + List.length l)%nat with (S k). fold up.
    set (P := Binary64.pow2 1022) in *. set (Q := Binary64.pow2 1023) in *. nra.
  - change (1 + List.length l)%nat with (S k) in W1, W2. fold up in W2. fold dn in W1.
    exists t. split.
    + rewrite Ec. exact Et.
    + rewrite SK, P52. set (n := inject_Z (Z.of_nat (S k))) in *.
      set (E := exact_total l) in *.
      assert (Ub' : (up <= 1 + 2 * (n * Binary64.u))%Q) by lra.
      set (w := (n * Binary64.u)%Q) in *.
      assert (W0 : (0 <= w)%Q) by (unfold w; nra).
      setoid_replace (n * (2 * Binary64.u))%Q with (2 * w)%Q by (unfold w; ring).
      split; nra.
Qed.

Lemma cart_total_is_rounded_sum_witness :
  cart_inv Cart64.three_dimes = true /\
  (exists t,
     Cart64.getCartTotal Cart64.three_dimes = Ok (Fin t) /\
     (exact_total (lines Cart64.three_dimes)
      * (1 - inject_Z (Z.of_nat (List.length (lines Cart64.three_dimes)) + 1)
             * Binary64.pow2 (-52))
      <= Dec.toQ t)%Q /\
     (Dec.toQ t
      <= exact_total (lines Cart64.three_dimes)
         * (1 + inject_Z (Z.of_nat (List.length (lines Cart64.three_dimes)) + 1)
                * Binary64.pow2 (-52)))%Q) /\
  Cart64.getCartTotal Cart64.three_dimes
  = Ok (Fin (Dec.mk 3000000000000000444089209850062616169452667236328125 52)).
Proof.
  split; [reflexivity|]. split; [|vm_compute; reflexivity].
  apply (cart_total_is_rounded_sum Cart64.three_dimes).
  - reflexivity.
  - constructor; [|constructor]. right. vm_compute. discriminate.
  - vm_compute. discriminate.
  - vm_compute. reflexivity.
Defined.

(** The total is not the exact sum: three pieces at 0.1 come to
    0.30000000000000004, the exact sum of the lines being
    0.3000000000000000166533453693773481063544750213623046875 (and not 0.3
    either, 0.1 being no binary64 number). *)
Lemma cart_total_is_not_exact :
  cart_inv Cart64.three_dimes = true /\
  forallb is_priced (lines Cart64.three_dimes) = true /\
  (exact_total (lines Cart64.three_dimes)
   == 3000000000000000166533453693773481063544750213623046875
      # 10 ^ 55)%Q /\
  exists t,
    Cart64.getCartTotal Cart64.three_dimes = Ok (Fin t) /\
    (Dec.toQ t == 3000000000000000444089209850062616169452667236328125 # 10 ^ 52)%Q /\
    ~ (Dec.toQ t == exact_total (lines Cart64.three_dimes))%Q.
Proof.
  split; [reflexivity|]. split; [reflexivity|]. split; [vm_compute; reflexivity|].
  eexists. split; [vm_compute; reflexivity|]. split; [vm_compute; reflexivity|].
  vm_compute. discriminate.
Qed.

(** ** C8 *)

(** C8.  Persisting a cart and restoring it gives the same cart:
    [loadCart] after [saveCart] returns the cart that was saved, for
    every cart that is an array of JSON data (no [undefined], no [NaN] or
    infinity, one property per name in each object).  The carts the engine
    builds are of this kind: from a cart under the invariant whose lines
    are JSON data, with a product list of JSON objects, the cart after
    any run of operations is read back as it was saved. *)
Theorem cart_round_trip (st : Client.state) :
  (isArray (Client.cart st) = true -> storable (Client.cart st) = true ->
   Client.loadCart (Client.storage (snd (Client.saveCart st))) = Client.cart st) /\
  (cart_inv (Client.cart st) = true ->
   forallb storable (lines (Client.cart st)) = true ->
   forallb is_object (lines (Client.allProducts st)) = true ->
   forallb storable (lines (Client.allProducts st)) = true ->
   forall ops,
     Client.loadCart
       (Client.storage (snd (Client.saveCart (Client.run ops st))))
     = Client.cart (Client.run ops st)).
Proof.
  assert (R : forall s : Client.state,
             isArray (Client.cart s) = true -> storable (Client.cart s) = true ->
             Client.loadCart (Client.storage (snd (Client.saveCart s)))
             = Client.cart s).
  { intros s Ha Hs. unfold Client.saveCart, Client.update, Client.setItem.
    cbn [snd Client.storage].
    destruct (Json.stringify (Client.cart s)) as [t|] eqn:E.
    - unfold Client.loadCart, JSON_parse.
      rewrite (JsonFacts.parse_stringify _ t Hs E).
      unfold js_or. destruct (Client.cart s); try discriminate. reflexivity.
    - exfalso. unfold Json.stringify in E.
      destruct (JsonFacts.stringify_some _ Hs) as (t & Et). rewrite Et in E.
      discriminate. }
  split; [exact (R st)|].
  intros Inv Hs Ho Hp ops.
  destruct (StorableFacts.run_storable ops st Inv Hs Ho Hp) as [Inv' Hs'].
  destruct (StorableFacts.storable_cart _ Inv' Hs') as [A S].
  exact (R _ A S).
Qed.

Lemma cart_round_trip_witness :
  isArray (Client.cart Page.two_caps) = true /\
  storable (Client.cart Page.two_caps) = true /\
  Client.loadCart (Client.storage (snd (Client.saveCart Page.two_caps)))
  = Client.cart Page.two_caps /\
  cart_inv (Client.cart Page.two_caps) = true /\
  forallb is_object (lines (Client.allProducts Page.two_caps)) = true /\
  forallb storable (lines (Client.allProducts Page.two_caps)) = true /\
  Client.loadCart
    (Client.storage
       (snd (Client.saveCart
               (Client.run [Client.Add Scenario.mug_id;
                            Client.Change Scenario.cap_id (-1)] Page.two_caps))))
  = Client.cart (Client.run [Client.Add Scenario.mug_id;
                             Client.Change Scenario.cap_id (-1)] Page.two_caps).
Proof.
  destruct (cart_round_trip Page.two_caps) as [R1 R2].
  split; [reflexivity|]. split; [reflexivity|].
  split; [exact (R1 eq_refl eq_refl)|].
  split; [reflexivity|]. split; [reflexivity|]. split; [reflexivity|].
  exact (R2 eq_refl eq_refl eq_refl eq_refl _).
Defined.

(** ** C9 *)

Module LoadFacts.

Lemma loadCart_missing : Client.loadCart None = JArr [].
Proof. reflexivity. Qed.

Lemma loadCart_unparseable s e :
  Json.parse s = Throw e -> Client.loadCart (Some s) = JArr [].
Proof. intros H. unfold Client.loadCart, JSON_parse. rewrite H. reflexivity. Qed.

Lemma loadCart_falsy s v :
  Json.parse s = Ok v -> truthy v = false -> Client.loadCart (Some s) = JArr [].
Proof.
  intros H T. unfold Client.loadCart, JSON_parse, js_or. rewrite H, T. reflexivity.
Qed.

Lemma loadCart_truthy s v :
  Json.parse s = Ok v -> truthy v = true -> Client.loadCart (Some s) = v.
Proof.
  intros H T. unfold Client.loadCart, JSON_parse, js_or. rewrite H, T. reflexivity.
Qed.

End LoadFacts.

(** C9.  What [loadCart] does with the content of the storage.  A
    missing key, a text that is no JSON text, and a JSON text of a falsy
    value all give the empty cart.  A JSON text of any other value that
    is no array is returned as it is: the stored text [{}] makes the cart
    an object, and the first rendering of the page throws. *)
Theorem loadCart_on_stored_content :
  Client.loadCart None = JArr [] /\
  (forall s e, Json.parse s = Throw e -> Client.loadCart (Some s) = JArr []) /\
  (forall s v, Json.parse s = Ok v -> truthy v = false ->
               Client.loadCart (Some s) = JArr []) /\
  Client.loadCart (Some "{}"%string) = JObj [] /\
  Client.loadCart (Some "42"%string) = JInt 42 /\
  fst (Client.updateCartUI (Client.init (Some "{}"%string))) = Throw TypeError.
Proof.
  split; [exact LoadFacts.loadCart_missing|].
  split; [exact LoadFacts.loadCart_unparseable|].
  split; [exact LoadFacts.loadCart_falsy|].
  split; [reflexivity|]. split; reflexivity.
Qed.

Lemma loadCart_on_stored_content_witness :
  Json.parse "[{" = Throw SyntaxError /\
  Client.loadCart (Some "[{"%string) = JArr [] /\
  Json.parse "0" = Ok (JInt 0) /\
  Client.loadCart (Some "0"%string) = JArr [].
Proof.
  destruct loadCart_on_stored_content as (_ & U & F & _).
  assert (P : Json.parse "[{" = Throw SyntaxError) by reflexivity.
  assert (Z : Json.parse "0" = Ok (JInt 0)) by reflexivity.
  split; [exact P|]. split; [exact (U _ _ P)|].
  split; [exact Z|]. exact (F _ _ Z eq_refl).
Defined.

(** ** C10 *)

(** C10.  When no product of the loaded list has the identifier,
    [addToCart(productId)] leaves the whole state as it was: the cart,
    the stored cart, and the count of writes to the storage. *)
Theorem addToCart_unknown_product (productId : string) (st : Client.state) :
  (forall x, In x (lines (Client.allProducts st)) ->
             Client.has_id productId x <> Ok true) ->
  snd (Client.addToCart productId st) = st.
Proof.
  intros H. unfold Client.addToCart.
  unfold Client.seq at 1. cbn [Client.read fst snd].
  unfold Client.seq at 1. cbn [Client.lift fst snd].
  destruct (Client.find (Client.allProducts st) (Client.has_id productId))
    as [[j|]|e] eqn:F; try reflexivity.
  exfalso. apply (H _ (TotalFacts.found_in productId _ j F)).
  destruct (Client.allProducts st) as [ | | | | |l| ]; try discriminate.
  cbn [Client.find Client.found Client.element] in *.
  destruct (CartFacts.find_index_true productId l 0 j F) as [T _].
  rewrite Nat.sub_0_r in T. exact T.
Qed.

Lemma addToCart_unknown_product_witness :
  (forall x, In x (lines (Client.allProducts Page.two_caps)) ->
             Client.has_id Scenario.gone_id x <> Ok true) /\
  snd (Client.addToCart Scenario.gone_id Page.two_caps) = Page.two_caps.
Proof.
  assert (H : forall x, In x (lines (Client.allProducts Page.two_caps)) ->
                        Client.has_id Scenario.gone_id x <> Ok true).
  { intros x [<-|[<-|[]]]; discriminate. }
  split; [exact H|].
  exact (addToCart_unknown_product Scenario.gone_id Page.two_caps H).
Defined.

(** ** The count in binary64 *)

Module Count64Facts.
Import Client CartFacts.

Lemma js_add_rounded a b :
  (0 <= a + b <= 2 ^ 53)%Z -> Cart64.js_add (JInt a) (JInt b) = JInt (a + b).
Proof.
  intros H. unfold Cart64.js_add. rewrite js_add_int.
  unfold JInt, num_of_Z. cbn [Binary64.round].
  rewrite (RoundFacts.fl_integer _ H). reflexivity.
Qed.

(** The loop of [getCartCount], no sum going beyond [2^53]. *)
Lemma count_lines_rounded l acc :
  forallb is_line l = true ->
  (0 <= acc)%Z -> (acc + total_quantity l <= 2 ^ 53)%Z ->
  reduce (fun sum item => let* q := quantity_or_1 item in Ok (Cart64.js_add sum q))
    l (JInt acc) = Ok (JInt (acc + total_quantity l)).
Proof.
  revert acc. induction l as [|item l IH]; intros acc Hl H0 H53.
  - cbn [reduce total_quantity]. rewrite Z.add_0_r. reflexivity.
  - cbn [forallb] in Hl. apply andb_true_iff in Hl. destruct Hl as [Hi Hl].
    apply is_line_spec in Hi. destruct Hi as (ps & q & -> & Eq & Hq).
    cbn [total_quantity] in H53 |- *.
    rewrite (line_quantity_obj ps q Eq) in H53 |- *.
    assert (T0 : (0 <= total_quantity l)%Z).
    { clear - Hl. induction l as [|x l IH]; cbn [total_quantity]; [lia|].
      cbn [forallb] in Hl. apply andb_true_iff in Hl. destruct Hl as [Hx Hl].
      apply is_line_spec in Hx. destruct Hx as (ps & q & -> & Eq & Hq).
      rewrite (line_quantity_obj ps q Eq). specialize (IH Hl). lia. }
    cbn [reduce]. rewrite (quantity_or_1_line ps q Eq Hq). cbn [bind].
    rewrite js_add_rounded by lia. rewrite (IH _ Hl) by lia.
    rewrite Z.add_assoc. reflexivity.
Qed.

End Count64Facts.

(** ** X1 *)

(** X1.  [getCartCount()] is the sum of the quantities of the lines, on
    every cart under the invariant (which every operation keeps) whose
    quantities add up to [2^53] at most: up to there no sum is rounded. *)
Theorem cart_count_is_sum_of_quantities (c : jsval) :
  cart_inv c = true ->
  (total_quantity (lines c) <= 2 ^ 53)%Z ->
  Cart64.getCartCount c = Ok (JInt (total_quantity (lines c))).
Proof.
  intros Inv B.
  pose proof (CartTheorems.lines_inv _ Inv) as Ec.
  pose proof (CartTheorems.inv_lines _ Inv) as Hl.
  rewrite Ec at 1. cbn [Cart64.getCartCount].
  exact (Count64Facts.count_lines_rounded _ 0 Hl ltac:(lia) B).
Qed.

Lemma cart_count_is_sum_of_quantities_witness :
  cart_inv (Client.cart Page.pens_and_pad) = true /\
  (total_quantity (lines (Client.cart Page.pens_and_pad)) <= 2 ^ 53)%Z /\
  Cart64.getCartCount (Client.cart Page.pens_and_pad)
  = Ok (JInt (total_quantity (lines (Client.cart Page.pens_and_pad)))) /\
  total_quantity (lines (Client.cart Page.pens_and_pad)) = 3%Z /\
  (cart_inv crowded = true /\
   total_quantity (lines crowded) = (2 ^ 53 + 1)%Z /\
   Cart64.getCartCount crowded = Ok (JInt (2 ^ 53))).
Proof.
  assert (B : (total_quantity (lines (Client.cart Page.pens_and_pad)) <= 2 ^ 53)%Z)
    by (vm_compute; discriminate).
  split; [reflexivity|]. split; [exact B|]. split.
  - apply (cart_count_is_sum_of_quantities (Client.cart Page.pens_and_pad)).
    + reflexivity.
    + exact B.
  - split; [reflexivity|]. split; [reflexivity|].
    split; vm_compute; reflexivity.
Defined.

(** ** X2 *)

(** X2.  [removeFromCart(id)] deletes the lines of the product and
    keeps the others in their order; the invariant stays; when the cart
    has no line of the product, the cart is as it was; and removing a
    second time changes nothing more. *)
Theorem removeFromCart_is_idempotent (p : string) (st : Client.state) :
  cart_inv (Client.cart st) = true ->
  Client.cart (snd (Client.removeFromCart p st))
  = JArr (without p (lines (Client.cart st))) /\
  (~ In p (map line_id (lines (Client.cart st))) ->
   Client.cart (snd (Client.removeFromCart p st)) = Client.cart st) /\
  Client.cart (snd (Client.removeFromCart p (snd (Client.removeFromCart p st))))
  = Client.cart (snd (Client.removeFromCart p st)).
Proof.
  intros Inv.
  pose proof (CartTheorems.lines_inv _ Inv) as Ec.
  pose proof (CartTheorems.inv_lines _ Inv) as Hl.
  assert (R : Client.cart (snd (Client.removeFromCart p st))
              = JArr (without p (lines (Client.cart st)))).
  { apply CartFacts.removeFromCart_cart; [exact Ec|].
    exact (CartFacts.forallb_impl _ _ _ CartFacts.is_line_object Hl). }
  split; [exact R|]. split.
  - intros H. rewrite R, (CountFacts.without_absent p _ H). symmetry. exact Ec.
  - rewrite (CartFacts.removeFromCart_cart p _ _ R
               (CountFacts.forallb_is_object_without p _ Hl)).
    rewrite R.
    rewrite (CountFacts.without_absent p (without p (lines (Client.cart st))));
      [reflexivity|apply CartFacts.not_in_without].
Qed.

Lemma removeFromCart_is_idempotent_witness :
  cart_inv (Client.cart Page.two_caps) = true /\
  Client.cart (snd (Client.removeFromCart Scenario.cap_id Page.two_caps))
  = JArr [] /\
  Client.cart (snd (Client.removeFromCart Scenario.mug_id Page.two_caps))
  = Client.cart Page.two_caps.
Proof.
  destruct (removeFromCart_is_idempotent Scenario.cap_id Page.two_caps eq_refl)
    as (R & _ & _).
  destruct (removeFromCart_is_idempotent Scenario.mug_id Page.two_caps eq_refl)
    as (_ & N & _).
  split; [reflexivity|]. split; [exact R|].
  apply N. cbn. intros [H|[]]. discriminate.
Defined.

(** ** X3 *)

(** X3.  The order behind a 201 is built on the server: the name of
    the customer trimmed, the email trimmed and in lower case, the address
    or the empty string; one line per item with the identifier, name, price
    and image of the product in the catalog; the status [pending] and the
    time of the request. *)
Theorem persisted_order_record (now : nat) (req : jsval) (d : Server.db) :
  Server.status (fst (Server.post_api_checkout now req d)) = 201%Z ->
  exists customer n e a l o,
    prop req "customer" = Ok customer /\ prop req "items" = Ok (JArr l) /\
    prop customer "name" = Ok (JStr n) /\
    prop customer "email" = Ok (JStr e) /\
    prop customer "address" = Ok a /\
    Server.orders (snd (Server.post_api_checkout now req d))
    = Server.orders d ++ [o] /\
    Order.buyer o
    = Order.mkCustomer (trim n) (toLowerCase (trim e)) (js_or a (JStr "")) /\
    Forall2 (fun item line =>
               exists product,
                 resolve (Server.products d) item = Some product /\
                 Order.productId line = Product._id product /\
                 Order.item_name line = Product.name product /\
                 Order.price line = Product.price product /\
                 Order.image line = Product.image product)
      l (Order.items o) /\
    Order.status o = "pending"%string /\ Order.createdAt o = now.
Proof.
  intros S.
  destruct (ServerFacts.checkout_created now req d S)
    as (l & o & id & Hi & F & _ & St & Cr & O & _).
  destruct (RecordFacts.checkout_record now req d S)
    as (customer & n & e & a & o' & finds & Hc & Hn & He & Ha & _ & _ & B & O' & _).
  rewrite O in O'. apply app_inj_tail in O'. destruct O' as [_ <-].
  exists customer, n, e, a, l, o. repeat split; try assumption.
  clear - F. induction F as [|item line la lb E F IH]; constructor; [|exact IH].
  unfold verified_line in E.
  destruct (resolve (Server.products d) item) as [product|]; [|discriminate].
  destruct (prop item "quantity") as [q|]; [|discriminate].
  injection E as <-. exists product. repeat split.
Qed.

Lemma persisted_order_record_witness :
  Server.status (fst (Server.post_api_checkout 7 Scenario.tampered Scenario.shop))
  = 201%Z /\
  (exists o,
     Server.orders (snd (Server.post_api_checkout 7 Scenario.tampered Scenario.shop))
     = Server.orders Scenario.shop ++ [o] /\
     Order.buyer o = Order.mkCustomer "Ann" "ann@example.org" (JStr "") /\
     Order.status o = "pending"%string /\ Order.createdAt o = 7%nat) /\
  Server.orders (snd (Server.post_api_checkout 7 Scenario.tampered Scenario.shop))
  = [Order.mk (Order.mkCustomer "Ann" "ann@example.org" (JStr ""))
       [Order.mkItem Scenario.cap_id "Cap" (Dec.mk 2499 2) "cap.png" 2]
       (Dec.mk 4998 2) "pending" 7].
Proof.
  split; [reflexivity|]. split; [|reflexivity].
  destruct (persisted_order_record 7 Scenario.tampered Scenario.shop eq_refl)
    as (customer & n & e & a & l & o & Hc & _ & Hn & He & Ha & O & B & _ & S & C).
  injection Hc as <-. injection Hn as <-. injection He as <-. injection Ha as <-.
  exists o. repeat split; assumption.
Defined.

(** ** X4 *)

(** X4.  The handler does not deduplicate: with the database answering,
    a valid request whose items all resolve is accepted each time it
    arrives, and each time one order is added, by one insert that comes
    after the lookups. *)
Theorem every_accepted_call_adds_an_order (now1 now2 : nat) (req customer : jsval)
  (l : list jsval) (n e : string) (d : Server.db) :
  prop req "customer" = Ok customer -> prop req "items" = Ok (JArr l) ->
  l <> [] ->
  prop customer "name" = Ok (JStr n) -> prop customer "email" = Ok (JStr e) ->
  n <> ""%string -> e <> ""%string ->
  Server.faults d = [] ->
  Forall (fun x => resolve (Server.products d) x <> None) l ->
  exists o1 o2 finds1 finds2,
    Server.orders (snd (Server.post_api_checkout now1 req d))
    = Server.orders d ++ [o1] /\
    Server.calls (snd (Server.post_api_checkout now1 req d))
    = Server.calls d ++ finds1 ++ [Server.InsertOrder o1] /\
    forallb is_find finds1 = true /\
    Server.orders
      (snd (Server.post_api_checkout now2 req
              (snd (Server.post_api_checkout now1 req d))))
    = Server.orders d ++ [o1; o2] /\
    Server.calls
      (snd (Server.post_api_checkout now2 req
              (snd (Server.post_api_checkout now1 req d))))
    = Server.calls d ++ finds1 ++ [Server.InsertOrder o1]
      ++ finds2 ++ [Server.InsertOrder o2] /\
    forallb is_find finds2 = true.
Proof.
  intros Hc Hi Hl Hn He Tn Te Hf Hr.
  pose proof (ServerFacts.checkout_accepts now1 req d customer l n e
                Hc Hi Hl Hn He Tn Te Hf Hr) as S1.
  destruct (RecordFacts.checkout_record now1 req d S1)
    as (_ & _ & _ & _ & o1 & finds1 & _ & _ & _ & _ & _ & _ & _ & O1 & C1 & F1).
  destruct (ServerFacts.checkout_outcome now1 req d) as [P1 _].
  pose proof (RecordFacts.checkout_available now1 req d Hf) as Hf1.
  set (d1 := snd (Server.post_api_checkout now1 req d)) in *.
  assert (Hr1 : Forall (fun x => resolve (Server.products d1) x <> None) l)
    by (rewrite P1; exact Hr).
  pose proof (ServerFacts.checkout_accepts now2 req d1 customer l n e
                Hc Hi Hl Hn He Tn Te Hf1 Hr1) as S2.
  destruct (RecordFacts.checkout_record now2 req d1 S2)
    as (_ & _ & _ & _ & o2 & finds2 & _ & _ & _ & _ & _ & _ & _ & O2 & C2 & F2).
  exists o1, o2, finds1, finds2.
  repeat split; try assumption.
  - rewrite O2, O1, <- app_assoc. reflexivity.
  - rewrite C2, C1, <- !app_assoc. reflexivity.
Qed.

Lemma every_accepted_call_adds_an_order_witness :
  exists o1 o2,
    Server.orders
      (snd (Server.post_api_checkout 8 Scenario.honest
              (snd (Server.post_api_checkout 7 Scenario.honest Scenario.shop))))
    = Server.orders Scenario.shop ++ [o1; o2].
Proof.
  destruct (every_accepted_call_adds_an_order 7 8 Scenario.honest
              (Scenario.customer "Ann")
              [Scenario.item Scenario.cap_id (JInt 2)] "Ann" "Ann@Example.org"
              Scenario.shop eq_refl eq_refl ltac:(discriminate) eq_refl eq_refl
              ltac:(discriminate) ltac:(discriminate) eq_refl
              ltac:(constructor; [discriminate|constructor]))
    as (o1 & o2 & f1 & f2 & _ & _ & _ & O & _).
  exists o1, o2. exact O.
Defined.

(** ** X5 *)

(** X5.  A checkout from the page to the server.  The cart is under
    the invariant, not empty, of priced JSON lines that all resolve in the
    catalog; name and email of the form are not blank; the database
    answers.  Then the request [submitOrder] sends is accepted: the
    handler adds one order, whose total is the one the catalog and the
    quantities give, and answers the 201 with that total; and on this
    reply the page empties the cart, in memory and in the storage. *)
Theorem checkout_from_page_to_order (now : nat) (d : Server.db)
  (custName custEmail custAddress : string) (st : Client.state) :
  cart_inv (Client.cart st) = true ->
  lines (Client.cart st) <> [] ->
  forallb storable (lines (Client.cart st)) = true ->
  forallb is_priced (lines (Client.cart st)) = true ->
  trim custName <> ""%string -> trim custEmail <> ""%string ->
  Server.faults d = [] ->
  Forall (fun x => resolve (Server.products d) x <> None)
    (lines (Client.cart st)) ->
  exists req o insertedId,
    Client.request (trim custName) (trim custEmail) (trim custAddress)
      (Client.cart st) = Ok req /\
    Server.orders (snd (Server.post_api_checkout now req d))
    = Server.orders d ++ [o] /\
    Order.total o
    = authoritative_total (Server.products d) (lines (Client.cart st)) /\
    fst (Server.post_api_checkout now req d)
    = Server.mkResponse 201 (created insertedId (Order.total o)) /\
    carts (snd (Client.submitOrder custName custEmail custAddress
                  (served now d) st))
    = (JArr [], Some "[]"%string, S (Client.writes st)).
Proof.
  intros Inv Hne Hs Hp Hn He Hf Hr.
  pose proof (CartTheorems.lines_inv _ Inv) as Ec.
  pose proof (CartTheorems.inv_lines _ Inv) as Hl.
  destruct (JourneyFacts.total_normal _ Dec.zero Hl Hp eq_refl) as (t & Et & Nt).
  set (req := JObj [("customer"%string,
                     JObj [("name"%string, JStr (trim custName));
                           ("email"%string, JStr (trim custEmail));
                           ("address"%string, JStr (trim custAddress))]);
                    ("items"%string, Client.cart st);
                    ("total"%string, JNum (Fin t))]).
  assert (Er : Client.request (trim custName) (trim custEmail) (trim custAddress)
                 (Client.cart st) = Ok req).
  { unfold Client.request. rewrite Ec at 1. cbn [Client.getCartTotal].
    change (num_of_Z 0) with (Fin Dec.zero). rewrite Et. reflexivity. }
  assert (Sr : storable req = true).
  { unfold req. rewrite Ec. cbn. rewrite Hs, Nt. reflexivity. }
  assert (S201 : Server.status (fst (Server.post_api_checkout now req d)) = 201%Z).
  { apply (ServerFacts.checkout_accepts now req d
             (JObj [("name"%string, JStr (trim custName));
                    ("email"%string, JStr (trim custEmail));
                    ("address"%string, JStr (trim custAddress))])
             (lines (Client.cart st)) (trim custName) (trim custEmail));
      try assumption; try reflexivity.
    unfold req. rewrite Ec at 1. reflexivity. }
  destruct (ServerFacts.checkout_created now req d S201)
    as (l & o & id & Hi & F & T & _ & _ & O & R).
  assert (El : l = lines (Client.cart st)).
  { unfold req in Hi. cbn in Hi. rewrite Ec in Hi. injection Hi as <-.
    reflexivity. }
  subst l.
  assert (A : Order.total o
              = authoritative_total (Server.products d) (lines (Client.cart st))).
  { unfold authoritative_total.
    rewrite (ServerFacts.fold_verified_lines _ _ _ _ F). exact T. }
  exists req, o, id. repeat split; try assumption.
  pose proof (SubmitFacts.submitOrder_carts custName custEmail custAddress
                (served now d) st) as E.
  assert (C : checkout_succeeded custName custEmail custAddress (served now d) st
              = true).
  { unfold checkout_succeeded. rewrite Er.
    apply String.eqb_neq in Hn, He. rewrite Hn, He. cbn [orb negb andb].
    rewrite JourneyFacts.served_storable; [rewrite S201; reflexivity|exact Sr|].
    rewrite R. cbn. rewrite T, JourneyFacts.round_to_cents_normalb. reflexivity. }
  rewrite C in E. exact E.
Qed.

Lemma checkout_from_page_to_order_witness :
  exists req o insertedId,
    Client.request "Ann" "ann@example.org" "" (Client.cart Page.pens_and_pad)
    = Ok req /\
    Server.orders (snd (Server.post_api_checkout 0 req Scenario.shop))
    = Server.orders Scenario.shop ++ [o] /\
    Order.total o = Dec.mk 255 1 /\
    fst (Server.post_api_checkout 0 req Scenario.shop)
    = Server.mkResponse 201 (created insertedId (Dec.mk 255 1)) /\
    carts (snd (Client.submitOrder " Ann " "ann@example.org" ""
                  (served 0 Scenario.shop) Page.pens_and_pad))
    = (JArr [], Some "[]"%string, 1%nat).
Proof.
  destruct (checkout_from_page_to_order 0 Scenario.shop
              " Ann " "ann@example.org" "" Page.pens_and_pad
              eq_refl ltac:(discriminate) eq_refl eq_refl
              ltac:(discriminate) ltac:(discriminate) eq_refl
              ltac:(repeat constructor; discriminate))
    as (req & o & id & R & O & T & F & C).
  exists req, o, id. split; [exact R|]. split; [exact O|].
  split; [exact T|]. split; [rewrite F, T; reflexivity|exact C].
Defined.

(** ** X6 *)

(** X6.  The cart is written through.  Under the invariant, an
    operation either leaves the cart, the storage and the count of writes
    as they were, or ends with the storage holding the text of the cart as
    it now is, written once.  So a page whose storage holds its cart stays
    so through any run of operations; and when the lines and the products
    are JSON data, [loadCart] on the storage gives the cart of the page
    after every run. *)
Theorem cart_is_written_through (st : Client.state) :
  cart_inv (Client.cart st) = true ->
  (forall o,
     carts (snd (Client.step o st)) = carts st \/
     (Client.storage (snd (Client.step o st))
      = Some (stored_text (Client.cart (snd (Client.step o st)))) /\
      Client.writes (snd (Client.step o st)) = S (Client.writes st))) /\
  (in_step st -> forall ops, in_step (Client.run ops st)) /\
  (in_step st ->
   forallb storable (lines (Client.cart st)) = true ->
   forallb is_object (lines (Client.allProducts st)) = true ->
   forallb storable (lines (Client.allProducts st)) = true ->
   forall ops,
     Client.loadCart (Client.storage (Client.run ops st))
     = Client.cart (Client.run ops st)).
Proof.
  intros Inv.
  assert (One : forall s o,
             cart_inv (Client.cart s) = true ->
             carts (snd (Client.step o s)) = carts s \/
             (Client.storage (snd (Client.step o s))
              = Some (stored_text (Client.cart (snd (Client.step o s)))) /\
              Client.writes (snd (Client.step o s)) = S (Client.writes s))).
  { intros s o I. destruct (WriteFacts.step_carts o s I) as [E|E].
    - left. exact E.
    - right. unfold carts, saved in E. injection E as E1 E2. split; assumption. }
  assert (Run : forall ops s,
             cart_inv (Client.cart s) = true -> in_step s ->
             in_step (Client.run ops s)).
  { induction ops as [|o ops IH]; intros s I H; [exact H|].
    cbn [Client.run]. apply IH; [apply CartFacts.step_inv, I|].
    destruct (One s o I) as [E|[E _]]; [|exact E].
    unfold carts in E. injection E as E1 E2 _. unfold in_step.
    rewrite E2, E1. exact H. }
  split; [exact (fun o => One st o Inv)|]. split.
  - intros H ops. exact (Run ops st Inv H).
  - intros H Hs Ho Hp ops.
    pose proof (Run ops st Inv H) as R. unfold in_step in R. rewrite R.
    destruct (StorableFacts.run_storable ops st Inv Hs Ho Hp) as [Inv' Hs'].
    destruct (StorableFacts.storable_cart _ Inv' Hs') as [A S].
    unfold stored_text.
    destruct (Json.stringify (Client.cart (Client.run ops st))) as [t|] eqn:E.
    + unfold Client.loadCart, JSON_parse.
      rewrite (JsonFacts.parse_stringify _ t S E). unfold js_or.
      destruct (Client.cart (Client.run ops st)); try discriminate. reflexivity.
    + exfalso. unfold Json.stringify in E.
      destruct (JsonFacts.stringify_some _ S) as (t & Et). rewrite Et in E.
      discriminate.
Qed.

Lemma cart_is_written_through_witness :
  cart_inv (Client.cart (snd (Client.saveCart Page.two_caps))) = true /\
  in_step (snd (Client.saveCart Page.two_caps)) /\
  in_step (Client.run [Client.Add Scenario.mug_id;
                       Client.Change Scenario.cap_id (-2)]
             (snd (Client.saveCart Page.two_caps))) /\
  Client.loadCart
    (Client.storage
       (Client.run [Client.Add Scenario.mug_id;
                    Client.Change Scenario.cap_id (-2)]
          (snd (Client.saveCart Page.two_caps))))
  = Client.cart
      (Client.run [Client.Add Scenario.mug_id;
                   Client.Change Scenario.cap_id (-2)]
         (snd (Client.saveCart Page.two_caps))).
Proof.
  assert (S : in_step (snd (Client.saveCart Page.two_caps))) by reflexivity.
  destruct (cart_is_written_through (snd (Client.saveCart Page.two_caps)) eq_refl)
    as (_ & R & L).
  split; [reflexivity|]. split; [exact S|]. split; [exact (R S _)|].
  exact (L S eq_refl eq_refl eq_refl _).
Defined.

(** ** X7 *)

Module UndoFacts.
Import Client CartFacts CartTheorems.

Lemma assign_same k v ps : lookup k ps = Some v -> assign k v ps = ps.
Proof.
  induction ps as [|[k' v'] ps IH]; cbn [lookup assign]; [discriminate|].
  destruct (String.eqb_spec k k') as [->|N].
  - intros [= ->]. reflexivity.
  - intros H. rewrite (IH H). reflexivity.
Qed.

Lemma assign_assign k v w ps : assign k v (assign k w ps) = assign k v ps.
Proof.
  induction ps as [|[k' v'] ps IH]; cbn [assign].
  - rewrite String.eqb_refl. reflexivity.
  - destruct (String.eqb k k') eqn:E; cbn [assign].
    + rewrite String.eqb_refl. reflexivity.
    + rewrite E, IH. reflexivity.
Qed.

Lemma replace_nth_twice j x y l :
  replace_nth j x (replace_nth j y l) = replace_nth j x l.
Proof.
  revert j. induction l as [|z l IH]; intros j; destruct j; cbn [replace_nth];
    try reflexivity. rewrite IH. reflexivity.
Qed.

Lemma replace_nth_same j l : replace_nth j (nth j l JUndefined) l = l.
Proof.
  revert j. induction l as [|z l IH]; intros j; destruct j; cbn [replace_nth nth];
    try reflexivity. rewrite IH. reflexivity.
Qed.

Lemma without_app p a b : without p (a ++ b) = without p a ++ without p b.
Proof. unfold without. apply filter_app. Qed.

(** A change of the quantity of a line, then the opposite change. *)
Lemma change_back p j q d st :
  cart_inv (cart st) = true ->
  index_of p (map line_id (lines (cart st))) = Some j ->
  line_quantity (nth j (lines (cart st)) JUndefined) = Some q ->
  (0 < q + d)%Z ->
  cart (snd (changeQty p (- d) (snd (changeQty p d st)))) = cart st.
Proof.
  intros Inv Hj Hq Hd.
  pose proof (lines_inv _ Inv) as Ec. pose proof (inv_lines _ Inv) as Hl.
  set (l := lines (cart st)) in *.
  destruct (found_line p l j Hl Hj) as (ps & q' & En & Eq & Hq' & Lj & Hid).
  rewrite En, (line_quantity_obj ps q' Eq) in Hq. injection Hq as ->.
  assert (E1 : cart (snd (changeQty p d st))
               = JArr (replace_nth j (with_quantity (q + d) (JObj ps)) l)).
  { rewrite (changeQty_cart p d st l Ec Hl), Hj, En, (line_quantity_obj ps q Eq).
    destruct (Z.leb_spec (q + d) 0); [lia|reflexivity]. }
  pose proof (step_inv (Change p d) st Inv) as Inv1. cbn [step] in Inv1.
  pose proof (inv_lines _ Inv1) as Hl1. rewrite E1 in Hl1. cbn [lines] in Hl1.
  rewrite (changeQty_cart p (- d) _ _ E1 Hl1).
  rewrite map_replace_nth by (rewrite En; apply line_id_with_quantity).
  rewrite Hj, nth_replace_nth by exact Lj.
  cbn [with_quantity].
  rewrite (line_quantity_obj _ (q + d) (lookup_assign_same _ _ _)).
  replace (q + d + - d)%Z with q by lia.
  destruct (Z.leb_spec q 0); [lia|].
  rewrite replace_nth_twice, assign_assign, (assign_same _ _ _ Eq), <- En.
  rewrite replace_nth_same. symmetry. exact Ec.
Qed.

(** [addToCart] then one step down. *)
Lemma add_back p p_at st :
  cart_inv (cart st) = true ->
  find (allProducts st) (has_id p) = Ok p_at ->
  truthy (found (allProducts st) p_at) = true ->
  cart (snd (changeQty p (-1) (snd (addToCart p st)))) = cart st.
Proof.
  intros Inv F T.
  pose proof (lines_inv _ Inv) as Ec. pose proof (inv_lines _ Inv) as Hl.
  set (l := lines (cart st)) in *.
  pose proof (step_inv (Add p) st Inv) as Inv1. cbn [step] in Inv1.
  pose proof (inv_lines _ Inv1) as Hl1.
  pose proof (lines_inv _ Inv1) as Ec1.
  pose proof (addToCart_cart p st l Ec Hl) as E1.
  rewrite F in E1. cbv zeta in E1. rewrite T in E1.
  destruct (index_of p (map line_id l)) as [j|] eqn:Hj.
  - destruct (found_line p l j Hl Hj) as (ps & q & En & Eq & Hq & Lj & Hid).
    rewrite En, (line_quantity_obj ps q Eq) in E1.
    rewrite E1 in Hl1. cbn [lines] in Hl1.
    rewrite (changeQty_cart p (-1) _ _ E1 Hl1).
    rewrite map_replace_nth by (rewrite En; apply line_id_with_quantity).
    rewrite Hj, nth_replace_nth by exact Lj.
    cbn [with_quantity].
    rewrite (line_quantity_obj _ (q + 1) (lookup_assign_same _ _ _)).
    replace (q + 1 + -1)%Z with q by lia.
    destruct (Z.leb_spec q 0); [lia|].
    rewrite replace_nth_twice, assign_assign, (assign_same _ _ _ Eq), <- En.
    rewrite replace_nth_same. symmetry. exact Ec.
  - set (line1 := JObj (assign "quantity" (JInt 1)
                          (spread (found (allProducts st) p_at)))) in *.
    assert (Hid1 : line_id line1 = p)
      by (apply spread_id; [exact T|apply (found_has_id p _ p_at F T)]).
    assert (Fresh : ~ In p (map line_id l)) by (apply index_of_none; exact Hj).
    rewrite E1 in Hl1. cbn [lines] in Hl1.
    rewrite (changeQty_cart p (-1) _ _ E1 Hl1).
    rewrite map_app. cbn [map]. rewrite Hid1.
    rewrite (index_of_app_fresh p _ Fresh), length_map, nth_middle.
    assert (Q1 : line_quantity line1 = Some 1%Z).
    { unfold line1. apply line_quantity_obj, lookup_assign_same. }
    rewrite Q1. cbn [Z.add Z.leb Z.compare Pos.add Z.pos_sub].
    rewrite without_app, (CountFacts.without_absent p l Fresh).
    unfold without at 1. cbn [filter]. rewrite Hid1, String.eqb_refl.
    cbn [negb]. rewrite app_nil_r. symmetry. exact Ec.
Qed.

End UndoFacts.

(** X7.  Steps that undo each other.  Under the invariant, and with
    quantities that stay within [2^53] (where binary64 adds integers
    exactly), a change of the quantity of a line that leaves it on 1 or
    more, followed by the opposite change, gives the cart back as it was;
    and so does [addToCart(id)] followed by [changeQty(id, -1)], whether
    the product had a line or not. *)
Theorem cart_steps_undo (p : string) (st : Client.state) :
  cart_inv (Client.cart st) = true ->
  (forall j q d,
     index_of p (map line_id (lines (Client.cart st))) = Some j ->
     line_quantity (nth j (lines (Client.cart st)) JUndefined) = Some q ->
     (q <= 2 ^ 53)%Z -> (0 < q + d <= 2 ^ 53)%Z ->
     Client.cart (Client.run [Client.Change p d; Client.Change p (- d)] st)
     = Client.cart st) /\
  (forall p_at,
     Client.find (Client.allProducts st) (Client.has_id p) = Ok p_at ->
     truthy (Client.found (Client.allProducts st) p_at) = true ->
     (forall j q,
        index_of p (map line_id (lines (Client.cart st))) = Some j ->
        line_quantity (nth j (lines (Client.cart st)) JUndefined) = Some q ->
        (q < 2 ^ 53)%Z) ->
     Client.cart (Client.run [Client.Add p; Client.Change p (-1)] st)
     = Client.cart st).
Proof.
  intros Inv. split.
  - intros j q d Hj Hq _ [Hd _].
    exact (UndoFacts.change_back p j q d st Inv Hj Hq Hd).
  - intros p_at F T _. exact (UndoFacts.add_back p p_at st Inv F T).
Qed.

Lemma cart_steps_undo_witness :
  cart_inv (Client.cart Page.two_caps) = true /\
  Client.cart (Client.run [Client.Change Scenario.cap_id 3;
                           Client.Change Scenario.cap_id (-3)] Page.two_caps)
  = Client.cart Page.two_caps /\
  Client.cart (Client.run [Client.Add Scenario.mug_id;
                           Client.Change Scenario.mug_id (-1)] Page.two_caps)
  = Client.cart Page.two_caps.
Proof.
  destruct (cart_steps_undo Scenario.cap_id Page.two_caps eq_refl) as [C _].
  destruct (cart_steps_undo Scenario.mug_id Page.two_caps eq_refl) as [_ A].
  split; [reflexivity|]. split.
  - apply (C 0%nat 2%Z 3%Z eq_refl eq_refl); [discriminate|].
    split; [reflexivity|discriminate].
  - apply (A (Some 1%nat) eq_refl eq_refl). intros j q H. discriminate H.
Defined.

(** ** X8 *)

Module DeltaFacts.
Import Client CartFacts CartTheorems.

Lemma line_price_with_quantity q item :
  line_price (with_quantity q item) = line_price item.
Proof.
  destruct item as [ | | | | | |ps]; try reflexivity.
  unfold line_price, with_quantity, prop.
  rewrite lookup_assign_other by reflexivity. reflexivity.
Qed.

Lemma line_quantity_with_quantity q ps :
  line_quantity (with_quantity q (JObj ps)) = Some q.
Proof. cbn [with_quantity]. apply line_quantity_obj, lookup_assign_same. Qed.

(** The amount and the quantity a line adds to the sums. *)
Lemma exact_total_cons item l price q :
  line_price item = Some price -> line_quantity item = Some q ->
  (exact_total (item :: l) == unit_price item * inject_Z q + exact_total l)%Q.
Proof.
  intros Hp Hq. cbn [exact_total]. unfold unit_price. rewrite Hp, Hq. reflexivity.
Qed.

Lemma exact_total_app a b :
  (exact_total (a ++ b) == exact_total a + exact_total b)%Q.
Proof.
  induction a as [|x a IH]; cbn [app exact_total]; [ring|].
  destruct (line_price x), (line_quantity x); rewrite IH; ring.
Qed.

Lemma total_quantity_app a b :
  total_quantity (a ++ b) = (total_quantity a + total_quantity b)%Z.
Proof.
  induction a as [|x a IH]; cbn [app total_quantity]; [reflexivity|].
  destruct (line_quantity x); rewrite IH; lia.
Qed.

(** A line whose quantity goes from [q] to [q']. *)
Lemma exact_total_replace j l ps q q' :
  nth j l JUndefined = JObj ps -> (j < List.length l)%nat ->
  line_quantity (JObj ps) = Some q -> is_priced (JObj ps) = true ->
  (exact_total (replace_nth j (with_quantity q' (JObj ps)) l)
   == exact_total l + unit_price (JObj ps) * inject_Z (q' - q))%Q.
Proof.
  intros En Lj Hq Hp. unfold is_priced in Hp.
  destruct (line_price (JObj ps)) as [d|] eqn:Ed; [|discriminate]. clear Hp.
  revert j En Lj. induction l as [|x l IH]; intros j En Lj; [simpl in Lj; lia|].
  destruct j as [|j]; cbn [replace_nth nth] in *.
  - subst x. cbn [exact_total].
    rewrite line_price_with_quantity, line_quantity_with_quantity, Ed, Hq.
    unfold unit_price. rewrite Ed. unfold Z.sub. rewrite inject_Z_plus, inject_Z_opp.
    ring.
  - cbn [exact_total]. cbn [List.length] in Lj.
    pose proof (IH j En ltac:(lia)) as R.
    destruct (line_price x), (line_quantity x); rewrite R; ring.
Qed.

Lemma total_quantity_replace j l ps q q' :
  nth j l JUndefined = JObj ps -> (j < List.length l)%nat ->
  line_quantity (JObj ps) = Some q ->
  total_quantity (replace_nth j (with_quantity q' (JObj ps)) l)
  = (total_quantity l + (q' - q))%Z.
Proof.
  intros En Lj Hq.
  revert j En Lj. induction l as [|x l IH]; intros j En Lj; [simpl in Lj; lia|].
  destruct j as [|j]; cbn [replace_nth nth] in *.
  - subst x. cbn [total_quantity].
    rewrite line_quantity_with_quantity, Hq. lia.
  - cbn [total_quantity]. cbn [List.length] in Lj.
    rewrite (IH j En ltac:(lia)). destruct (line_quantity x); lia.
Qed.

(** The one line of a product, taken out. *)
Lemma sums_without p l j ps q :
  nodupb (map line_id l) = true ->
  index_of p (map line_id l) = Some j ->
  nth j l JUndefined = JObj ps -> line_quantity (JObj ps) = Some q ->
  is_priced (JObj ps) = true ->
  total_quantity (without p l) = (total_quantity l - q)%Z /\
  (exact_total (without p l)
   == exact_total l - unit_price (JObj ps) * inject_Z q)%Q.
Proof.
  intros Nd Hj En Hq Hp. unfold is_priced in Hp.
  destruct (line_price (JObj ps)) as [d|] eqn:Ed; [|discriminate]. clear Hp.
  revert j Nd Hj En. induction l as [|x l IH]; intros j Nd Hj En; [discriminate|].
  cbn [map] in Nd, Hj. apply JsonFacts.nodupb_cons in Nd. destruct Nd as [Nx Nd].
  cbn [index_of] in Hj. unfold without. cbn [filter].
  destruct (String.eqb (line_id x) p) eqn:E.
  - injection Hj as <-. cbn [nth] in En. subst x. cbn [negb].
    apply String.eqb_eq in E.
    assert (Fresh : ~ In p (map line_id l)).
    { intros Hin. specialize (Nx _ Hin). rewrite E, String.eqb_refl in Nx.
      discriminate. }
    fold (without p l). rewrite (CountFacts.without_absent p l Fresh).
    cbn [total_quantity exact_total]. rewrite Hq, Ed. unfold unit_price.
    rewrite Ed. split; [lia|ring].
  - destruct (index_of p (map line_id l)) as [j'|] eqn:Hj'; [|discriminate].
    injection Hj as <-. cbn [nth] in En. cbn [negb].
    fold (without p l).
    destruct (IH j' Nd eq_refl En) as [T X].
    cbn [total_quantity exact_total]. rewrite T.
    split; [destruct (line_quantity x); lia|].
    destruct (line_price x), (line_quantity x); rewrite X; ring.
Qed.

End DeltaFacts.

(** X8.  How a step moves the count and the total of the cart, on a
    cart of priced lines under the invariant, the count being the sum of
    the quantities and the total the exact sum of price times quantity over
    the lines, and the quantities staying within [2^53] (where binary64 adds
    integers exactly).  [addToCart] of a loaded product raises the count by
    1 and the total by one unit price: the price the line already carries
    when the product has a line (the price in the product list is not
    read), the price of the product when the line is new.
    [changeQty(id, d)] on a line of quantity [q] moves the count by [d] and
    the total by [d] unit prices, and by [-q] when [q + d <= 0], the line
    being deleted. *)
Theorem cart_steps_move_count_and_total (p : string) (st : Client.state) :
  cart_inv (Client.cart st) = true ->
  forallb is_priced (lines (Client.cart st)) = true ->
  (forall p_at,
     Client.find (Client.allProducts st) (Client.has_id p) = Ok p_at ->
     is_priced (Client.found (Client.allProducts st) p_at) = true ->
     (forall j q,
        index_of p (map line_id (lines (Client.cart st))) = Some j ->
        line_quantity (nth j (lines (Client.cart st)) JUndefined) = Some q ->
        (q < 2 ^ 53)%Z) ->
     total_quantity (lines (Client.cart (snd (Client.addToCart p st))))
     = (total_quantity (lines (Client.cart st)) + 1)%Z /\
     (exact_total (lines (Client.cart (snd (Client.addToCart p st))))
      == exact_total (lines (Client.cart st)) +
         match index_of p (map line_id (lines (Client.cart st))) with
         | Some j => unit_price (nth j (lines (Client.cart st)) JUndefined)
         | None => unit_price (Client.found (Client.allProducts st) p_at)
         end)%Q) /\
  (forall j q d,
     index_of p (map line_id (lines (Client.cart st))) = Some j ->
     line_quantity (nth j (lines (Client.cart st)) JUndefined) = Some q ->
     (q <= 2 ^ 53)%Z -> (q + d <= 2 ^ 53)%Z ->
     total_quantity (lines (Client.cart (snd (Client.changeQty p d st))))
     = (total_quantity (lines (Client.cart st))
        + (if (q + d <=? 0)%Z then - q else d))%Z /\
     (exact_total (lines (Client.cart (snd (Client.changeQty p d st))))
      == exact_total (lines (Client.cart st)) +
         unit_price (nth j (lines (Client.cart st)) JUndefined)
         * inject_Z (if (q + d <=? 0)%Z then - q else d))%Q).
Proof.
  intros Inv Hp.
  pose proof (CartTheorems.lines_inv _ Inv) as Ec.
  pose proof (CartTheorems.inv_lines _ Inv) as Hl.
  pose proof Inv as Inv0. apply CartFacts.cart_inv_spec in Inv0.
  destruct Inv0 as (l0 & El0 & Nd & _).
  assert (El : l0 = lines (Client.cart st)) by (rewrite El0; reflexivity).
  subst l0. clear El0.
  set (l := lines (Client.cart st)) in *.
  split.
  - intros p_at F Pp _.
    assert (T : truthy (Client.found (Client.allProducts st) p_at) = true).
    { apply TotalFacts.is_priced_spec in Pp. destruct Pp as (ps & d & -> & _).
      reflexivity. }
    rewrite (CartFacts.addToCart_cart p st l Ec Hl), F. cbv zeta. rewrite T.
    destruct (index_of p (map line_id l)) as [j|] eqn:Hj.
    + destruct (CartFacts.found_line p l j Hl Hj)
        as (ps & q & En & Eq & Hq & Lj & Hid).
      pose proof (CartFacts.line_quantity_obj ps q Eq) as Q.
      assert (Pj : is_priced (JObj ps) = true)
        by (rewrite <- En; apply CartFacts.forallb_nth; assumption).
      rewrite En, Q. cbn [lines]. split.
      * rewrite (DeltaFacts.total_quantity_replace j l ps q _ En Lj Q). lia.
      * rewrite (DeltaFacts.exact_total_replace j l ps q _ En Lj Q Pj).
        replace (q + 1 - q)%Z with 1%Z by lia. ring.
    + cbn [lines].
      set (line1 := JObj (assign "quantity" (JInt 1)
                            (Client.spread (Client.found (Client.allProducts st) p_at)))).
      assert (Q1 : line_quantity line1 = Some 1%Z)
        by (apply CartFacts.line_quantity_obj, CartFacts.lookup_assign_same).
      assert (P1 : line_price line1
                   = line_price (Client.found (Client.allProducts st) p_at)).
      { apply TotalFacts.is_priced_spec in Pp. destruct Pp as (ps & d & E & Ed).
        unfold line1. rewrite E. cbn [Client.spread].
        unfold line_price, prop.
        rewrite CartFacts.lookup_assign_other by reflexivity. reflexivity. }
      split.
      * rewrite DeltaFacts.total_quantity_app. cbn [total_quantity].
        rewrite Q1. lia.
      * rewrite DeltaFacts.exact_total_app. cbn [exact_total].
        rewrite Q1, P1. unfold unit_price.
        unfold is_priced in Pp.
        destruct (line_price (Client.found (Client.allProducts st) p_at));
          [|discriminate].
        unfold inject_Z. ring.
  - intros j q d Hj Hq _ _.
    destruct (CartFacts.found_line p l j Hl Hj)
      as (ps & q' & En & Eq & Hq' & Lj & Hid).
    pose proof (CartFacts.line_quantity_obj ps q' Eq) as Q.
    rewrite En, Q in Hq. injection Hq as ->.
    assert (Pj : is_priced (JObj ps) = true)
      by (rewrite <- En; apply CartFacts.forallb_nth; assumption).
    rewrite (CartFacts.changeQty_cart p d st l Ec Hl), Hj, En, Q.
    destruct (q + d <=? 0)%Z; cbn [lines].
    + destruct (DeltaFacts.sums_without p l j ps q Nd Hj En Q Pj) as [T X].
      rewrite T, X. split; [lia|]. rewrite inject_Z_opp. ring.
    + split.
      * rewrite (DeltaFacts.total_quantity_replace j l ps q _ En Lj Q). lia.
      * rewrite (DeltaFacts.exact_total_replace j l ps q _ En Lj Q Pj).
        replace (q + d - q)%Z with d by lia. reflexivity.
Qed.

Lemma cart_steps_move_count_and_total_witness :
  cart_inv (Client.cart repriced) = true /\
  forallb is_priced (lines (Client.cart repriced)) = true /\
  total_quantity (lines (Client.cart (snd (Client.addToCart Scenario.cap_id repriced))))
  = 3%Z /\
  (exact_total (lines (Client.cart (snd (Client.addToCart Scenario.cap_id repriced))))
   == exact_total (lines (Client.cart repriced)) + (2499 # 100))%Q /\
  total_quantity
    (lines (Client.cart (snd (Client.changeQty Scenario.cap_id (-5) repriced))))
  = 0%Z.
Proof.
  destruct (cart_steps_move_count_and_total Scenario.cap_id repriced
              eq_refl eq_refl) as [A C].
  destruct (A (Some 0%nat) eq_refl eq_refl) as [A1 A2].
  { intros j q Hj Hq. injection Hj as <-. injection Hq as <-. reflexivity. }
  destruct (C 0%nat 2%Z (-5)%Z eq_refl eq_refl) as [C1 _];
    [discriminate|discriminate|].
  split; [reflexivity|]. split; [reflexivity|].
  split; [exact A1|]. split; [exact A2|exact C1].
Defined.

(** ** Rounding keeps the order *)

Module MonoFacts.
Import Binary64 PowFacts RoundFacts.

Lemma leb_toQ a b : Dec.leb a b = true <-> (Dec.toQ a <= Dec.toQ b)%Q.
Proof.
  destruct a as [ca sa], b as [cb sb]. unfold Dec.leb. cbn [Dec.coef Dec.scale].
  pose proof (DecFacts.toQ_value ca sa) as Va.
  pose proof (DecFacts.toQ_value cb sb) as Vb.
  pose proof (DecFacts.pow10_pos sa) as Pa.
  pose proof (DecFacts.pow10_pos sb) as Pb.
  assert (Qa : (0 < inject_Z (Dec.pow10 sa))%Q).
  { change 0%Q with (inject_Z 0). rewrite <- Zlt_Qlt. exact Pa. }
  assert (Qb : (0 < inject_Z (Dec.pow10 sb))%Q).
  { change 0%Q with (inject_Z 0). rewrite <- Zlt_Qlt. exact Pb. }
  rewrite Z.leb_le, Zle_Qle, !inject_Z_mult, <- Va, <- Vb.
  set (x := Dec.toQ (Dec.mk ca sa)). set (y := Dec.toQ (Dec.mk cb sb)).
  set (p := inject_Z (Dec.pow10 sa)) in *. set (q := inject_Z (Dec.pow10 sb)) in *.
  assert (PQ : (0 < p * q)%Q) by nra.
  split; intros H.
  - assert (G : (x * (p * q) <= y * (p * q))%Q) by lra.
    apply Qnot_lt_le. intros C. nra.
  - assert (G : (x * (p * q) <= y * (p * q))%Q) by nra. lra.
Qed.

Lemma nearest_even_mono x y :
  (x <= y)%Q -> (nearest_even x <= nearest_even y)%Z.
Proof.
  intros H.
  pose proof (Qfloor_resp_le _ _ H) as F.
  destruct (Z.eq_dec (Qfloor x) (Qfloor y)) as [E|N].
  - unfold nearest_even. rewrite <- E.
    remember (Qfloor x) as q eqn:Eq in *.
    destruct (x - inject_Z q ?= 1 # 2)%Q eqn:Cx;
      destruct (y - inject_Z q ?= 1 # 2)%Q eqn:Cy;
      try (destruct (Z.even q)); try lia;
      try rewrite <- Qeq_alt in *; try rewrite <- Qlt_alt in *;
      try rewrite <- Qgt_alt in *; lra.
  - transitivity (Qfloor y).
    + apply nearest_even_le.
      pose proof (Qlt_floor x) as L.
      assert (I : (inject_Z (Qfloor x + 1) <= inject_Z (Qfloor y))%Q).
      { rewrite <- Zle_Qle. lia. }
      lra.
    + apply nearest_even_ge, Qfloor_le.
Qed.

Lemma exponent_mono x y :
  (0 < x)%Q -> (x <= y)%Q -> (exponent x <= exponent y)%Z.
Proof.
  intros Px H.
  destruct (exponent_spec x Px) as [A _].
  destruct (exponent_spec y ltac:(lra)) as [_ B].
  assert (L : (pow2 (exponent x) < pow2 (exponent y + 1))%Q) by lra.
  apply pow2_lt_inv in L. lia.
Qed.

(** The multiple of the quantum that [nearest] takes. *)
Lemma rounded_mono x y :
  (0 < x)%Q -> (x <= y)%Q ->
  (inject_Z (nearest_even (x / pow2 (quantum x))) * pow2 (quantum x)
   <= inject_Z (nearest_even (y / pow2 (quantum y))) * pow2 (quantum y))%Q.
Proof.
  intros Px H.
  pose proof (exponent_mono x y Px H) as E.
  destruct (exponent_spec x Px) as [Ax Bx].
  destruct (exponent_spec y ltac:(lra)) as [Ay By].
  assert (K : (quantum x <= quantum y)%Z) by (unfold quantum; lia).
  pose proof (pow2_pos (quantum x)) as Kx.
  pose proof (pow2_pos (quantum y)) as Ky.
  destruct (Z.eq_dec (quantum x) (quantum y)) as [Ek|Nk].
  - rewrite <- Ek.
    assert (D : (x / pow2 (quantum x) <= y / pow2 (quantum x))%Q).
    { unfold Qdiv. apply Qmult_le_compat_r; [exact H|].
      apply Qlt_le_weak, Qinv_lt_0_compat, Kx. }
    pose proof (nearest_even_mono _ _ D) as M.
    rewrite Zle_Qle in M.
    set (a := inject_Z (nearest_even (x / pow2 (quantum x)))) in *.
    set (b := inject_Z (nearest_even (y / pow2 (quantum x)))) in *.
    nra.
  - assert (Ky' : quantum y = (exponent y - 52)%Z) by (unfold quantum in *; lia).
    assert (Ex : (exponent x + 1 <= exponent y)%Z) by (unfold quantum in *; lia).
    apply Qle_trans with (pow2 (exponent y)).
    + (* the value for [x] is at most [2^exponent y] *)
      assert (G : (0 <= exponent y - quantum x)%Z) by (unfold quantum in *; lia).
      assert (U : (x / pow2 (quantum x)
                   <= inject_Z (2 ^ (exponent y - quantum x)))%Q).
      { rewrite <- (pow2_Z _ G), pow2_sub.
        unfold Qdiv. apply Qmult_le_compat_r.
        - pose proof (pow2_le _ _ Ex). lra.
        - apply Qlt_le_weak, Qinv_lt_0_compat, Kx. }
      apply nearest_even_le in U. rewrite Zle_Qle, <- (pow2_Z _ G) in U.
      assert (S2 : (pow2 (exponent y)
                    == pow2 (exponent y - quantum x) * pow2 (quantum x))%Q).
      { rewrite <- pow2_add. replace (exponent y - quantum x + quantum x)%Z
          with (exponent y) by lia. reflexivity. }
      rewrite S2.
      apply Qmult_le_compat_r; [exact U|lra].
    + (* and the value for [y] is at least that *)
      assert (L : (inject_Z (2 ^ 52) <= y / pow2 (quantum y))%Q).
      { rewrite <- (pow2_Z 52) by lia.
        assert (S2 : (pow2 52 == pow2 (exponent y) / pow2 (quantum y))%Q).
        { rewrite <- pow2_sub. rewrite Ky'.
          replace (exponent y - (exponent y - 52))%Z with 52%Z by lia.
          reflexivity. }
        rewrite S2. unfold Qdiv. apply Qmult_le_compat_r; [exact Ay|].
        apply Qlt_le_weak, Qinv_lt_0_compat, Ky. }
      apply nearest_even_ge in L. rewrite Zle_Qle, <- (pow2_Z 52) in L by lia.
      assert (S2 : (pow2 (exponent y) == pow2 52 * pow2 (quantum y))%Q).
      { rewrite <- pow2_add, Ky'.
        replace (52 + (exponent y - 52))%Z with (exponent y) by lia.
        reflexivity. }
      rewrite S2. apply Qmult_le_compat_r; [exact L|lra].
Qed.

Lemma rounded_nonneg x :
  (0 < x)%Q ->
  (0 <= inject_Z (nearest_even (x / pow2 (quantum x))) * pow2 (quantum x))%Q.
Proof.
  intros Px. pose proof (pow2_pos (quantum x)) as Kx.
  assert (D : (inject_Z 0 <= x / pow2 (quantum x))%Q).
  { change (inject_Z 0) with 0%Q. unfold Qdiv.
    apply Qmult_le_0_compat; [lra|].
    apply Qlt_le_weak, Qinv_lt_0_compat, Kx. }
  apply nearest_even_ge in D. rewrite Zle_Qle in D.
  change (inject_Z 0) with 0%Q in D.
  apply Qmult_le_0_compat; lra.
Qed.

(** What [fl] gives from zero on. *)
Lemma fl_not_negative a :
  (0 <= Dec.toQ a)%Q ->
  fl a = Inf false \/ exists v, fl a = Fin v /\ (0 <= Dec.toQ v)%Q.
Proof.
  intros H. destruct (Qle_lt_or_eq _ _ H) as [P|Z0].
  - rewrite (fl_positive a P). unfold nearest.
    destruct (Qle_bool _ _); [left; reflexivity|].
    right. eexists. split; [reflexivity|].
    rewrite value_toQ. apply rounded_nonneg, P.
  - right. exists Dec.zero. split; [|discriminate].
    apply fl_zero. symmetry. exact Z0.
Qed.

Lemma fl_mono a b :
  (0 <= Dec.toQ a)%Q -> (Dec.toQ a <= Dec.toQ b)%Q ->
  num_le (fl a) (fl b) = true.
Proof.
  intros H0 H.
  destruct (Qle_lt_or_eq _ _ H0) as [P|Z0].
  - assert (Pb : (0 < Dec.toQ b)%Q) by lra.
    pose proof (rounded_mono _ _ P H) as M.
    rewrite (fl_positive a P), (fl_positive b Pb). unfold nearest.
    destruct (Qle_bool (pow2 1024)
                (inject_Z (nearest_even (Dec.toQ b / pow2 (quantum (Dec.toQ b))))
                 * pow2 (quantum (Dec.toQ b)))) eqn:Ob.
    + match goal with |- context [if ?c then _ else _] => destruct c end;
        reflexivity.
    + destruct (Qle_bool (pow2 1024)
                (inject_Z (nearest_even (Dec.toQ a / pow2 (quantum (Dec.toQ a))))
                 * pow2 (quantum (Dec.toQ a)))) eqn:Oa.
      * apply Qle_bool_iff in Oa.
        assert (C : Qle_bool (pow2 1024)
                (inject_Z (nearest_even (Dec.toQ b / pow2 (quantum (Dec.toQ b))))
                 * pow2 (quantum (Dec.toQ b))) = true).
        { apply Qle_bool_iff. lra. }
        congruence.
      * cbn [num_le]. apply leb_toQ. rewrite !value_toQ. exact M.
  - rewrite (fl_zero a) by (symmetry; exact Z0).
    destruct (fl_not_negative b ltac:(lra)) as [->|(v & -> & V)]; [reflexivity|].
    cbn [num_le]. apply leb_toQ. exact V.
Qed.

Lemma not_negative_spec x :
  not_negative x <->
  x = Inf false \/ exists v, x = Fin v /\ (0 <= Dec.toQ v)%Q.
Proof.
  unfold not_negative, num_of_Z.
  destruct x as [|[|]|v]; cbn [num_le].
  - split; [discriminate|]. intros [E|(v & E & _)]; discriminate.
  - split; [discriminate|]. intros [E|(v & E & _)]; discriminate.
  - split; [left; reflexivity|reflexivity].
  - rewrite leb_toQ. split.
    + intros H. right. exists v. split; [reflexivity|exact H].
    + intros [E|(w & E & H)]; [discriminate|]. injection E as ->. exact H.
Qed.

Lemma num_le_spec x y :
  not_negative x ->
  (num_le x y = true <->
   y = Inf false \/
   exists a b, x = Fin a /\ y = Fin b /\ (Dec.toQ a <= Dec.toQ b)%Q).
Proof.
  intros Nx. apply not_negative_spec in Nx.
  destruct Nx as [->|(a & -> & A)]; destruct y as [|[|]|b]; cbn [num_le];
    split; intros H;
    try discriminate H; try reflexivity; try (left; reflexivity);
    try (destruct H as [E|(a' & b' & Ea & Eb & H)];
         try discriminate E; try discriminate Ea; try discriminate Eb).
  - right. exists a, b. split; [reflexivity|]. split; [reflexivity|].
    apply leb_toQ, H.
  - injection Ea as <-. injection Eb as <-. apply leb_toQ, H.
Qed.

Lemma round_not_negative x : not_negative x -> not_negative (round x).
Proof.
  intros Nx. apply not_negative_spec in Nx. apply not_negative_spec.
  destruct Nx as [->|(a & -> & A)]; [left; reflexivity|].
  cbn [round]. apply fl_not_negative, A.
Qed.

Lemma round_mono x y :
  not_negative x -> num_le x y = true -> num_le (round x) (round y) = true.
Proof.
  intros Nx H. pose proof (proj1 (num_le_spec x y Nx) H) as C.
  apply not_negative_spec in Nx.
  destruct C as [->|(a & b & -> & -> & L)].
  - cbn [round].
    pose proof (round_not_negative x (proj2 (not_negative_spec x) Nx)) as R.
    apply (num_le_spec _ _ R). left. reflexivity.
  - cbn [round]. destruct Nx as [E|(v & E & V)]; [discriminate|].
    injection E as <-. apply fl_mono; assumption.
Qed.

Lemma add_mono x y x' y' :
  not_negative x -> not_negative y ->
  num_le x x' = true -> num_le y y' = true ->
  not_negative (Binary64.add x y) /\
  num_le (Binary64.add x y) (Binary64.add x' y') = true.
Proof.
  intros Nx Ny Hx Hy.
  assert (N : not_negative (num_add x y)).
  { apply not_negative_spec in Nx, Ny. apply not_negative_spec.
    destruct Nx as [->|(a & -> & A)], Ny as [->|(b & -> & B)];
      try (left; reflexivity).
    right. eexists. split; [reflexivity|]. rewrite DecFacts.toQ_add. lra. }
  split; [apply round_not_negative, N|].
  apply round_mono; [exact N|].
  apply (num_le_spec _ _ N).
  pose proof (proj1 (num_le_spec x x' Nx) Hx) as Cx.
  pose proof (proj1 (num_le_spec y y' Ny) Hy) as Cy.
  apply not_negative_spec in Nx, Ny.
  destruct Cx as [->|(a & a' & -> & -> & La)].
  - left. destruct Cy as [->|(b & b' & -> & -> & Lb)]; reflexivity.
  - destruct Cy as [->|(b & b' & -> & -> & Lb)]; [left; reflexivity|].
    right. do 2 eexists. split; [reflexivity|]. split; [reflexivity|].
    rewrite !DecFacts.toQ_add. lra.
Qed.

(** A product by a finite number from zero on. *)
Lemma mul_mono x x' c c' :
  not_negative x -> num_le x x' = true ->
  (0 < Dec.toQ c)%Q -> (Dec.toQ c <= Dec.toQ c')%Q ->
  not_negative (Binary64.mul x (Fin c)) /\
  num_le (Binary64.mul x (Fin c)) (Binary64.mul x' (Fin c')) = true.
Proof.
  intros Nx Hx C0 Cc.
  assert (C' : (0 < Dec.toQ c')%Q) by lra.
  assert (N : not_negative (Binary64.mul x (Fin c))).
  { apply not_negative_spec in Nx.
    destruct Nx as [->|(a & -> & A)]; unfold Binary64.mul; cbn [num_mul].
    - apply (proj1 (toQ_sign c)) in C0.
      unfold Dec.is_zero, dec_negative.
      rewrite (proj2 (Z.eqb_neq _ _)), (proj2 (Z.ltb_ge _ _)) by lia.
      reflexivity.
    - apply not_negative_spec, fl_not_negative. rewrite DecFacts.toQ_mul. nra. }
  split; [exact N|].
  pose proof (proj1 (num_le_spec x x' Nx) Hx) as Cx.
  destruct Cx as [->|(a & a' & -> & -> & La)].
  - apply (num_le_spec _ _ N). left.
    unfold Binary64.mul. cbn [num_mul].
    apply (proj1 (toQ_sign c')) in C'.
    unfold Dec.is_zero, dec_negative.
    rewrite (proj2 (Z.eqb_neq _ _)), (proj2 (Z.ltb_ge _ _)) by lia.
    reflexivity.
  - apply not_negative_spec in Nx. destruct Nx as [E|(v & E & V)]; [discriminate|].
    injection E as <-.
    unfold Binary64.mul. cbn [num_mul round].
    apply fl_mono; rewrite ?DecFacts.toQ_mul; nra.
Qed.

Lemma num_le_refl x : not_negative x -> num_le x x = true.
Proof.
  intros N. apply (num_le_spec _ _ N). apply not_negative_spec in N.
  destruct N as [->|(v & -> & V)]; [left; reflexivity|].
  right. exists v, v. split; [reflexivity|]. split; [reflexivity|]. lra.
Qed.

Lemma round_dec_mono a b :
  (Dec.toQ a <= Dec.toQ b)%Q -> (Dec.round a <= Dec.round b)%Z.
Proof.
  intros H.
  destruct (DecFacts.round_spec a) as [A _].
  destruct (DecFacts.round_spec b) as [_ B].
  assert (L : (inject_Z (Dec.round a) < inject_Z (Dec.round b + 1))%Q).
  { rewrite inject_Z_plus. change (inject_Z 1) with 1%Q. lra. }
  rewrite <- Zlt_Qlt in L. lia.
Qed.

Lemma Math_round_mono x y :
  not_negative x -> num_le x y = true ->
  not_negative (Total64.Math_round x) /\
  num_le (Total64.Math_round x) (Total64.Math_round y) = true.
Proof.
  intros Nx H.
  assert (N : not_negative (Total64.Math_round x)).
  { apply not_negative_spec in Nx. apply not_negative_spec.
    destruct Nx as [->|(a & -> & A)]; [left; reflexivity|].
    right. eexists. split; [reflexivity|].
    rewrite DecFacts.toQ_of_Z.
    assert (Z0 : (Dec.toQ Dec.zero <= Dec.toQ a)%Q) by exact A.
    apply round_dec_mono in Z0. change (Dec.round Dec.zero) with 0%Z in Z0.
    rewrite Zle_Qle in Z0. exact Z0. }
  split; [exact N|]. apply (num_le_spec _ _ N).
  destruct (proj1 (num_le_spec x y Nx) H) as [->|(a & b & -> & -> & L)];
    [left; reflexivity|].
  right. do 2 eexists. split; [reflexivity|]. split; [reflexivity|].
  rewrite !DecFacts.toQ_of_Z, <- Zle_Qle. apply round_dec_mono, L.
Qed.

Lemma div_100_mono x y :
  not_negative x -> num_le x y = true ->
  not_negative (Binary64.div_100 x) /\
  num_le (Binary64.div_100 x) (Binary64.div_100 y) = true.
Proof.
  intros Nx H.
  assert (D : forall a, (0 <= Dec.toQ a)%Q ->
                        (0 <= Dec.toQ (Dec.shift_down 2 a))%Q).
  { intros a A. rewrite DecFacts.toQ_shift_down.
    unfold Qdiv.
    change (/ inject_Z (Dec.pow10 2))%Q with (1 # 100)%Q. lra. }
  assert (N : not_negative (Binary64.div_100 x)).
  { apply not_negative_spec in Nx.
    destruct Nx as [->|(a & -> & A)]; [reflexivity|].
    cbn [div_100]. apply not_negative_spec, fl_not_negative, D, A. }
  split; [exact N|].
  destruct (proj1 (num_le_spec x y Nx) H) as [->|(a & b & -> & -> & L)].
  - apply (num_le_spec _ _ N). left. reflexivity.
  - apply not_negative_spec in Nx.
    destruct Nx as [E|(v & E & V)]; [discriminate|]. injection E as <-.
    cbn [div_100]. apply fl_mono; [apply D, V|].
    rewrite !DecFacts.toQ_shift_down.
    unfold Qdiv.
    change (/ inject_Z (Dec.pow10 2))%Q with (1 # 100)%Q. lra.
Qed.

Lemma round_to_cents_mono x y :
  not_negative x -> num_le x y = true ->
  not_negative (Total64.round_to_cents x) /\
  num_le (Total64.round_to_cents x) (Total64.round_to_cents y) = true.
Proof.
  intros Nx H. unfold Total64.round_to_cents, num_of_Z.
  destruct (mul_mono x y (Dec.of_Z 100) (Dec.of_Z 100) Nx H) as [N1 L1];
    [reflexivity|discriminate|].
  destruct (Math_round_mono _ _ N1 L1) as [N2 L2].
  exact (div_100_mono _ _ N2 L2).
Qed.

Lemma once_cons l ls :
  once (l :: ls)
  = Order.mkItem (Order.productId l) (Order.item_name l) (Order.price l)
      (Order.image l) 1 :: once ls.
Proof. reflexivity. Qed.

Lemma fold_once_mono ls : forall acc acc',
  Forall (fun l => (0 <= Dec.toQ (Order.price l))%Q /\ (1 <= Order.quantity l)%Z) ls ->
  not_negative acc -> num_le acc acc' = true ->
  not_negative (fold_left Total64.add_line (once ls) acc) /\
  num_le (fold_left Total64.add_line (once ls) acc)
         (fold_left Total64.add_line ls acc') = true.
Proof.
  induction ls as [|l ls IH]; intros acc acc' F N H.
  - split; assumption.
  - inversion F as [|? ? [P Q1] F']; subst.
    rewrite once_cons. cbn [fold_left].
    assert (Np : not_negative (Fin (Order.price l))).
    { apply not_negative_spec. right. eexists. split; [reflexivity|exact P]. }
    destruct (mul_mono (Fin (Order.price l)) (Fin (Order.price l))
                (Dec.of_Z 1) (Dec.of_Z (Order.quantity l)) Np (num_le_refl _ Np))
      as [N1 L1].
    { reflexivity. }
    { rewrite !DecFacts.toQ_of_Z, <- Zle_Qle. exact Q1. }
    destruct (add_mono acc _ acc' _ N N1 H L1) as [N2 L2].
    exact (IH _ _ F' N2 L2).
Qed.

Lemma order_total_once ls :
  Forall (fun l => (0 <= Dec.toQ (Order.price l))%Q /\ (1 <= Order.quantity l)%Z) ls ->
  not_negative (Total64.order_total (once ls)) /\
  num_le (Total64.order_total (once ls)) (Total64.order_total ls) = true.
Proof.
  intros F. unfold Total64.order_total.
  assert (N0 : not_negative (num_of_Z 0)) by reflexivity.
  destruct (fold_once_mono ls _ _ F N0 (num_le_refl _ N0)) as [N L].
  exact (round_to_cents_mono _ _ N L).
Qed.

Lemma find_In {A} (f : A -> bool) l x : List.find f l = Some x -> In x l.
Proof. intros H. apply find_some in H. tauto. Qed.

Lemma resolve_In catalog item product :
  resolve catalog item = Some product -> In product catalog.
Proof.
  intros H. destruct (ServerFacts.resolve_some _ _ _ H) as (i & oid & _ & _ & F).
  exact (find_In _ _ _ F).
Qed.

End MonoFacts.

(** ** X9 *)

(** X9.  No claimed quantity lowers a total.  When no price of the catalog
    is negative, the total of every order the handler persists,
    [Math.round(serverTotal * 100) / 100] in binary64 arithmetic on lines
    in quantities of [2^53] at most, is a number from zero on and is not
    below the total of the same lines each taken once: whatever the request
    claims as quantities, negative, zero or no number at all, each line
    counts once at least, and no [*], [+], [Math.round] or [/] gives less
    for more. *)
Theorem order_total_covers_prices (now : nat) (req : jsval) (d : Server.db) :
  (forall product, In product (Server.products d) ->
                   (0 <= Dec.toQ (Product.price product))%Q) ->
  Server.status (fst (Server.post_api_checkout now req d)) = 201%Z ->
  exists o,
    Server.orders (snd (Server.post_api_checkout now req d))
    = Server.orders d ++ [o] /\
    Forall (fun line => (1 <= Order.quantity line)%Z) (Order.items o) /\
    (Forall (fun line => (Order.quantity line <= 2 ^ 53)%Z) (Order.items o) ->
     not_negative (Total64.order_total (once (Order.items o))) /\
     num_le (Total64.order_total (once (Order.items o)))
            (Total64.order_total (Order.items o)) = true).
Proof.
  intros Hc S.
  destruct (ServerFacts.checkout_created now req d S)
    as (l & o & id & Hi & F & T & _ & _ & O & _).
  exists o. split; [exact O|].
  assert (P : Forall (fun line => (0 <= Dec.toQ (Order.price line))%Q /\
                                  (1 <= Order.quantity line)%Z) (Order.items o)).
  { clear - Hc F. induction F as [|item line la lb E F IH]; constructor;
      [|exact IH].
    unfold verified_line in E.
    destruct (resolve (Server.products d) item) as [product|] eqn:R;
      [|discriminate].
    destruct (prop item "quantity") as [q|]; [|discriminate].
    injection E as <-. cbn [Order.price Order.quantity]. split.
    - exact (Hc _ (MonoFacts.resolve_In _ _ _ R)).
    - apply ServerFacts.normalize_quantity_ge_1. }
  split.
  - apply Forall_impl with (2 := P). intros line [_ Q1]. exact Q1.
  - intros _. apply MonoFacts.order_total_once, P.
Qed.

Lemma order_total_covers_prices_witness :
  (forall product, In product (Server.products Till.shop) ->
                   (0 <= Dec.toQ (Product.price product))%Q) /\
  Server.status (fst (Server.post_api_checkout 0 Till.three_mugs Till.shop)) = 201%Z /\
  (exists o,
     Server.orders (snd (Server.post_api_checkout 0 Till.three_mugs Till.shop))
     = Server.orders Till.shop ++ [o] /\
     Forall (fun line => (1 <= Order.quantity line)%Z) (Order.items o) /\
     (Forall (fun line => (Order.quantity line <= 2 ^ 53)%Z) (Order.items o) ->
      not_negative (Total64.order_total (once (Order.items o))) /\
      num_le (Total64.order_total (once (Order.items o)))
             (Total64.order_total (Order.items o)) = true)) /\
  Till.quantities (snd (Server.post_api_checkout 0 Till.three_mugs Till.shop))
  = [[3%Z]] /\
  Till.totals (snd (Server.post_api_checkout 0 Till.three_mugs Till.shop))
  = [Binary64.fl (Dec.mk 5997 2)] /\
  map (fun o => Total64.order_total (once (Order.items o)))
    (Server.orders (snd (Server.post_api_checkout 0 Till.three_mugs Till.shop)))
  = [Binary64.fl (Dec.mk 1999 2)].
Proof.
  assert (H : forall product, In product (Server.products Till.shop) ->
                              (0 <= Dec.toQ (Product.price product))%Q).
  { intros product [<-|[<-|[<-|[]]]]; vm_compute; discriminate. }
  split; [exact H|]. split; [reflexivity|]. split.
  { apply (order_total_covers_prices 0 Till.three_mugs Till.shop H). reflexivity. }
  split; [vm_compute; reflexivity|]. split; vm_compute; reflexivity.
Defined.

(** ** X10 *)

Module QuantityFacts.
Import Server.
Local Open Scope Z_scope.

(** The lines of the order for the lines of a cart. *)
Lemma verified_lines_quantities catalog l ls :
  forallb is_line l = true -> Forall plain_quantity l ->
  Forall2 (fun item line => verified_line catalog item = Some line) l ls ->
  Forall2 (fun item line => line_quantity item = Some (Order.quantity line)) l ls.
Proof.
  intros Hl Hq F. induction F as [|item line la lb E F IH]; constructor.
  - cbn [forallb] in Hl. apply andb_true_iff in Hl. destruct Hl as [Hi _].
    inversion Hq as [|? ? Pi _]; subst.
    apply CartFacts.is_line_spec in Hi. destruct Hi as (ps & q & -> & Eq & H1).
    unfold plain_quantity in Pi.
    rewrite (CartFacts.line_quantity_obj ps q Eq) in Pi |- *.
    unfold verified_line in E.
    destruct (resolve catalog (JObj ps)) as [product|]; [|discriminate].
    cbn [prop] in E. rewrite Eq in E. injection E as <-.
    cbn [Order.quantity].
    rewrite (ParseFacts.normalize_quantity_int q H1 Pi). reflexivity.
  - cbn [forallb] in Hl. apply andb_true_iff in Hl. destruct Hl as [_ Hl].
    inversion Hq; subst. apply IH; assumption.
Qed.

End QuantityFacts.

(** X10.  The order takes the quantities of the cart as the page has
    them.  When the items of an accepted request are lines of a cart
    (integer quantities from 1 to below [10^21], which [String] writes in
    full), each line of the order has the quantity of its cart line. *)
Theorem order_matches_cart (now : nat) (req : jsval) (d : Server.db)
  (l : list jsval) :
  prop req "items" = Ok (JArr l) ->
  forallb is_line l = true -> Forall plain_quantity l ->
  Server.status (fst (Server.post_api_checkout now req d)) = 201%Z ->
  exists o,
    Server.orders (snd (Server.post_api_checkout now req d))
    = Server.orders d ++ [o] /\
    Forall2 (fun item line => line_quantity item = Some (Order.quantity line))
      l (Order.items o).
Proof.
  intros Hi Hl Hq S.
  destruct (ServerFacts.checkout_created now req d S)
    as (l' & o & id & Hi' & F & _ & _ & _ & O & _).
  rewrite Hi in Hi'. injection Hi' as <-.
  pose proof (QuantityFacts.verified_lines_quantities _ _ _ Hl Hq F) as Q.
  exists o. split; [exact O|exact Q].
Qed.

Lemma order_matches_cart_witness :
  forallb is_line (lines (Client.cart Page.pens_and_pad)) = true /\
  Forall plain_quantity (lines (Client.cart Page.pens_and_pad)) /\
  (exists o,
     Server.orders
       (snd (Server.post_api_checkout 0
               (Scenario.order_request "Ann"
                  (lines (Client.cart Page.pens_and_pad)) (JInt 0))
               Scenario.shop))
     = Server.orders Scenario.shop ++ [o] /\
     map Order.quantity (Order.items o) = [2%Z; 1%Z]) /\
  Server.normalize_quantity (JInt (10 ^ 21)) = 1%Z.
Proof.
  assert (Hq : Forall plain_quantity (lines (Client.cart Page.pens_and_pad)))
    by (repeat constructor).
  split; [reflexivity|]. split; [exact Hq|].
  split; [|vm_compute; reflexivity].
  destruct (order_matches_cart 0
              (Scenario.order_request "Ann"
                 (lines (Client.cart Page.pens_and_pad)) (JInt 0))
              Scenario.shop _ eq_refl eq_refl Hq eq_refl) as (o & O & Q).
  exists o. split; [exact O|].
  inversion Q as [|a b la lb Q1 Q2 E1 E2]; subst.
  inversion Q2 as [|a' b' la' lb' Q3 Q4 E3 E4]; subst.
  inversion Q4; subst. cbn [map].
  injection Q1 as <-. injection Q3 as <-. reflexivity.
Defined.

(** ** X11 *)

Module LookupFacts.
Import Server Lookup.

Lemma is_hex_digit c : is_digit c = true -> is_hex c = true.
Proof.
  intros H. unfold is_digit in H. unfold is_hex, hex_val. cbv zeta in *.
  rewrite H. reflexivity.
Qed.

Lemma lower_digit c : is_digit c = true -> lower_char c = c.
Proof.
  intros H. apply TextFacts.is_digit_range in H. unfold lower_char.
  destruct (Z.leb_spec 65 (code c)); [lia|reflexivity].
Qed.

Lemma map_lower_digits t :
  forallb is_digit t = true -> map lower_char t = t.
Proof.
  induction t as [|c t IH]; [reflexivity|]. cbn [forallb map]. intros H.
  apply andb_true_iff in H. destruct H as [Hc Ht].
  rewrite (lower_digit c Hc), (IH Ht). reflexivity.
Qed.

Lemma forallb_repeat {A} (p : A -> bool) x k :
  p x = true -> forallb p (repeat x k) = true.
Proof. intros H. induction k; cbn [repeat forallb]; [reflexivity|]. rewrite H. exact IHk. Qed.

Lemma id_text_digits n : forallb is_digit (id_text n) = true.
Proof.
  unfold id_text. rewrite forallb_app.
  rewrite forallb_repeat by reflexivity.
  apply DigitFacts.digits_all. lia.
Qed.

Lemma id_text_value n : decimal (id_text n) = Z.of_nat n.
Proof.
  unfold id_text. rewrite TextFacts.decimal_zeros.
  apply DigitFacts.decimal_digits. lia.
Qed.

Lemma generated_id_inj m n : generated_id m = generated_id n -> m = n.
Proof.
  intros H. unfold generated_id in H. cbv zeta in H.
  assert (E : id_text m = id_text n).
  { unfold id_text.
    rewrite <- (list_ascii_of_string_of_list_ascii (_ ++ digits (Z.of_nat m))).
    rewrite H. apply list_ascii_of_string_of_list_ascii. }
  apply (f_equal decimal) in E. rewrite !id_text_value in E. lia.
Qed.

(** Below [10^24] the generated identifiers are well formed. *)
Lemma ObjectId_generated n :
  (Z.of_nat n < 10 ^ 24)%Z -> ObjectId (generated_id n) = Ok (generated_id n).
Proof.
  intros H. unfold ObjectId, generated_id. cbv zeta.
  rewrite list_ascii_of_string_of_list_ascii. fold (id_text n).
  pose proof (ParseFacts.digits_length_le (Z.of_nat n) ltac:(lia) 24%nat H
                ltac:(lia)) as L.
  assert (Len : List.length (id_text n) = 24%nat).
  { unfold id_text. rewrite length_app, repeat_length. lia. }
  rewrite Len. cbn [Nat.eqb andb].
  rewrite (CartFacts.forallb_impl _ _ _ is_hex_digit (id_text_digits n)).
  unfold toLowerCase. rewrite list_ascii_of_string_of_list_ascii.
  rewrite (map_lower_digits _ (id_text_digits n)). reflexivity.
Qed.

(** The order at a place of the list is the one stored under the
    identifier of the place. *)
Lemma order_at_place os o more n :
  order_at (generated_id (n + List.length os)) n (os ++ o :: more) = Some o.
Proof.
  revert n. induction os as [|x os IH]; intros n; cbn [app order_at List.length].
  - rewrite Nat.add_0_r, String.eqb_refl. reflexivity.
  - destruct (String.eqb_spec (generated_id n) (generated_id (n + S (List.length os))))
      as [E|_].
    + apply generated_id_inj in E. lia.
    + replace (n + S (List.length os))%nat with (S n + List.length os)%nat by lia.
      apply IH.
Qed.

Lemma order_at_more oid os more o n :
  order_at oid n os = Some o -> order_at oid n (os ++ more) = Some o.
Proof.
  revert n. induction os as [|x os IH]; intros n; cbn [app order_at];
    [discriminate|].
  destruct (String.eqb (generated_id n) oid); [intros H; exact H|apply IH].
Qed.

Lemma get_order_available id oid d :
  faults d = [] -> ObjectId id = Ok oid ->
  fst (get_api_orders_id id d) =
  match order_at oid O (orders d) with
  | Some o => Document o
  | None => Refused 404 (error_body "Order not found")
  end.
Proof.
  intros Hf Ho. unfold get_api_orders_id, findOrder, next_fault.
  rewrite Ho, Hf. destruct (order_at oid O (orders d)); reflexivity.
Qed.

End LookupFacts.

Module FetchFacts.
Import Server Lookup LookupFacts.

Lemma insertOne_id o d id d' :
  insertOne o d = (Ok id, d') -> id = generated_id (List.length (orders d)).
Proof.
  unfold insertOne. destruct (next_fault d) as [[|] rest]; [discriminate|].
  intros [= <- _]. reflexivity.
Qed.

(** The identifier in the 201 is the one the order is stored under. *)
Lemma checkout_inserted_id now req d :
  status (fst (post_api_checkout now req d)) = 201%Z ->
  exists o,
    fst (post_api_checkout now req d)
    = mkResponse 201 (created (generated_id (List.length (orders d)))
                        (Order.total o)) /\
    orders (snd (post_api_checkout now req d)) = orders d ++ [o].
Proof.
  unfold post_api_checkout, checkout_try.
  destruct (prop req "customer") as [customer|]; cbn [bind]; [|discriminate].
  destruct (prop req "items") as [items|]; cbn [bind]; [|discriminate].
  destruct items as [ | | | | |[|x l]| ]; try discriminate.
  destruct (truthy customer); cbn [negb]; [|discriminate].
  destruct (prop customer "name") as [n|]; cbn [bind]; [|discriminate].
  destruct (prop customer "email") as [e|]; cbn [bind]; [|discriminate].
  destruct (negb (truthy n) || negb (truthy e)); [discriminate|].
  destruct (ServerFacts.verify_keeps (x :: l) Dec.zero [] d) as (_ & O & _).
  destruct (verify (x :: l) Dec.zero [] d) as [[[r|T V]|err] d1] eqn:Ev;
    cbn [snd] in *; [|  |discriminate].
  - apply ServerFacts.verify_rejected in Ev.
    destruct Ev as (pre & item & post & i & _ & _ & _ & _ & ->). discriminate.
  - destruct (call_trim n) as [name|]; cbn [bind]; [|discriminate].
    destruct (call_trim e) as [email|]; cbn [bind]; [|discriminate].
    destruct (prop customer "address") as [a|]; cbn [bind]; [|discriminate].
    match goal with
    | |- context [insertOne ?o d1] =>
        destruct (ServerFacts.insertOne_orders o d1) as [I _];
        pose proof (insertOne_id o d1) as Id;
        destruct (insertOne o d1) as [[id|err] d2]; cbn [fst snd] in *;
        [intros _; exists o|discriminate]
    end.
    rewrite (Id id d2 eq_refl), I, O. split; reflexivity.
Qed.

End FetchFacts.

(** X11.  An order that was placed is fetched by its identifier.  With
    the database answering (and fewer than [10^24] orders, so that the
    generated identifiers have 24 digits), the [orderId] of a 201 given to
    [GET /api/orders/:id] returns the order the handler persisted; and it
    still does after any further checkout, accepted or not: orders are
    only ever added. *)
Theorem placed_order_is_fetched (now : nat) (req : jsval) (d : Server.db) :
  Server.faults d = [] ->
  (Z.of_nat (List.length (Server.orders d)) < 10 ^ 24)%Z ->
  Server.status (fst (Server.post_api_checkout now req d)) = 201%Z ->
  exists insertedId o,
    prop (Server.body (fst (Server.post_api_checkout now req d))) "orderId"
    = Ok (JStr insertedId) /\
    Server.orders (snd (Server.post_api_checkout now req d))
    = Server.orders d ++ [o] /\
    fst (Lookup.get_api_orders_id insertedId
           (snd (Server.post_api_checkout now req d)))
    = Lookup.Document o /\
    forall now' req',
      fst (Lookup.get_api_orders_id insertedId
             (snd (Server.post_api_checkout now' req'
                     (snd (Server.post_api_checkout now req d)))))
      = Lookup.Document o.
Proof.
  intros Hf Hn S.
  destruct (FetchFacts.checkout_inserted_id now req d S) as (o & R & O).
  pose proof (RecordFacts.checkout_available now req d Hf) as Hf1.
  set (d1 := snd (Server.post_api_checkout now req d)) in *.
  set (id := Server.generated_id (List.length (Server.orders d))) in *.
  pose proof (LookupFacts.ObjectId_generated _ Hn) as Wf. fold id in Wf.
  assert (At : Lookup.order_at id 0 (Server.orders d1) = Some o).
  { rewrite O. exact (LookupFacts.order_at_place (Server.orders d) o [] 0). }
  exists id, o. split; [rewrite R; reflexivity|]. split; [exact O|]. split.
  - rewrite (LookupFacts.get_order_available id id d1 Hf1 Wf), At. reflexivity.
  - intros now' req'.
    pose proof (RecordFacts.checkout_available now' req' d1 Hf1) as Hf2.
    rewrite (LookupFacts.get_order_available id id _ Hf2 Wf).
    destruct (ServerFacts.checkout_outcome now' req' d1)
      as [_ [[_ (o2 & O2)]|[_ O2]]]; rewrite O2.
    + rewrite (LookupFacts.order_at_more id _ [o2] o 0 At). reflexivity.
    + rewrite At. reflexivity.
Qed.

Lemma placed_order_is_fetched_witness :
  Server.faults Scenario.shop = [] /\
  (Z.of_nat (List.length (Server.orders Scenario.shop)) < 10 ^ 24)%Z /\
  Server.status (fst (Server.post_api_checkout 7 Scenario.honest Scenario.shop))
  = 201%Z /\
  exists insertedId o,
    prop (Server.body (fst (Server.post_api_checkout 7 Scenario.honest Scenario.shop)))
      "orderId" = Ok (JStr insertedId) /\
    Order.total o = Dec.mk 4998 2 /\
    fst (Lookup.get_api_orders_id insertedId
           (snd (Server.post_api_checkout 7 Scenario.honest Scenario.shop)))
    = Lookup.Document o /\
    fst (Lookup.get_api_orders_id insertedId
           (snd (Server.post_api_checkout 8 Scenario.one_mug
                   (snd (Server.post_api_checkout 7 Scenario.honest Scenario.shop)))))
    = Lookup.Document o.
Proof.
  split; [reflexivity|]. split; [reflexivity|]. split; [reflexivity|].
  destruct (placed_order_is_fetched 7 Scenario.honest Scenario.shop
              eq_refl eq_refl eq_refl) as (id & o & B & O & G & L).
  exists id, o. split; [exact B|]. split; [|split; [exact G|exact (L _ _)]].
  apply (f_equal (fun os => map Order.total os)) in O. vm_compute in O.
  injection O as O. symmetry. exact O.
Defined.

(** ** X12 *)

(** X12.  What [GET /api/products/:id] answers.  It never changes the
    products or the orders.  An identifier that is not 24 hexadecimal
    digits gets the 400 [Invalid product ID] with no call on the database;
    so does a well-formed one when the database fails.  With the database
    answering, a well-formed identifier gets the product stored under
    it, read without regard to the case of its letters, or the 404; and
    the route agrees with the checkout: the item of a request resolves to
    a product exactly when the route returns that product for the
    identifier of the item. *)
Theorem product_lookup_outcomes (id : string) (d : Server.db) :
  (Server.products (snd (Lookup.get_api_products_id id d)) = Server.products d /\
   Server.orders (snd (Lookup.get_api_products_id id d)) = Server.orders d) /\
  (forall e, Server.ObjectId id = Throw e ->
     Lookup.get_api_products_id id d
     = (Lookup.Refused 400 (Server.error_body "Invalid product ID"), d)) /\
  (forall oid rest, Server.ObjectId id = Ok oid ->
     Server.faults d = true :: rest ->
     fst (Lookup.get_api_products_id id d)
     = Lookup.Refused 400 (Server.error_body "Invalid product ID")) /\
  (forall oid, Server.ObjectId id = Ok oid -> Server.faults d = [] ->
     oid = toLowerCase id /\
     match List.find (fun p => String.eqb (Product._id p) oid) (Server.products d) with
     | Some product =>
         fst (Lookup.get_api_products_id id d) = Lookup.Document product /\
         In product (Server.products d) /\ Product._id product = oid
     | None =>
         fst (Lookup.get_api_products_id id d)
         = Lookup.Refused 404 (Server.error_body "Product not found") /\
         forall product, In product (Server.products d) ->
                         Product._id product <> oid
     end) /\
  (forall item i, prop item "_id" = Ok i -> id = ToString i ->
     Server.faults d = [] ->
     forall product,
       resolve (Server.products d) item = Some product <->
       fst (Lookup.get_api_products_id id d) = Lookup.Document product).
Proof.
  split; [|split; [|split; [|split]]].
  - unfold Lookup.get_api_products_id.
    destruct (Server.ObjectId id) as [oid|e]; [|split; reflexivity].
    destruct (ServerFacts.findOne_keeps oid d) as (P & O & _).
    destruct (Server.findOne oid d) as [[[product|]|e] d']; cbn [snd] in *;
      split; assumption.
  - intros e E. unfold Lookup.get_api_products_id. rewrite E. reflexivity.
  - intros oid rest E Hf. unfold Lookup.get_api_products_id, Server.findOne,
      Server.next_fault. rewrite E, Hf. reflexivity.
  - intros oid E Hf. split.
    + unfold Server.ObjectId in E.
      destruct (_ && _); [injection E as <-; reflexivity|discriminate].
    + unfold Lookup.get_api_products_id.
      rewrite E, (ServerFacts.findOne_available oid d Hf).
      destruct (List.find _ (Server.products d)) as [product|] eqn:F; cbn [fst].
      * split; [reflexivity|]. apply find_some in F. destruct F as [Hin Hid].
        split; [exact Hin|]. apply String.eqb_eq. exact Hid.
      * split; [reflexivity|]. intros product Hin Hid.
        pose proof (find_none _ _ F product Hin) as N. cbn beta in N.
        rewrite Hid, String.eqb_refl in N. discriminate.
  - intros item i Ei -> Hf product. unfold resolve, Lookup.get_api_products_id.
    rewrite Ei. destruct (Server.ObjectId (ToString i)) as [oid|e].
    + rewrite (ServerFacts.findOne_available oid d Hf).
      destruct (List.find _ (Server.products d)) as [p'|]; cbn [fst].
      * split; intros [= ->]; reflexivity.
      * split; discriminate.
    + cbn [fst]. split; discriminate.
Qed.

Lemma product_lookup_outcomes_witness :
  fst (Lookup.get_api_products_id "64B7F0C2A1D3E4F5A6B7C8DA" Scenario.shop)
  = Lookup.Document (Product.mk Scenario.mug_id "Mug" (Dec.mk 1999 2) "mug.png") /\
  fst (Lookup.get_api_products_id Scenario.gone_id Scenario.shop)
  = Lookup.Refused 404 (Server.error_body "Product not found") /\
  Lookup.get_api_products_id "abc" Scenario.shop
  = (Lookup.Refused 400 (Server.error_body "Invalid product ID"), Scenario.shop) /\
  fst (Lookup.get_api_products_id Scenario.mug_id Scenario.shop_down)
  = Lookup.Refused 400 (Server.error_body "Invalid product ID").
Proof.
  destruct (product_lookup_outcomes "64B7F0C2A1D3E4F5A6B7C8DA" Scenario.shop)
    as (_ & _ & _ & F & _).
  destruct (product_lookup_outcomes Scenario.gone_id Scenario.shop)
    as (_ & _ & _ & G & _).
  destruct (product_lookup_outcomes "abc" Scenario.shop) as (_ & M & _).
  destruct (product_lookup_outcomes Scenario.mug_id Scenario.shop_down)
    as (_ & _ & D & _).
  split; [exact (proj1 (proj2 (F _ eq_refl eq_refl)))|].
  split; [exact (proj1 (proj2 (G _ eq_refl eq_refl)))|].
  split; [exact (M _ eq_refl)|exact (D _ _ eq_refl eq_refl)].
Defined.

(** ** X13 *)

(** X13.  Who may seed.  With no [SEED_SECRET] in the environment, or
    an empty one, every request gets the 503 and the database is not
    touched.  With a secret set, the seeding runs exactly when the header
    [x-seed-secret] is that secret, or the header is missing or empty and
    the query parameter [secret] is that secret; every other request gets
    the 401 and the database is not touched. *)
Theorem seeding_needs_the_secret (seeding : Server.db -> Server.response * Server.db)
  (header secret : jsval) (d : Server.db) :
  (forall SEED_SECRET,
     SEED_SECRET = None \/ SEED_SECRET = Some ""%string ->
     snd (Seed.post_api_seed seeding SEED_SECRET header secret d) = d /\
     Server.status (fst (Seed.post_api_seed seeding SEED_SECRET header secret d))
     = 503%Z) /\
  (forall expected, expected <> ""%string ->
     (header = JStr expected \/
      (truthy header = false /\ secret = JStr expected) ->
      Seed.post_api_seed seeding (Some expected) header secret d = seeding d) /\
     (~ (header = JStr expected \/
         (truthy header = false /\ secret = JStr expected)) ->
      Seed.post_api_seed seeding (Some expected) header secret d
      = (Server.mkResponse 401
           (Server.error_body "Invalid or missing seed secret."), d))).
Proof.
  split.
  - intros S [->| ->]; split; reflexivity.
  - intros expected Hne.
    assert (T : truthy (JStr expected) = true).
    { cbn. apply String.eqb_neq in Hne. rewrite Hne. reflexivity. }
    assert (U : Seed.post_api_seed seeding (Some expected) header secret d
                = if negb (Seed.same_string
                             (js_or (js_or header secret) (JStr "")) expected)
                  then (Server.mkResponse 401
                          (Server.error_body "Invalid or missing seed secret."), d)
                  else seeding d).
    { unfold Seed.post_api_seed. destruct expected; [contradiction|reflexivity]. }
    rewrite U. clear U.
    assert (Yes : forall a b, truthy a = true -> js_or a b = a)
      by (intros a b H; unfold js_or; rewrite H; reflexivity).
    assert (No : forall a b, truthy a = false -> js_or a b = b)
      by (intros a b H; unfold js_or; rewrite H; reflexivity).
    split.
    + intros [->|[Hh ->]].
      * rewrite (Yes _ secret T), (Yes _ _ T). cbn [Seed.same_string].
        rewrite String.eqb_refl. reflexivity.
      * rewrite (No _ _ Hh), (Yes _ _ T). cbn [Seed.same_string].
        rewrite String.eqb_refl. reflexivity.
    + intros N.
      destruct (Seed.same_string (js_or (js_or header secret) (JStr "")) expected)
        eqn:E; [|reflexivity].
      exfalso. apply N.
      destruct (truthy header) eqn:Hh.
      * rewrite (Yes _ secret Hh), (Yes _ _ Hh) in E. left.
        destruct header; try discriminate. cbn [Seed.same_string] in E.
        apply String.eqb_eq in E. rewrite E. reflexivity.
      * right. split; [reflexivity|]. rewrite (No _ secret Hh) in E.
        destruct (truthy secret) eqn:Hs.
        -- rewrite (Yes _ _ Hs) in E. destruct secret; try discriminate.
           cbn [Seed.same_string] in E. apply String.eqb_eq in E.
           rewrite E. reflexivity.
        -- rewrite (No _ _ Hs) in E. cbn [Seed.same_string] in E.
           apply String.eqb_eq in E. subst expected. contradiction.
Qed.

Lemma seeding_needs_the_secret_witness :
  Seed.post_api_seed (fun d => (Server.mkResponse 200 JNull, d))
    (Some "s3cret"%string) (JStr "") (JStr "s3cret") Scenario.shop
  = (Server.mkResponse 200 JNull, Scenario.shop) /\
  Seed.post_api_seed (fun d => (Server.mkResponse 200 JNull, d))
    (Some "s3cret"%string) (JStr "guess") (JStr "s3cret") Scenario.shop
  = (Server.mkResponse 401
       (Server.error_body "Invalid or missing seed secret."), Scenario.shop).
Proof.
  destruct (seeding_needs_the_secret (fun d => (Server.mkResponse 200 JNull, d))
              (JStr "") (JStr "s3cret") Scenario.shop) as [_ A].
  destruct (seeding_needs_the_secret (fun d => (Server.mkResponse 200 JNull, d))
              (JStr "guess") (JStr "s3cret") Scenario.shop) as [_ B].
  split.
  - apply (proj1 (A "s3cret"%string ltac:(discriminate))).
    right. split; reflexivity.
  - apply (proj2 (B "s3cret"%string ltac:(discriminate))).
    intros [H|[H _]]; discriminate.
Defined.

(** ** X14 *)

Module StarFacts.
Import Stars.
Local Open Scope Z_scope.

Lemma sub_of_Z a b :
  num_sub (num_of_Z a) (Fin (Dec.of_Z b)) = num_of_Z (a - b).
Proof.
  unfold num_sub, num_neg, num_of_Z, num_add.
  change (Dec.opp (Dec.of_Z b)) with (Dec.of_Z (- b)).
  rewrite DecFacts.of_Z_add. reflexivity.
Qed.

Lemma repeat_text_of_Z s n :
  repeat_text s (Fin (Dec.of_Z n)) =
  if n <? 0 then None else Some (List.concat (repeat s (Z.to_nat n))).
Proof.
  unfold repeat_text, Dec.trunc, Dec.of_Z. cbn [Dec.coef Dec.scale].
  change (Dec.pow10 0) with 1. rewrite Z.quot_1_r. reflexivity.
Qed.

(** The half of a decimal [c / p]: its fractional part is 1/2 or
    more. *)
Lemma half_test c s :
  Dec.leb (Dec.mk 5 1)
    (Dec.add (Dec.mk c s) (Dec.opp (Dec.of_Z (Z.quot c (Dec.pow10 s)))))
  = (Dec.pow10 s <=? 2 * (c - Z.quot c (Dec.pow10 s) * Dec.pow10 s)).
Proof.
  pose proof (DecFacts.pow10_pos s) as P.
  set (p := Dec.pow10 s) in *. set (t := Z.quot c p).
  unfold Dec.add, Dec.opp, Dec.of_Z. cbn [Dec.coef Dec.scale].
  rewrite Nat.max_0_r, Nat.sub_diag, Nat.sub_0_r.
  change (Dec.pow10 0) with 1. fold p.
  replace (c * 1 + - t * p) with (c - t * p) by ring.
  set (r := c - t * p).
  pose proof (DecFacts.strip_value r s) as V. fold p in V.
  pose proof (DecFacts.pow10_pos (Dec.scale (Dec.strip r s))) as Q.
  set (fr := Dec.strip r s) in *. unfold Dec.leb. cbn [Dec.coef Dec.scale].
  change (Dec.pow10 1) with 10.
  set (q := Dec.pow10 (Dec.scale fr)) in *. set (k := Dec.coef fr) in *.
  destruct (Z.leb_spec (5 * q) (k * 10)), (Z.leb_spec p (2 * r));
    try reflexivity; exfalso; nia.
Qed.

(** What [renderStars] computes on a finite number. *)
Lemma renderStars_finite c s :
  let p := Dec.pow10 s in
  let f := c / p in
  let h := p <=? 2 * (c - Z.quot c p * p) in
  let e := 5 - f - (if h then 1 else 0) in
  renderStars (JNum (Fin (Dec.mk c s))) =
  if f <? 0 then None
  else if e <? 0 then None
       else Some (stars (Z.to_nat f) h (Z.to_nat e)).
Proof.
  cbv zeta. unfold renderStars. cbn [ToNumber ToPrimitive Math_floor rem_1].
  unfold Dec.floor, Dec.trunc. cbn [Dec.coef Dec.scale].
  cbn [num_le]. rewrite half_test.
  set (p := Dec.pow10 s). set (f := c / p).
  set (h := p <=? 2 * (c - Z.quot c p * p)).
  rewrite sub_of_Z.
  assert (E : num_sub (num_of_Z (5 - f)) (if h then num_of_Z 1 else num_of_Z 0)
              = num_of_Z (5 - f - (if h then 1 else 0))).
  { destruct h; apply sub_of_Z. }
  rewrite E. unfold num_of_Z. rewrite !repeat_text_of_Z.
  destruct (f <? 0); [reflexivity|].
  destruct (5 - f - (if h then 1 else 0) <? 0); [reflexivity|].
  unfold stars. destruct h; reflexivity.
Qed.

End StarFacts.

Module StarRange.
Import Stars.
Local Open Scope Z_scope.

(** [f + 1/2 <= c / p] in integers. *)
Lemma half_in_Q c s f :
  (inject_Z f + (1 # 2) <= Dec.toQ (Dec.mk c s))%Q <->
  2 * f * Dec.pow10 s + Dec.pow10 s <= 2 * c.
Proof.
  pose proof (DecFacts.pow10_pos s) as P. unfold Dec.toQ. cbn [Dec.coef Dec.scale].
  set (p := Dec.pow10 s) in *.
  assert (Pq : (0 < inject_Z p)%Q) by (unfold Qlt; simpl; lia).
  split.
  - intros H. apply (Qmult_le_compat_r _ _ (inject_Z p)) in H;
      [|apply Qlt_le_weak, Pq].
    assert (E : (inject_Z c / inject_Z p * inject_Z p == inject_Z c)%Q).
    { field. intros Z0. rewrite Z0 in Pq. discriminate. }
    rewrite E in H. clearbody p.
    unfold Qle, Qplus, Qmult, inject_Z in H. simpl in H. nia.
  - intros H. apply Qle_shift_div_l; [exact Pq|]. clearbody p.
    unfold Qle, Qplus, Qmult, inject_Z. simpl. nia.
Qed.

End StarRange.

(** X14.  The stars of a rating.  For a rating from 0 to below 5.5,
    [renderStars] returns five symbols: as many black stars as the rating
    has whole units, a half when its fractional part is 1/2 or more, and
    white stars for the rest.  For a negative rating, or one of 5.5 or
    more, it throws (the count of a [repeat] is negative).  A missing
    rating gives the empty text. *)
Theorem stars_of_a_rating (d : Dec.dec) :
  (Dec.leb Dec.zero d = true -> Dec.ltb d (Dec.mk 55 1) = true ->
   exists full half empty,
     Stars.renderStars (JNum (Fin d)) = Some (Stars.stars full half empty) /\
     (full + (if half then 1 else 0) + empty = 5)%nat /\
     Z.of_nat full = Dec.floor d /\
     (half = true <-> (inject_Z (Dec.floor d) + (1 # 2) <= Dec.toQ d)%Q)) /\
  (Dec.ltb d Dec.zero = true \/ Dec.leb (Dec.mk 55 1) d = true ->
   Stars.renderStars (JNum (Fin d)) = None) /\
  Stars.renderStars JUndefined = Some ""%string.
Proof.
  destruct d as [c s].
  pose proof (StarFacts.renderStars_finite c s) as R. cbv zeta in R.
  pose proof (DecFacts.pow10_pos s) as P.
  unfold Dec.leb, Dec.ltb, Dec.zero, Dec.of_Z, Dec.floor.
  cbn [Dec.coef Dec.scale]. change (Dec.pow10 0) with 1%Z.
  change (Dec.pow10 1) with 10%Z.
  set (p := Dec.pow10 s) in *.
  pose proof (Z.mul_div_le c p P) as L.
  pose proof (Z.mul_succ_div_gt c p P) as U.
  set (f := (c / p)%Z) in *.
  split; [|split; [|reflexivity]].
  - intros H0 H5. apply Z.leb_le in H0. apply Z.ltb_lt in H5.
    assert (C0 : (0 <= c)%Z) by lia.
    assert (F0 : (0 <= f)%Z) by (apply Z.div_pos; lia).
    assert (Qt : Z.quot c p = f) by (apply Z.quot_div_nonneg; lia).
    rewrite Qt in R.
    set (h := (p <=? 2 * (c - f * p))%Z) in *.
    assert (E0 : (0 <= 5 - f - (if h then 1 else 0))%Z).
    { unfold h. destruct (Z.leb_spec p (2 * (c - f * p))); nia. }
    destruct (Z.ltb_spec f 0) as [|_]; [lia|].
    destruct (Z.ltb_spec (5 - f - (if h then 1 else 0)) 0) as [|_]; [lia|].
    exists (Z.to_nat f), h, (Z.to_nat (5 - f - (if h then 1 else 0))).
    split; [exact R|]. split; [destruct h; lia|]. split; [lia|].
    rewrite (StarRange.half_in_Q c s f). fold p. unfold h.
    rewrite Z.leb_le. lia.
  - intros [H|H].
    + apply Z.ltb_lt in H.
      assert (F : (f < 0)%Z) by (apply Z.div_lt_upper_bound; lia).
      destruct (Z.ltb_spec f 0) as [_|]; [exact R|lia].
    + apply Z.leb_le in H.
      assert (C0 : (0 <= c)%Z) by lia.
      assert (F0 : (0 <= f)%Z) by (apply Z.div_pos; lia).
      assert (Qt : Z.quot c p = f) by (apply Z.quot_div_nonneg; lia).
      rewrite Qt in R.
      set (h := (p <=? 2 * (c - f * p))%Z) in *.
      assert (E0 : (5 - f - (if h then 1 else 0) < 0)%Z).
      { unfold h. destruct (Z.leb_spec p (2 * (c - f * p))); nia. }
      destruct (Z.ltb_spec f 0) as [|_]; [lia|].
      destruct (Z.ltb_spec (5 - f - (if h then 1 else 0)) 0) as [_|]; [exact R|lia].
Qed.

Lemma stars_of_a_rating_witness :
  Dec.leb Dec.zero (Dec.mk 47 1) = true /\
  Dec.ltb (Dec.mk 47 1) (Dec.mk 55 1) = true /\
  (exists full half empty,
     Stars.renderStars (JNum (Fin (Dec.mk 47 1)))
     = Some (Stars.stars full half empty) /\
     (full + (if half then 1 else 0) + empty = 5)%nat /\
     Z.of_nat full = 4%Z) /\
  Stars.renderStars (JNum (Fin (Dec.mk 47 1))) = Some (Stars.stars 4 true 0) /\
  Stars.renderStars (JNum (Fin (Dec.mk 6 0))) = None.
Proof.
  destruct (stars_of_a_rating (Dec.mk 47 1)) as (A & _ & _).
  destruct (stars_of_a_rating (Dec.mk 6 0)) as (_ & B & _).
  split; [reflexivity|]. split; [reflexivity|]. split.
  - destruct (A eq_refl eq_refl) as (full & half & empty & R & S & F & _).
    exists full, half, empty. split; [exact R|]. split; [exact S|exact F].
  - split; [reflexivity|]. apply B. right. reflexivity.
Defined.

(** ** X15 *)

Module MoneyFacts.
Import Money.
Local Open Scope Z_scope.






End MoneyFacts.

Module FixedFacts.
Import Money MoneyFacts.
Local Open Scope Z_scope.






End FixedFacts.



(** ** X16 *)

Module TrimFacts.

Lemma trim_start_split t :
  exists p, t = p ++ trim_start t /\ forallb is_space p = true.
Proof.
  induction t as [|c t IH]; [exists []; split; reflexivity|].
  cbn [trim_start]. destruct (is_space c) eqn:E.
  - destruct IH as (p & Ht & Hp). exists (c :: p). split.
    + cbn. rewrite <- Ht. reflexivity.
    + cbn. rewrite E. exact Hp.
  - exists []. split; reflexivity.
Qed.

Lemma trim_start_first t :
  trim_start t = [] \/ exists c r, trim_start t = c :: r /\ is_space c = false.
Proof.
  induction t as [|c t IH]; [left; reflexivity|].
  cbn [trim_start]. destruct (is_space c) eqn:E; [exact IH|].
  right. exists c, t. split; [reflexivity|exact E].
Qed.

Lemma trim_start_fixed c r : is_space c = false -> trim_start (c :: r) = c :: r.
Proof. intros E. cbn [trim_start]. rewrite E. reflexivity. Qed.

Lemma trim_start_again t : trim_start (trim_start t) = trim_start t.
Proof.
  destruct (trim_start_first t) as [E|(c & r & E & Hc)]; rewrite E.
  - reflexivity.
  - apply trim_start_fixed, Hc.
Qed.

Lemma trim_text_again t : trim_text (trim_text t) = trim_text t.
Proof.
  unfold trim_text at 2. unfold trim_end.
  set (u := trim_start t).
  destruct (trim_start_split (rev u)) as (p & Hu & _).
  set (v := trim_start (rev u)) in *.
  assert (U : u = rev v ++ rev p).
  { rewrite <- rev_app_distr, <- Hu, rev_involutive. reflexivity. }
  assert (S : trim_start (rev v) = rev v).
  { destruct (rev v) as [|c w] eqn:E; [reflexivity|].
    apply trim_start_fixed.
    destruct (trim_start_first t) as [Z|(c' & r & Z & Hc)];
      fold u in Z; rewrite U in Z; cbn in Z; [discriminate|].
    injection Z as -> _. exact Hc. }
  unfold trim_text. rewrite S. unfold trim_end.
  rewrite rev_involutive. unfold v. rewrite trim_start_again. reflexivity.
Qed.

Lemma trim_again s : trim (trim s) = trim s.
Proof.
  unfold trim. rewrite list_ascii_of_string_of_list_ascii, trim_text_again.
  reflexivity.
Qed.

End TrimFacts.

Module BrowseFacts.
Import Browse.

Ltac read_value H :=
  cbn in H; first [discriminate H | injection H as <-].

Lemma params_shaped st : search_is_global st -> shaped (params st).
Proof.
  intros [G T]. unfold params, shaped.
  destruct (activeSearch st) as [|a s] eqn:Es.
  - destruct (truthy (activeCategory st) && not_all (activeCategory st));
      destruct (activeSort st) as [|b o]; cbn [truthy String.eqb negb set];
      (split; [cbn; tauto|]); (split; intros v H; read_value H); discriminate.
  - rewrite (G ltac:(discriminate)).
    destruct (activeSort st) as [|b o]; cbn [truthy String.eqb negb set];
      (split; [cbn; tauto|]); (split; intros v H; read_value H);
      first [discriminate | split; [discriminate|exact T]].
Qed.

Lemma fetch_keeps st :
  search_is_global st -> Forall shaped (requests st) ->
  search_is_global (fetchProducts st) /\ Forall shaped (requests (fetchProducts st)).
Proof.
  intros G F. split; [exact G|].
  cbn. apply Forall_app. split; [exact F|].
  constructor; [apply params_shaped, G|constructor].
Qed.

Lemma step_keeps e st :
  search_is_global st -> Forall shaped (requests st) ->
  search_is_global (step e st) /\ Forall shaped (requests (step e st)).
Proof.
  intros G F. destruct e; cbn [step].
  - split; [exact G|exact F].
  - split; [exact G|exact F].
  - split; [exact G|exact F].
  - apply fetch_keeps; assumption.
  - apply fetch_keeps; [|exact F]. split; [intros H; now elim H|reflexivity].
  - apply fetch_keeps; [|exact F]. split; [reflexivity|apply TrimFacts.trim_again].
  - apply fetch_keeps; [|exact F]. split; [reflexivity|apply TrimFacts.trim_again].
  - apply fetch_keeps; [|exact F]. exact G.
Qed.

Lemma run_keeps es : forall st,
  search_is_global st -> Forall shaped (requests st) ->
  search_is_global (run es st) /\ Forall shaped (requests (run es st)).
Proof.
  induction es as [|e es IH]; intros st G F; [split; assumption|].
  cbn [run]. destruct (step_keeps e st G F) as [G' F']. apply IH; assumption.
Qed.

Lemma opened_global cat search mobile sort :
  search_is_global (opened cat search mobile sort) /\
  requests (opened cat search mobile sort) = [].
Proof.
  unfold opened, applyURLParams.
  destruct cat as [c|]; [destruct (truthy (JStr c))|];
    (split; [split; [intros H; now elim H|reflexivity]|reflexivity]).
Qed.

End BrowseFacts.

(** X16.  The product requests of the page.  Whatever address the page is
    opened with, whatever its form controls hold and whatever the visitor
    does after that (edits, category tabs, searches, changes of the sort),
    every request [fetchProducts] sends carries parameters among category,
    search and sort, in this order and each at most once; a search is never
    sent together with a category; a search that is sent is trimmed and not
    empty, and a sort that is sent is not empty.  Choosing a category sends
    the category alone, dropping search and sort (and sends nothing for
    ['all'] or a falsy category); a search goes out with the sort in force
    and without a category. *)
Theorem search_never_sent_with_category cat search mobile sort es :
  Forall Browse.shaped
    (Browse.requests (Browse.run es (Browse.opened cat search mobile sort))) /\
  (forall c st,
     Browse.requests (Browse.filterByCategory c st)
     = Browse.requests st
       ++ [if truthy c && Browse.not_all c
           then [("category", ToString c)]%string else []]) /\
  (forall st,
     Browse.requests (Browse.handleSearch st)
     = Browse.requests st
       ++ [(if String.eqb (trim (Browse.searchInput st)) ""
            then [] else [("search", trim (Browse.searchInput st))]%string)
           ++ (if String.eqb (Browse.activeSort st) ""
               then [] else [("sort", Browse.activeSort st)]%string)]).
Proof.
  split; [|split].
  - destruct (BrowseFacts.opened_global cat search mobile sort) as [G R].
    apply BrowseFacts.run_keeps; [exact G|].
    rewrite R. constructor.
  - intros c st. unfold Browse.filterByCategory, Browse.fetchProducts, Browse.params.
    cbn. destruct (truthy c && Browse.not_all c); reflexivity.
  - intros st. unfold Browse.handleSearch, Browse.fetchProducts, Browse.params.
    cbn. destruct (String.eqb (trim (Browse.searchInput st)) "");
      destruct (String.eqb (Browse.activeSort st) ""); reflexivity.
Qed.
